(* ===== verification/_CoqProject ===== *)
-Q . S2P
Prelude.v
Links.v
Vsprintf.v
Mktime.v
Console.v
Screen.v
Typing.v
Sched.v
Mm.v
Tables.v
Copy.v
Malloc.v
Heap.v
Alloc.v
Kernel.v
Fork.v
Strings.v
Who.v
Blk.v
Hd.v
Disk.v
Floppy.v
Diskette.v
Buffer.v
Bitmap.v
Inode.v
Fault.v
Cache.v
Getblk.v
Rw.v
Namei.v
Dir.v
Super.v
Keep.v
Boot.v
Setup.v
Open.v
Exec.v
Args.v
Script.v
Exit.v
Sys.v
KeepSys.v
Syscall.v
Traps.v
Entry.v
