(* ===== verification/Prelude.v ===== *)
(** A verification of the Linux 0.11 kernel.

    The C code of the kernel under [mm/], [kernel/], [kernel/blk_drv/], [kernel/chr_drv/],
    [fs/] and [lib/], main() of [init/main.c] and the entries of [kernel/system_call.s] and
    [kernel/asm.s] are translated function by function into executable definitions over
    explicit states, and theorems are proved about those definitions.

    * How the code is modelled

    A routine is a function of type [M S A]: from a state [S] and a [world] to an
    [outcome], which is a value with a new state, a [panic], the end of the task
    ([Exited]), a task that is never woken ([Asleep]), or [OutOfFuel].  The world of
    a run holds its [script]: at each point where the source gives up the processor
    ([sleep_on], [schedule]) the next function of the script is applied to the state,
    and stands for everything that other tasks and interrupt handlers have done until
    this task runs again.  Theorems that quantify over the script therefore cover all
    interleavings at the places where the kernel can be switched; a hypothesis
    [ok_script I] says that the others keep the invariant [I].  [log] records what is
    told to the outside: messages, wake-ups, driver starts.  Code between two sleeping
    points is taken to be atomic, which is what [cli]/[sti] around it ensure.

    A machine integer is a [Z] at its width; [u8], [u16], [u32] and [s32] are the
    conversions on stores.  Pointers into tables are indices of type [nat], [option]
    when they may be null.  Null [struct buffer_head] pointers that the code writes
    through go to [null_bh].  A buffer's block is a list of bytes; physical memory is a
    function from word addresses ([mm]), user memory the function [umem].

    Most routines work on the whole state [K] of [Kernel].  Components that the rest of the
    kernel does not look into have a state of their own: the screen ([console]), the
    allocator's buckets ([kmem]), and the two disk drivers, whose states hold a [K] and a
    controller, a parameter of the class [Controller] that answers port reads in any way.

    * The parts, in the order of the files

    - [Prelude]: integers, bits, record update, the monad, loops, [wp]/[wlp], and
      [preserves] with its tactic.  [Links]: rings and doubly linked chains.
    - [Vsprintf] ([kernel/vsprintf.c]); [Mktime] ([kernel/mktime.c], time_init of
      [init/main.c]).
    - [Console] ([kernel/chr_drv/console.c]); [Screen]: every store stays in video memory;
      [Typing]: what the screen shows, against a typewriter.
    - [Sched] ([kernel/sched.c]): tasks, [schedule] and its search, alarms, wait
      queues, timers, the floppy motor timer.
    - [Mm] ([mm/memory.c]): page allocation, page tables, copy on write, sharing of
      code pages; [Tables]: page tables against the abstract address translation
      [translate]; [Copy]: copying and releasing whole spaces.
    - [Malloc] ([lib/malloc.c]); [Heap]: what the buckets represent ([rep])
      and the objects in use ([live]);
      [Alloc]: its theorems.
    - [Kernel]: the whole state [K] (buffers, inodes, files, super blocks, requests,
      [Sched]'s and [Mm]'s states) and access to user memory.
    - [Fork] ([kernel/fork.c], descriptor macros of [include/linux/sched.h]);
      [Strings] ([lib/string.c], [lib/ctype.c]); [Who] ([kernel/who.c]).
    - [Blk] ([kernel/blk_drv/ll_rw_blk.c], [blk.h], [ramdisk.c]): the request queue
      with its elevator, the RAM disk.
    - [Hd] ([kernel/blk_drv/hd.c]) and its theorem in [Disk]; [Floppy]
      ([kernel/blk_drv/floppy.c]) and its theorems in [Diskette].
    - [Buffer] ([fs/buffer.c]), over the class [SyncInodes] for the one routine of
      [fs/inode.c] it calls; [Bitmap] ([fs/bitmap.c], [fs/truncate.c], lookup of super
      blocks); [Inode] ([fs/inode.c]), which instantiates [SyncInodes] with
      [sync_inodes_n depth], the recursion [getblk] -> [sync_dev] -> [sync_inodes] ->
      [write_inode] -> [bread] -> [getblk] unrolled [depth] times: theorems hold for
      every depth.  [Fault]: do_no_page of [mm/memory.c], which reads the executable.
    - [Cache], [Getblk]: the invariant [cache_ok] of the buffer cache and its proofs.
    - [Rw] ([fs/file_dev.c], [block_dev.c], [char_dev.c], [pipe.c], [read_write.c]),
      over the class [Devices] for the terminal driver, which this repository declares
      and does not contain, and port input.
    - [Namei], [Dir] ([fs/namei.c]), [Super] ([fs/super.c], over the class [Drives] for
      the floppy change line).
    - [Keep]: that the routines so far keep [kernel_ok] of [Getblk], the invariant of the
      cache with the widths of the kernel's numbers; [KeepSys]: the system calls.
    - [Boot]: main() of [init/main.c] and rd_load of [ramdisk.c].  [Setup]: sys_setup of
      [hd.c] over the driver's tables, which it alone writes; [Syscall] takes it as a
      parameter, and [Entry] puts it in.
    - [Open] ([fs/open.c], [fcntl.c], [stat.c], [ioctl.c]); [Exec] ([fs/exec.c]), [Args]
      and [Script]: its strings and its scripts and headers; [Exit] ([kernel/exit.c],
      [kernel/signal.c]); [Sys] ([kernel/sys.c]).
    - [Syscall] ([kernel/system_call.s], the table of [include/linux/sys.h], the macros of
      [include/unistd.h] and the wrappers of [lib/]); [Traps] ([kernel/traps.c],
      [kernel/asm.s], [kernel/panic.c], [mm/page.s], [kernel/math/math_emulate.c]); [Entry]: every way into
      the kernel, and the states [reach]able by them.

    * What the theorems show

    - The kernel as a whole: [start_kernel_ok] establishes [kernel_ok] and
      [reach_keeps_kernel] keeps it through every sequence and interleaving of system
      calls, clock interrupts, faults, stores of programs and completions of drives.
      [signal_delivered], [missing_call_fails], [trap_init_vectors]: the way in and out.
    - Scheduling: [schedule_choice] (the search ends and picks the runnable task with
      the largest slice); [add_timer_due], by which an insertion delays the timers behind it.
    - Memory: [get_free_page_spec]; [put_page_maps], [do_wp_page_copies],
      [copy_page_tables_shares], [free_page_tables_releases], [copy_then_free] and
      [do_no_page_blank] against [translate], under the invariant [wf_mm]; [malloc_spec]
      and [free_s_spec] against the set of objects in use.
    - Buffer cache: [cache_ok] says that the free list is one ring of all buffers, that
      the hash chains hold exactly the buffers with a device, and that no block is
      cached twice.  [scan_free_list_best] and [getblk_miss] give the behaviour when
      nothing sleeps; [getblk_gets_block] holds under any interleaving that keeps the
      invariant.
    - Disk: [add_request_elevator], [rd_read_after_write]; [hd_requests_finish] for any
      hard disk controller; [do_fd_depth], [rw_command_sent], [bad_flp_intr_retries] and
      [place_names_block] for the floppy.
    - Disk layout: [inode_write_read].  Pipes as first-in first-out queues:
      [write_pipe_appends], [read_pipe_takes].
    - Programs: [execve_arguments], [execve_gives_back], [parse_script_line],
      [header_bounds].  Processes: [find_empty_process_spec], [sys_kill_process].
    - Console: [con_init_wf], [con_write_safe], [con_write_types], [scrup_like_copying].
      Text and time: [vsprintf_decimal], [kernel_mktime_calendar].

    Further lemmas of the same kind ([bitmap_set_clear], [search_empty_round],
    [descriptor_roundtrip], [dupfd_lowest], [sys_lseek_spec] and others) stand beside the
    definitions they are about.

    * Loops and fuel

    A loop over a list structure in memory or a [goto repeat] takes fuel, and ends in
    [OutOfFuel] or [None] when that is used up.  [repeat_awake] gives a body two rounds
    more than twice the number of times the task can still be woken; a chain or the
    free list gets as much as there are buffers, the queue [NR_REQUEST], the timer list
    [TIME_REQUESTS].  That this is enough is proved where a theorem states a total
    result: the scheduler's search, timers, the hash chain, the free-list scan, the
    search for a process number, the request queue, pipes, the allocator's chains, the
    start of the kernel.  The hard disk's loop over its requests takes
    [HD_FUEL], eight rounds for a request, which [hd_requests_finish] shows enough; the
    floppy's takes [FD_FUEL], a round for a request, and its routines that call each other
    in a circle a depth of 2, which [do_fd_depth] shows enough.  Waiting for a controller counts down from the source's own limits.
    Paths and directories are followed to fixed bounds ([PATH_FUEL], [MAX_BLOCKS]) without
    such a theorem.

    * What is not modelled

    - The boot sectors and [head.s] are assembly without C; init() is a program of the
      user, which reaches the kernel by the system calls modelled here.
    - The terminal layer, keyboard and serial line: the repository has only stubs of them
      ([tty_read] and [tty_write] are declared); they are the class [Devices].
    - The floating-point unit: its state, the switch of it, and math_state_restore, which no
      file defines and which is a parameter.
    - Port programming that changes nothing the kernel reads back: interrupt masks, the
      clock chip, the gates set from [sched_init] and the drivers.
    - The drivers [Hd] and [Floppy] work on a [K] of their own run: for the routines over
      [K], a request is started ([EvStartIo]) and its completion belongs to the script. *)
From Stdlib Require Export ZArith Lia.
From stdpp Require Export base tactics decidable option list list_numbers
  numbers strings sets.
#[global] Open Scope Z_scope.
#[global] Open Scope list_scope.

(** * C integers

    A machine integer is the [Z] it denotes; the conversions below are what the
    compiler does when a result is stored in a narrower or a signed type. *)

Definition u8 (x : Z) : Z := x mod 256.
Definition u16 (x : Z) : Z := x mod 65536.
Definition u32 (x : Z) : Z := x mod 4294967296.
Definition s32 (x : Z) : Z := (x + 2147483648) mod 4294967296 - 2147483648.

(** C's truth value of an integer, and of a comparison. *)
Definition truth (x : Z) : bool := negb (x =? 0).
Definition b2z (b : bool) : Z := if b then 1 else 0.

Declare Scope c_scope.
Delimit Scope c_scope with c.
Notation "x .& y" := (Z.land x y) (at level 40, left associativity) : c_scope.
Notation "x .| y" := (Z.lor x y) (at level 50, left associativity) : c_scope.
Notation "x .^ y" := (Z.lxor x y) (at level 45, left associativity) : c_scope.
Notation "x .<< y" := (Z.shiftl x y) (at level 38, left associativity) : c_scope.
Notation "x .>> y" := (Z.shiftr x y) (at level 38, left associativity) : c_scope.
Notation "x .% y" := (Z.rem x y) (at level 40, left associativity) : c_scope.
#[global] Open Scope c_scope.

(** [lia] with the Euclidean equations of [/] and [mod] by constants. *)
Ltac zlia := Z.to_euclidean_division_equations; lia.

Lemma u8_range x : 0 <= u8 x < 256.
Proof. unfold u8. zlia. Qed.
Lemma u16_range x : 0 <= u16 x < 65536.
Proof. unfold u16. zlia. Qed.
Lemma u32_range x : 0 <= u32 x < 4294967296.
Proof. unfold u32. zlia. Qed.
Lemma s32_range x : -2147483648 <= s32 x < 2147483648.
Proof. unfold s32. zlia. Qed.
Lemma u8_small x : 0 <= x < 256 -> u8 x = x.
Proof. unfold u8. zlia. Qed.
Lemma u16_small x : 0 <= x < 65536 -> u16 x = x.
Proof. unfold u16. zlia. Qed.
Lemma u32_small x : 0 <= x < 4294967296 -> u32 x = x.
Proof. unfold u32. zlia. Qed.
Lemma s32_small x : -2147483648 <= x < 2147483648 -> s32 x = x.
Proof. unfold s32. zlia. Qed.

(** * Bits

    Masks with the constants the kernel uses, as arithmetic. *)

Lemma land_ones_mod x n : 0 <= n -> x .& (2 ^ n - 1) = x mod 2 ^ n.
Proof.
  intros Hn. rewrite <- Z.land_ones by lia.
  f_equal. rewrite Z.ones_equiv. lia.
Qed.

Lemma land_1 x : x .& 1 = x mod 2.
Proof. apply (land_ones_mod x 1). lia. Qed.
Lemma land_7 x : x .& 7 = x mod 8.
Proof. apply (land_ones_mod x 3). lia. Qed.
Lemma land_fff x : x .& 0xfff = x mod 4096.
Proof. apply (land_ones_mod x 12). lia. Qed.
Lemma land_1fff x : x .& 0x1fff = x mod 8192.
Proof. apply (land_ones_mod x 13). lia. Qed.
Lemma land_ff x : x .& 0xff = x mod 256.
Proof. apply (land_ones_mod x 8). lia. Qed.
Lemma land_3ff x : x .& 0x3ff = x mod 1024.
Proof. apply (land_ones_mod x 10). lia. Qed.

Lemma testbit_ge_false x n m :
  0 <= x < 2 ^ n -> n <= m -> Z.testbit x m = false.
Proof.
  intros Hx Hm.
  destruct (decide (n < 0)).
  { rewrite Z.pow_neg_r in Hx by lia. lia. }
  rewrite <- (Z.mod_small x (2 ^ n)) by lia.
  apply Z.mod_pow2_bits_high. lia.
Qed.

(** Clearing the low [n] bits of a word of [m] bits. *)
Lemma land_high_mask x n m :
  0 <= n <= m -> 0 <= x < 2 ^ m ->
  (2 ^ m - 2 ^ n) .& x = x - x mod 2 ^ n.
Proof.
  intros Hn Hx.
  assert (Hmask : 2 ^ m - 2 ^ n = Z.shiftl (Z.ones (m - n)) n).
  { rewrite Z.shiftl_mul_pow2, Z.ones_equiv by lia.
    replace (2 ^ m) with (2 ^ (m - n) * 2 ^ n)
      by (rewrite <- Z.pow_add_r by lia; f_equal; lia). lia. }
  assert (Hhi : x - x mod 2 ^ n = Z.shiftl (Z.shiftr x n) n).
  { rewrite Z.shiftl_mul_pow2, Z.shiftr_div_pow2 by lia.
    pose proof (Z.div_mod x (2 ^ n)). lia. }
  rewrite Hmask, Hhi. apply Z.bits_inj'. intros i Hi.
  rewrite Z.land_spec, !Z.shiftl_spec by lia.
  destruct (decide (i < n)).
  { rewrite Z.testbit_neg_r, (Z.testbit_neg_r (Z.shiftr x n)) by lia. done. }
  rewrite Z.shiftr_spec by lia. replace (i - n + n) with i by lia.
  destruct (decide (i < m)).
  { rewrite Z.ones_spec_low by lia. done. }
  rewrite (testbit_ge_false x m i) by lia. apply andb_false_r.
Qed.

Lemma land_fffff000 x :
  0 <= x < 4294967296 -> 0xfffff000 .& x = x - x mod 4096.
Proof. intros. apply (land_high_mask x 12 32); lia. Qed.

Lemma shiftr_div x n : 0 <= n -> x .>> n = x / 2 ^ n.
Proof. apply Z.shiftr_div_pow2. Qed.
Lemma shiftl_mul x n : 0 <= n -> x .<< n = x * 2 ^ n.
Proof. apply Z.shiftl_mul_pow2. Qed.

(** Or-ing flags into the clear low bits of a word is addition. *)
Lemma land_low_disjoint x y n :
  0 <= n -> x mod 2 ^ n = 0 -> 0 <= y < 2 ^ n -> x .& y = 0.
Proof.
  intros Hn Hx Hy. apply Z.bits_inj'. intros i Hi.
  rewrite Z.land_spec, Z.bits_0.
  destruct (decide (i < n)).
  - rewrite <- (Z.mod_pow2_bits_low x n i) by lia.
    rewrite Hx, Z.bits_0. done.
  - rewrite (testbit_ge_false y n i) by lia. apply andb_false_r.
Qed.

Lemma lor_low_add x y n :
  0 <= n -> x mod 2 ^ n = 0 -> 0 <= y < 2 ^ n -> x .| y = x + y.
Proof.
  intros Hn Hx Hy. pose proof (land_low_disjoint x y n Hn Hx Hy) as Hd.
  rewrite <- Z.lxor_lor, <- Z.add_nocarry_lxor; done.
Qed.

(** The bytes of a literal. *)
Definition bytes_of (s : string) : list Z :=
  (fun c => Z.of_N (Ascii.N_of_ascii c)) <$> String.list_ascii_of_string s.

(** * Finite sums *)
Fixpoint sum_over (f : Z -> Z) (l : list Z) : Z :=
  match l with
  | [] => 0
  | x :: l' => f x + sum_over f l'
  end.

Lemma sum_ext f g l : (forall x, x ∈ l -> f x = g x) -> sum_over f l = sum_over g l.
Proof.
  induction l as [|x l IH]; intros H; simpl; [done|].
  rewrite (H x) by left. rewrite IH; [done|]. intros y Hy. apply H. by right.
Qed.
Lemma sum_nonneg f l : (forall x, 0 <= f x) -> 0 <= sum_over f l.
Proof. intros H. induction l as [|x l IH]; simpl; [done|]. specialize (H x). lia. Qed.
Lemma sum_zero f l : (forall x, x ∈ l -> f x = 0) -> sum_over f l = 0.
Proof.
  induction l as [|x l IH]; intros H; simpl; [done|].
  rewrite (H x) by left. rewrite IH; [done|]. intros y Hy. apply H. by right.
Qed.
Lemma sum_app f l l' : sum_over f (l ++ l') = sum_over f l + sum_over f l'.
Proof. induction l as [|x l IH]; simpl; [done|]. lia. Qed.
Lemma sum_change f g l x : NoDup l -> x ∈ l -> (forall y, y ∈ l -> y <> x -> g y = f y) ->
  sum_over g l = sum_over f l - f x + g x.
Proof.
  induction l as [|z l IH]; intros Hd Hx Hfg; [by apply not_elem_of_nil in Hx|].
  apply NoDup_cons in Hd as [Hz Hd]. simpl. apply elem_of_cons in Hx as [-> | Hx].
  - rewrite (sum_ext g f l); [lia|]. intros y Hy. apply Hfg; [by right|]. by intros ->.
  - rewrite (Hfg z) by (left || by intros ->).
    rewrite IH; [lia|done..|]. intros y Hy. apply Hfg. by right.
Qed.
Lemma sum_ge f l x : (forall y, 0 <= f y) -> x ∈ l -> f x <= sum_over f l.
Proof.
  intros Hf. induction l as [|z l IH]; intros Hx; [by apply not_elem_of_nil in Hx|].
  simpl. pose proof (sum_nonneg f l Hf). apply elem_of_cons in Hx as [-> | Hx]; [lia|].
  specialize (IH Hx). specialize (Hf z). lia.
Qed.
(** Two places that count make at least two. *)
Lemma sum_ge_two f l x y : (forall z, 0 <= f z) -> x ∈ l -> y ∈ l -> x <> y ->
  f x + f y <= sum_over f l.
Proof.
  intros Hf. induction l as [|z l IH]; intros Hx Hy Hne; [by apply not_elem_of_nil in Hx|].
  simpl. pose proof (Hf z).
  apply elem_of_cons in Hx as [-> | Hx]; apply elem_of_cons in Hy as [-> | Hy]; [done|..].
  - pose proof (sum_ge f l y Hf Hy). lia.
  - pose proof (sum_ge f l x Hf Hx). lia.
  - specialize (IH Hx Hy Hne). lia.
Qed.

(** * Record update

    [r <| field := v |>] is C's [r.field = v].  A record type declares how it is
    rebuilt from its fields ([Eta]); the update of one field is then found by
    abstracting that field's projection. *)

Class Eta (R : Type) : Type := eta : R -> R.
Class Updatable {R E : Type} (getter : R -> E) : Type :=
  update_field : (E -> E) -> R -> R.
Arguments update_field {R E} getter {_} _ _ /.

Ltac solve_updatable :=
  lazymatch goal with
  | |- @Updatable ?R ?E ?g =>
      let e := constr:(_ : Eta R) in
      let e := eval red in e in
      let p := eval pattern g in e in
      lazymatch p with
      | ?f _ => exact (fun h => f (fun r => h (g r)))
      end
  end.
#[global] Hint Extern 1 (Updatable _) => solve_updatable : typeclass_instances.

#[warnings="-postfix-notation-not-level-1"]
Notation "r <| f := v |>" := (update_field f (fun _ => v) r)
  (at level 12, left associativity, f at level 10, v at level 200,
   format "r  <| f  :=  v |>").
#[warnings="-postfix-notation-not-level-1"]
Notation "r <| f ::= g |>" := (update_field f g r)
  (at level 12, left associativity, f at level 10, g at level 200,
   format "r  <| f  ::=  g |>").

(** * Kernel code as a state monad

    A routine runs in one task.  It reads and writes the state [S] of its
    component, may [panic], may end the task ([Exited]), and may give up the
    processor.  What the other tasks and the interrupt handlers do before this
    task is scheduled again is one function of the [script] of the run; a task
    that is never scheduled again is [Asleep].  [log] is what the routine tells
    the outside (newest first). *)

Inductive wqueue : Type :=
| WBuffer (bh : nat)            (* bh->b_wait *)
| WBufferWait                   (* buffer_wait, fs/buffer.c *)
| WInode (i : nat)              (* inode->i_wait *)
| WSuper (i : nat)              (* sb->s_wait *)
| WRequest (i : nat)            (* req->waiting *)
| WForRequest                   (* wait_for_request, kernel/blk_drv/ll_rw_blk.c *)
| WMotor (nr : nat)             (* wait_motor[nr], kernel/sched.c *)
| WFloppySelect.                (* wait_on_floppy_select, kernel/blk_drv/floppy.c *)

#[global] Instance wqueue_eq_dec : EqDecision wqueue.
Proof. solve_decision. Defined.

Inductive event : Type :=
| EvPrintk (fmt : string) (args : list Z)
| EvSleep (q : wqueue)
| EvWake (q : wqueue)
| EvInvalidate                  (* the TLB is flushed *)
| EvStartIo (major : Z)         (* an interrupt-driven driver is started *)
| EvCall (fn : Z)               (* a timer's function is called *)
| EvOut (value port : Z).

#[global] Instance event_eq_dec : EqDecision event.
Proof. solve_decision. Defined.

Record world (S : Type) : Type := World {
  script : list (S -> S);
  log : list event;
}.
Arguments World {S} _ _.
Arguments script {S} _.
Arguments log {S} _.

Inductive outcome (S A : Type) : Type :=
| Ret (a : A) (s : S) (w : world S)
| Panicked (msg : string) (s : S)
| Exited (code : Z) (s : S)
| Asleep (s : S)
| OutOfFuel.
Arguments Ret {S A} _ _ _.
Arguments Panicked {S A} _ _.
Arguments Exited {S A} _ _.
Arguments Asleep {S A} _.
Arguments OutOfFuel {S A}.

Definition M (S A : Type) : Type := S -> world S -> outcome S A.

#[global] Instance M_ret S : MRet (M S) := fun A a s w => Ret a s w.
#[global] Instance M_bind S : MBind (M S) := fun A B f m s w =>
  match m s w with
  | Ret a s' w' => f a s' w'
  | Panicked msg s' => Panicked msg s'
  | Exited c s' => Exited c s'
  | Asleep s' => Asleep s'
  | OutOfFuel => OutOfFuel
  end.

Section primitives.
Context {S : Type}.

Definition gets {A} (f : S -> A) : M S A := fun s w => Ret (f s) s w.
Definition get : M S S := fun s w => Ret s s w.
Definition modify (f : S -> S) : M S unit := fun s w => Ret tt (f s) w.
Definition panic {A} (msg : string) : M S A := fun s w => Panicked msg s.
Definition exit_task {A} (code : Z) : M S A := fun s w => Exited code s.
Definition out_of_fuel {A} : M S A := fun s w => OutOfFuel.
Definition emit (e : event) : M S unit :=
  fun s w => Ret tt s (World (script w) (e :: log w)).
Definition printk (fmt : string) (args : list Z) : M S unit :=
  emit (EvPrintk fmt args).
Definition wake_up_q (q : wqueue) : M S unit := emit (EvWake q).
Definition when (b : bool) (m : M S unit) : M S unit :=
  if b then m else mret tt.

(** [sleep_on(q)]: the rest of the system runs. *)
Definition sleep_on_q (q : wqueue) : M S unit := fun s w =>
  match script w with
  | [] => Asleep s
  | f :: sc => Ret tt (f s) (World sc (EvSleep q :: log w))
  end.

(** [while (c) sleep_on(q);] *)
Fixpoint sleep_loop (c : S -> bool) (q : wqueue) (sc : list (S -> S))
    (lg : list event) (s : S) : outcome S unit :=
  if c s then
    match sc with
    | [] => Asleep s
    | f :: sc' => sleep_loop c q sc' (EvSleep q :: lg) (f s)
    end
  else Ret tt s (World sc lg).
Definition sleep_while (c : S -> bool) (q : wqueue) : M S unit :=
  fun s w => sleep_loop c q (script w) (log w) s.

(** [repeat: a = f(); if (!a) { sleep_on(q); goto repeat; }] *)
Fixpoint sleep_until_loop {A} (f : S -> option A) (q : wqueue)
    (sc : list (S -> S)) (lg : list event) (s : S) : outcome S A :=
  match f s with
  | Some a => Ret a s (World sc lg)
  | None =>
      match sc with
      | [] => Asleep s
      | g :: sc' => sleep_until_loop f q sc' (EvSleep q :: lg) (g s)
      end
  end.
Definition sleep_until {A} (f : S -> option A) (q : wqueue) : M S A :=
  fun s w => sleep_until_loop f q (script w) (log w) s.

(** [for (x in l) f(x);] and the same with a [return] inside. *)
Fixpoint for_each {A} (l : list A) (f : A -> M S unit) : M S unit :=
  match l with
  | [] => mret tt
  | x :: l' => f x ;; for_each l' f
  end.
Fixpoint for_ret {A R} (l : list A) (f : A -> M S (option R)) :
    M S (option R) :=
  match l with
  | [] => mret None
  | x :: l' =>
      r ← f x ;
      match r with
      | Some v => mret (Some v)
      | None => for_ret l' f
      end
  end.

(** [repeat: ... goto repeat;], at most [fuel] times round. *)
Fixpoint repeat_until {A} (fuel : nat) (body : M S (option A)) : M S A :=
  match fuel with
  | O => out_of_fuel
  | Datatypes.S n =>
      r ← body ;
      match r with
      | Some a => mret a
      | None => repeat_until n body
      end
  end.
End primitives.

(** ** Running a routine step by step: [run] rewrites the goal as the routine
    executes its first statements. *)
Section run_rules.
Context {S A B : Type}.
Implicit Types (s : S) (w : world S) (k : A -> M S B).

Lemma run_gets (f : S -> A) k s w : (gets f ≫= k) s w = k (f s) s w.
Proof. reflexivity. Qed.
Lemma run_get (k : S -> M S B) s w : (get ≫= k) s w = k s s w.
Proof. reflexivity. Qed.
Lemma run_modify (f : S -> S) (k : unit -> M S B) s w :
  (modify f ≫= k) s w = k tt (f s) w.
Proof. reflexivity. Qed.
Lemma run_emit e (k : unit -> M S B) s w :
  (emit e ≫= k) s w = k tt s (World (script w) (e :: log w)).
Proof. reflexivity. Qed.
Lemma run_printk fmt args (k : unit -> M S B) s w :
  (printk fmt args ≫= k) s w = k tt s (World (script w) (EvPrintk fmt args :: log w)).
Proof. reflexivity. Qed.
Lemma run_wake q (k : unit -> M S B) s w :
  (wake_up_q q ≫= k) s w = k tt s (World (script w) (EvWake q :: log w)).
Proof. reflexivity. Qed.
Lemma run_mret (a : A) k s w : (mret a ≫= k) s w = k a s w.
Proof. reflexivity. Qed.
Lemma run_panic msg k s w : (panic msg ≫= k) s w = Panicked msg s.
Proof. reflexivity. Qed.
Lemma run_when_true (m : M S unit) : when true m = m.
Proof. reflexivity. Qed.
Lemma run_when_false (m : M S unit) : when false m = mret tt.
Proof. reflexivity. Qed.
Lemma ret_mret (a : A) s w : (mret a : M S A) s w = Ret a s w.
Proof. reflexivity. Qed.
Lemma ret_gets (f : S -> A) s w : gets f s w = Ret (f s) s w.
Proof. reflexivity. Qed.
Lemma ret_modify (f : S -> S) s w : modify f s w = Ret tt (f s) w.
Proof. reflexivity. Qed.
Lemma ret_emit e s w : emit e s w = Ret tt s (World (script w) (e :: log w)).
Proof. reflexivity. Qed.
Lemma run_ret (m : M S A) k s w a s' w' :
  m s w = Ret a s' w' -> (m ≫= k) s w = k a s' w'.
Proof. unfold mbind, M_bind. by intros ->. Qed.
Lemma run_panicked (m : M S A) k s w msg s' :
  m s w = Panicked msg s' -> (m ≫= k) s w = Panicked msg s'.
Proof. unfold mbind, M_bind. by intros ->. Qed.
End run_rules.

Lemma repeat_until_again {S A} n (body : M S (option A)) s w s' w' :
  body s w = Ret None s' w' ->
  repeat_until (Datatypes.S n) body s w = repeat_until n body s' w'.
Proof. intros E. cbn [repeat_until]. by rewrite (run_ret _ _ _ _ _ _ _ E). Qed.
Lemma repeat_until_done {S A} n (body : M S (option A)) s w a s' w' :
  body s w = Ret (Some a) s' w' -> repeat_until (Datatypes.S n) body s w = Ret a s' w'.
Proof. intros E. cbn [repeat_until]. by rewrite (run_ret _ _ _ _ _ _ _ E). Qed.

Lemma run_assoc {S A B C} (m : M S A) (f : A -> M S B) (g : B -> M S C) s w :
  ((m ≫= f) ≫= g) s w = (m ≫= fun a => f a ≫= g) s w.
Proof. unfold mbind, M_bind. by destruct (m s w). Qed.

Create Rewrite HintDb run.
#[export] Hint Rewrite @run_get @run_gets @run_modify @run_emit @run_printk @run_wake
  @run_mret @run_panic @run_when_true @run_when_false @run_assoc
  @ret_mret @ret_gets @ret_modify @ret_emit : run.
Ltac run := repeat (progress autorewrite with run; cbn beta iota zeta).

(** ** Running a routine of one component inside a larger state

    The routine must not sleep: it gets an empty script. *)
Definition liftM {K S A} (get : K -> S) (put : S -> K -> K) (m : M S A) : M K A :=
  fun k w =>
    match m (get k) (World [] (log w)) with
    | Ret a s w' => Ret a (put s k) (World (script w) (log w'))
    | Panicked msg s => Panicked msg (put s k)
    | Exited c s => Exited c (put s k)
    | Asleep s => Asleep (put s k)
    | OutOfFuel => OutOfFuel
    end.

(** * Postconditions

    [wp m Q] is total correctness: the routine returns, and returns in [Q].
    [wlp m Q] is partial: it may also panic, end the task, sleep for ever.
    [wlpx E m Q] is too, but leaves a state in [E] when it ends the task. *)
Definition wp {S A} (m : M S A) (Q : A -> S -> world S -> Prop)
    (s : S) (w : world S) : Prop :=
  match m s w with Ret a s' w' => Q a s' w' | _ => False end.
Definition wlpx {S A} (E : S -> Prop) (m : M S A) (Q : A -> S -> world S -> Prop)
    (s : S) (w : world S) : Prop :=
  match m s w with Ret a s' w' => Q a s' w' | Exited _ s' => E s' | _ => True end.
Abbreviation wlp := (wlpx (fun _ => True)).

Section wp_rules.
Context {S : Type}.
Implicit Types (s : S) (w : world S).

Lemma wp_ret {A} (a : A) Q s w : Q a s w -> wp (mret a) Q s w.
Proof. done. Qed.

Lemma wp_gets {A} (f : S -> A) (Q : A -> S -> world S -> Prop) s w :
  Q (f s) s w -> wp (gets f) Q s w.
Proof. done. Qed.
Lemma wp_get (Q : S -> S -> world S -> Prop) s w : Q s s w -> wp get Q s w.
Proof. done. Qed.
Lemma wp_modify f (Q : unit -> S -> world S -> Prop) s w :
  Q tt (f s) w -> wp (modify f) Q s w.
Proof. done. Qed.
Lemma wp_emit e (Q : unit -> S -> world S -> Prop) s w :
  Q tt s (World (script w) (e :: log w)) -> wp (emit e) Q s w.
Proof. done. Qed.

Lemma wp_bind {A B} (m : M S A) (f : A -> M S B) Q s w :
  wp m (fun a => wp (f a) Q) s w -> wp (m ≫= f) Q s w.
Proof. unfold wp, mbind, M_bind. by destruct (m s w). Qed.

Lemma wp_mono {A} (m : M S A) (Q Q' : A -> S -> world S -> Prop) s w :
  wp m Q s w -> (forall a s' w', Q a s' w' -> Q' a s' w') -> wp m Q' s w.
Proof. unfold wp. destruct (m s w); naive_solver. Qed.

Lemma wp_inv {A} (m : M S A) Q s w :
  wp m Q s w -> exists a s' w', m s w = Ret a s' w' /\ Q a s' w'.
Proof. unfold wp. destruct (m s w); naive_solver. Qed.

Lemma wp_of_ret {A} (m : M S A) (Q : A -> S -> world S -> Prop) s w a s' w' :
  m s w = Ret a s' w' -> Q a s' w' -> wp m Q s w.
Proof. intros E HQ. unfold wp. by rewrite E. Qed.

Lemma wp_when b (m : M S unit) Q s w :
  (b = true -> wp m Q s w) -> (b = false -> Q tt s w) -> wp (when b m) Q s w.
Proof. unfold when. destruct b; [auto | intros _ H; apply wp_ret; auto]. Qed.

Lemma wlp_ret {A} E (a : A) Q s w : Q a s w -> wlpx E (mret a) Q s w.
Proof. done. Qed.

Lemma wlp_bind {A B} E (m : M S A) (f : A -> M S B) Q s w :
  wlpx E m (fun a => wlpx E (f a) Q) s w -> wlpx E (m ≫= f) Q s w.
Proof. unfold wlpx, mbind, M_bind. by destruct (m s w). Qed.

Lemma wlp_mono {A} E (m : M S A) (Q Q' : A -> S -> world S -> Prop) s w :
  wlpx E m Q s w -> (forall a s' w', Q a s' w' -> Q' a s' w') -> wlpx E m Q' s w.
Proof. unfold wlpx. destruct (m s w); naive_solver. Qed.

Lemma wlpx_wlp {A} E (m : M S A) Q s w : wlpx E m Q s w -> wlp m Q s w.
Proof. unfold wlpx. by destruct (m s w). Qed.
Lemma wp_wlp {A} E (m : M S A) Q s w : wp m Q s w -> wlpx E m Q s w.
Proof. unfold wp, wlpx. by destruct (m s w). Qed.

(** The loop rule: [I] holds of the elements still to visit. *)
Lemma wp_for_each {A} (I : list A -> S -> world S -> Prop) l
    (f : A -> M S unit) s w :
  I l s w ->
  (forall x l' s' w', I (x :: l') s' w' -> wp (f x) (fun _ => I l') s' w') ->
  wp (for_each l f) (fun _ => I []) s w.
Proof.
  intros HI Hstep. revert s w HI. induction l as [|x l IH]; intros s w HI.
  - by apply wp_ret.
  - apply wp_bind. eapply wp_mono; [by apply Hstep|]. intros [] s' w'. apply IH.
Qed.

(** Loops that count: [I j] holds before the round of [j]. *)
Lemma wp_for_seq (I : nat -> S -> world S -> Prop) n (f : nat -> M S unit) s w :
  I 0%nat s w ->
  (forall j s' w', (j < n)%nat -> I j s' w' -> wp (f j) (fun _ => I (Datatypes.S j)) s' w') ->
  wp (for_each (seq 0 n) f) (fun _ => I n) s w.
Proof.
  intros HI Hstep.
  eapply wp_mono; [apply (wp_for_each (fun l s' w' =>
    exists j, l = seq j (n - j) /\ (j <= n)%nat /\ I j s' w'))|].
  - exists 0%nat. rewrite Nat.sub_0_r. split; [done|]. split; [lia|done].
  - intros x l s' w' (j & El & Hj & HIj).
    destruct (decide (j = n)) as [-> | ]; [by rewrite Nat.sub_diag in El|].
    replace (n - j)%nat with (Datatypes.S (n - Datatypes.S j)) in El by lia.
    simpl in El. injection El as -> ->.
    eapply wp_mono; [apply Hstep; [lia|done]|]. intros [] s1 w1 H1. exists (Datatypes.S j).
    split; [done|]. split; [lia|done].
  - intros [] s' w' (j & El & Hj & HIj).
    destruct (decide (j = n)) as [-> | ]; [done|].
    by replace (n - j)%nat with (Datatypes.S (n - Datatypes.S j)) in El by lia.
Qed.
Lemma wp_for_ret_seq {R} (I : nat -> S -> world S -> Prop) (Q : R -> S -> world S -> Prop) n
    (f : nat -> M S (option R)) s w :
  I 0%nat s w ->
  (forall j s' w', (j < n)%nat -> I j s' w' ->
     wp (f j) (fun r s1 w1 => match r with
       | Some v => Q v s1 w1 | None => I (Datatypes.S j) s1 w1 end) s' w') ->
  wp (for_ret (seq 0 n) f) (fun r s1 w1 => match r with
    | Some v => Q v s1 w1 | None => I n s1 w1 end) s w.
Proof.
  intros HI Hstep.
  enough (H : forall m j s' w', (j + m = n)%nat -> I j s' w' ->
    wp (for_ret (seq j m) f) (fun r s1 w1 => match r with
      | Some v => Q v s1 w1 | None => I n s1 w1 end) s' w') by by apply (H n 0%nat).
  induction m as [|m IH]; intros j s' w' Hj HIj.
  - apply wp_ret. by replace n with j by lia.
  - simpl. apply wp_bind. eapply wp_mono; [apply Hstep; [lia|done]|].
    intros [v|] s1 w1 H1; [by apply wp_ret|]. apply IH; [lia|done].
Qed.

Lemma wlp_for_each {A} E (I : S -> world S -> Prop) (l : list A)
    (f : A -> M S unit) s w :
  I s w ->
  (forall x s' w', I s' w' -> wlpx E (f x) (fun _ => I) s' w') ->
  wlpx E (for_each l f) (fun _ => I) s w.
Proof.
  intros HI Hstep. revert s w HI. induction l as [|x l IH]; intros s w HI.
  - by apply wlp_ret.
  - apply wlp_bind. eapply wlp_mono; [by apply Hstep|]. intros [] s' w'. apply IH.
Qed.

(** A [while (c) sleep_on(q)] that returns has seen [c] false, and whatever
    the rest of the system preserves still holds. *)
Lemma wlp_sleep_while E (c : S -> bool) q (I : S -> Prop) s w :
  I s -> Forall (fun f => forall s0, I s0 -> I (f s0)) (script w) ->
  wlpx E (sleep_while c q)
    (fun _ s' w' => c s' = false /\ I s' /\
       Forall (fun f => forall s0, I s0 -> I (f s0)) (script w')) s w.
Proof.
  destruct w as [sc lg]; simpl. unfold wlpx, sleep_while; simpl.
  revert s lg. induction sc as [|f sc IH]; intros s lg HI Hsc; simpl.
  - by destruct (c s) eqn:?.
  - destruct (c s) eqn:?; [|done].
    apply Forall_cons in Hsc as [Hf Hsc]. by apply IH; [apply Hf|].
Qed.

(** It does not sleep at all when [c] is already false ... *)
Lemma sleep_while_false (c : S -> bool) q s w :
  c s = false -> sleep_while c q s w = Ret tt s w.
Proof.
  intros Hc. destruct w as [sc lg]. unfold sleep_while. simpl.
  by destruct sc; simpl; rewrite Hc.
Qed.

Lemma sleep_until_some {A} (f : S -> option A) q s w a :
  f s = Some a -> sleep_until f q s w = Ret a s w.
Proof.
  intros Ha. destruct w as [sc lg]. unfold sleep_until. simpl.
  by destruct sc; simpl; rewrite Ha.
Qed.

Lemma wlp_sleep_until {A} E (f : S -> option A) q (I : S -> Prop) s w :
  I s -> Forall (fun g => forall s0, I s0 -> I (g s0)) (script w) ->
  wlpx E (sleep_until f q)
    (fun a s' w' => f s' = Some a /\ I s' /\
       Forall (fun g => forall s0, I s0 -> I (g s0)) (script w')) s w.
Proof.
  destruct w as [sc lg]; simpl. unfold wlpx, sleep_until; simpl.
  revert s lg. induction sc as [|g sc IH]; intros s lg HI Hsc; simpl.
  - by destruct (f s) eqn:?.
  - destruct (f s) eqn:?; [done|].
    apply Forall_cons in Hsc as [Hg Hsc]. by apply IH; [apply Hg|].
Qed.

(** ... and returns after [n] sleeps when [c] is first false then. *)
Lemma sleep_while_wakes (c : S -> bool) q s sc1 f sc2 lg :
  c (fold_left (fun s0 g => g s0) (sc1 ++ [f]) s) = false ->
  exists s' w', sleep_while c q s (World (sc1 ++ f :: sc2) lg) = Ret tt s' w' /\
    c s' = false.
Proof.
  unfold sleep_while; simpl.
  revert s lg. induction sc1 as [|g sc1 IH]; intros s lg Hc; simpl in *.
  - destruct (c s) eqn:Hs; [|eauto].
    exists (f s). by destruct sc2; simpl; rewrite Hc; eauto.
  - destruct (c s) eqn:Hs; [|eauto]. by apply IH.
Qed.
End wp_rules.

(** Symbolic execution of a routine under [wp]. *)
Ltac wp_step :=
  match goal with
  | |- wp (_ ≫= _) _ _ _ => apply wp_bind
  | |- wp (gets _) _ _ _ => apply wp_gets
  | |- wp get _ _ _ => apply wp_get
  | |- wp (modify _) _ _ _ => apply wp_modify
  | |- wp (emit _) _ _ _ => apply wp_emit
  | |- wp (printk _ _) _ _ _ => unfold printk
  | |- wp (mret _) _ _ _ => apply wp_ret
  end.
Ltac wp_steps := repeat wp_step.

(** A loop that does not sleep: [H] says that its condition is false, or that what
    it waits for is there. *)
Ltac run_awake H :=
  match goal with
  | |- context [(sleep_while ?c ?q ≫= ?f) ?s ?w] =>
      rewrite (run_ret (sleep_while c q) f s w tt s w (sleep_while_false c q s w H))
  end.
Ltac run_found H :=
  match goal with
  | |- context [(sleep_until ?c ?q ≫= ?f) ?s ?w] =>
      rewrite (run_ret (sleep_until c q) f s w _ s w (sleep_until_some c q s w _ H))
  end.

(** * Invariants across sleeps

    [preserves I m]: started in [I], in a system whose other tasks keep [I], a
    run of [m] that returns has kept [I]. *)
Definition ok_script {S} (I : S -> Prop) (w : world S) : Prop :=
  Forall (fun f => forall s, I s -> I (f s)) (script w).
Definition preserves {S A} (I : S -> Prop) (m : M S A) : Prop :=
  forall s w, I s -> ok_script I w -> wlpx I m (fun _ s' w' => I s' /\ ok_script I w') s w.

Section preserves.
Context {S : Type} (I : S -> Prop).

Lemma preserves_ret {A} (a : A) : preserves I (mret a).
Proof using. intros s w Hs Hw. by apply wlp_ret. Qed.
Lemma preserves_bind {A B} (m : M S A) (f : A -> M S B) :
  preserves I m -> (forall a, preserves I (f a)) -> preserves I (m ≫= f).
Proof using.
  intros Hm Hf s w Hs Hw. apply wlp_bind. eapply wlp_mono; [by apply Hm|].
  intros a s' w' [Hs' Hw']. by apply Hf.
Qed.
Lemma preserves_gets {A} (f : S -> A) : preserves I (gets f).
Proof using. by intros s w Hs Hw. Qed.
Lemma preserves_get : preserves I (@get S).
Proof using. by intros s w Hs Hw. Qed.
Lemma preserves_modify f : (forall s, I s -> I (f s)) -> preserves I (modify f).
Proof using. intros Hf s w Hs Hw. split; auto. Qed.
Lemma preserves_emit e : preserves I (emit (S := S) e).
Proof using. by intros s w Hs Hw. Qed.
Lemma preserves_panic {A} msg : preserves I (panic (A := A) msg).
Proof using. by intros s w Hs Hw. Qed.
Lemma preserves_exit_task {A} c : preserves I (exit_task (A := A) c).
Proof using. by intros s w Hs Hw. Qed.
Lemma preserves_out_of_fuel {A} : preserves I (out_of_fuel (A := A)).
Proof using. by intros s w Hs Hw. Qed.
Lemma preserves_when b (m : M S unit) : preserves I m -> preserves I (when b m).
Proof using. intros Hm. destruct b; [done|apply preserves_ret]. Qed.
Lemma preserves_sleep_on_q q : preserves I (sleep_on_q q).
Proof using.
  intros s [sc lg] Hs Hw. unfold wlpx, sleep_on_q; simpl.
  destruct sc as [|f sc]; [done|]. apply Forall_cons in Hw as [Hf Hsc]. split; auto.
Qed.
Lemma preserves_sleep_while c q : preserves I (sleep_while c q).
Proof using.
  intros s w Hs Hw. eapply wlp_mono; [by apply wlp_sleep_while|]. by intros a s' w' (_ & ? & ?).
Qed.
Lemma preserves_sleep_until {A} (f : S -> option A) q : preserves I (sleep_until f q).
Proof using.
  intros s w Hs Hw. eapply wlp_mono; [by apply wlp_sleep_until|]. by intros a s' w' (_ & ? & ?).
Qed.
Lemma preserves_for_each {A} (l : list A) f :
  (forall x, preserves I (f x)) -> preserves I (for_each l f).
Proof using.
  intros Hf. induction l as [|x l IH]; [apply preserves_ret|].
  apply preserves_bind; [apply Hf|]. by intros [].
Qed.
Lemma preserves_repeat_until {A} n (body : M S (option A)) :
  preserves I body -> preserves I (repeat_until n body).
Proof using.
  intros Hb. induction n as [|n IH]; [apply preserves_out_of_fuel|].
  apply preserves_bind; [done|]. intros [a|]; [apply preserves_ret|done].
Qed.
(** A routine whose text depends on the world, like a loop bounded by it. *)
Lemma preserves_world {A} (m : world S -> M S A) :
  (forall w, preserves I (m w)) -> preserves I (fun s w => m w s w).
Proof using. intros Hm s w Hs Hw. by apply Hm. Qed.
End preserves.

(** [preserve leaf] takes a routine apart; the stores are left to [leaf], the
    routines that it calls to the hints of [preserves]. *)
Create HintDb preserves discriminated.
#[export] Hint Constants Opaque : preserves.
#[export] Hint Resolve preserves_ret preserves_gets preserves_get preserves_emit
  preserves_panic preserves_exit_task preserves_out_of_fuel preserves_sleep_on_q
  preserves_sleep_while preserves_sleep_until : preserves.
Ltac preserve leaf :=
  repeat first
    [ progress cbn zeta
    | solve [auto 2 with preserves nocore]
    | match goal with
      | |- preserves _ (_ ≫= _) => apply preserves_bind; [|intros ?]
      | |- preserves _ (when _ _) => apply preserves_when
      | |- preserves _ (modify _) => apply preserves_modify; intros ? ?; solve [leaf]
      | |- preserves _ (printk _ _) => apply preserves_emit
      | |- preserves _ (wake_up_q _) => apply preserves_emit
      | |- preserves _ (for_each _ _) => apply preserves_for_each; intros ?
      | |- preserves _ (repeat_until _ _) => apply preserves_repeat_until
      | |- preserves _ (match ?x with _ => _ end) => destruct x
      end ].
