(* ===== verification/Links.v ===== *)
(** Linked lists: the doubly linked ring and the null-terminated doubly linked
    chain that [fs/buffer.c] threads through the buffer heads, over any two
    fields [nf] (next) and [pf] (previous). *)
From S2P Require Import Prelude.

Definition fupd (i : nat) (v : option nat) (f : nat -> option nat) : nat -> option nat :=
  fun j => if decide (j = i) then v else f j.
Lemma fupd_eq i v f : fupd i v f i = v.
Proof. unfold fupd. by rewrite decide_True. Qed.
Lemma fupd_ne i v f j : j <> i -> fupd i v f j = f j.
Proof. intros. unfold fupd. by rewrite decide_False. Qed.

(** * Rings *)
Section path.
Implicit Types nf pf : nat -> option nat.

(** Neighbours in [l] point at each other. *)
Fixpoint path nf pf (l : list nat) : Prop :=
  match l with
  | [] => True
  | a :: l' =>
      match l' with [] => True | b :: _ => nf a = Some b /\ pf b = Some a end
      /\ path nf pf l'
  end.

(** [x :: l] is a ring. *)
Definition ring nf pf (l : list nat) : Prop :=
  match l with [] => False | x :: _ => path nf pf (l ++ [x]) end.

Lemma path_app nf pf a x b :
  path nf pf (a ++ x :: b) <-> path nf pf (a ++ [x]) /\ path nf pf (x :: b).
Proof.
  induction a as [|y a IH]; [simpl; tauto|].
  destruct a as [|z a]; simpl in *; tauto.
Qed.

Lemma path_ext nf pf nf' pf' l :
  (forall a b c, l = a ++ b :: c -> c <> [] -> nf' b = nf b) ->
  (forall a b c, l = a ++ b :: c -> a <> [] -> pf' b = pf b) ->
  path nf pf l -> path nf' pf' l.
Proof.
  induction l as [|x l IH]; [done|]. intros Hn Hp [H1 H2]. split.
  - destruct l as [|y l]; [done|]. destruct H1.
    by rewrite (Hn [] x (y :: l)), (Hp [x] y l).
  - apply IH; [| |done].
    + intros a b c -> Hc. by apply (Hn (x :: a) b c).
    + intros a b c -> Ha. by apply (Hp (x :: a) b c).
Qed.

Lemma ring_rotate nf pf a b : ring nf pf (a ++ b) -> ring nf pf (b ++ a).
Proof.
  destruct a as [|x a]; [by rewrite app_nil_r|]. destruct b as [|y b]; [by rewrite app_nil_r|].
  unfold ring. cbn [app]. rewrite <- !app_assoc.
  pose proof (path_app nf pf (x :: a) y (b ++ [x])).
  pose proof (path_app nf pf (y :: b) x (a ++ [y])). cbn [app] in *. tauto.
Qed.

Lemma ring_next nf pf l x : ring nf pf l -> x ∈ l -> exists y, nf x = Some y /\ y ∈ l.
Proof.
  intros Hr (a & b & ->)%list_elem_of_split. apply ring_rotate in Hr.
  destruct b as [|y b]; [destruct a as [|y a]|]; simpl in Hr.
  - exists x. split; [tauto|set_solver].
  - exists y. split; [tauto|set_solver].
  - exists y. split; [tauto|set_solver].
Qed.

Lemma ring_last nf pf x l : ring nf pf (x :: l) ->
  exists u p, x :: l = u ++ [p] /\ pf x = Some p.
Proof.
  unfold ring. destruct (exists_last (l := x :: l)) as (u & p & E); [done|].
  rewrite E, <- app_assoc. intros Hr. apply path_app in Hr as [_ Hr]. exists u, p.
  split; [done|]. simpl in Hr. tauto.
Qed.

Lemma ring_prev nf pf l x : ring nf pf l -> x ∈ l -> exists y, pf x = Some y /\ y ∈ l.
Proof.
  intros Hr (a & b & ->)%list_elem_of_split. apply ring_rotate in Hr. simpl in Hr.
  apply ring_last in Hr as (u & p & E & Hp). exists p. split; [done|].
  assert (p ∈ x :: b ++ a) by (rewrite E; set_solver). set_solver.
Qed.

(** Taking [x] out of the ring [x :: l]. *)
Lemma ring_remove nf pf x l p q :
  ring nf pf (x :: l) -> NoDup (x :: l) -> l <> [] ->
  pf x = Some p -> nf x = Some q ->
  ring (fupd p (Some q) nf) (fupd q (Some p) pf) l /\ p ∈ l /\ q ∈ l.
Proof.
  intros Hr Hnd Hl Hp Hq. destruct l as [|q' l]; [done|].
  simpl in Hr. destruct Hr as [[Hq' _] Hr]. rewrite Hq in Hq'. injection Hq' as <-.
  assert (exists u, q :: l = u ++ [p]) as (u & Eu).
  { destruct (exists_last (l := q :: l)) as (u & z & E); [done|]. exists u. rewrite E.
    change (path nf pf ((q :: l) ++ [x])) in Hr. rewrite E, <- app_assoc in Hr.
    apply path_app in Hr as [_ Hr].
    simpl in Hr. destruct Hr as [[_ Hz] _]. rewrite Hp in Hz. by injection Hz as ->. }
  apply NoDup_cons in Hnd as [Hx Hnd].
  split; [|split; [rewrite Eu; set_solver|left]].
  change (path nf pf ((q :: l) ++ [x])) in Hr. unfold ring. rewrite Eu in Hr |- *.
  rewrite <- app_assoc in Hr.
  simpl in Hr. apply path_app in Hr as [Hr _].
  rewrite <- app_assoc. simpl. apply path_app. split.
  - revert Hr. apply path_ext.
    + intros a b c E Hc. rewrite fupd_ne; [done|]. intros ->.
      rewrite Eu, E in Hnd. destruct (exists_last (l := c)) as (c' & z & ->); [done|].
      rewrite app_comm_cons, app_assoc in E. apply app_inj_tail in E as [_ <-].
      apply NoDup_app in Hnd as (_ & _ & Hnd). apply NoDup_cons in Hnd as [Hn _]. set_solver.
    + intros a b c E Ha. rewrite fupd_ne; [done|]. intros ->.
      destruct a as [|y a]; [done|]. rewrite <- Eu in E. injection E as -> El.
      apply NoDup_cons in Hnd as [Hn _]. rewrite El in Hn. set_solver.
  - simpl. by rewrite !fupd_eq.
Qed.

(** Putting [x] at the end of the ring [h :: l]. *)
Lemma ring_insert nf pf h l x p :
  ring nf pf (h :: l) -> NoDup (h :: l) -> x ∉ h :: l -> pf h = Some p ->
  ring (fupd p (Some x) (fupd x (Some h) nf)) (fupd h (Some x) (fupd x (Some p) pf))
    (h :: l ++ [x]) /\ p ∈ h :: l.
Proof.
  intros Hr Hnd Hx Hp.
  assert (exists u, h :: l = u ++ [p]) as (u & Eu).
  { destruct (ring_last _ _ _ _ Hr) as (u & z & E & Hz). exists u. rewrite E.
    rewrite Hp in Hz. by injection Hz as ->. }
  assert (Hpx : p <> x) by (intros ->; rewrite Eu in Hx; set_solver).
  assert (Hhx : h <> x) by set_solver.
  split; [|rewrite Eu; set_solver].
  unfold ring in *. change (h :: l ++ [x]) with ((h :: l) ++ [x]).
  rewrite Eu in Hr, Hnd, Hx |- *. rewrite <- !app_assoc in *. cbn [app] in *.
  apply path_app in Hr as [Hr _]. apply path_app. split.
  - revert Hr. apply path_ext.
    + intros a b c E Hc. rewrite !fupd_ne; [done| |].
      * intros ->. apply Hx. rewrite E. set_solver.
      * intros ->. rewrite E in Hnd. destruct (exists_last (l := c)) as (c' & z & ->); [done|].
        rewrite app_comm_cons, app_assoc in E. apply app_inj_tail in E as [_ <-].
        apply NoDup_app in Hnd as (_ & _ & Hnd). apply NoDup_cons in Hnd as [Hn _]. set_solver.
    + intros a b c E Ha. rewrite !fupd_ne; [done| |].
      * intros ->. apply Hx. rewrite E. set_solver.
      * intros ->. destruct a as [|y a]; [done|]. rewrite <- Eu in E.
        injection E as -> El. rewrite <- Eu in Hnd.
        apply NoDup_cons in Hnd as [Hn _]. rewrite El in Hn. set_solver.
  - cbn [path]. rewrite fupd_eq, (fupd_ne h), fupd_eq by done.
    rewrite (fupd_ne p), fupd_eq, fupd_eq by done. done.
Qed.
End path.

(** * Chains *)
Section chain.
Implicit Types nf pf : nat -> option nat.

(** [l], whose first element has [prev] before it, ends with a null pointer. *)
Fixpoint dchain nf pf (prev : option nat) (l : list nat) : Prop :=
  match l with
  | [] => True
  | x :: l' => pf x = prev /\ nf x = head l' /\ dchain nf pf (Some x) l'
  end.

Lemma dchain_ext nf pf nf' pf' prev l :
  (forall x, x ∈ l -> nf' x = nf x) -> (forall x, x ∈ l -> pf' x = pf x) ->
  dchain nf pf prev l -> dchain nf' pf' prev l.
Proof.
  revert prev. induction l as [|x l IH]; intros prev Hn Hp; [done|].
  intros (H1 & H2 & H3). rewrite <- (Hp x), <- (Hn x) in * by set_solver.
  split; [done|]. split; [done|]. apply IH; [set_solver|set_solver|done].
Qed.

(** The chain without [x], whose neighbours now point at each other. *)
Definition unlink_next nf pf (x : nat) : nat -> option nat :=
  match pf x with Some p => fupd p (nf x) nf | None => nf end.
Definition unlink_prev nf pf (x : nat) : nat -> option nat :=
  match nf x with Some n => fupd n (pf x) pf | None => pf end.

Lemma dchain_next_in nf pf prev l x n :
  dchain nf pf prev l -> x ∈ l -> nf x = Some n -> n ∈ l.
Proof.
  revert prev. induction l as [|y l IH]; intros prev Hc Hx Hn; [set_solver|].
  destruct Hc as (_ & Hny & Hc). apply elem_of_cons in Hx as [-> | Hx].
  - rewrite Hn in Hny. destruct l; [done|]. injection Hny as ->. set_solver.
  - right. by eapply IH.
Qed.
Lemma dchain_prev_in nf pf prev l x p :
  dchain nf pf prev l -> x ∈ l -> pf x = Some p -> p ∈ l \/ prev = Some p.
Proof.
  revert prev. induction l as [|y l IH]; intros prev Hc Hx Hp; [set_solver|].
  destruct Hc as (Hpy & _ & Hc). apply elem_of_cons in Hx as [-> | Hx].
  - right. congruence.
  - destruct (IH (Some y) Hc Hx Hp) as [?|[= ->]]; left; set_solver.
Qed.

(** A new head in front of a chain. *)
Lemma dchain_push nf pf nf' pf' x l :
  dchain nf pf None l -> NoDup l -> nf' x = head l -> pf' x = None ->
  (forall y, y ∈ l -> nf' y = nf y) -> (forall y, y ∈ l -> head l <> Some y -> pf' y = pf y) ->
  (forall m, head l = Some m -> pf' m = Some x) -> dchain nf' pf' None (x :: l).
Proof.
  intros Hch Hnd Hx Hpx Hn Hp Hm. cbn [dchain]. split; [done|]. split; [done|].
  destruct l as [|m c]; [done|]. destruct Hch as (_ & H1 & H2).
  apply NoDup_cons in Hnd as [Hmc _].
  split; [by apply Hm|]. split; [rewrite Hn; [done|left]|].
  revert H2. apply dchain_ext; intros y Hy.
  - apply Hn. by right.
  - apply Hp; [by right|]. simpl. congruence.
Qed.

Lemma dchain_remove nf pf a : forall prev x b,
  dchain nf pf prev (a ++ x :: b) -> NoDup (a ++ x :: b) ->
  (forall p, prev = Some p -> p ∉ a ++ x :: b) ->
  dchain (unlink_next nf pf x) (unlink_prev nf pf x) prev (a ++ b) /\
  (forall y, y ∉ a ++ b -> Some y <> prev ->
     unlink_next nf pf x y = nf y /\ unlink_prev nf pf x y = pf y) /\
  (a <> [] -> head (a ++ b) = head (a ++ x :: b)) /\
  (a = [] -> nf x = head b /\ pf x = prev).
Proof.
  induction a as [|z a IH]; intros prev x b Hc Hnd Hprev.
  - simpl app in *. destruct Hc as (Hp & Hn & Hb). apply NoDup_cons in Hnd as [Hx Hnd].
    assert (Hun : forall y, Some y <> prev -> unlink_next nf pf x y = nf y).
    { intros y Hy. unfold unlink_next. rewrite Hp. destruct prev; [|done].
      apply fupd_ne. congruence. }
    assert (Hup : forall y, Some y <> head b -> unlink_prev nf pf x y = pf y).
    { intros y Hy. unfold unlink_prev. rewrite Hn. destruct (head b); [|done].
      apply fupd_ne. congruence. }
    split; [|split; [|done]].
    + destruct b as [|n b]; [done|]. destruct Hb as (Hpn & Hnn & Hb).
      split; [unfold unlink_prev; rewrite Hn, Hp; simpl; apply fupd_eq|].
      split; [rewrite Hun; [done|]; intros E; apply (Hprev n); [done|set_solver]|].
      revert Hb. apply dchain_ext.
      * intros y Hy. apply Hun. intros E. apply (Hprev y); [done|set_solver].
      * intros y Hy. apply Hup. simpl. intros [= ->].
        apply NoDup_cons in Hnd as [? _]. done.
    + intros y Hy Hyp. split; [by apply Hun|]. apply Hup. destruct b; [done|].
      simpl. intros [= ->]. set_solver.
  - destruct Hc as (Hpz & Hnz & Hc). simpl in Hnd. apply NoDup_cons in Hnd as [Hz Hnd].
    destruct (IH (Some z) x b Hc Hnd) as (IH1 & IH2 & IH3 & IH4).
    { intros p [= <-]. done. }
    assert (Hzu : unlink_prev nf pf x z = pf z).
    { unfold unlink_prev. destruct (nf x) as [n|] eqn:En; [|done]. apply fupd_ne.
      intros ->. apply Hz. apply (dchain_next_in _ _ _ _ x n Hc); [set_solver|exact En]. }
    split; [|split; [|done]].
    + split; [by rewrite Hzu|]. split; [|exact IH1].
      destruct a as [|w a].
      * destruct (IH4 eq_refl) as [Enx Epx]. simpl app. rewrite <- Enx.
        unfold unlink_next. rewrite Epx. apply fupd_eq.
      * rewrite IH3 by done. rewrite <- Hnz. unfold unlink_next.
        destruct (pf x) as [p|] eqn:Ep; [|done]. apply fupd_ne. intros <-.
        destruct Hc as (Hpw & _ & Hc). assert (Hx : x ∈ a ++ x :: b) by set_solver.
        destruct (dchain_prev_in _ _ _ _ _ _ Hc Hx Ep) as [?|[= ->]]; set_solver.
    + intros y Hy Hyp. apply IH2; [set_solver|]. intros [= ->]. set_solver.
Qed.
End chain.
