(* ===== verification/Vsprintf.v ===== *)
(** Formatted output: [kernel/vsprintf.c].

    Strings are lists of byte values without the final zero.  An argument is the
    32-bit word [va_arg] takes; a string argument is an address, and [string_at] is
    the memory the addresses point into. *)
From S2P Require Import Prelude.

(** kernel/vsprintf.c:16-16 [is_digit] *)
Definition is_digit (c : Z) : bool := (48 <=? c) && (c <=? 57).

(** kernel/vsprintf.c:18-25 [skip_atoi]: the number, and where it ends *)
Fixpoint skip_atoi_from (i : Z) (s : list Z) : Z * list Z :=
  match s with
  | c :: s' => if is_digit c then skip_atoi_from (s32 (s32 (i * 10 + c) - 48)) s' else (i, s)
  | [] => (i, [])
  end.
Definition skip_atoi (s : list Z) : Z * list Z := skip_atoi_from 0 s.

Definition ZEROPAD : Z := 1.
Definition SIGN : Z := 2.
Definition PLUS : Z := 4.
Definition SPACE : Z := 8.
Definition LEFT : Z := 16.
Definition SPECIAL : Z := 32.
Definition SMALL : Z := 64.
(** kernel/vsprintf.c:27-33 [ZEROPAD]: a flag in [type] *)
Definition flag (type f : Z) : bool := truth (type .& f).

(** kernel/vsprintf.c:35-38 [do_div]: [divl], an unsigned division *)
Definition do_div (n base : Z) : Z * Z := (s32 (u32 n / base), u32 n mod base).

(** kernel/vsprintf.c:44-47 [number]: [digits] *)
Definition digits (type : Z) : list Z :=
  if flag type SMALL then bytes_of "0123456789abcdefghijklmnopqrstuvwxyz"
  else bytes_of "0123456789ABCDEFGHIJKLMNOPQRSTUVWXYZ".
Definition digit (type i : Z) : Z := nth (Z.to_nat i) (digits type) 0.

(** kernel/vsprintf.c:65-66 [number]: [while (num!=0)], the lowest digit first *)
Fixpoint num_digits (fuel : nat) (type base num : Z) : list Z :=
  match fuel with
  | O => []
  | S f =>
      if num =? 0 then []
      else let '(q, r) := do_div num base in digit type r :: num_digits f type base q
  end.

(** [while (size-->0) *str++ = c]: what is written, and what [size] is then. *)
Definition pad (c size : Z) : list Z := repeat c (Z.to_nat size).
Definition padded (size : Z) : Z := Z.min size 0 - 1.

(** kernel/vsprintf.c:40-92 [number]: what is appended; [None] is the null pointer *)
Definition number (num base size precision type : Z) : option (list Z) :=
  let type := if flag type LEFT then type .& Z.lnot ZEROPAD else type in
  if (base <? 2) || (36 <? base) then None else
  let c := if flag type ZEROPAD then 48 else 32 in
  let neg := flag type SIGN && (num <? 0) in
  let sign := if neg then [45]
              else if flag type PLUS then [43] else if flag type SPACE then [32] else [] in
  let num := if neg then s32 (- num) else num in
  let size := if bool_decide (sign <> []) then size - 1 else size in
  let size := if flag type SPECIAL
              then (if base =? 16 then size - 2 else if base =? 8 then size - 1 else size)
              else size in
  let tmp := if num =? 0 then [48] else num_digits 32 type base num in
  let i := Z.of_nat (length tmp) in
  let precision := Z.max i precision in
  let size := size - precision in
  let first := negb (flag type (ZEROPAD + LEFT)) in
  let out1 := if first then pad 32 size else [] in
  let size := if first then padded size else size in
  let special := if flag type SPECIAL
                 then (if base =? 8 then [48]
                       else if base =? 16 then [48; digit type 33] else [])
                 else [] in
  let second := negb (flag type LEFT) in
  let out2 := if second then pad c size else [] in
  let size := if second then padded size else size in
  Some (out1 ++ sign ++ special ++ out2 ++ pad 48 (precision - i) ++ rev tmp ++ pad 32 size).

#[global] Arguments number : simpl never.

(** * [vsprintf] *)

(** What the conversion of one directive needs and does: the rest of the format and of
    the arguments, the text so far, and what [%n] has stored. *)
Record fmt_state : Type := Fmt {
  f_args : list Z;
  f_str : list Z;
  f_stores : list (Z * Z);
}.
#[global] Instance eta_fmt : Eta fmt_state := fun r => Fmt (f_args r) (f_str r) (f_stores r).

(** kernel/vsprintf.c:116-125 [vsprintf]: [repeat], from the byte after [%] on *)
Fixpoint get_flags (flags : Z) (fmt : list Z) : Z * list Z :=
  match fmt with
  | c :: fmt' =>
      if c =? 45 then get_flags (flags .| LEFT) fmt'
      else if c =? 43 then get_flags (flags .| PLUS) fmt'
      else if c =? 32 then get_flags (flags .| SPACE) fmt'
      else if c =? 35 then get_flags (flags .| SPECIAL) fmt'
      else if c =? 48 then get_flags (flags .| ZEROPAD) fmt'
      else (flags, fmt)
  | [] => (flags, [])
  end.

(** [va_arg]: there has to be an argument. *)
Definition va_arg (args : list Z) : option (Z * list Z) :=
  match args with a :: args' => Some (a, args') | [] => None end.

Section vsprintf.
Context (string_at : Z -> list Z).

(** kernel/vsprintf.c:127-139 [vsprintf]: the field width; a [*] is left where it is *)
Definition get_width (flags : Z) (fmt args : list Z) :
    option (Z * Z * list Z * list Z) :=
  match fmt with
  | c :: _ =>
      if is_digit c then let '(w, fmt) := skip_atoi fmt in Some (w, flags, fmt, args)
      else if c =? 42 then
        '(a, args) ← va_arg args;
        if s32 a <? 0 then Some (s32 (- s32 a), flags .| LEFT, fmt, args)
        else Some (s32 a, flags, fmt, args)
      else Some (-1, flags, fmt, args)
  | [] => Some (-1, flags, fmt, args)
  end%Z.

(** kernel/vsprintf.c:141-153 [vsprintf]: the precision *)
Definition get_precision (fmt args : list Z) : option (Z * list Z * list Z) :=
  match fmt with
  | 46 :: fmt =>
      r ← match fmt with
          | c :: _ =>
              if is_digit c then let '(p, fmt) := skip_atoi fmt in Some (p, fmt, args)
              else if c =? 42 then '(a, args) ← va_arg args; Some (s32 a, fmt, args)
              else Some (-1, fmt, args)
          | [] => Some (-1, fmt, args)
          end;
      let '(p, fmt, args) := r in Some (Z.max p 0, fmt, args)
  | _ => Some (-1, fmt, args)
  end%Z.

(** kernel/vsprintf.c:155-160 [vsprintf]: the qualifier, which is not used *)
Definition skip_qualifier (fmt : list Z) : list Z :=
  match fmt with
  | c :: fmt' => if (c =? 104) || (c =? 108) || (c =? 76) then fmt' else fmt
  | [] => []
  end.

(** kernel/vsprintf.c:189-217 [vsprintf]: the conversions of numbers *)
Definition put_number (base flags field_width precision : Z) (st : fmt_state) :
    option fmt_state :=
  '(a, args) ← va_arg (f_args st);
  out ← number (s32 a) base field_width precision flags;
  Some (Fmt args (f_str st ++ out) (f_stores st)).

(** kernel/vsprintf.c:163-170 [vsprintf]: [c]; the width counts down in the loops *)
Definition put_char (flags field_width : Z) (st : fmt_state) : option fmt_state :=
  '(a, args) ← va_arg (f_args st);
  let left := flag flags LEFT in
  let first := if left then [] else pad 32 (field_width - 1) in
  let field_width := if left then field_width else Z.min (field_width - 1) 0 in
  Some (Fmt args (f_str st ++ first ++ [u8 a] ++ pad 32 (field_width - 1)) (f_stores st)).

(** kernel/vsprintf.c:172-187 [vsprintf]: [s] *)
Definition put_string (flags field_width precision : Z) (st : fmt_state) : option fmt_state :=
  '(a, args) ← va_arg (f_args st);
  let s := string_at a in
  let len := Z.of_nat (length s) in
  let len := if precision <? 0 then len else if precision <? len then precision else len in
  let left := flag flags LEFT in
  let first := if left then [] else pad 32 (field_width - len) in
  let field_width := if left then field_width else Z.min field_width len - 1 in
  Some (Fmt args
    (f_str st ++ first ++ take (Z.to_nat len) s ++ pad 32 (field_width - len)) (f_stores st)).

(** kernel/vsprintf.c:162-232 [vsprintf]: the [switch] *)
Definition convert (fmt : list Z) (flags field_width precision : Z) (st : fmt_state) :
    option fmt_state :=
  match fmt with
  | 99 :: _ => put_char flags field_width st
  | 115 :: _ => put_string flags field_width precision st
  | 111 :: _ => put_number 8 flags field_width precision st
  | 112 :: _ =>
      if field_width =? -1 then put_number 16 (flags .| ZEROPAD) 8 precision st
      else put_number 16 flags field_width precision st
  | 120 :: _ => put_number 16 (flags .| SMALL) field_width precision st
  | 88 :: _ => put_number 16 flags field_width precision st
  | 100 :: _ | 105 :: _ => put_number 10 (flags .| SIGN) field_width precision st
  | 117 :: _ => put_number 10 flags field_width precision st
  | 110 :: _ =>
      '(a, args) ← va_arg (f_args st);
      Some (Fmt args (f_str st) (f_stores st ++ [(a, Z.of_nat (length (f_str st)))]))
  | 37 :: _ => Some (st <| f_str ::= fun s => s ++ [37] |>)
  | c :: _ => Some (st <| f_str ::= fun s => s ++ [37; c] |>)
  | [] => Some (st <| f_str ::= fun s => s ++ [37] |>)
  end%Z.

(** kernel/vsprintf.c:109-233 [vsprintf]: one round per character that is copied or
    directive *)
Fixpoint vsprintf_loop (fuel : nat) (fmt : list Z) (st : fmt_state) : option fmt_state :=
  match fuel, fmt with
  | _, [] => Some st
  | O, _ => None
  | S n, c :: fmt =>
      if negb (c =? 37) then vsprintf_loop n fmt (st <| f_str ::= fun s => s ++ [c] |>) else
      let '(flags, fmt) := get_flags 0 fmt in
      r ← get_width flags fmt (f_args st);
      let '(field_width, flags, fmt, args) := r in
      r ← get_precision fmt args;
      let '(precision, fmt, args) := r in
      let fmt := skip_qualifier fmt in
      st ← convert fmt flags field_width precision (st <| f_args := args |>);
      vsprintf_loop n (tail fmt) st
  end.

(** kernel/vsprintf.c:94-236 [vsprintf]: the text without its zero, what [%n] has
    stored, and what is returned *)
Definition vsprintf (fmt args : list Z) : option (list Z * list (Z * Z) * Z) :=
  st ← vsprintf_loop (length fmt) fmt (Fmt args [] []);
  Some (f_str st, f_stores st, Z.of_nat (length (f_str st))).
End vsprintf.

(** * Numbers *)

(** What a list of digits denotes, the lowest first and the highest first. *)
Fixpoint low_first (base : Z) (ds : list Z) : Z :=
  match ds with [] => 0 | d :: ds' => d + base * low_first base ds' end.
Fixpoint high_first (base acc : Z) (ds : list Z) : Z :=
  match ds with [] => acc | d :: ds' => high_first base (acc * base + d) ds' end.

Lemma high_first_app base acc ds d :
  high_first base acc (ds ++ [d]) = high_first base acc ds * base + d.
Proof. revert acc. induction ds as [|x ds IH]; intros acc; simpl; [done|]. apply IH. Qed.
Lemma high_first_rev base ds : high_first base 0 (rev ds) = low_first base ds.
Proof. induction ds as [|d ds IH]; simpl; [done|]. rewrite high_first_app, IH. lia. Qed.

Lemma u32_s32 x : 0 <= x < 4294967296 -> u32 (s32 x) = x.
Proof. unfold u32, s32. zlia. Qed.
Lemma s32_u32_0 num : -2147483648 <= num < 2147483648 -> (num =? 0) = (u32 num =? 0).
Proof. unfold u32. intros. destruct (Z.eqb_spec num 0), (Z.eqb_spec (num mod 4294967296) 0); zlia || done. Qed.

(** The division loop writes the digits of the number as an unsigned one. *)
Lemma num_digits_spec f type base : forall num, 2 <= base ->
  -2147483648 <= num < 2147483648 -> u32 num < base ^ Z.of_nat f ->
  exists ds, num_digits f type base num = map (digit type) ds /\
    low_first base ds = u32 num /\ Forall (fun d => 0 <= d < base) ds /\
    (ds <> [] -> last ds <> Some 0).
Proof.
  induction f as [|f IH]; intros num Hb Hn Hlt.
  - exists []. change (base ^ Z.of_nat 0) with 1 in Hlt. pose proof (u32_range num).
    simpl. split; [done|]. split; [lia|]. split; [constructor|done].
  - cbn [num_digits]. destruct (Z.eqb_spec num 0) as [-> | Hnz]; [by exists []|].
    unfold do_div. pose proof (u32_range num) as Hu.
    assert (Hq : 0 <= u32 num / base < 2147483648).
    { split; [apply Z.div_pos; lia|]. apply Z.div_lt_upper_bound; nia. }
    rewrite Nat2Z.inj_succ, Z.pow_succ_r in Hlt by lia.
    assert (Hs : u32 (s32 (u32 num / base)) = u32 num / base) by (apply u32_s32; lia).
    destruct (IH (s32 (u32 num / base)) Hb) as (ds & -> & Hv & Hd & Hl).
    { unfold s32. zlia. }
    { rewrite Hs. apply Z.div_lt_upper_bound; lia. }
    exists (u32 num mod base :: ds). split; [done|]. simpl. rewrite Hv, Hs. split; [|split].
    + pose proof (Z.div_mod (u32 num) base). lia.
    + constructor; [apply Z.mod_pos_bound; lia|done].
    + intros _. destruct ds as [|d ds]; [|by apply Hl].
      simpl in *. intros [= H0]. rewrite Hs in Hv.
      pose proof (Z.div_mod (u32 num) base). unfold u32 in *. zlia.
Qed.

(** ** Flags *)
Lemma flag_clear type f : f .& Z.lnot ZEROPAD = f -> flag (type .& Z.lnot ZEROPAD) f = flag type f.
Proof. intros Hf. unfold flag. by rewrite <- Z.land_assoc, (Z.land_comm (Z.lnot _)), Hf. Qed.
Lemma flag_zeropad_clear type : flag (type .& Z.lnot ZEROPAD) ZEROPAD = false.
Proof. unfold flag. by rewrite <- Z.land_assoc, Z.land_0_r. Qed.
Lemma flag_either type : flag type (ZEROPAD + LEFT) = flag type ZEROPAD || flag type LEFT.
Proof.
  unfold flag, truth. change (ZEROPAD + LEFT) with (ZEROPAD .| LEFT).
  rewrite Z.land_lor_distr_r. destruct (Z.eqb_spec (type .& ZEROPAD .| type .& LEFT) 0) as [E|E].
  - apply Z.lor_eq_0_iff in E as [-> ->]. done.
  - destruct (Z.eqb_spec (type .& ZEROPAD) 0) as [E1|]; [|done].
    destruct (Z.eqb_spec (type .& LEFT) 0) as [E2|]; [|done]. by rewrite E1, E2 in E.
Qed.

Definition all_of (c : Z) (l : list Z) : Prop := Forall (fun x => x = c) l.
Lemma pad_all c n : all_of c (pad c n).
Proof.
  unfold pad, all_of. apply Forall_forall. intros x Hx%list_elem_of_In. by apply repeat_spec in Hx.
Qed.
Lemma length_pad c n : Z.of_nat (length (pad c n)) = Z.max n 0.
Proof. unfold pad. rewrite repeat_length. lia. Qed.
Lemma pad_none c n : n <= 0 -> pad c n = [].
Proof. intros H. unfold pad. by replace (Z.to_nat n) with 0%nat by lia. Qed.

(** What is left of the flags when a number is adjusted to the left. *)
Lemma left_flags type :
  let t := if flag type LEFT then type .& Z.lnot ZEROPAD else type in
  (forall f, f .& Z.lnot ZEROPAD = f -> flag t f = flag type f) /\
  (forall i, digit t i = digit type i) /\
  flag t ZEROPAD = flag type ZEROPAD && negb (flag type LEFT).
Proof.
  intros t. assert (Hflag : forall f, f .& Z.lnot ZEROPAD = f -> flag t f = flag type f).
  { intros f Hf. unfold t. destruct (flag type LEFT); [by apply flag_clear|done]. }
  split; [done|]. split.
  - intros i. unfold digit, digits. by rewrite Hflag.
  - unfold t. destruct (flag type LEFT); [by rewrite flag_zeropad_clear, andb_false_r|].
    by rewrite andb_true_r.
Qed.

(** The digits [number] collects in [tmp]. *)
Lemma number_tmp type base num : 2 <= base <= 36 -> -2147483648 <= num < 2147483648 ->
  exists ds, (if num =? 0 then [48] else num_digits 32 type base num) = map (digit type) ds /\
    low_first base ds = u32 num /\ Forall (fun d => 0 <= d < base) ds /\ ds <> [] /\
    (last ds = Some 0 -> ds = [0]).
Proof.
  intros Hb Hn. destruct (Z.eqb_spec num 0) as [-> | Hnz].
  - exists [0]. split; [by unfold digit, digits; case_match|]. split; [change (u32 0) with 0; simpl; lia|].
    split; [|done]. constructor; [lia|constructor].
  - destruct (num_digits_spec 32 type base num) as (ds & -> & Hv & Hd & Hl); [lia|done| |].
    + pose proof (u32_range num). pose proof (Z.pow_le_mono_l 2 base (Z.of_nat 32) ltac:(lia)).
      change (2 ^ Z.of_nat 32) with 4294967296 in *. lia.
    + exists ds. split; [done|]. split; [done|]. split; [done|].
      assert (Hne : ds <> []).
      { intros ->. simpl in Hv. apply Hnz, Z.eqb_eq. rewrite s32_u32_0 by done. by rewrite <- Hv. }
      split; [done|]. intros E. by destruct (Hl Hne).
Qed.

(** The padding: which run is there and how long it is. *)
Lemma number_padding (left zeropad : bool) size :
  let zeropad := zeropad && negb left in
  let c := if zeropad then 48 else 32 in
  let first := negb (zeropad || left) in
  let out1 := if first then pad 32 size else [] in
  let size1 := if first then padded size else size in
  let out2 := if negb left then pad c size1 else [] in
  let size2 := if negb left then padded size1 else size1 in
  all_of 32 out1 /\ all_of 48 out2 /\ all_of 32 (pad 32 size2) /\
  (out1 = [] \/ pad 32 size2 = []) /\ (left = true -> out1 = []) /\
  (left = false -> pad 32 size2 = []) /\
  Z.of_nat (length out1) + Z.of_nat (length out2) + Z.of_nat (length (pad 32 size2)) = Z.max size 0.
Proof.
  assert (Hnil : forall c, all_of c []) by constructor. cbv zeta.
  destruct left; simpl; [|destruct zeropad; simpl].
  - rewrite andb_false_r, orb_true_r. simpl. rewrite length_pad.
    split_and!; auto using pad_all; done.
  - rewrite (pad_none 32 (padded size)), length_pad by (unfold padded; lia).
    split_and!; auto using pad_all; simpl; done || lia.
  - rewrite (pad_none 32 (padded size)), (pad_none 32 (padded (padded size))), length_pad
      by (unfold padded; lia).
    split_and!; auto using pad_all; simpl; done || lia.
Qed.

(** The text of a number: spaces, a sign, the prefix of the base, zeros, the digits of
    the number (its absolute value when it is signed, else the 32-bit unsigned number)
    without a leading zero, and spaces.  Padding with spaces is on one side only; the
    whole is as wide as asked for, or as wide as it has to be. *)
Definition number_text (num base size precision type : Z) (out : list Z) : Prop :=
  let neg := flag type SIGN && (num <? 0) in
  let sign := if neg then [45]
              else if flag type PLUS then [43] else if flag type SPACE then [32] else [] in
  let prefix := if flag type SPECIAL
                then (if base =? 8 then [48] else if base =? 16 then [48; digit type 33] else [])
                else [] in
  exists before zeros ds after,
    out = before ++ sign ++ prefix ++ zeros ++ map (digit type) ds ++ after /\
    high_first base 0 ds = (if neg then - num else u32 num) /\
    Forall (fun d => 0 <= d < base) ds /\ ds <> [] /\ (head ds = Some 0 -> ds = [0]) /\
    all_of 32 before /\ all_of 48 zeros /\ all_of 32 after /\
    (before = [] \/ after = []) /\ (flag type LEFT = true -> before = []) /\
    (flag type LEFT = false -> after = []) /\
    Z.of_nat (length out) = Z.max size
      (Z.of_nat (length sign + length prefix) + Z.max (Z.of_nat (length ds)) precision).

Lemma number_writes num base size precision type :
  -2147483648 <= num < 2147483648 -> 2 <= base <= 36 ->
  exists out, number num base size precision type = Some out /\
    number_text num base size precision type out.
Proof.
  intros Hnum [Hb1 Hb2].
  unfold number. rewrite (proj2 (Z.ltb_ge base 2)), (proj2 (Z.ltb_ge 36 base)) by done.
  cbv zeta. cbn [orb].
  pose proof (left_flags type) as Ht.
  set (t := if flag type LEFT then type .& Z.lnot ZEROPAD else type) in *.
  destruct Ht as (Hflag & Hdigit & Hz).
  rewrite !flag_either, !(Hflag SIGN), !(Hflag PLUS), !(Hflag SPACE), !(Hflag SPECIAL),
    !(Hflag LEFT), !Hdigit, !Hz by done.
  clearbody t. set (neg := flag type SIGN && (num <? 0)).
  set (sign := if neg then [45] else _). set (num' := if neg then s32 (- num) else num).
  assert (Hnum' : -2147483648 <= num' < 2147483648 /\ u32 num' = if neg then - num else u32 num).
  { unfold num', neg. destruct (flag type SIGN); simpl; [|done].
    destruct (Z.ltb_spec num 0); [|done]. split; [unfold s32; zlia|]. apply u32_s32. lia. }
  destruct Hnum' as [Hr' Hu].
  destruct (number_tmp t base num' ltac:(lia) Hr') as (ds & -> & Hv & Hd & Hne & Hhead).
  set (prefix := if flag type SPECIAL then (if base =? 8 then _ else _) else _).
  rewrite length_map, <- map_rev, (map_ext _ _ Hdigit).
  match goal with |- context [pad 32 (?x - Z.of_nat (length ds) `max` precision)] =>
    set (sz := x - Z.of_nat (length ds) `max` precision) end.
  assert (Hsz : sz = size - Z.of_nat (length sign + length prefix) - Z.max (Z.of_nat (length ds)) precision).
  { unfold sz, prefix. rewrite Nat2Z.inj_add.
    assert (E : (if bool_decide (sign <> []) then size - 1 else size) = size - Z.of_nat (length sign)).
    { unfold sign. destruct neg, (flag type PLUS), (flag type SPACE); simpl; lia. }
    rewrite E. destruct (flag type SPECIAL); [|simpl; lia].
    destruct (Z.eqb_spec base 16) as [-> | ]; [simpl; lia|]. destruct (base =? 8); simpl; lia. }
  pose proof (number_padding (flag type LEFT) (flag type ZEROPAD) sz) as Hpad. cbv zeta in Hpad.
  destruct Hpad as (Ho1 & Ho2 & Ho3 & Hor & Hl & Hr & Hlen).
  pose proof (pad_all 48 (Z.of_nat (length ds) `max` precision - Z.of_nat (length ds))) as Ho4.
  match type of Ho1 with all_of _ ?x => set (out1 := x) in * end.
  match type of Ho2 with all_of _ ?x => set (out2 := x) in * end.
  match type of Ho3 with all_of _ ?x => set (out3 := x) in * end.
  match type of Ho4 with all_of _ ?x => set (out4 := x) in * end.
  eexists. split; [reflexivity|]. unfold number_text. cbv zeta. fold neg sign prefix.
  exists out1, (out2 ++ out4), (rev ds), out3.
  rewrite <- !app_assoc, high_first_rev, Hv. split_and!; try done.
  - by apply List.Forall_rev.
  - intros E. apply Hne. rewrite <- (rev_involutive ds), E. done.
  - intros E. rewrite rev_alt in E. fold (reverse ds) in E. rewrite head_reverse in E.
    by rewrite (Hhead E).
  - by apply Forall_app.
  - rewrite !length_app, !length_map, !length_rev.
    pose proof (length_pad 48 (Z.of_nat (length ds) `max` precision - Z.of_nat (length ds))) as H4.
    fold out4 in H4. lia.
Qed.

(** [number], for a base from 2 to 36 and every flag, width and precision, writes
    the text of the number as [number_text] describes it; with another base it returns
    the null pointer. *)
Theorem number_spec num base size precision type :
  -2147483648 <= num < 2147483648 ->
  if (2 <=? base) && (base <=? 36)
  then exists out, number num base size precision type = Some out /\
         number_text num base size precision type out
  else number num base size precision type = None.
Proof.
  intros Hnum. destruct ((2 <=? base) && (base <=? 36)) eqn:Eb.
  - apply andb_true_iff in Eb as [?%Z.leb_le ?%Z.leb_le]. by apply number_writes.
  - unfold number. destruct ((base <? 2) || (36 <? base)) eqn:E; [done|]. exfalso.
    apply orb_false_iff in E as [?%Z.ltb_ge ?%Z.ltb_ge].
    apply andb_false_iff in Eb as [?%Z.leb_gt|?%Z.leb_gt]; lia.
Qed.

Lemma number_spec_witness :
  -2147483648 <= -255 < 2147483648 /\
  exists out, number (-255) 16 10 4 (SIGN .| SPECIAL .| SMALL) = Some out /\
    out = bytes_of "   -0x00ff" /\ number_text (-255) 16 10 4 (SIGN .| SPECIAL .| SMALL) out.
Proof.
  split; [lia|].
  destruct (number_spec (-255) 16 10 4 (SIGN .| SPECIAL .| SMALL) ltac:(lia)) as (out & E & H).
  exists out. split; [exact E|]. split; [|exact H].
  assert (E' : number (-255) 16 10 4 (SIGN .| SPECIAL .| SMALL) = Some (bytes_of "   -0x00ff"))
    by (vm_compute; reflexivity).
  rewrite E in E'. by injection E'.
Defined.

(** ** Reading back *)

(** The number that [number] wrote with a minus sign or none, as [skip_atoi] reads it. *)
Definition read_int (s : list Z) : Z * list Z :=
  match s with
  | c :: s' => if c =? 45 then let '(i, rest) := skip_atoi s' in (s32 (- i), rest) else skip_atoi s
  | [] => (0, [])
  end.

Lemma s32_step i c : s32 (s32 (s32 i * 10 + c) - 48) = s32 (i * 10 + (c - 48)).
Proof. unfold s32. zlia. Qed.
Lemma digit_10 type d : 0 <= d < 10 -> digit type d = 48 + d.
Proof.
  intros Hd. assert (d = 0 \/ d = 1 \/ d = 2 \/ d = 3 \/ d = 4 \/ d = 5 \/ d = 6 \/ d = 7 \/ d = 8 \/ d = 9)
    as Hc by lia.
  unfold digit, digits. destruct (flag type SMALL); repeat destruct Hc as [->|Hc]; try done; by subst.
Qed.
Lemma skip_atoi_digits type ds rest : forall i, Forall (fun d => 0 <= d < 10) ds ->
  match rest with c :: _ => is_digit c = false | [] => True end ->
  skip_atoi_from (s32 i) (map (digit type) ds ++ rest) = (s32 (high_first 10 i ds), rest).
Proof.
  induction ds as [|d ds IH]; intros i Hd Hr.
  - simpl. destruct rest as [|c rest]; [done|]. simpl. by rewrite Hr.
  - apply Forall_cons in Hd as [Hd Hds]. simpl. rewrite digit_10 by done.
    unfold is_digit. rewrite (proj2 (Z.leb_le _ _)), (proj2 (Z.leb_le _ _)) by lia. cbn [andb].
    rewrite s32_step. replace (48 + d - 48) with d by lia. by apply IH.
Qed.

Lemma all_none (l : list Z) : Z.of_nat (length l) <= 0 -> l = [].
Proof. destruct l; simpl; [done|lia]. Qed.
Lemma s32_id x : -2147483648 <= x < 2147483648 -> s32 x = x.
Proof. unfold s32. zlia. Qed.
Lemma s32_u32 x : s32 (u32 x) = s32 x.
Proof. unfold s32, u32. zlia. Qed.

(** What [%d] prints: a minus sign, if there has to be one, and the digits. *)
Lemma number_decimal_digits x : -2147483648 <= x < 2147483648 ->
  exists ds, number x 10 (-1) (-1) SIGN =
      Some ((if x <? 0 then [45] else []) ++ map (digit SIGN) ds) /\
    high_first 10 0 ds = Z.abs x /\ Forall (fun d => 0 <= d < 10) ds /\ ds <> [].
Proof.
  intros Hx. destruct (number_writes x 10 (-1) (-1) SIGN Hx ltac:(lia)) as (out & E & H).
  cbv zeta beta delta [number_text] in H.
  change (flag SIGN SIGN) with true in H. change (flag SIGN PLUS) with false in H.
  change (flag SIGN SPACE) with false in H. change (flag SIGN SPECIAL) with false in H.
  destruct H as (before & zeros & ds & after & Eo & Hv & Hd & Hne & _ & _ & _ & _ & _ & _ & _ & Hl).
  cbn [andb] in *. rewrite Eo, !length_app, length_map in Hl.
  assert (before = [] /\ zeros = [] /\ after = []) as (-> & -> & ->).
  { split_and!; apply all_none; simpl in Hl; lia. }
  exists ds. rewrite E, Eo. simpl. rewrite app_nil_r. split; [done|]. split; [|done].
  rewrite Hv. unfold u32. destruct (Z.ltb_spec x 0); zlia.
Qed.
(** ... which is read back, whatever follows. *)
Lemma decimal_reads_back x rest out :
  -2147483648 <= x < 2147483648 -> number x 10 (-1) (-1) SIGN = Some out ->
  match rest with c :: _ => is_digit c = false | [] => True end ->
  read_int (out ++ rest) = (x, rest).
Proof.
  intros Hx Hout Hr. destruct (number_decimal_digits x Hx) as (ds & E & Hv & Hd & Hne).
  rewrite Hout in E. injection E as ->.
  pose proof (skip_atoi_digits SIGN ds rest 0 Hd Hr) as Hs. change (s32 0) with 0 in Hs.
  rewrite Hv in Hs. destruct (Z.ltb_spec x 0) as [Hneg|Hpos]; simpl.
  - unfold skip_atoi. rewrite Hs. f_equal. unfold s32. zlia.
  - rewrite s32_id in Hs by lia. replace (Z.abs x) with x in Hs by lia. rewrite <- Hs.
    unfold read_int. destruct ds as [|d ds]; [done|]. simpl.
    apply Forall_cons in Hd as [Hd _]. rewrite digit_10 by done.
    by destruct (Z.eqb_spec (48 + d) 45); [lia|].
Qed.

Lemma number_decimal x : -2147483648 <= x < 2147483648 ->
  exists out, number x 10 (-1) (-1) SIGN = Some out.
Proof.
  intros Hx. destruct (number_writes x 10 (-1) (-1) SIGN Hx ltac:(lia)) as (out & E & _).
  by exists out.
Qed.

(** * Formats *)

(** Text without [%] is copied, up to the first directive. *)
Lemma vsprintf_loop_text string_at t fmt : Forall (fun c => c <> 37) t ->
  forall n st, vsprintf_loop string_at (length t + n) (t ++ fmt) st =
    vsprintf_loop string_at n fmt (st <| f_str ::= fun s => s ++ t |>).
Proof.
  induction t as [|c t IH]; intros Ht n st.
  - simpl. destruct st as [a s l]. cbn. by rewrite app_nil_r.
  - apply Forall_cons in Ht as [Hc Ht]. simpl.
    destruct (Z.eqb_spec c 37); [done|]. cbn [negb]. rewrite IH by done.
    destruct st as [a s l]. cbn. by rewrite <- app_assoc.
Qed.

Lemma vsprintf_loop_d string_at n fmt st :
  vsprintf_loop string_at (S n) (37 :: 100 :: fmt) st =
    (st ← put_number 10 SIGN (-1) (-1) (st <| f_args := f_args st |>);
     vsprintf_loop string_at n fmt st).
Proof. reflexivity. Qed.

(** C30. Every [int] that [vsprintf] prints with [%d], between texts without [%], is
    read back by [skip_atoi] after the first text, and what follows is the second
    text, if that does not start with a digit; the number returned is the length. *)
Theorem vsprintf_decimal string_at x t1 t2 :
  -2147483648 <= x < 2147483648 ->
  Forall (fun c => c <> 37) t1 -> Forall (fun c => c <> 37) t2 ->
  match t2 with c :: _ => is_digit c = false | [] => True end ->
  exists out, vsprintf string_at (t1 ++ bytes_of "%d" ++ t2) [u32 x] =
      Some (t1 ++ out ++ t2, [], Z.of_nat (length (t1 ++ out ++ t2))) /\
    read_int (out ++ t2) = (x, t2).
Proof.
  intros Hx H1 H2 Hr. destruct (number_decimal x Hx) as (out & E). exists out.
  split; [|by apply decimal_reads_back]. unfold vsprintf.
  rewrite length_app, vsprintf_loop_text by done. change (bytes_of "%d" ++ t2) with (37 :: 100 :: t2).
  cbn [length]. rewrite vsprintf_loop_d. unfold put_number, va_arg. cbn [f_args update_field].
  cbn [mbind option_bind]. rewrite s32_u32, s32_id by done. rewrite E. cbn [mbind option_bind].
  replace (S (length t2)) with (length t2 + 1)%nat by lia.
  rewrite <- (app_nil_r t2) at 2. rewrite vsprintf_loop_text by done.
  destruct t2; cbn; by rewrite <- app_assoc.
Qed.

Lemma vsprintf_decimal_witness :
  vsprintf (fun _ => []) (bytes_of "block %d, free") [u32 (-2147483648)] =
    Some (bytes_of "block -2147483648, free", [], 23) /\
  exists out, vsprintf (fun _ => []) (bytes_of "block " ++ bytes_of "%d" ++ bytes_of ", free")
      [u32 (-2147483648)] = Some (bytes_of "block " ++ out ++ bytes_of ", free", [],
        Z.of_nat (length (bytes_of "block " ++ out ++ bytes_of ", free"))) /\
    read_int (out ++ bytes_of ", free") = (-2147483648, bytes_of ", free").
Proof.
  split; [vm_compute; reflexivity|].
  apply (vsprintf_decimal (fun _ => []) (-2147483648) (bytes_of "block ") (bytes_of ", free"));
    [lia|repeat (constructor; [done|]); constructor..|reflexivity].
Defined.

(** A field width that is taken from the arguments is lost: the [*] is not skipped,
    so the directive ends there and its text is printed in place of the number, which
    stays among the arguments. *)
Theorem vsprintf_star string_at w x :
  vsprintf string_at (bytes_of "%*d") [w; x] = Some (bytes_of "%*d", [], 3).
Proof.
  unfold vsprintf. simpl. by destruct (s32 w <? 0).
Qed.
