(* ===== verification/Mktime.v ===== *)
(** The time of day at start-up: [kernel/mktime.c], and the conversion of the clock's
    registers in [init/main.c]. *)
From S2P Require Import Prelude.

(** include/time.h:18-28 [tm] *)
Record tm : Type := Tm {
  tm_sec : Z;
  tm_min : Z;
  tm_hour : Z;
  tm_mday : Z;
  tm_mon : Z;
  tm_year : Z;
}.

(** kernel/mktime.c:20-23 [YEAR] *)
Definition MINUTE : Z := 60.
Definition HOUR : Z := 60 * MINUTE.
Definition DAY : Z := 24 * HOUR.
Definition YEAR : Z := 365 * DAY.

(** kernel/mktime.c:26-39 [month] *)
Definition month : list Z :=
  [0;
   DAY * 31;
   DAY * (31 + 29);
   DAY * (31 + 29 + 31);
   DAY * (31 + 29 + 31 + 30);
   DAY * (31 + 29 + 31 + 30 + 31);
   DAY * (31 + 29 + 31 + 30 + 31 + 30);
   DAY * (31 + 29 + 31 + 30 + 31 + 30 + 31);
   DAY * (31 + 29 + 31 + 30 + 31 + 30 + 31 + 31);
   DAY * (31 + 29 + 31 + 30 + 31 + 30 + 31 + 31 + 30);
   DAY * (31 + 29 + 31 + 30 + 31 + 30 + 31 + 31 + 30 + 31);
   DAY * (31 + 29 + 31 + 30 + 31 + 30 + 31 + 31 + 30 + 31 + 30)].

(** kernel/mktime.c:42-61 [kernel_mktime]: the arithmetic is 32-bit; the divisions
    truncate *)
Definition kernel_mktime (t : tm) : Z :=
  let year := if 70 <=? tm_year t then s32 (tm_year t - 70) else s32 (tm_year t + 100 - 70) in
  let res := s32 (YEAR * year + DAY * Z.quot (year + 1) 4) in
  let res := s32 (res + nth (Z.to_nat (tm_mon t)) month 0) in
  let res := if (1 <? tm_mon t) && truth (Z.rem (year + 2) 4) then s32 (res - DAY) else res in
  let res := s32 (res + DAY * (tm_mday t - 1)) in
  let res := s32 (res + HOUR * tm_hour t) in
  let res := s32 (res + MINUTE * tm_min t) in
  s32 (res + tm_sec t).

(** init/main.c:75-75 [BCD_TO_BIN] *)
Definition BCD_TO_BIN (val : Z) : Z := (val .& 15) + (val .>> 4) * 10.

(** init/main.c:89-96 [time_init]: what is done with the registers, once they have been
    read within one second *)
Definition time_of_registers (sec min hour mday mon year : Z) : tm :=
  Tm (BCD_TO_BIN sec) (BCD_TO_BIN min) (BCD_TO_BIN hour) (BCD_TO_BIN mday)
    (BCD_TO_BIN mon - 1) (BCD_TO_BIN year).

(** * The calendar *)
Definition leap_year (y : Z) : bool :=
  (y mod 4 =? 0) && (negb (y mod 100 =? 0) || (y mod 400 =? 0)).
Definition days_in_month (y m : Z) : Z :=
  if m =? 1 then (if leap_year y then 29 else 28)
  else if (m =? 3) || (m =? 5) || (m =? 8) || (m =? 10) then 30 else 31.
Definition days_in_year (y : Z) : Z := if leap_year y then 366 else 365.
(** The days from the first of January 1970 to that of [y], and from there to the first
    of month [m]. *)
Definition days_before_year (y : Z) : Z := sum_over days_in_year (seqZ 1970 (y - 1970)).
Definition days_before_month (y m : Z) : Z := sum_over (days_in_month y) (seqZ 0 m).
Definition seconds_since_1970 (y m d hh mm ss : Z) : Z :=
  ((days_before_year y + days_before_month y m + (d - 1)) * 24 + hh) * 3600 + mm * 60 + ss.

(** A date and time that exists. *)
Record valid_time (y m d hh mm ss : Z) : Prop := {
  v_mon : 0 <= m < 12;
  v_day : 1 <= d <= days_in_month y m;
  v_hour : 0 <= hh < 24;
  v_min : 0 <= mm < 60;
  v_sec : 0 <= ss < 60;
}.

(** The years are checked one by one. *)
Definition year_agrees (y : Z) : bool :=
  let year := y - 1970 in
  (days_before_year y =? 365 * year + (year + 1) / 4) &&
  forallb (fun m =>
    DAY * days_before_month y m =?
      nth (Z.to_nat m) month 0 - (if (1 <? m) && truth ((year + 2) mod 4) then DAY else 0))
    (seqZ 0 12).
Lemma years_agree : forallb year_agrees (seqZ 1970 100) = true.
Proof. vm_compute. reflexivity. Qed.

Lemma year_agrees_1970_2069 y m : 1970 <= y < 2070 -> 0 <= m < 12 ->
  days_before_year y = 365 * (y - 1970) + (y - 1970 + 1) / 4 /\
  DAY * days_before_month y m = nth (Z.to_nat m) month 0 -
    (if (1 <? m) && truth ((y - 1970 + 2) mod 4) then DAY else 0).
Proof.
  intros Hy Hm. pose proof years_agree as H. rewrite forallb_forall in H.
  specialize (H y). rewrite <- list_elem_of_In, elem_of_seqZ in H. specialize (H ltac:(lia)).
  unfold year_agrees in H. apply andb_true_iff in H as [H1%Z.eqb_eq H2].
  split; [done|]. rewrite forallb_forall in H2. specialize (H2 m).
  rewrite <- list_elem_of_In, elem_of_seqZ in H2. apply Z.eqb_eq, H2. lia.
Qed.

(** How the clock stores a number below 100. *)
Definition to_bcd (x : Z) : Z := 16 * (x / 10) + x mod 10.
Lemma bcd_back x : 0 <= x < 100 -> BCD_TO_BIN (to_bcd x) = x.
Proof.
  intros Hx. unfold BCD_TO_BIN, to_bcd. change 15 with (Z.ones 4).
  rewrite Z.land_ones, Z.shiftr_div_pow2 by lia. change (2 ^ 4) with 16. zlia.
Qed.

Lemma s32_add_l a b : s32 (s32 a + b) = s32 (a + b).
Proof. unfold s32. zlia. Qed.
(** The steps of a 32-bit sum. *)
Ltac s32_sum := repeat first [rewrite s32_add_l | progress rewrite <- !Z.add_assoc].

(** C31. From the registers of the clock, [kernel_mktime] computes the seconds since the
    first of January 1970 of every date and time that exists in the years 1970 to 2069,
    leap years included, as a 32-bit number: the exact number until 03:14:07 on the
    19th of January 2038. *)
Theorem kernel_mktime_calendar y m d hh mm ss :
  1970 <= y < 2070 -> valid_time y m d hh mm ss ->
  kernel_mktime (time_of_registers (to_bcd ss) (to_bcd mm) (to_bcd hh) (to_bcd d)
                   (to_bcd (m + 1)) (to_bcd (y mod 100))) =
    s32 (seconds_since_1970 y m d hh mm ss).
Proof.
  intros Hy [Hm Hd Hh Hmin Hs]. unfold time_of_registers.
  assert (Hdm : days_in_month y m <= 31) by (unfold days_in_month; repeat case_match; lia).
  rewrite !bcd_back by lia || zlia. unfold kernel_mktime. cbn [tm_sec tm_min tm_hour tm_mday tm_mon tm_year].
  replace (m + 1 - 1) with m by lia.
  assert (Hyear : (if 70 <=? y mod 100 then s32 (y mod 100 - 70) else s32 (y mod 100 + 100 - 70)) = y - 1970).
  { destruct (Z.leb_spec 70 (y mod 100)); unfold s32; zlia. }
  rewrite Hyear. rewrite Z.quot_div_nonneg, Z.rem_mod_nonneg by lia.
  destruct (year_agrees_1970_2069 y m Hy Hm) as [Hby Hbm].
  unfold seconds_since_1970. rewrite Hby.
  replace (((365 * (y - 1970) + (y - 1970 + 1) / 4 + days_before_month y m + (d - 1)) * 24 + hh) * 3600 + mm * 60 + ss)
    with (YEAR * (y - 1970) + DAY * ((y - 1970 + 1) / 4) + DAY * days_before_month y m + DAY * (d - 1)
          + HOUR * hh + MINUTE * mm + ss) by (unfold YEAR, DAY, HOUR, MINUTE; lia).
  rewrite Hbm. clear Hyear Hby Hbm.
  destruct ((1 <? m) && _); rewrite ?Z.sub_0_r, <- ?Z.add_opp_r; s32_sum; f_equal; lia.
Qed.

Lemma kernel_mktime_calendar_witness :
  valid_time 2000 1 29 12 30 15 /\
  kernel_mktime (time_of_registers 0x15 0x30 0x12 0x29 0x02 0x00) = 951827415.
Proof.
  assert (H : valid_time 2000 1 29 12 30 15) by (split; try lia; vm_compute; split; discriminate).
  split; [exact H|].
  pose proof (kernel_mktime_calendar 2000 1 29 12 30 15 ltac:(lia) H) as E.
  change (to_bcd 15) with 0x15 in E. change (to_bcd 30) with 0x30 in E.
  change (to_bcd 12) with 0x12 in E. change (to_bcd 29) with 0x29 in E.
  change (to_bcd (1 + 1)) with 0x02 in E. change (to_bcd (2000 mod 100)) with 0x00 in E.
  rewrite E. vm_compute. reflexivity.
Defined.
