(* ===== verification/Console.v ===== *)
(** The console driver of kernel/chr_drv/console.c and the queues of a terminal
    (include/linux/tty.h): the definitions.

    A [console] holds the file's static variables, the bytes of video memory, the
    queues of the terminal and, newest first, the bytes sent to ports.  The string
    instructions of the inline assembly are [stosw], [movsl] and their versions with
    the direction flag set.  [unsigned long] arithmetic wraps at 32 bits.  The line
    discipline's [copy_to_cooked] and [sysbeep] are not in the repository: they are
    parameters.  The trap gate of the keyboard is not part of the state. *)
From stdpp Require Import base gmap list strings.
From Stdlib Require Import ZArith Lia.
From S2P Require Import Prelude.
Open Scope Z_scope.

(** ** The queues of a terminal *)

(** include/linux/tty.h:14-14 [TTY_BUF_SIZE] *)
Definition TTY_BUF_SIZE : Z := 1024.

(** include/linux/tty.h:16-22 [tty_queue]: the list of sleepers is not used here *)
Record tty_queue : Type := TtyQueue {
  q_data : Z;
  q_head : Z;
  q_tail : Z;
  q_buf : list Z;
}.
#[global] Instance eta_tty_queue : Eta tty_queue :=
  fun q => TtyQueue (q_data q) (q_head q) (q_tail q) (q_buf q).

(** include/linux/tty.h:24-24 [INC] *)
Definition INC (a : Z) : Z := u32 (a + 1) .& (TTY_BUF_SIZE - 1).
(** include/linux/tty.h:25-25 [DEC] *)
Definition DEC (a : Z) : Z := u32 (a - 1) .& (TTY_BUF_SIZE - 1).
(** include/linux/tty.h:26-26 [EMPTY] *)
Definition EMPTY (q : tty_queue) : bool := q_head q =? q_tail q.
(** include/linux/tty.h:27-27 [LEFT] *)
Definition LEFT (q : tty_queue) : Z := u32 (q_tail q - q_head q - 1) .& (TTY_BUF_SIZE - 1).
(** include/linux/tty.h:28-28 [LAST] *)
Definition LAST (q : tty_queue) : Z :=
  nth (Z.to_nat ((TTY_BUF_SIZE - 1) .& u32 (q_head q - 1))) (q_buf q) 0.
(** include/linux/tty.h:29-29 [FULL] *)
Definition FULL (q : tty_queue) : bool := LEFT q =? 0.
(** include/linux/tty.h:30-30 [CHARS] *)
Definition CHARS (q : tty_queue) : Z := u32 (q_head q - q_tail q) .& (TTY_BUF_SIZE - 1).
(** include/linux/tty.h:31-32 [GETCH] *)
Definition GETCH (q : tty_queue) : Z * tty_queue :=
  (nth (Z.to_nat (q_tail q)) (q_buf q) 0, q <| q_tail ::= INC |>).
(** include/linux/tty.h:33-34 [PUTCH] *)
Definition PUTCH (c : Z) (q : tty_queue) : tty_queue :=
  q <| q_buf ::= <[Z.to_nat (q_head q) := u8 c]> |> <| q_head ::= INC |>.

(** include/linux/tty.h:45-53 [tty_struct]: of the termios the control characters;
    the writer of the console's terminal is [con_write] *)
Record tty_struct : Type := TtyStruct {
  c_cc : list Z;
  tty_pgrp : Z;
  tty_stopped : Z;
  read_q : tty_queue;
  write_q : tty_queue;
  secondary : tty_queue;
}.
#[global] Instance eta_tty_struct : Eta tty_struct := fun t =>
  TtyStruct (c_cc t) (tty_pgrp t) (tty_stopped t) (read_q t) (write_q t) (secondary t).

(** include/termios.h:66-66 [VERASE] *)
Definition VERASE : nat := 2.
(** include/linux/tty.h:38-38 [ERASE_CHAR]: an unsigned character *)
Definition ERASE_CHAR (t : tty_struct) : Z := u8 (nth VERASE (c_cc t) 0).

(** A character of a queue, read into a [char]. *)
Definition s8 (c : Z) : Z := (c + 128) mod 256 - 128.

(** ** Video memory *)

Definition peek (m : gmap Z Z) (a : Z) : Z := u8 (default 0 (m !! a)).
Definition store8 (a v : Z) (m : gmap Z Z) : gmap Z Z := <[a := u8 v]> m.
Definition store16 (a v : Z) (m : gmap Z Z) : gmap Z Z :=
  store8 (a + 1) (v / 256) (store8 a v m).
Definition load16 (m : gmap Z Z) (a : Z) : Z := peek m a + 256 * peek m (a + 1).
Definition load32 (m : gmap Z Z) (a : Z) : Z := load16 m a + 65536 * load16 m (a + 2).
Definition store32 (a v : Z) (m : gmap Z Z) : gmap Z Z :=
  store16 (a + 2) (v / 65536) (store16 a v m).

(** [rep stosw]: [n] words from [a] on, upwards ([d = 2]) or downwards ([d = -2]). *)
Fixpoint stosw (d : Z) (n : nat) (a v : Z) (m : gmap Z Z) : gmap Z Z :=
  match n with
  | O => m
  | S n' => stosw d n' (a + d) v (store16 a v m)
  end.
(** [rep movsl]: [n] long words from [src] to [dst], upwards ([d = 4]) or downwards. *)
Fixpoint movsl (d : Z) (n : nat) (src dst : Z) (m : gmap Z Z) : gmap Z Z :=
  match n with
  | O => m
  | S n' => movsl d n' (src + d) (dst + d) (store32 dst (load32 m src) m)
  end.

(** kernel/chr_drv/console.c:45-45 [VIDEO_TYPE_MDA] *)
Definition VIDEO_TYPE_MDA : Z := 0x10.
(** kernel/chr_drv/console.c:46-46 [VIDEO_TYPE_CGA] *)
Definition VIDEO_TYPE_CGA : Z := 0x11.
(** kernel/chr_drv/console.c:47-47 [VIDEO_TYPE_EGAM] *)
Definition VIDEO_TYPE_EGAM : Z := 0x20.
(** kernel/chr_drv/console.c:48-48 [VIDEO_TYPE_EGAC] *)
Definition VIDEO_TYPE_EGAC : Z := 0x21.
(** kernel/chr_drv/console.c:50-50 [NPAR] *)
Definition NPAR : Z := 16.

(** kernel/chr_drv/console.c:54-73 [video_type]: the variables of the file, with the
    saved cursor of lines 426 and 427 *)
Record console : Type := Console {
  video_type : Z;
  video_num_columns : Z;
  video_size_row : Z;
  video_num_lines : Z;
  video_page : Z;
  video_mem_start : Z;
  video_mem_end : Z;
  video_port_reg : Z;
  video_port_val : Z;
  video_erase_char : Z;
  origin : Z;
  scr_end : Z;
  pos : Z;
  cur_x : Z;
  cur_y : Z;
  top : Z;
  bottom : Z;
  con_state : Z;
  npar : Z;
  par : list Z;
  ques : Z;
  attr : Z;
  saved_x : Z;
  saved_y : Z;
  vmem : gmap Z Z;
  tty : tty_struct;
  outs : list (Z * Z);    (* value and port, newest first *)
}.
#[global] Instance eta_console : Eta console := fun k =>
  Console (video_type k) (video_num_columns k) (video_size_row k) (video_num_lines k)
    (video_page k) (video_mem_start k) (video_mem_end k) (video_port_reg k)
    (video_port_val k) (video_erase_char k) (origin k) (scr_end k) (pos k) (cur_x k)
    (cur_y k) (top k) (bottom k) (con_state k) (npar k) (par k) (ques k) (attr k)
    (saved_x k) (saved_y k) (vmem k) (tty k) (outs k).

(** include/asm/io.h:11-14 [outb_p] *)
Definition outb_p (value port : Z) (k : console) : console :=
  k <| outs ::= cons (u8 value, port) |>.

(** ** Cursor and scrolling *)

(** kernel/chr_drv/console.c:83-90 [gotoxy] *)
Definition gotoxy (new_x new_y : Z) (k : console) : console :=
  if (video_num_columns k <? new_x) || (video_num_lines k <=? new_y) then k else
  k <| cur_x := new_x |> <| cur_y := new_y |>
    <| pos := u32 (origin k + new_y * video_size_row k + (new_x .<< 1)) |>.

(** kernel/chr_drv/console.c:92-100 [set_origin] *)
Definition set_origin (k : console) : console :=
  let off := u32 (origin k - video_mem_start k) in
  outb_p (0xff .& (off .>> 1)) (video_port_val k)
    (outb_p 13 (video_port_reg k)
      (outb_p (0xff .& (off .>> 9)) (video_port_val k)
        (outb_p 12 (video_port_reg k) k))).

Definition is_ega (k : console) : bool :=
  (video_type k =? VIDEO_TYPE_EGAC) || (video_type k =? VIDEO_TYPE_EGAM).

(** kernel/chr_drv/console.c:151-161 [scrup]: the rows of the region move up by
    copying (the same assembly as in lines 136-146) *)
Definition copy_up (k : console) : console :=
  let n := u32 ((bottom k - top k - 1) * video_num_columns k) .>> 1 in
  let dst := u32 (origin k + video_size_row k * top k) in
  let src := u32 (origin k + video_size_row k * (top k + 1)) in
  k <| vmem ::= fun m =>
    stosw 2 (Z.to_nat (video_num_columns k)) (dst + 4 * n) (video_erase_char k)
      (movsl 4 (Z.to_nat n) src dst m) |>.

(** kernel/chr_drv/console.c:107-134 [scrup]: the screen's window moves down in video
    memory, back to the start when it would pass the end *)
Definition move_window (k0 : console) : console :=
  let k := k0 <| origin ::= fun o => u32 (o + video_size_row k0) |>
              <| pos ::= fun p => u32 (p + video_size_row k0) |>
              <| scr_end ::= fun e => u32 (e + video_size_row k0) |> in
  set_origin
    (if video_mem_end k <? scr_end k then
       let n := u32 ((video_num_lines k - 1) * video_num_columns k) .>> 1 in
       let k' := k <| vmem ::= fun m =>
         stosw 2 (Z.to_nat (video_num_columns k)) (video_mem_start k + 4 * n)
           (video_erase_char k) (movsl 4 (Z.to_nat n) (origin k) (video_mem_start k) m) |> in
       k' <| scr_end ::= fun e => u32 (e - (origin k - video_mem_start k)) |>
          <| pos ::= fun p => u32 (p - (origin k - video_mem_start k)) |>
          <| origin := video_mem_start k |>
     else
       k <| vmem ::= stosw 2 (Z.to_nat (video_num_columns k))
              (u32 (scr_end k - video_size_row k)) (video_erase_char k) |>).

(** kernel/chr_drv/console.c:102-163 [scrup] *)
Definition scrup (k : console) : console :=
  if is_ega k then
    if (top k =? 0) && (bottom k =? video_num_lines k) then move_window k
    else copy_up k
  else copy_up k.

(** kernel/chr_drv/console.c:165-197 [scrdown]: both branches run the same assembly *)
Definition scrdown (k : console) : console :=
  let n := u32 ((bottom k - top k - 1) * video_num_columns k) .>> 1 in
  let dst := u32 (origin k + video_size_row k * bottom k - 4) in
  let src := u32 (origin k + video_size_row k * (bottom k - 1) - 4) in
  k <| vmem ::= fun m =>
    stosw (-2) (Z.to_nat (video_num_columns k)) (dst - 4 * n + 2) (video_erase_char k)
      (movsl (-4) (Z.to_nat n) src dst m) |>.

(** kernel/chr_drv/console.c:199-207 [lf] *)
Definition lf (k : console) : console :=
  if u32 (cur_y k + 1) <? bottom k then
    k <| cur_y ::= fun y => u32 (y + 1) |> <| pos ::= fun p => u32 (p + video_size_row k) |>
  else scrup k.

(** kernel/chr_drv/console.c:209-217 [ri] *)
Definition ri (k : console) : console :=
  if top k <? cur_y k then
    k <| cur_y ::= fun y => u32 (y - 1) |> <| pos ::= fun p => u32 (p - video_size_row k) |>
  else scrdown k.

(** kernel/chr_drv/console.c:219-223 [cr] *)
Definition cr (k : console) : console :=
  k <| pos ::= fun p => u32 (p - (cur_x k .<< 1)) |> <| cur_x := 0 |>.

(** kernel/chr_drv/console.c:225-232 [del] *)
Definition del (k0 : console) : console :=
  if truth (cur_x k0) then
    let k := k0 <| pos ::= fun p => u32 (p - 2) |> <| cur_x ::= fun x => u32 (x - 1) |> in
    k <| vmem ::= store16 (pos k) (video_erase_char k) |>
  else k0.

(** ** Erasing and editing *)

(** kernel/chr_drv/console.c:255-260 [csi_J]: [count] words from [start] on *)
Definition erase (count start : Z) (k : console) : console :=
  k <| vmem ::= stosw 2 (Z.to_nat (u32 count)) start (video_erase_char k) |>.

(** kernel/chr_drv/console.c:234-261 [csi_J] *)
Definition csi_J (p : Z) (k : console) : console :=
  if p =? 0 then erase (u32 (scr_end k - pos k) .>> 1) (pos k) k
  else if p =? 1 then erase (u32 (pos k - origin k) .>> 1) (origin k) k
  else if p =? 2 then erase (video_num_columns k * video_num_lines k) (origin k) k
  else k.

(** kernel/chr_drv/console.c:263-292 [csi_K] *)
Definition csi_K (p : Z) (k : console) : console :=
  let x := cur_x k in
  if p =? 0 then
    if video_num_columns k <=? x then k else erase (video_num_columns k - x) (pos k) k
  else if p =? 1 then
    erase (if x <? video_num_columns k then x else video_num_columns k)
      (u32 (pos k - (x .<< 1))) k
  else if p =? 2 then erase (video_num_columns k) (u32 (pos k - (x .<< 1))) k
  else k.

Definition par_at (k : console) (i : nat) : Z := nth i (par k) 0.
Definition set_par (i : nat) (f : Z -> Z) (k : console) : console :=
  k <| par ::= alter (fun v => u32 (f v)) i |>.

(** kernel/chr_drv/console.c:299-305 [csi_m] *)
Definition attr_of (p a : Z) : Z :=
  if p =? 0 then 0x07 else if p =? 1 then 0x0f else if p =? 4 then 0x0f
  else if p =? 7 then 0x70 else if p =? 27 then 0x07 else a.
(** kernel/chr_drv/console.c:294-306 [csi_m] *)
Definition csi_m (k : console) : console :=
  fold_left (fun k0 i => k0 <| attr ::= attr_of (par_at k0 i) |>)
    (seq 0 (Z.to_nat (npar k + 1))) k.

(** kernel/chr_drv/console.c:308-316 [set_cursor] *)
Definition set_cursor (k : console) : console :=
  let off := u32 (pos k - video_mem_start k) in
  outb_p (0xff .& (off .>> 1)) (video_port_val k)
    (outb_p 15 (video_port_reg k)
      (outb_p (0xff .& (off .>> 9)) (video_port_val k)
        (outb_p 14 (video_port_reg k) k))).

(** kernel/chr_drv/console.c:337-342 [insert_char]: the rounds of the loop *)
Fixpoint insert_loop (n : nat) (p old : Z) (m : gmap Z Z) : gmap Z Z :=
  match n with
  | O => m
  | S n' => insert_loop n' (p + 2) (load16 m p) (store16 p old m)
  end.
(** kernel/chr_drv/console.c:331-343 [insert_char]: [i] runs from [x] to the last
    column *)
Definition insert_char (k : console) : console :=
  k <| vmem ::= insert_loop (Z.to_nat (video_num_columns k - cur_x k)) (pos k)
                  (video_erase_char k) |>.

(** kernel/chr_drv/console.c:345-356 [insert_line]: [top] and [bottom] pass through an
    int *)
Definition insert_line (k : console) : console :=
  scrdown (k <| top := cur_y k |> <| bottom := video_num_lines k |>)
    <| top := u32 (s32 (top k)) |> <| bottom := u32 (s32 (bottom k)) |>.

(** kernel/chr_drv/console.c:366-369 [delete_char]: the rounds of the loop *)
Fixpoint delete_loop (n : nat) (p : Z) (m : gmap Z Z) : Z * gmap Z Z :=
  match n with
  | O => (p, m)
  | S n' => delete_loop n' (p + 2) (store16 p (load16 m (p + 2)) m)
  end.
(** kernel/chr_drv/console.c:358-371 [delete_char] *)
Definition delete_char (k : console) : console :=
  if video_num_columns k <=? cur_x k then k else
  k <| vmem ::= fun m =>
    let '(p, m') := delete_loop (Z.to_nat (video_num_columns k - cur_x k - 1)) (pos k) m in
    store16 p (video_erase_char k) m' |>.

(** kernel/chr_drv/console.c:373-384 [delete_line] *)
Definition delete_line (k : console) : console :=
  scrup (k <| top := cur_y k |> <| bottom := video_num_lines k |>)
    <| top := u32 (s32 (top k)) |> <| bottom := u32 (s32 (bottom k)) |>.

(** kernel/chr_drv/console.c:386-394 [csi_at]: how often an operation is repeated *)
Definition times (nr limit : Z) : nat :=
  Z.to_nat (if limit <? nr then limit else if nr =? 0 then 1 else nr).
(** kernel/chr_drv/console.c:386-394 [csi_at] *)
Definition csi_at (nr : Z) (k : console) : console :=
  Nat.iter (times nr (video_num_columns k)) insert_char k.
(** kernel/chr_drv/console.c:396-404 [csi_L] *)
Definition csi_L (nr : Z) (k : console) : console :=
  Nat.iter (times nr (video_num_lines k)) insert_line k.
(** kernel/chr_drv/console.c:406-414 [csi_P] *)
Definition csi_P (nr : Z) (k : console) : console :=
  Nat.iter (times nr (video_num_columns k)) delete_char k.
(** kernel/chr_drv/console.c:416-424 [csi_M] *)
Definition csi_M (nr : Z) (k : console) : console :=
  Nat.iter (times nr (video_num_lines k)) delete_line k.

(** kernel/chr_drv/console.c:429-433 [save_cur] *)
Definition save_cur (k : console) : console :=
  k <| saved_x := s32 (cur_x k) |> <| saved_y := s32 (cur_y k) |>.
(** kernel/chr_drv/console.c:435-438 [restore_cur] *)
Definition restore_cur (k : console) : console :=
  gotoxy (u32 (saved_x k)) (u32 (saved_y k)) k.

(** ** Writing *)

Definition set_state (s : Z) (k : console) : console := k <| con_state := s |>.

Section con_write.
Variables copy_to_cooked sysbeep : console -> console.

(** kernel/chr_drv/console.c:81-81 [RESPONSE] *)
Definition RESPONSE : list Z := 27 :: bytes_of "[?1;2c".
(** kernel/chr_drv/console.c:318-329 [respond] *)
Definition respond (k : console) : console :=
  copy_to_cooked (k <| tty ::= fun t =>
    t <| read_q ::= fun q => fold_left (fun q0 c => PUTCH c q0) RESPONSE q |> |>).

(** kernel/chr_drv/console.c:451-455 [con_write]: past the last column, on to the next
    line *)
Definition wrap (k : console) : console :=
  lf (k <| cur_x ::= fun x => u32 (x - video_num_columns k) |>
        <| pos ::= fun p => u32 (p - video_size_row k) |>).
(** kernel/chr_drv/console.c:456-461 [con_write]: the character and its attribute *)
Definition con_put (c : Z) (k : console) : console :=
  k <| vmem ::= store16 (pos k) (u8 c + 256 * u8 (attr k)) |>
    <| pos ::= fun p => u32 (p + 2) |> <| cur_x ::= fun x => u32 (x + 1) |>.

(** kernel/chr_drv/console.c:470-474 [con_write]: backspace *)
Definition back (k : console) : console :=
  if truth (cur_x k) then
    k <| cur_x ::= fun x => u32 (x - 1) |> <| pos ::= fun p => u32 (p - 2) |>
  else k.
(** kernel/chr_drv/console.c:475-484 [con_write]: tab *)
Definition tab (k0 : console) : console :=
  let d := 8 - (cur_x k0 .& 7) in
  let k := k0 <| cur_x ::= fun x => u32 (x + d) |>
              <| pos ::= fun p => u32 (p + (d .<< 1)) |> in
  if video_num_columns k <? cur_x k then wrap k else k.

(** kernel/chr_drv/console.c:449-487 [con_write]: outside an escape sequence *)
Definition con_plain (c : Z) (k : console) : console :=
  if (31 <? c) && (c <? 127) then
    con_put c (if video_num_columns k <=? cur_x k then wrap k else k)
  else if c =? 27 then set_state 1 k
  else if (c =? 10) || (c =? 11) || (c =? 12) then lf k
  else if c =? 13 then cr k
  else if c =? ERASE_CHAR (tty k) then del k
  else if c =? 8 then back k
  else if c =? 9 then tab k
  else if c =? 7 then sysbeep k
  else k.

(** kernel/chr_drv/console.c:488-504 [con_write]: after ESC *)
Definition con_escape (c : Z) (k0 : console) : console :=
  let k := set_state 0 k0 in
  if c =? 91 (* [ *) then set_state 2 k
  else if c =? 69 (* E *) then gotoxy 0 (u32 (cur_y k + 1)) k
  else if c =? 77 (* M *) then ri k
  else if c =? 68 (* D *) then lf k
  else if c =? 90 (* Z *) then respond k
  else if cur_x k =? 55 (* x=='7' *) then save_cur k
  else if cur_x k =? 56 (* x=='8' *) then restore_cur k
  else k.

(** kernel/chr_drv/console.c:556-557 [con_write]: [if (par[i]) par[i]--;] *)
Definition par_dec (i : nat) (k : console) : console :=
  if truth (par_at k i) then set_par i (fun p => p - 1) k else k.
(** kernel/chr_drv/console.c:528-528 [con_write]: [if (!par[0]) par[0]++;] *)
Definition par_inc (k : console) : console :=
  if truth (par_at k 0) then k else set_par 0 (fun p => p + 1) k.

(** kernel/chr_drv/console.c:583-583 [con_write]: [if (!par[1]) par[1] = video_num_lines;] *)
Definition par_lines (k : console) : console :=
  if truth (par_at k 1) then k else set_par 1 (fun _ => video_num_lines k) k.
(** kernel/chr_drv/console.c:582-588 [con_write]: the region that scrolls *)
Definition csi_r (k0 : console) : console :=
  let k := par_lines (par_dec 0 k0) in
  if (par_at k 0 <? par_at k 1) && (par_at k 1 <=? video_num_lines k) then
    k <| top := par_at k 0 |> <| bottom := par_at k 1 |>
  else k.

(** kernel/chr_drv/console.c:520-596 [con_write]: the final character of a control
    sequence *)
Definition con_final (c : Z) (k0 : console) : console :=
  let k := set_state 0 k0 in
  if (c =? 71) || (c =? 96) (* G ` *) then
    let k := par_dec 0 k in gotoxy (par_at k 0) (cur_y k) k
  else if c =? 65 (* A *) then
    let k := par_inc k in gotoxy (cur_x k) (u32 (cur_y k - par_at k 0)) k
  else if (c =? 66) || (c =? 101) (* B e *) then
    let k := par_inc k in gotoxy (cur_x k) (u32 (cur_y k + par_at k 0)) k
  else if (c =? 67) || (c =? 97) (* C a *) then
    let k := par_inc k in gotoxy (u32 (cur_x k + par_at k 0)) (cur_y k) k
  else if c =? 68 (* D *) then
    let k := par_inc k in gotoxy (u32 (cur_x k - par_at k 0)) (cur_y k) k
  else if c =? 69 (* E *) then
    let k := par_inc k in gotoxy 0 (u32 (cur_y k + par_at k 0)) k
  else if c =? 70 (* F *) then
    let k := par_inc k in gotoxy 0 (u32 (cur_y k - par_at k 0)) k
  else if c =? 100 (* d *) then
    let k := par_dec 0 k in gotoxy (cur_x k) (par_at k 0) k
  else if (c =? 72) || (c =? 102) (* H f *) then
    let k := par_dec 1 (par_dec 0 k) in gotoxy (par_at k 1) (par_at k 0) k
  else if c =? 74 (* J *) then csi_J (s32 (par_at k 0)) k
  else if c =? 75 (* K *) then csi_K (s32 (par_at k 0)) k
  else if c =? 76 (* L *) then csi_L (par_at k 0) k
  else if c =? 77 (* M *) then csi_M (par_at k 0) k
  else if c =? 80 (* P *) then csi_P (par_at k 0) k
  else if c =? 64 (* @ *) then csi_at (par_at k 0) k
  else if c =? 109 (* m *) then csi_m k
  else if c =? 114 (* r *) then csi_r k
  else if c =? 115 (* s *) then save_cur k
  else if c =? 117 (* u *) then restore_cur k
  else k.

(** kernel/chr_drv/console.c:512-519 [con_write]: the numbers of a control sequence *)
Definition con_number (c : Z) (k : console) : console :=
  if (c =? 59 (* ; *)) && (npar k <? NPAR - 1) then k <| npar ::= fun n => n + 1 |>
  else if (48 <=? c) && (c <=? 57) then
    set_par (Z.to_nat (npar k)) (fun p => 10 * p + c - 48) k
  else con_final c (set_state 4 k).

(** kernel/chr_drv/console.c:505-511 [con_write]: after ESC [ *)
Definition con_bracket (c : Z) (k0 : console) : console :=
  let k := k0 <| par := replicate (Z.to_nat NPAR) 0 |> <| npar := 0 |> <| con_state := 3 |>
              <| ques := b2z (c =? 63 (* ? *)) |> in
  if c =? 63 then k else con_number c k.

(** kernel/chr_drv/console.c:448-597 [con_write]: one character *)
Definition con_char (c : Z) (k : console) : console :=
  if con_state k =? 0 then con_plain c k
  else if con_state k =? 1 then con_escape c k
  else if con_state k =? 2 then con_bracket c k
  else if con_state k =? 3 then con_number c k
  else if con_state k =? 4 then con_final c k
  else k.

(** kernel/chr_drv/console.c:446-598 [con_write]: [nr] characters of the queue *)
Fixpoint con_loop (nr : nat) (k : console) : console :=
  match nr with
  | O => k
  | S n =>
      let '(c, q) := GETCH (write_q (tty k)) in
      con_loop n (con_char (s8 c) (k <| tty ::= fun t => t <| write_q := q |> |>))
  end.

(** kernel/chr_drv/console.c:440-600 [con_write] *)
Definition con_write (k : console) : console :=
  set_cursor (con_loop (Z.to_nat (CHARS (write_q (tty k)))) k).
End con_write.

(** ** Start *)

Section con_init.
(** What setup.s left at 0x90000, byte by byte, and the ports' values. *)
Variables (bios : Z -> Z) (inb_p : Z -> Z).

Definition bios16 (a : Z) : Z := bios a + 256 * bios (a + 1).
(** kernel/chr_drv/console.c:35-35 [ORIG_X] *)
Definition ORIG_X : Z := bios 0x90000.
(** kernel/chr_drv/console.c:36-36 [ORIG_Y] *)
Definition ORIG_Y : Z := bios 0x90001.
(** kernel/chr_drv/console.c:37-37 [ORIG_VIDEO_PAGE] *)
Definition ORIG_VIDEO_PAGE : Z := bios16 0x90004.
(** kernel/chr_drv/console.c:38-38 [ORIG_VIDEO_MODE] *)
Definition ORIG_VIDEO_MODE : Z := bios16 0x90006 .& 0xff.
(** kernel/chr_drv/console.c:39-39 [ORIG_VIDEO_COLS] *)
Definition ORIG_VIDEO_COLS : Z := (bios16 0x90006 .& 0xff00) .>> 8.
(** kernel/chr_drv/console.c:40-40 [ORIG_VIDEO_LINES] *)
Definition ORIG_VIDEO_LINES : Z := 25.
(** kernel/chr_drv/console.c:42-42 [ORIG_VIDEO_EGA_BX] *)
Definition ORIG_VIDEO_EGA_BX : Z := bios16 0x9000a.

(** kernel/chr_drv/console.c:624-659 [con_init]: the card *)
Definition set_card (k : console) : string * console :=
  if ORIG_VIDEO_MODE =? 7 then
    let k := k <| video_mem_start := 0xb0000 |> <| video_port_reg := 0x3b4 |>
               <| video_port_val := 0x3b5 |> in
    if negb ((ORIG_VIDEO_EGA_BX .& 0xff) =? 0x10) then
      ("EGAm"%string, k <| video_type := VIDEO_TYPE_EGAM |> <| video_mem_end := 0xb8000 |>)
    else
      ("*MDA"%string, k <| video_type := VIDEO_TYPE_MDA |> <| video_mem_end := 0xb2000 |>)
  else
    let k := k <| video_mem_start := 0xb8000 |> <| video_port_reg := 0x3d4 |>
               <| video_port_val := 0x3d5 |> in
    if negb ((ORIG_VIDEO_EGA_BX .& 0xff) =? 0x10) then
      ("EGAc"%string, k <| video_type := VIDEO_TYPE_EGAC |> <| video_mem_end := 0xbc000 |>)
    else
      ("*CGA"%string, k <| video_type := VIDEO_TYPE_CGA |> <| video_mem_end := 0xba000 |>).

(** kernel/chr_drv/console.c:663-668 [con_init]: the characters of the name, each to the
    low byte of a cell *)
Fixpoint put_desc (p : Z) (s : list Z) (m : gmap Z Z) : gmap Z Z :=
  match s with
  | [] => m
  | c :: s' => put_desc (p + 2) s' (store8 p c m)
  end.

(** kernel/chr_drv/console.c:612-683 [con_init] *)
Definition con_init (k0 : console) : console :=
  let k := k0 <| video_num_columns := ORIG_VIDEO_COLS |>
              <| video_size_row := ORIG_VIDEO_COLS * 2 |>
              <| video_num_lines := ORIG_VIDEO_LINES |>
              <| video_page := u8 ORIG_VIDEO_PAGE |>
              <| video_erase_char := 0x0720 |> in
  let '(display_desc, k) := set_card k in
  let k := k <| vmem ::= put_desc (video_mem_start k + video_size_row k - 8)
                           (bytes_of display_desc) |> in
  let k := k <| origin := video_mem_start k |>
             <| scr_end := video_mem_start k + video_num_lines k * video_size_row k |>
             <| top := 0 |> <| bottom := video_num_lines k |> in
  let k := gotoxy ORIG_X ORIG_Y k in
  let k := outb_p (inb_p 0x21 .& 0xfd) 0x21 k in
  let a := u8 (inb_p 0x61) in
  outb_p a 0x61 (outb_p (a .| 0x80) 0x61 k).
End con_init.
