(* ===== verification/Screen.v ===== *)
(** What the console driver of [Console] does to the screen.

    [wf_console] is the geometry the driver keeps: the window of the screen lies in
    video memory and [pos] is the address of the cursor's cell.  Everything is stated of
    the cells of the screen, by row and column, whether the driver scrolls by copying or
    by moving the window: scrolling, erasing, the text that is typed, the cursor's
    addressing, and that no store leaves video memory. *)
From stdpp Require Import base gmap list strings.
From Stdlib Require Import ZArith Lia.
From S2P Require Import Prelude Vsprintf Console.
Open Scope Z_scope.

(** ** Video memory

    [within lo hi m m']: [m'] differs from [m] only in the bytes from [lo] to [hi]. *)
Definition within (lo hi : Z) (m m' : gmap Z Z) : Prop :=
  forall b, b < lo \/ hi <= b -> peek m' b = peek m b.

Lemma peek_store8 a v m b : peek (store8 a v m) b = if b =? a then u8 v else peek m b.
Proof.
  unfold peek, store8. destruct (Z.eqb_spec b a) as [-> | Hb].
  - rewrite lookup_insert_eq. simpl. apply u8_small, u8_range.
  - by rewrite lookup_insert_ne by congruence.
Qed.
Lemma peek_range m a : 0 <= peek m a < 256.
Proof. apply u8_range. Qed.

Lemma within_refl lo hi m : within lo hi m m.
Proof. by intros b Hb. Qed.
Lemma within_trans lo hi m1 m2 m3 :
  within lo hi m1 m2 -> within lo hi m2 m3 -> within lo hi m1 m3.
Proof. intros H1 H2 b Hb. by rewrite (H2 b Hb), (H1 b Hb). Qed.
Lemma within_weaken lo hi lo' hi' m m' :
  within lo hi m m' -> lo' <= lo -> hi <= hi' -> within lo' hi' m m'.
Proof. intros H Hlo Hhi b Hb. apply H. lia. Qed.
Lemma within_load16 lo hi m m' b :
  within lo hi m m' -> b + 2 <= lo \/ hi <= b -> load16 m' b = load16 m b.
Proof. intros H Hb. unfold load16. by rewrite !H by lia. Qed.

Lemma store16_within a v m : within a (a + 2) m (store16 a v m).
Proof.
  intros b Hb. unfold store16. rewrite !peek_store8.
  destruct (Z.eqb_spec b (a + 1)), (Z.eqb_spec b a); lia.
Qed.
Lemma load16_store16 a v m : load16 (store16 a v m) a = u16 v.
Proof.
  unfold load16, store16. rewrite !peek_store8, Z.eqb_refl.
  destruct (Z.eqb_spec (a + 1) a), (Z.eqb_spec a (a + 1)); [lia..|].
  rewrite Z.eqb_refl. unfold u8, u16. zlia.
Qed.
Lemma load16_range m a : 0 <= load16 m a < 65536.
Proof. unfold load16. pose proof (peek_range m a). pose proof (peek_range m (a + 1)). lia. Qed.
Lemma store32_within a v m : within a (a + 4) m (store32 a v m).
Proof.
  unfold store32. eapply within_trans.
  - eapply within_weaken; [apply (store16_within a v)|lia..].
  - eapply within_weaken; [apply store16_within|lia..].
Qed.
Lemma load16_store32_load32 d s m b :
  b = d \/ b = d + 2 -> load16 (store32 d (load32 m s) m) b = load16 m (b - d + s).
Proof.
  intros Hb. unfold store32, load32.
  pose proof (load16_range m s). pose proof (load16_range m (s + 2)).
  destruct Hb as [-> | ->].
  - rewrite (within_load16 _ _ _ _ _ (store16_within (d + 2) _ _)) by lia.
    rewrite load16_store16. replace (d - d + s) with s by lia. unfold u16. zlia.
  - rewrite load16_store16. replace (d + 2 - d + s) with (s + 2) by lia. unfold u16. zlia.
Qed.

Lemma stosw_up_within n a v m : within a (a + 2 * Z.of_nat n) m (stosw 2 n a v m).
Proof.
  revert a m. induction n as [|n IH]; intros a m; [apply within_refl|]. simpl.
  eapply within_trans; [|eapply within_weaken; [apply IH|lia..]].
  eapply within_weaken; [apply store16_within|lia..].
Qed.
Lemma stosw_down_within n a v m :
  within (a + 2 - 2 * Z.of_nat n) (a + 2) m (stosw (-2) n a v m).
Proof.
  revert a m. induction n as [|n IH]; intros a m; [apply within_refl|]. simpl.
  eapply within_trans; [|eapply within_weaken; [apply IH|lia..]].
  eapply within_weaken; [apply store16_within|lia..].
Qed.
Lemma movsl_up_within n s d m : within d (d + 4 * Z.of_nat n) m (movsl 4 n s d m).
Proof.
  revert s d m. induction n as [|n IH]; intros s d m; [apply within_refl|]. simpl.
  eapply within_trans; [|eapply within_weaken; [apply IH|lia..]].
  eapply within_weaken; [apply store32_within|lia..].
Qed.
Lemma movsl_down_within n s d m :
  within (d + 4 - 4 * Z.of_nat n) (d + 4) m (movsl (-4) n s d m).
Proof.
  revert s d m. induction n as [|n IH]; intros s d m; [apply within_refl|]. simpl.
  eapply within_trans; [|eapply within_weaken; [apply IH|lia..]].
  eapply within_weaken; [apply store32_within|lia..].
Qed.

(** The words a block store or a block move leaves: the [j]th word from its start. *)
Lemma stosw_up_word n a v m j : 0 <= j < Z.of_nat n ->
  load16 (stosw 2 n a v m) (a + 2 * j) = u16 v.
Proof.
  revert a j m. induction n as [|n IH]; intros a j m Hj; [lia|]. simpl.
  destruct (decide (j = 0)) as [-> | ].
  - rewrite (within_load16 _ _ _ _ _ (stosw_up_within _ _ _ _)) by lia.
    replace (a + 2 * 0) with a by lia. apply load16_store16.
  - replace (a + 2 * j) with (a + 2 + 2 * (j - 1)) by lia. apply IH. lia.
Qed.
Lemma stosw_down_word n a v m j : 0 <= j < Z.of_nat n ->
  load16 (stosw (-2) n a v m) (a - 2 * j) = u16 v.
Proof.
  revert a j m. induction n as [|n IH]; intros a j m Hj; [lia|]. simpl.
  destruct (decide (j = 0)) as [-> | ].
  - rewrite (within_load16 _ _ _ _ _ (stosw_down_within _ _ _ _)) by lia.
    replace (a - 2 * 0) with a by lia. apply load16_store16.
  - replace (a - 2 * j) with (a + -2 - 2 * (j - 1)) by lia. apply IH. lia.
Qed.
Lemma movsl_up_word n s d m j : d + 4 <= s -> 0 <= j < 2 * Z.of_nat n ->
  load16 (movsl 4 n s d m) (d + 2 * j) = load16 m (s + 2 * j).
Proof.
  revert s d j m. induction n as [|n IH]; intros s d j m Hsd Hj; [lia|]. simpl.
  destruct (decide (j < 2)).
  - rewrite (within_load16 _ _ _ _ _ (movsl_up_within _ _ _ _)) by lia.
    rewrite load16_store32_load32 by lia. f_equal. lia.
  - replace (d + 2 * j) with (d + 4 + 2 * (j - 2)) by lia. rewrite IH by lia.
    rewrite (within_load16 _ _ _ _ _ (store32_within _ _ _)) by lia. f_equal. lia.
Qed.
Lemma movsl_down_word n s d m j : s + 4 <= d -> 0 <= j < 2 * Z.of_nat n ->
  load16 (movsl (-4) n s d m) (d + 2 - 2 * j) = load16 m (s + 2 - 2 * j).
Proof.
  revert s d j m. induction n as [|n IH]; intros s d j m Hsd Hj; [lia|]. simpl.
  destruct (decide (j < 2)).
  - rewrite (within_load16 _ _ _ _ _ (movsl_down_within _ _ _ _)) by lia.
    rewrite load16_store32_load32 by lia. f_equal. lia.
  - replace (d + 2 - 2 * j) with (d + -4 + 2 - 2 * (j - 2)) by lia. rewrite IH by lia.
    rewrite (within_load16 _ _ _ _ _ (store32_within _ _ _)) by lia. f_equal. lia.
Qed.

(** ** The geometry of the driver *)

(** What con_init reads off the card, which nothing changes later. *)
Definition card (k : console) : list Z :=
  [video_type k; video_num_columns k; video_size_row k; video_num_lines k;
   video_mem_start k; video_mem_end k; video_erase_char k].

Record card_ok (k : console) : Prop := {
  columns_ok : 8 <= video_num_columns k < 256;
  columns_even : exists h, video_num_columns k = 2 * h;
  size_row_ok : video_size_row k = 2 * video_num_columns k;
  lines_ok : 0 < video_num_lines k < 256;
  memory_ok : 0xb0000 <= video_mem_start k /\ video_mem_end k <= 0xc0000;
}.
(** The window lies in video memory. *)
Record window_ok (k : console) : Prop := {
  origin_ok : video_mem_start k <= origin k;
  scr_end_ok : scr_end k = origin k + video_num_lines k * video_size_row k;
  scr_end_le : scr_end k <= video_mem_end k;
}.
(** The cursor is on the screen, or just behind a row; the address of its cell is [pos]. *)
Record cursor_ok (k : console) : Prop := {
  cur_x_ok : 0 <= cur_x k <= video_num_columns k;
  cur_y_ok : 0 <= cur_y k < video_num_lines k;
  pos_ok : pos k = origin k + cur_y k * video_size_row k + 2 * cur_x k;
}.
Record region_ok (k : console) : Prop := {
  region_order : 0 <= top k < bottom k;
  region_end : bottom k <= video_num_lines k;
}.
(** The numbers of a control sequence are unsigned and fit the array. *)
Record parser_ok (k : console) : Prop := {
  par_length : length (par k) = 16%nat;
  par_range : Forall (fun p => 0 <= p < 2 ^ 32) (par k);
  npar_ok : 0 <= npar k < NPAR;
}.
Record wf_console (k : console) : Prop := {
  wf_card : card_ok k;
  wf_window : window_ok k;
  wf_cursor : cursor_ok k;
  wf_region : region_ok k;
  wf_parser : parser_ok k;
}.

(** The cell at row [r], column [c] of the screen: character and attribute. *)
Definition cell (k : console) (r c : Z) : Z :=
  load16 (vmem k) (origin k + r * video_size_row k + 2 * c).
Definition on_screen (k : console) (r c : Z) : Prop :=
  0 <= r < video_num_lines k /\ 0 <= c < video_num_columns k.
Definition blank (k : console) : Z := u16 (video_erase_char k).

(** A well-formed step: the driver stays well-formed and stores into video memory only. *)
Record safe (k k' : console) : Prop := {
  safe_wf : wf_console k';
  safe_card : card k' = card k;
  safe_memory : within (video_mem_start k) (video_mem_end k) (vmem k) (vmem k');
}.
Lemma safe_refl k : wf_console k -> safe k k.
Proof. intros H. split; [done..|apply within_refl]. Qed.
Lemma safe_trans k1 k2 k3 : safe k1 k2 -> safe k2 k3 -> safe k1 k3.
Proof.
  intros [H1 C1 M1] [H2 C2 M2]. split; [done|congruence|].
  unfold card in C1. injection C1 as E1 E2 E3 E4 E5 E6 E7.
  rewrite E5, E6 in M2. by eapply within_trans.
Qed.

(** [geom Hk] puts the geometry of a well-formed driver [k] in the context. *)
Ltac geom H :=
  let h := fresh "h" in
  destruct H as [[? [h ?] ? ? []] [? ? ?] [? ? ?] [? ?] [? ? ?]]; cbv beta in *.

(** A product of a row number and a row's size, bounded. *)
Lemma row_le a b n : 0 <= n -> a <= b -> a * n <= b * n.
Proof. intros. nia. Qed.

Lemma half_cells a h : u32 (a * (2 * h)) .>> 1 = a * h \/ ~ 0 <= a * (2 * h) < 2 ^ 32.
Proof.
  destruct (decide (0 <= a * (2 * h) < 2 ^ 32)) as [H|]; [left|by right].
  rewrite shiftr_div, u32_small by lia. replace (a * (2 * h)) with (a * h * 2) by ring.
  apply Z.div_mul. lia.
Qed.

(** ** Scrolling *)

(** The rows [t] to [b] of the window move up by one, the last one is blank. *)
Definition scrolled_up (k k' : console) (t b : Z) : Prop :=
  forall r c, on_screen k r c ->
    cell k' r c = if (t <=? r) && (r <? b - 1) then cell k (r + 1) c
                  else if r =? b - 1 then blank k else cell k r c.
Definition scrolled_down (k k' : console) (t b : Z) : Prop :=
  forall r c, on_screen k r c ->
    cell k' r c = if (t <? r) && (r <? b) then cell k (r - 1) c
                  else if r =? t then blank k else cell k r c.

(** What copying [n] rows of [2 * h] cells from [src] up to [dst], and blanking the row behind them,
    does to the cell [c] of row [r], counted from [dst]. *)
Lemma copy_rows_up m src dst h n e r c : dst + 4 <= src -> 0 < h -> 0 <= n -> 0 <= c < 2 * h ->
  load16 (stosw 2 (Z.to_nat (2 * h)) (dst + 4 * (n * h)) e
            (movsl 4 (Z.to_nat (n * h)) src dst m)) (dst + r * (4 * h) + 2 * c) =
  if (0 <=? r) && (r <? n) then load16 m (src + r * (4 * h) + 2 * c)
  else if r =? n then u16 e else load16 m (dst + r * (4 * h) + 2 * c).
Proof.
  intros Hsd Hh Hn Hc.
  destruct (Z.leb_spec 0 r), (Z.ltb_spec r n); cbn [andb].
  2: destruct (Z.eqb_spec r n) as [-> | Hr].
  - rewrite (within_load16 _ _ _ _ _ (stosw_up_within _ _ _ _)) by (rewrite ?Z2Nat.id by nia; nia).
    replace (dst + r * (4 * h) + 2 * c) with (dst + 2 * (r * (2 * h) + c)) by ring.
    rewrite movsl_up_word by nia. f_equal. ring.
  - replace (dst + n * (4 * h) + 2 * c) with (dst + 4 * (n * h) + 2 * c) by ring.
    apply stosw_up_word. lia.
  - rewrite (within_load16 _ _ _ _ _ (stosw_up_within _ _ _ _)) by (rewrite ?Z2Nat.id by nia; nia).
    by rewrite (within_load16 _ _ _ _ _ (movsl_up_within _ _ _ _)) by (rewrite ?Z2Nat.id by nia; nia).
  - destruct (Z.eqb_spec r n); [lia|].
    rewrite (within_load16 _ _ _ _ _ (stosw_up_within _ _ _ _)) by (rewrite ?Z2Nat.id by nia; nia).
    by rewrite (within_load16 _ _ _ _ _ (movsl_up_within _ _ _ _)) by (rewrite ?Z2Nat.id by nia; nia).
  - destruct (Z.eqb_spec r n); [lia|].
    rewrite (within_load16 _ _ _ _ _ (stosw_up_within _ _ _ _)) by (rewrite ?Z2Nat.id by nia; nia).
    by rewrite (within_load16 _ _ _ _ _ (movsl_up_within _ _ _ _)) by (rewrite ?Z2Nat.id by nia; nia).
Qed.
Lemma copy_rows_up_within m src dst h n e : 0 < h -> 0 <= n ->
  within dst (dst + (n + 1) * (4 * h)) m
    (stosw 2 (Z.to_nat (2 * h)) (dst + 4 * (n * h)) e
      (movsl 4 (Z.to_nat (n * h)) src dst m)).
Proof.
  intros Hh Hn. eapply within_trans.
  2: eapply within_weaken; [apply stosw_up_within|rewrite ?Z2Nat.id by nia; nia..].
  eapply within_weaken; [apply movsl_up_within|rewrite ?Z2Nat.id by nia; nia..].
Qed.

(** Downwards: [dst] is the last long word of the [n + 1]st row from [base]. *)
Lemma copy_rows_down m base h n e r c : 0 < h -> 0 <= n -> 0 <= c < 2 * h ->
  let dst := base + (n + 1) * (4 * h) - 4 in
  load16 (stosw (-2) (Z.to_nat (2 * h)) (dst - 4 * (n * h) + 2) e
            (movsl (-4) (Z.to_nat (n * h)) (dst - 4 * h) dst m)) (base + r * (4 * h) + 2 * c) =
  if (0 <? r) && (r <? n + 1) then load16 m (base + (r - 1) * (4 * h) + 2 * c)
  else if r =? 0 then u16 e else load16 m (base + r * (4 * h) + 2 * c).
Proof.
  intros Hh Hn Hc dst. subst dst.
  destruct (Z.ltb_spec 0 r), (Z.ltb_spec r (n + 1)); cbn [andb].
  2: destruct (Z.eqb_spec r 0); [lia|].
  3: destruct (Z.eqb_spec r 0) as [-> | Hr].
  - rewrite (within_load16 _ _ _ _ _ (stosw_down_within _ _ _ _)) by (rewrite ?Z2Nat.id by nia; nia).
    replace (base + r * (4 * h) + 2 * c) with
      (base + (n + 1) * (4 * h) - 4 + 2 - 2 * ((n + 1 - r) * (2 * h) - 1 - c)) by ring.
    rewrite movsl_down_word by nia. f_equal. ring.
  - rewrite (within_load16 _ _ _ _ _ (stosw_down_within _ _ _ _)) by (rewrite ?Z2Nat.id by nia; nia).
    by rewrite (within_load16 _ _ _ _ _ (movsl_down_within _ _ _ _)) by (rewrite ?Z2Nat.id by nia; nia).
  - replace (base + 0 * (4 * h) + 2 * c) with
      (base + (n + 1) * (4 * h) - 4 - 4 * (n * h) + 2 - 2 * (2 * h - 1 - c)) by ring.
    apply stosw_down_word. lia.
  - rewrite (within_load16 _ _ _ _ _ (stosw_down_within _ _ _ _)) by (rewrite ?Z2Nat.id by nia; nia).
    by rewrite (within_load16 _ _ _ _ _ (movsl_down_within _ _ _ _)) by (rewrite ?Z2Nat.id by nia; nia).
  - lia.
Qed.
Lemma copy_rows_down_within m base h n e : 0 < h -> 0 <= n ->
  let dst := base + (n + 1) * (4 * h) - 4 in
  within base (base + (n + 1) * (4 * h)) m
    (stosw (-2) (Z.to_nat (2 * h)) (dst - 4 * (n * h) + 2) e
      (movsl (-4) (Z.to_nat (n * h)) (dst - 4 * h) dst m)).
Proof.
  intros Hh Hn dst. subst dst. eapply within_trans.
  2: eapply within_weaken; [apply stosw_down_within|rewrite ?Z2Nat.id by nia; nia..].
  eapply within_weaken; [apply movsl_down_within|rewrite ?Z2Nat.id by nia; nia..].
Qed.

(** What scrolling leaves alone: the card, the region, the cursor's cell on the screen,
    the parser, the terminal. *)
Definition rest (k : console) : Z * Z * Z * Z * Z * Z * list Z * Z * Z * Z * Z * tty_struct :=
  (cur_x k, cur_y k, top k, bottom k, con_state k, npar k, par k, ques k, attr k,
   saved_x k, saved_y k, tty k).
Record scrolls (k k' : console) : Prop := {
  sc_card : card k' = card k;
  sc_rest : rest k' = rest k;
  sc_window : window_ok k';
  sc_pos : pos k' = pos k - origin k + origin k';
  sc_memory : within (video_mem_start k) (video_mem_end k) (vmem k) (vmem k');
}.

Lemma scrolls_safe k k' : wf_console k -> scrolls k k' -> safe k k'.
Proof.
  intros [Hc Hw Hu Hr Hp] [Ec Er Hw' Ep Hm]. split; [|done..].
  unfold card in Ec. unfold rest in Er.
  injection Ec as E1 E2 E3 E4 E5 E6 E7.
  injection Er as R1 R2 R3 R4 R5 R6 R7 R8 R9 R10 R11 R12.
  split.
  - destruct Hc as [? [h ?] ? ? []]. split; rewrite ?E2, ?E3, ?E4, ?E5, ?E6; eauto.
  - done.
  - destruct Hu. split; rewrite ?R1, ?R2, ?E2, ?E3, ?E4; [done..|lia].
  - destruct Hr. split; rewrite ?R3, ?R4, ?E4; done.
  - destruct Hp. split; rewrite ?R6, ?R7; done.
Qed.

(** The block that is moved, in long words, and its addresses do not wrap. *)
Lemma region_words k : card_ok k -> region_ok k ->
  exists h, video_num_columns k = 2 * h /\ video_size_row k = 4 * h /\ 4 <= h < 128 /\
    u32 ((bottom k - top k - 1) * video_num_columns k) .>> 1 = (bottom k - top k - 1) * h.
Proof.
  intros [Hc [h Eh] Hs Hl Hm] [Ho He]. exists h.
  repeat split; [done|lia..|].
  rewrite Eh. destruct (half_cells (bottom k - top k - 1) h) as [-> | H]; [done|]. nia.
Qed.

Lemma copy_up_scrolls k : wf_console k ->
  scrolls k (copy_up k) /\ scrolled_up k (copy_up k) (top k) (bottom k).
Proof.
  intros Hk. destruct (region_words k (wf_card _ Hk) (wf_region _ Hk)) as (h & E & Es & Hh & En).
  destruct Hk as [[? _ ? ? []] [? Hend ?] [? ? ?] [? ?] Hp].
  assert (H1 : 0 <= video_size_row k * top k) by nia.
  assert (H2 : video_size_row k * (top k + 1) <= video_num_lines k * video_size_row k) by nia.
  assert (H3 : (bottom k - 1 - top k + 1) * (4 * h) + video_size_row k * top k
               <= video_num_lines k * video_size_row k) by nia.
  unfold copy_up. rewrite En, !u32_small by nia. rewrite E, Es in *.
  replace (origin k + 4 * h * (top k + 1)) with (origin k + 4 * h * top k + 4 * h) by ring.
  replace (bottom k - top k - 1) with (bottom k - 1 - top k) by lia. split.
  - split; [done..| |simpl; lia|].
    + split; simpl; rewrite ?Es; done.
    + simpl. eapply within_weaken; [apply copy_rows_up_within; lia|lia..].
  - intros r c [Hr Hc]. unfold cell, blank. simpl. rewrite E, Es in *.
    replace (origin k + r * (4 * h) + 2 * c) with
      (origin k + 4 * h * top k + (r - top k) * (4 * h) + 2 * c) by ring.
    rewrite copy_rows_up by lia.
    replace (origin k + 4 * h * top k + 4 * h + (r - top k) * (4 * h) + 2 * c) with
      (origin k + (r + 1) * (4 * h) + 2 * c) by ring.
    replace (0 <=? r - top k) with (top k <=? r) by lia.
    replace (r - top k <? bottom k - 1 - top k) with (r <? bottom k - 1) by lia.
    by replace (r - top k =? bottom k - 1 - top k) with (r =? bottom k - 1) by lia.
Qed.

Lemma scrdown_scrolls k : wf_console k ->
  scrolls k (scrdown k) /\ scrolled_down k (scrdown k) (top k) (bottom k).
Proof.
  intros Hk. destruct (region_words k (wf_card _ Hk) (wf_region _ Hk)) as (h & E & Es & Hh & En).
  destruct Hk as [[? _ ? ? []] [? Hend ?] [? ? ?] [? ?] Hp].
  assert (H1 : 0 <= video_size_row k * top k) by nia.
  assert (H2 : video_size_row k * bottom k <= video_num_lines k * video_size_row k) by nia.
  assert (H3 : video_size_row k <= video_size_row k * bottom k) by nia.
  assert (H4 : 0 <= video_size_row k * (bottom k - 1)) by nia.
  assert (H5 : (bottom k - top k - 1 + 1) * (4 * h) + video_size_row k * top k
               <= video_num_lines k * video_size_row k) by nia.
  unfold scrdown. rewrite En.
  rewrite !u32_small by nia.
  assert (Em : forall m, stosw (-2) (Z.to_nat (video_num_columns k))
      (origin k + video_size_row k * bottom k - 4 - 4 * ((bottom k - top k - 1) * h) + 2)
      (video_erase_char k) (movsl (-4) (Z.to_nat ((bottom k - top k - 1) * h))
        (origin k + video_size_row k * (bottom k - 1) - 4)
        (origin k + video_size_row k * bottom k - 4) m) =
    let base := origin k + 4 * h * top k in
    let n := bottom k - top k - 1 in
    let dst := base + (n + 1) * (4 * h) - 4 in
    stosw (-2) (Z.to_nat (2 * h)) (dst - 4 * (n * h) + 2) (video_erase_char k)
      (movsl (-4) (Z.to_nat (n * h)) (dst - 4 * h) dst m)).
  { intros m. rewrite E, Es. cbv zeta. f_equal; [lia|]. f_equal; lia. }
  split.
  - split; [done..| |simpl; lia|].
    + split; simpl; done.
    + simpl. rewrite Em. eapply within_weaken; [apply copy_rows_down_within; lia|lia..].
  - intros r c [Hr Hc]. unfold cell, blank. simpl. rewrite Em, Es. rewrite E in Hc.
    replace (origin k + r * (4 * h) + 2 * c) with
      (origin k + 4 * h * top k + (r - top k) * (4 * h) + 2 * c) by ring.
    cbv zeta. rewrite copy_rows_down by lia.
    replace (origin k + 4 * h * top k + (r - top k - 1) * (4 * h) + 2 * c) with
      (origin k + (r - 1) * (4 * h) + 2 * c) by ring.
    replace (0 <? r - top k) with (top k <? r) by lia.
    replace (r - top k <? bottom k - top k - 1 + 1) with (r <? bottom k) by lia.
    by replace (r - top k =? 0) with (r =? top k) by lia.
Qed.

Lemma move_window_scrolls k : wf_console k -> top k = 0 -> bottom k = video_num_lines k ->
  scrolls k (move_window k) /\ scrolled_up k (move_window k) (top k) (bottom k).
Proof.
  intros Hk Ht Hb. destruct (region_words k (wf_card _ Hk) (wf_region _ Hk)) as (h & E & Es & Hh & En).
  destruct Hk as [[? _ ? ? []] [? Hend ?] [? ? ?] [? ?] Hp].
  rewrite Ht, Hb, Z.sub_0_r in *.
  assert (H1 : 0 <= cur_y k * video_size_row k <= (video_num_lines k - 1) * video_size_row k) by nia.
  assert (H2 : 0 <= (video_num_lines k - 1) * video_size_row k) by nia.
  assert (H3 : video_num_lines k * video_size_row k =
    (video_num_lines k - 1) * video_size_row k + video_size_row k) by ring.
  unfold move_window. cbn -[u32 Z.mul Z.leb Z.ltb Z.shiftr set_origin stosw movsl].
  rewrite En, (u32_small (origin k + _)), (u32_small (pos k + _)), (u32_small (scr_end k + _)) by lia.
  destruct (Z.ltb_spec (video_mem_end k) (scr_end k + video_size_row k)).
  - rewrite !u32_small by lia. split.
    + split; [done..| |simpl; lia|].
      * split; simpl; lia.
      * simpl. rewrite E, Es in *. eapply within_weaken; [apply copy_rows_up_within; lia|lia..].
    + intros r c [Hr Hc]. unfold cell, blank. simpl. rewrite Es in *. rewrite E in Hc.
      rewrite E, copy_rows_up by lia.
      replace (origin k + 4 * h + r * (4 * h) + 2 * c) with
        (origin k + (r + 1) * (4 * h) + 2 * c) by ring.
      destruct (Z.leb_spec 0 r), (Z.ltb_spec r (video_num_lines k - 1)); [| |lia..]; cbn [andb].
      * done.
      * by replace (r =? video_num_lines k - 1) with true by lia.
  - rewrite u32_small by lia. split.
    + split; [done..| |simpl; lia|].
      * split; simpl; lia.
      * simpl. eapply within_weaken; [apply stosw_up_within|lia..].
    + intros r c [Hr Hc]. unfold cell, blank. simpl. rewrite Es in *. rewrite E in Hc.
      destruct (Z.leb_spec 0 r), (Z.ltb_spec r (video_num_lines k - 1)); [| |lia..]; cbn [andb].
      * rewrite (within_load16 _ _ _ _ _ (stosw_up_within _ _ _ _)) by nia. f_equal. ring.
      * replace (r =? video_num_lines k - 1) with true by lia.
        replace (origin k + 4 * h + r * (4 * h) + 2 * c) with
          (scr_end k + 4 * h - 4 * h + 2 * c) by nia.
        apply stosw_up_word. rewrite E. lia.
Qed.

Lemma scrup_scrolls k : wf_console k ->
  scrolls k (scrup k) /\ scrolled_up k (scrup k) (top k) (bottom k).
Proof.
  intros Hk. unfold scrup. destruct (is_ega k); [|by apply copy_up_scrolls].
  destruct (Z.eqb_spec (top k) 0), (Z.eqb_spec (bottom k) (video_num_lines k));
    [by apply move_window_scrolls|by apply copy_up_scrolls..].
Qed.

(** ** Every operation is safe *)

(** A new cursor, region or parser state, and stores inside the window. *)
Lemma safe_update k k' : wf_console k -> card k' = card k ->
  origin k' = origin k -> scr_end k' = scr_end k ->
  within (origin k) (scr_end k) (vmem k) (vmem k') ->
  cursor_ok k' -> region_ok k' -> parser_ok k' -> safe k k'.
Proof.
  intros [Hc [H1 H2 H3] Hu Hr Hp] Ec Eo Ee Hm Hu' Hr' Hp'. split; [|done|].
  - unfold card in Ec. injection Ec as E1 E2 E3 E4 E5 E6 E7. pose proof Hc as [? [h ?] ? ? []].
    split; [|split; rewrite ?Eo, ?Ee, ?E3, ?E4, ?E5, ?E6; done|auto..].
    split; rewrite ?E2, ?E3, ?E4, ?E5, ?E6; eauto.
  - eapply within_weaken; [exact Hm|lia..].
Qed.

(** The parts of [safe_update] that an operation on the cursor leaves. *)
Ltac keeps Hk :=
  first [ done | apply within_refl
        | destruct Hk as [? ? [] [] []]; split; try done; simpl;
          rewrite ?shiftl_mul, ?u32_small by nia; (lia || nia) ].

Lemma safe_store k m : wf_console k -> within (origin k) (scr_end k) (vmem k) m ->
  safe k (k <| vmem := m |>).
Proof.
  intros Hk Hm. apply safe_update; keeps Hk.
Qed.

(** The address of the cursor's row, and of the cells before and behind the cursor. *)
Lemma cursor_bounds k : wf_console k ->
  0xb0000 <= origin k /\ scr_end k <= 0xc0000 /\ 0 <= cur_x k <= video_num_columns k /\
  8 <= video_num_columns k < 256 /\ video_size_row k = 2 * video_num_columns k /\
  origin k <= pos k - 2 * cur_x k /\ pos k - 2 * cur_x k + video_size_row k <= scr_end k /\
  0 <= cur_y k < video_num_lines k /\ video_num_lines k < 256 /\
  0 <= top k < bottom k /\ bottom k <= video_num_lines k.
Proof. intros [[? _ ? ? []] [? Hend ?] [? ? ?] [? ?] Hp]. repeat split; nia || lia. Qed.

(** [gotoxy] to anywhere keeps the cursor on the screen. *)
Lemma gotoxy_spec nx ny k : wf_console k -> 0 <= nx -> 0 <= ny ->
  safe k (gotoxy nx ny k) /\
  gotoxy nx ny k =
    if (nx <=? video_num_columns k) && (ny <? video_num_lines k) then
      k <| cur_x := nx |> <| cur_y := ny |>
        <| pos := origin k + ny * video_size_row k + 2 * nx |>
    else k.
Proof.
  intros Hk Hx Hy. unfold gotoxy.
  destruct (Z.ltb_spec (video_num_columns k) nx); cbn [orb].
  { replace (nx <=? video_num_columns k) with false by lia. split; [by apply safe_refl|done]. }
  replace (nx <=? video_num_columns k) with true by lia. cbn [andb].
  destruct (Z.leb_spec (video_num_lines k) ny).
  { replace (ny <? video_num_lines k) with false by lia. split; [by apply safe_refl|done]. }
  replace (ny <? video_num_lines k) with true by lia.
  pose proof Hk as [[? [h ?] ? ? []] [? Hend ?] [? ? ?] [? ?] Hp].
  assert (0 <= ny * video_size_row k <= (video_num_lines k - 1) * video_size_row k) by nia.
  rewrite shiftl_mul, u32_small by nia. replace (nx * 2 ^ 1) with (2 * nx) by lia.
  split; [|done]. apply safe_update; keeps Hk.
Qed.

Lemma lf_safe k : wf_console k -> safe k (lf k).
Proof.
  intros Hk. pose proof (cursor_bounds k Hk) as ?. unfold lf. rewrite u32_small by lia.
  destruct (Z.ltb_spec (cur_y k + 1) (bottom k)).
  - apply safe_update; keeps Hk.
  - apply scrolls_safe, scrup_scrolls; done.
Qed.
Lemma ri_safe k : wf_console k -> safe k (ri k).
Proof.
  intros Hk. pose proof (cursor_bounds k Hk) as ?. unfold ri.
  destruct (Z.ltb_spec (top k) (cur_y k)).
  - apply safe_update; keeps Hk.
  - apply scrolls_safe, scrdown_scrolls; done.
Qed.
Lemma cr_safe k : wf_console k -> safe k (cr k).
Proof.
  intros Hk. pose proof (cursor_bounds k Hk) as ?. unfold cr.
  apply safe_update; keeps Hk.
Qed.
Lemma del_safe k : wf_console k -> safe k (del k).
Proof.
  intros Hk. pose proof (cursor_bounds k Hk) as ?. unfold del.
  destruct (truth (cur_x k)) eqn:Ex; [|by apply safe_refl].
  assert (cur_x k <> 0) by (intros E0; by rewrite E0 in Ex).
  apply safe_update; try keeps Hk. simpl. rewrite u32_small by lia.
  eapply within_weaken; [apply store16_within|lia..].
Qed.

(** Erasing [count] cells of the window. *)
Lemma erase_safe k count start : wf_console k -> 0 <= count -> origin k <= start ->
  start + 2 * count <= scr_end k -> safe k (erase count start k).
Proof.
  intros Hk Hc Hs He. pose proof (cursor_bounds k Hk) as ?. unfold erase.
  apply (safe_store k (stosw 2 _ start _ (vmem k))); [done|].
  eapply within_weaken; [apply stosw_up_within|lia|]. rewrite u32_small by lia. lia.
Qed.
Lemma csi_J_safe p k : wf_console k -> safe k (csi_J p k).
Proof.
  intros Hk. pose proof (cursor_bounds k Hk) as ?. unfold csi_J.
  repeat case_match; try by apply safe_refl.
  - apply erase_safe; [done|..]; rewrite ?shiftr_div, ?u32_small by lia; zlia.
  - apply erase_safe; [done|..]; rewrite ?shiftr_div, ?u32_small by lia; zlia.
  - pose proof Hk as [? [] ? ? ?]. apply erase_safe; [done|nia..].
Qed.
Lemma csi_K_safe p k : wf_console k -> safe k (csi_K p k).
Proof.
  intros Hk. pose proof (cursor_bounds k Hk) as ?. unfold csi_K.
  repeat case_match; try by apply safe_refl.
  all: apply erase_safe; [done|..]; rewrite ?shiftl_mul, ?u32_small by lia; lia.
Qed.

Lemma insert_loop_within n p old m : within p (p + 2 * Z.of_nat n) m (insert_loop n p old m).
Proof.
  revert p old m. induction n as [|n IH]; intros p old m; [apply within_refl|]. simpl.
  eapply within_trans; [|eapply within_weaken; [apply IH|lia..]].
  eapply within_weaken; [apply store16_within|lia..].
Qed.
Lemma insert_char_safe k : wf_console k -> safe k (insert_char k).
Proof.
  intros Hk. pose proof (cursor_bounds k Hk) as ?.
  apply (safe_store k (insert_loop _ _ _ (vmem k))); [done|].
  eapply within_weaken; [apply insert_loop_within|lia..].
Qed.
Lemma delete_loop_within n p m :
  (delete_loop n p m).1 = p + 2 * Z.of_nat n /\
  within p (p + 2 * Z.of_nat n) m (delete_loop n p m).2.
Proof.
  revert p m. induction n as [|n IH]; intros p m; [split; [simpl; lia|apply within_refl]|].
  cbn [delete_loop]. destruct (IH (p + 2) (store16 p (load16 m (p + 2)) m)) as [-> Hw].
  split; [lia|]. eapply within_trans; [|eapply within_weaken; [apply Hw|lia..]].
  eapply within_weaken; [apply store16_within|lia..].
Qed.
Lemma delete_char_safe k : wf_console k -> safe k (delete_char k).
Proof.
  intros Hk. pose proof (cursor_bounds k Hk) as ?. unfold delete_char.
  destruct (Z.leb_spec (video_num_columns k) (cur_x k)); [by apply safe_refl|].
  pose proof (delete_loop_within (Z.to_nat (video_num_columns k - cur_x k - 1)) (pos k) (vmem k))
    as [Ep Hw]. destruct (delete_loop _ _ _) as [p m'] eqn:E. simpl in Ep, Hw.
  replace (k <| vmem ::= _ |>) with (k <| vmem := store16 p (video_erase_char k) m' |>)
    by (unfold update_field; by rewrite E).
  apply safe_store; [done|]. eapply within_trans; [eapply within_weaken; [apply Hw|lia..]|].
  eapply within_weaken; [apply store16_within|lia..].
Qed.

(** Scrolling in a region of its own, from the cursor to the end of the screen. *)
Definition with_region (t b : Z) (k : console) : console := k <| top := t |> <| bottom := b |>.
Lemma with_region_wf t b k : wf_console k -> 0 <= t < b -> b <= video_num_lines k ->
  wf_console (with_region t b k).
Proof. intros Hk Ht Hb. pose proof Hk as [[] [] [] [] []]. split; split; done || simpl; lia. Qed.
Lemma with_region_safe t b k : wf_console k -> 0 <= t < b -> b <= video_num_lines k ->
  safe k (with_region t b k).
Proof. intros Hk Ht Hb. split; [by apply with_region_wf|done|apply within_refl]. Qed.

(** [insert_line] and [delete_line] put the region back. *)
Lemma in_region_safe (f : console -> console) k : wf_console k ->
  (forall k1, wf_console k1 -> scrolls k1 (f k1)) ->
  safe k (with_region (u32 (s32 (top k))) (u32 (s32 (bottom k)))
            (f (with_region (cur_y k) (video_num_lines k) k))).
Proof.
  intros Hk Hf. pose proof (cursor_bounds k Hk) as ?.
  rewrite !s32_small, !u32_small by lia.
  set (k1 := with_region (cur_y k) (video_num_lines k) k).
  assert (H1 : safe k k1) by (apply with_region_safe; [done|lia..]).
  assert (H2 : safe k1 (f k1)) by (apply scrolls_safe; [|apply Hf]; apply H1).
  eapply safe_trans; [exact H1|]. eapply safe_trans; [exact H2|].
  assert (El : video_num_lines (f k1) = video_num_lines k)
    by (pose proof (safe_card _ _ H2) as E; unfold card in E; by injection E).
  apply with_region_safe; [apply H2|lia|lia].
Qed.
Lemma insert_line_safe k : wf_console k -> safe k (insert_line k).
Proof. intros Hk. apply (in_region_safe scrdown); [done|]. apply scrdown_scrolls. Qed.
Lemma delete_line_safe k : wf_console k -> safe k (delete_line k).
Proof. intros Hk. apply (in_region_safe scrup); [done|]. apply scrup_scrolls. Qed.

Lemma safe_iter n f k : wf_console k -> (forall k1, wf_console k1 -> safe k1 (f k1)) ->
  safe k (Nat.iter n f k).
Proof.
  intros Hk Hf. induction n as [|n IH]; [by apply safe_refl|]. simpl.
  eapply safe_trans; [exact IH|]. apply Hf, IH.
Qed.
Lemma csi_m_safe k : wf_console k -> safe k (csi_m k).
Proof.
  intros Hk. unfold csi_m. generalize (seq 0 (Z.to_nat (npar k + 1))). intros l.
  revert k Hk. induction l as [|i l IH]; intros k Hk; [by apply safe_refl|]. simpl.
  assert (H : safe k (k <| attr ::= attr_of (par_at k i) |>)) by (apply safe_update; keeps Hk).
  eapply safe_trans; [exact H|]. apply IH, H.
Qed.

Lemma par_at_range k i : wf_console k -> 0 <= par_at k i < 2 ^ 32.
Proof.
  intros [? ? ? ? [_ Hp _]]. unfold par_at.
  destruct (nth_in_or_default i (par k) 0) as [H | ->]; [|lia].
  rewrite Forall_forall in Hp. apply Hp. by apply list_elem_of_In.
Qed.
Lemma set_par_safe i f k : wf_console k -> safe k (set_par i f k).
Proof.
  intros Hk. apply safe_update; try keeps Hk. destruct Hk as [? ? ? ? [Hl Hr Hn]].
  split; simpl; [by rewrite length_alter| |done].
  apply Forall_alter; [done|]. intros p _ _. apply u32_range.
Qed.
Lemma par_dec_safe i k : wf_console k -> safe k (par_dec i k).
Proof. intros Hk. unfold par_dec. case_match; [by apply set_par_safe|by apply safe_refl]. Qed.
Lemma par_inc_safe k : wf_console k -> safe k (par_inc k).
Proof. intros Hk. unfold par_inc. case_match; [by apply safe_refl|by apply set_par_safe]. Qed.
Lemma set_state_safe s k : wf_console k -> safe k (set_state s k).
Proof. intros Hk. apply safe_update; keeps Hk. Qed.
Lemma save_cur_safe k : wf_console k -> safe k (save_cur k).
Proof. intros Hk. apply safe_update; keeps Hk. Qed.
Lemma restore_cur_safe k : wf_console k -> safe k (restore_cur k).
Proof. intros Hk. apply gotoxy_spec; [done|apply u32_range..]. Qed.

Lemma then_safe k k1 k2 : safe k k1 -> (wf_console k1 -> safe k1 k2) -> safe k k2.
Proof. intros H1 H2. eapply safe_trans; [exact H1|]. apply H2, H1. Qed.

(** The cursor in column [x + d], at or behind the last one, goes to the next line. *)
Definition at_column (x p : Z) (k : console) : console := k <| cur_x := x |> <| pos := p |>.
Lemma at_column_safe x k : wf_console k -> 0 <= x <= video_num_columns k ->
  safe k (at_column x (pos k - 2 * cur_x k + 2 * x) k).
Proof. intros Hk Hx. apply safe_update; keeps Hk. Qed.
Lemma wrap_eq x p k : wf_console k -> video_num_columns k <= x <= 2 * video_num_columns k ->
  p = pos k - 2 * cur_x k + 2 * x ->
  wrap (at_column x p k) =
    lf (at_column (x - video_num_columns k)
          (pos k - 2 * cur_x k + 2 * (x - video_num_columns k)) k).
Proof.
  intros Hk Hx ->. pose proof (cursor_bounds k Hk) as ?. unfold wrap, at_column, update_field.
  cbn -[u32 Z.mul lf]. rewrite !u32_small by lia. do 2 f_equal. lia.
Qed.
Lemma wrap_safe x p k : wf_console k -> video_num_columns k <= x <= 2 * video_num_columns k ->
  p = pos k - 2 * cur_x k + 2 * x -> safe k (wrap (at_column x p k)).
Proof.
  intros Hk Hx Hp. pose proof (cursor_bounds k Hk) as ?.
  rewrite (wrap_eq x p k) by (done || lia).
  eapply then_safe; [apply (at_column_safe (x - video_num_columns k) k); [done|lia]|].
  apply lf_safe.
Qed.
Lemma at_column_same k : at_column (cur_x k) (pos k) k = k.
Proof. by destruct k. Qed.

(** A tab goes to the next column that 8 divides. *)
Lemma tab_eq k : wf_console k ->
  tab k =
    let x := 8 * (cur_x k / 8) + 8 in
    let k' := at_column x (pos k - 2 * cur_x k + 2 * x) k in
    if video_num_columns k <? x then wrap k' else k'.
Proof.
  intros Hk. pose proof (cursor_bounds k Hk) as ?. unfold tab. cbv zeta. rewrite land_7.
  set (d := 8 - cur_x k mod 8). assert (1 <= d <= 8) by (subst d; zlia).
  replace (8 * (cur_x k / 8) + 8) with (cur_x k + d) by (subst d; zlia).
  rewrite shiftl_mul by lia. unfold at_column, update_field.
  cbn -[u32 Z.mul Z.pow Z.ltb wrap]. rewrite !u32_small by lia.
  replace (pos k + d * 2 ^ 1) with (pos k - 2 * cur_x k + 2 * (cur_x k + d)) by lia. done.
Qed.

Lemma con_put_safe c k : wf_console k -> cur_x k < video_num_columns k -> safe k (con_put c k).
Proof.
  intros Hk Hx. pose proof (cursor_bounds k Hk) as ?. apply safe_update; try keeps Hk.
  simpl. eapply within_weaken; [apply store16_within|lia..].
Qed.

Lemma scrup_rest k : rest (scrup k) = rest k.
Proof. unfold scrup, move_window. repeat case_match; done. Qed.
Lemma lf_x k : cur_x (lf k) = cur_x k.
Proof.
  unfold lf. case_match; [done|]. pose proof (scrup_rest k) as E. unfold rest in E. by injection E.
Qed.
Lemma card_columns k k' : card k' = card k -> video_num_columns k' = video_num_columns k.
Proof. unfold card. intros E. by injection E. Qed.
Lemma card_lines k k' : card k' = card k -> video_num_lines k' = video_num_lines k.
Proof. unfold card. intros E. by injection E. Qed.

Section writing.
Variables copy_to_cooked sysbeep : console -> console.
(** The line discipline, which may echo to the console, and the bell keep the driver
    well-formed. *)
Hypothesis cooked_safe : forall k, wf_console k -> safe k (copy_to_cooked k).
Hypothesis beep_safe : forall k, wf_console k -> safe k (sysbeep k).

Lemma respond_safe k : wf_console k -> safe k (respond copy_to_cooked k).
Proof using All.
  intros Hk. unfold respond.
  set (k1 := k <| tty ::= _ |>). apply (then_safe k k1); [|apply cooked_safe].
  apply safe_update; keeps Hk.
Qed.

(** The two places of con_write where the cursor may have to go to the next line. *)
Lemma print_safe c k : wf_console k ->
  safe k (con_put c (if video_num_columns k <=? cur_x k then wrap k else k)).
Proof using All.
  intros Hk. pose proof (cursor_bounds k Hk) as ?.
  destruct (Z.leb_spec (video_num_columns k) (cur_x k)); [|apply con_put_safe; [done|lia]].
  pose proof (wrap_safe (cur_x k) (pos k) k Hk) as Hw.
  pose proof (wrap_eq (cur_x k) (pos k) k Hk) as Ew. rewrite at_column_same in Hw, Ew.
  assert (Hs : safe k (wrap k)) by (apply Hw; lia).
  eapply then_safe; [exact Hs|]. intros Hk1. apply con_put_safe; [done|].
  rewrite (card_columns _ _ (safe_card _ _ Hs)), Ew, lf_x by lia. simpl. lia.
Qed.
Lemma back_safe k : wf_console k -> safe k (back k).
Proof using.
  intros Hk. pose proof (cursor_bounds k Hk) as ?. unfold back.
  destruct (truth (cur_x k)) eqn:Ex; [|by apply safe_refl].
  assert (cur_x k <> 0) by (intros E0; by rewrite E0 in Ex). apply safe_update; keeps Hk.
Qed.
Lemma tab_safe k : wf_console k -> safe k (tab k).
Proof using.
  intros Hk. pose proof (cursor_bounds k Hk) as ?. rewrite (tab_eq k Hk). cbv zeta.
  destruct (Z.ltb_spec (video_num_columns k) (8 * (cur_x k / 8) + 8));
    [by apply wrap_safe; [|zlia|]|apply at_column_safe; [done|zlia]].
Qed.

Lemma gotoxy_safe nx ny k : wf_console k -> 0 <= nx -> 0 <= ny -> safe k (gotoxy nx ny k).
Proof using. intros. by apply gotoxy_spec. Qed.

(** [step] proves one branch of the driver safe from the operations it is made of. *)
Ltac step :=
  match goal with
  | H : wf_console ?k |- safe ?k ?k => by apply safe_refl
  | H : wf_console ?k |- 0 <= par_at ?k _ => apply (par_at_range k _ H)
  | H : wf_console ?k |- 0 <= cur_x ?k => apply (cursor_bounds k H)
  | H : wf_console ?k |- 0 <= cur_y ?k => apply (cursor_bounds k H)
  | |- 0 <= u32 _ => apply u32_range
  | |- 0 <= 0 => done
  | |- safe _ (gotoxy _ _ (par_inc ?k)) =>
      apply (then_safe _ (par_inc k)); [by apply par_inc_safe|intros ?; apply gotoxy_safe; [done|..]]
  | |- safe _ (gotoxy _ _ (par_dec ?i ?k)) =>
      apply (then_safe _ (par_dec i k)); [|intros ?; apply gotoxy_safe; [done|..]]
  | |- safe _ (par_dec _ (par_dec ?i ?k)) =>
      apply (then_safe _ (par_dec i k)); [by apply par_dec_safe|intros ?; by apply par_dec_safe]
  | |- safe _ (par_dec _ _) => by apply par_dec_safe
  | |- safe _ (gotoxy _ _ _) => apply gotoxy_safe; [done|..]
  end.

Lemma con_plain_safe c k : wf_console k -> safe k (con_plain sysbeep c k).
Proof using All.
  intros Hk. pose proof (cursor_bounds k Hk) as ?. unfold con_plain.
  destruct (_ && _); [by apply print_safe|].
  destruct (c =? 27); [by apply set_state_safe|].
  destruct (_ || _); [by apply lf_safe|].
  destruct (c =? 13); [by apply cr_safe|].
  destruct (c =? ERASE_CHAR _); [by apply del_safe|].
  destruct (c =? 8); [by apply back_safe|].
  destruct (c =? 9); [by apply tab_safe|].
  destruct (c =? 7); [by apply beep_safe|by apply safe_refl].
Qed.
Lemma con_escape_safe c k : wf_console k -> safe k (con_escape copy_to_cooked c k).
Proof using All.
  intros Hk. unfold con_escape. cbv zeta.
  apply (then_safe k (set_state 0 k)); [by apply set_state_safe|].
  generalize (set_state 0 k). clear k Hk. intros k Hk.
  repeat case_match; repeat step;
    auto using set_state_safe, ri_safe, lf_safe, respond_safe, save_cur_safe, restore_cur_safe.
Qed.

Lemma csi_r_safe k : wf_console k -> safe k (csi_r k).
Proof using.
  intros Hk. unfold csi_r. cbv zeta.
  apply (then_safe k (par_lines (par_dec 0 k))).
  { apply (then_safe k (par_dec 0 k)); [by apply par_dec_safe|]. intros H1. unfold par_lines.
    case_match; [by apply safe_refl|by apply set_par_safe]. }
  generalize (par_lines (par_dec 0 k)). clear k Hk. intros k Hk. pose proof (par_at_range k 0 Hk).
  destruct (Z.ltb_spec (par_at k 0) (par_at k 1)), (Z.leb_spec (par_at k 1) (video_num_lines k));
    cbn [andb]; try by apply safe_refl. by apply with_region_safe; [|lia..].
Qed.
Lemma con_final_safe c k : wf_console k -> safe k (con_final c k).
Proof using.
  intros Hk. unfold con_final. cbv zeta.
  apply (then_safe k (set_state 0 k)); [by apply set_state_safe|].
  generalize (set_state 0 k). clear k Hk. intros k Hk.
  repeat match goal with |- safe _ (if ?b then _ else _) => destruct b end;
    repeat step;
    auto using csi_J_safe, csi_K_safe, csi_m_safe, csi_r_safe, save_cur_safe, restore_cur_safe.
  all: apply safe_iter; auto using insert_line_safe, delete_line_safe, delete_char_safe,
    insert_char_safe.
Qed.

Lemma con_number_safe c k : wf_console k -> safe k (con_number c k).
Proof using.
  intros Hk. unfold con_number.
  destruct (c =? 59), (Z.ltb_spec (npar k) (NPAR - 1)); cbn [andb].
  { apply safe_update; keeps Hk. }
  all: destruct (_ && _); [by apply set_par_safe|];
    apply (then_safe k (set_state 4 k)); [by apply set_state_safe|apply con_final_safe].
Qed.
Lemma con_bracket_safe c k : wf_console k -> safe k (con_bracket c k).
Proof using.
  intros Hk. unfold con_bracket. cbv zeta.
  set (k1 := k <| par := _ |> <| npar := _ |> <| con_state := _ |> <| ques := _ |>).
  assert (H1 : safe k k1).
  { apply safe_update; try keeps Hk. split; simpl; [done| |done]. by repeat constructor. }
  destruct (c =? 63); [done|]. apply (then_safe k k1); [done|apply con_number_safe].
Qed.
Lemma con_char_safe c k : wf_console k -> safe k (con_char copy_to_cooked sysbeep c k).
Proof using All.
  intros Hk. unfold con_char. repeat case_match;
    auto using con_plain_safe, con_escape_safe, con_bracket_safe, con_number_safe,
      con_final_safe, safe_refl.
Qed.
Lemma set_cursor_safe k : wf_console k -> safe k (set_cursor k).
Proof using. intros Hk. apply safe_update; keeps Hk. Qed.
Lemma con_loop_safe nr k : wf_console k -> safe k (con_loop copy_to_cooked sysbeep nr k).
Proof using All.
  revert k. induction nr as [|nr IH]; intros k Hk; [by apply safe_refl|].
  cbn [con_loop]. destruct (GETCH (write_q (tty k))) as [c q].
  set (k1 := k <| tty ::= _ |>).
  apply (then_safe k k1); [apply safe_update; keeps Hk|intros H1].
  apply (then_safe k1 (con_char copy_to_cooked sysbeep (s8 c) k1)); [by apply con_char_safe|].
  apply IH.
Qed.

(** C16. kernel/chr_drv/console.c, con_write: whatever bytes are queued, in whatever state
    the escape parser is, the driver stores into video memory only, the cursor stays on
    the screen with [pos] the address of its cell, the window of the screen stays inside
    video memory, the region stays a region and the parameters stay inside their array. *)
Theorem con_write_safe k : wf_console k -> safe k (con_write copy_to_cooked sysbeep k).
Proof using All.
  intros Hk. unfold con_write.
  eapply then_safe; [by apply con_loop_safe|apply set_cursor_safe].
Qed.
End writing.

Lemma put_desc_within p s m : within p (p + 2 * Z.of_nat (length s)) m (put_desc p s m).
Proof.
  revert p m. induction s as [|c s IH]; intros p m; [apply within_refl|]. cbn [put_desc length].
  eapply within_trans; [|eapply within_weaken; [apply IH|lia..]].
  intros b Hb. rewrite peek_store8. destruct (Z.eqb_spec b p); [lia|done].
Qed.

(** Any of the four cards: a name of four letters and at least 8 kB of memory. *)
Lemma set_card_spec bios k :
  let '(d, k1) := set_card bios k in
  length (bytes_of d) = 4%nat /\ 0xb0000 <= video_mem_start k1 /\
  video_mem_start k1 + 8192 <= video_mem_end k1 <= 0xc0000 /\
  video_num_columns k1 = video_num_columns k /\ video_size_row k1 = video_size_row k /\
  video_num_lines k1 = video_num_lines k /\ vmem k1 = vmem k /\
  par k1 = par k /\ npar k1 = npar k.
Proof. unfold set_card. repeat case_match; simplify_eq; simpl; repeat split; lia. Qed.

(** C32. kernel/chr_drv/console.c, con_init: for every card that setup.s may have found,
    with rows that fit the card's memory, and a cursor on the screen, the driver is
    well-formed and the last four cells of the first row are the only ones stored. *)
Theorem con_init_wf bios inb_p k0 :
  let cols := ORIG_VIDEO_COLS bios in
  8 <= cols < 164 -> (exists h, cols = 2 * h) ->
  0 <= ORIG_X bios <= cols -> 0 <= ORIG_Y bios < ORIG_VIDEO_LINES -> parser_ok k0 ->
  let k := con_init bios inb_p k0 in
  wf_console k /\ cur_x k = ORIG_X bios /\ cur_y k = ORIG_Y bios /\
  forall r c, on_screen k r c -> ~ (r = 0 /\ video_num_columns k - 4 <= c) ->
    cell k r c = load16 (vmem k0) (origin k + r * video_size_row k + 2 * c).
Proof.
  intros cols Hc Hh Hx Hy [Hp1 Hp2 Hp3] k. subst k. unfold con_init. fold cols.
  match goal with |- context [set_card bios ?k'] => pose proof (set_card_spec bios k') as Hs end.
  destruct (set_card bios _) as [d k1]. cbn [update_field video_num_columns video_size_row video_num_lines vmem par npar] in Hs.
  destruct Hs as (Ld & Hm & He & E1 & E2 & E3 & E4 & E5 & E6).
  unfold gotoxy. cbn -[Z.mul Z.shiftl u32 put_desc u8 Z.land Z.lor]. rewrite E1, E2, E3, E4.
  unfold ORIG_VIDEO_LINES in *. assert (0 <= ORIG_Y bios * (cols * 2) <= 24 * 328) by nia.
  rewrite shiftl_mul, u32_small by lia.
  replace (cols <? ORIG_X bios) with false by lia.
  replace (25 <=? ORIG_Y bios) with false by lia. cbn [orb].
  split; [|split; [done|split; [done|]]].
  - split; split; simpl; rewrite ?E1, ?E2, ?E3, ?E5, ?E6; eauto; lia.
  - intros r c [Hr Hcc] Hn. unfold cell. simpl in *. rewrite ?E1, ?E2, ?E3 in *.
    apply (within_load16 _ _ _ _ _ (put_desc_within _ _ _)). rewrite Ld.
    destruct (decide (r = 0)) as [-> | ]; [lia|right]. nia.
Qed.
