(* ===== verification/Typing.v ===== *)
(** The console as a typewriter.

    [typed] is the specification: a screen of glyphs, by row and column, with a carriage.
    Writing text to the console ([Console.con_write]) does to the cells of video memory
    what [typed] does to the glyphs, whatever window of video memory shows the screen and
    wherever the ring of the terminal's queue is.  The cursor can be addressed with the
    numbers that vsprintf prints. *)
From stdpp Require Import base gmap list strings.
From Stdlib Require Import ZArith Lia.
From S2P Require Import Prelude Vsprintf Console Screen.
Open Scope Z_scope.

#[local] Arguments INC : simpl never.
#[local] Arguments u8 : simpl never.

(** ** The queue of a terminal *)

Record queue_ok (q : tty_queue) : Prop := {
  head_ok : 0 <= q_head q < TTY_BUF_SIZE;
  tail_ok : 0 <= q_tail q < TTY_BUF_SIZE;
  buf_ok : length (q_buf q) = 1024%nat;
}.
(** The bytes between the two ends, oldest first. *)
Definition queued (q : tty_queue) : list Z :=
  (fun i => nth (Z.to_nat ((q_tail q + i) mod TTY_BUF_SIZE)) (q_buf q) 0)
    <$> seqZ 0 ((q_head q - q_tail q) mod TTY_BUF_SIZE).

Lemma CHARS_queued q : queue_ok q -> CHARS q = Z.of_nat (length (queued q)).
Proof.
  intros [? ? _]. unfold CHARS, queued. rewrite length_fmap, length_seqZ.
  unfold TTY_BUF_SIZE in *. rewrite land_3ff. unfold u32. zlia.
Qed.
Lemma EMPTY_queued q : queue_ok q -> EMPTY q = true <-> queued q = [].
Proof.
  intros Hq. pose proof (CHARS_queued q Hq) as Hc. destruct Hq as [? ? _].
  unfold CHARS, EMPTY, TTY_BUF_SIZE in *. rewrite land_3ff in Hc. unfold u32 in Hc.
  destruct (queued q); simpl in Hc; split; intros; [done|zlia|zlia|done].
Qed.
Lemma INC_mod a : 0 <= a < TTY_BUF_SIZE -> INC a = (a + 1) mod TTY_BUF_SIZE.
Proof. unfold INC, TTY_BUF_SIZE. intros. by rewrite land_3ff, u32_small by lia. Qed.
Lemma GETCH_queued q : queue_ok q -> queued q <> [] ->
  queued q = (GETCH q).1 :: queued (GETCH q).2 /\ queue_ok (GETCH q).2.
Proof.
  intros Hq Hn. pose proof Hq as [? Ht ?]. unfold queued in *. simpl.
  rewrite INC_mod by done. unfold TTY_BUF_SIZE in *.
  split; [|split; simpl; rewrite ?INC_mod by done; unfold TTY_BUF_SIZE; [lia|zlia|done]].
  assert (Hl : (q_head q - q_tail q) mod 1024 <> 0) by (intros E; by rewrite E in Hn).
  rewrite (seqZ_cons 0) by zlia. cbn [fmap list_fmap].
  rewrite Z.add_0_r, Z.mod_small by lia. f_equal.
  replace (Z.pred ((q_head q - q_tail q) mod 1024)) with
    ((q_head q - (q_tail q + 1) mod 1024) mod 1024) by zlia.
  change (Z.succ 0) with (0 + 1).
  rewrite <- (fmap_add_seqZ 1 0), <- list_fmap_compose. apply list_fmap_ext.
  intros i j _. simpl. f_equal. f_equal. zlia.
Qed.
Lemma PUTCH_queued c q : queue_ok q -> FULL q = false ->
  queued (PUTCH c q) = queued q ++ [u8 c] /\ queue_ok (PUTCH c q).
Proof.
  intros Hq Hf. pose proof Hq as [Hh Ht Hb]. unfold FULL, LEFT in Hf.
  unfold TTY_BUF_SIZE in *. rewrite land_3ff in Hf. unfold u32 in Hf.
  split; [|split; simpl; rewrite ?INC_mod by done; unfold TTY_BUF_SIZE;
    [zlia|done|by rewrite length_insert]].
  unfold queued, PUTCH. simpl. rewrite INC_mod by done. unfold TTY_BUF_SIZE.
  replace (((q_head q + 1) mod 1024 - q_tail q) mod 1024) with
    ((q_head q - q_tail q) mod 1024 + 1) by zlia.
  rewrite seqZ_app, fmap_app by zlia. f_equal.
  - apply list_fmap_ext. intros i j Hj. apply lookup_seqZ in Hj as [-> Hi].
    rewrite !nth_lookup, list_lookup_insert_ne; [done|]. zlia.
  - simpl. rewrite nth_lookup. f_equal.
    replace (Z.to_nat _) with (Z.to_nat (q_head q)) by zlia. by rewrite list_lookup_insert_eq by lia.
Qed.

(** ** The typewriter *)

Record screen : Type := TheScreen {
  glyph : Z -> Z -> Z;      (* row, column *)
  carriage : Z;             (* the column *)
  line : Z;
}.
Record sheet : Type := Sheet {
  columns : Z;
  first_line : Z;
  last_line : Z;            (* the lines from first to last scroll *)
  erase_key : Z;
  empty_glyph : Z;
  colour : Z;
}.

Section typewriter.
Variable p : sheet.

Definition new_line (s : screen) : screen :=
  if line s <? last_line p then TheScreen (glyph s) (carriage s) (line s + 1)
  else TheScreen (fun r c =>
         if (first_line p <=? r) && (r <? last_line p) then glyph s (r + 1) c
         else if r =? last_line p then empty_glyph p else glyph s r c) (carriage s) (line s).
Definition strike (g : Z) (s : screen) : screen :=
  TheScreen (fun r c => if (r =? line s) && (c =? carriage s) then g else glyph s r c)
    (carriage s) (line s).
Definition move_to (c : Z) (s : screen) : screen := TheScreen (glyph s) c (line s).
Definition advance (n : Z) (s : screen) : screen := move_to (carriage s + n) s.
(** Past the right margin: the same column less the width, on the next line. *)
Definition margin (s : screen) : screen := new_line (advance (- columns p) s).

Definition type_char (ch : Z) (s : screen) : screen :=
  if (32 <=? ch) && (ch <=? 126) then
    let s := if columns p <=? carriage s then margin s else s in
    advance 1 (strike (ch + 256 * colour p) s)
  else if (10 <=? ch) && (ch <=? 12) then new_line s
  else if ch =? 13 then move_to 0 s
  else if ch =? erase_key p then
    if 0 <? carriage s then strike (empty_glyph p) (advance (-1) s) else s
  else if ch =? 8 then if 0 <? carriage s then advance (-1) s else s
  else if ch =? 9 then
    let s := move_to (8 * (carriage s / 8) + 8) s in
    if columns p <? carriage s then margin s else s
  else s.
(** Text: no bell, no escape, and no byte above 127 that is the erase key. *)
Definition plain (ch : Z) : Prop := 0 <= ch < 256 /\ ch <> 7 /\ ch <> 27 /\
  (128 <= ch -> ch <> erase_key p).
Definition typed (text : list Z) (s : screen) : screen :=
  fold_left (fun s0 ch => type_char ch s0) text s.
End typewriter.

(** The sheet a driver writes on, and the screen that its memory shows. *)
Definition sheet_of (k : console) : sheet :=
  Sheet (video_num_columns k) (top k) (bottom k - 1) (ERASE_CHAR (tty k)) (blank k) (u8 (attr k)).
Record shows (k : console) (s : screen) : Prop := {
  shows_x : cur_x k = carriage s;
  shows_y : cur_y k = line s;
  shows_cells : forall r c, on_screen k r c -> cell k r c = glyph s r c;
}.
(** What typing leaves alone. *)
Definition mode (k : console) : list Z * Z * Z * Z * Z * Z * list Z * Z * list Z :=
  (card k, top k, bottom k, con_state k, attr k, npar k, par k, ques k, c_cc (tty k)).

Lemma mode_sheet k k' : mode k' = mode k -> sheet_of k' = sheet_of k.
Proof.
  unfold mode. intros E. injection E as E1 E2 E3 E4 E5 E6 E7 E8 E9 E10 E11 E12 E13 E14 E15.
  unfold sheet_of, blank, ERASE_CHAR. congruence.
Qed.
Lemma mode_on_screen k k' r c : mode k' = mode k -> on_screen k' r c -> on_screen k r c.
Proof.
  unfold mode. intros E. injection E as E1 E2 E3 E4 E5 E6 E7 E8 E9 E10 E11 E12 E13 E14 E15.
  unfold on_screen. rewrite E2, E4. done.
Qed.

(** The screen of a driver. *)
Definition screen_of (k : console) : screen := TheScreen (cell k) (cur_x k) (cur_y k).
Lemma shows_screen_of k : shows k (screen_of k).
Proof. by split. Qed.

(** ** One character

    [types k k' s']: the driver in [k'] shows [s'] and is as it was otherwise. *)
Record types (k k' : console) (s' : screen) : Prop := {
  ty_wf : wf_console k';
  ty_mode : mode k' = mode k;
  ty_tty : tty k' = tty k;
  ty_shows : shows k' s';
}.

Lemma types_trans k1 k2 k3 s2 s3 : types k1 k2 s2 -> types k2 k3 s3 -> types k1 k3 s3.
Proof. intros [] []. split; [done|congruence..|done]. Qed.

(** Only the cursor moves. *)
Lemma types_cursor k x y pp s : wf_console k -> shows k s ->
  0 <= x <= video_num_columns k -> 0 <= y < video_num_lines k ->
  pp = origin k + y * video_size_row k + 2 * x ->
  types k (k <| cur_x := x |> <| cur_y := y |> <| pos := pp |>) (TheScreen (glyph s) x y).
Proof.
  intros Hk [Hx Hy Hc] Hxx Hyy ->. split; [|done..|].
  - assert (H : safe k (k <| cur_x := x |> <| cur_y := y |>
      <| pos := origin k + y * video_size_row k + 2 * x |>)) by (apply safe_update; keeps Hk).
    apply H.
  - split; simpl; [done..|exact Hc].
Qed.

(** Two cells are the same word only if row and column are the same. *)
Lemma cell_place r c r' c' n : 0 <= c < n -> 0 <= c' < n -> (r <> r' \/ c <> c') ->
  2 * (r * n + c) + 2 <= 2 * (r' * n + c') \/ 2 * (r' * n + c') + 2 <= 2 * (r * n + c).
Proof.
  intros Hc Hc' Hne. destruct (Z.lt_trichotomy r r') as [Hr | [-> | Hr]]; [left; nia|lia|right; nia].
Qed.
Lemma types_strike k v s : wf_console k -> shows k s -> cur_x k < video_num_columns k ->
  types k (k <| vmem ::= store16 (pos k) v |>) (strike (u16 v) s).
Proof.
  intros Hk [Hx Hy Hc] Hlt. pose proof (cursor_bounds k Hk) as ?.
  split; [|done..|split; [done..|]].
  - apply (safe_wf k), (safe_store k (store16 (pos k) v (vmem k))); [done|].
    eapply within_weaken; [apply store16_within|lia..].
  - intros r c Hrc. pose proof Hrc as [Hr Hcc]. simpl in Hr, Hcc.
    cbn [strike glyph]. rewrite <- (Hc r c Hrc). unfold cell. simpl. pose proof (pos_ok _ (wf_cursor _ Hk)) as Ep.
    pose proof (size_row_ok _ (wf_card _ Hk)) as Es. rewrite <- Hx, <- Hy.
    destruct (Z.eqb_spec r (cur_y k)) as [-> | Hne]; cbn [andb];
      [destruct (Z.eqb_spec c (cur_x k)) as [-> | Hne]|].
    + rewrite <- Ep. apply load16_store16.
    + apply (within_load16 _ _ _ _ _ (store16_within _ _ _)). rewrite Ep, Es.
      destruct (cell_place (cur_y k) c (cur_y k) (cur_x k) (video_num_columns k)); lia.
    + apply (within_load16 _ _ _ _ _ (store16_within _ _ _)). rewrite Ep, Es.
      destruct (cell_place r c (cur_y k) (cur_x k) (video_num_columns k)); lia.
Qed.

Lemma types_lf k s : wf_console k -> shows k s -> types k (lf k) (new_line (sheet_of k) s).
Proof.
  intros Hk Hs. pose proof (cursor_bounds k Hk) as ?. pose proof Hs as [Hx Hy Hc].
  unfold lf, new_line. cbn [last_line first_line empty_glyph sheet_of].
  rewrite u32_small by lia. rewrite <- Hy.
  replace (cur_y k <? bottom k - 1) with (cur_y k + 1 <? bottom k) by lia.
  destruct (Z.ltb_spec (cur_y k + 1) (bottom k)).
  - pose proof (types_cursor k (cur_x k) (cur_y k + 1) (pos k + video_size_row k) s Hk Hs) as Ht.
    rewrite <- Hx. unfold update_field in *. cbn -[u32 Z.mul Z.add] in *.
    rewrite !u32_small by lia. apply Ht; [lia..|].
    rewrite (pos_ok _ (wf_cursor _ Hk)). ring.
  - destruct (scrup_scrolls k Hk) as [Hsc Hup].
    pose proof (scrup_rest k) as Er. pose proof (sc_card _ _ Hsc) as Ec.
    pose proof (safe_wf _ _ (scrolls_safe _ _ Hk Hsc)) as Hk'.
    unfold rest in Er. injection Er as R1 R2 R3 R4 R5 R6 R7 R8 R9 R10 R11 R12.
    split; [done|unfold mode; congruence|done|]. split; simpl; [congruence|congruence|].
    intros r c [Hr Hcc]. rewrite (card_lines _ _ Ec) in Hr. rewrite (card_columns _ _ Ec) in Hcc.
    rewrite (Hup r c) by done.
    destruct (Z.leb_spec (top k) r), (Z.ltb_spec r (bottom k - 1)); cbn [andb].
    1: apply Hc; split; [lia|done].
    all: destruct (r =? bottom k - 1); [done|by apply Hc].
Qed.

Lemma types_column k x s : wf_console k -> shows k s -> 0 <= x <= video_num_columns k ->
  types k (at_column x (pos k - 2 * cur_x k + 2 * x) k) (move_to x s).
Proof.
  intros Hk Hs Hx. pose proof Hs as [_ Hy Hc].
  split; [apply (safe_wf k), at_column_safe; done|done..|]. by split.
Qed.
Lemma types_margin k x pp s : wf_console k -> shows k s ->
  video_num_columns k <= x <= 2 * video_num_columns k -> pp = pos k - 2 * cur_x k + 2 * x ->
  types k (wrap (at_column x pp k)) (margin (sheet_of k) (move_to x s)).
Proof.
  intros Hk Hs Hx ->. rewrite (wrap_eq x _ k) by done.
  pose proof (types_column k (x - video_num_columns k) s Hk Hs) as Ht.
  eapply types_trans; [apply Ht; lia|]. rewrite <- (mode_sheet k _ (ty_mode _ _ _ (Ht ltac:(lia)))).
  apply types_lf; apply Ht; lia.
Qed.

(** The driver's small moves of the cursor, as columns. *)
Lemma step_left k : wf_console k -> 0 < cur_x k ->
  k <| cur_x ::= fun x => u32 (x - 1) |> <| pos ::= fun p => u32 (p - 2) |> =
  at_column (cur_x k - 1) (pos k - 2 * cur_x k + 2 * (cur_x k - 1)) k.
Proof.
  intros Hk Hx. pose proof (cursor_bounds k Hk) as ?. unfold at_column, update_field.
  cbn -[u32 Z.mul Z.sub]. rewrite !u32_small by lia. f_equal; lia.
Qed.
Lemma cr_column k : wf_console k ->
  cr k = at_column 0 (pos k - 2 * cur_x k + 2 * 0) k.
Proof.
  intros Hk. pose proof (cursor_bounds k Hk) as ?. unfold cr, at_column, update_field.
  cbn -[u32 Z.mul Z.sub Z.shiftl]. rewrite shiftl_mul, u32_small by lia. f_equal; lia.
Qed.
Lemma truth_pos x : 0 <= x -> truth x = (0 <? x).
Proof. unfold truth. intros. destruct (Z.eqb_spec x 0), (Z.ltb_spec 0 x); simpl; lia || done. Qed.

Lemma types_print k ch s : wf_console k -> shows k s -> 0 <= ch < 256 ->
  types k (con_put ch (if video_num_columns k <=? cur_x k then wrap k else k))
    (advance 1 (strike (ch + 256 * u8 (attr k))
       (if video_num_columns k <=? carriage s then margin (sheet_of k) s else s))).
Proof.
  intros Hk Hs Hch. pose proof (cursor_bounds k Hk) as ?. pose proof (shows_x _ _ Hs) as Ex.
  set (k1 := if video_num_columns k <=? cur_x k then wrap k else k).
  set (s1 := if video_num_columns k <=? carriage s then margin (sheet_of k) s else s).
  assert (H1 : types k k1 s1 /\ cur_x k1 < video_num_columns k).
  { subst k1 s1. rewrite <- Ex. destruct (Z.leb_spec (video_num_columns k) (cur_x k)); [|split; [by split|lia]].
    pose proof (types_margin k (cur_x k) (pos k) s Hk Hs) as Hm.
    pose proof (wrap_eq (cur_x k) (pos k) k Hk) as Ew. rewrite at_column_same in Hm, Ew.
    rewrite Ew by lia. rewrite lf_x. rewrite <- Ew by lia.
    replace (move_to (cur_x k) s) with s in Hm by (rewrite Ex; by destruct s).
    split; [apply Hm; lia|simpl; lia]. }
  destruct H1 as [[Hk1 Hm1 Ht1 Hs1] Hx1]. clearbody k1 s1.
  pose proof Hm1 as Ec. unfold mode in Ec.
  injection Ec as E1 E2 E3 E4 E5 E6 E7 E8 E9 E10 E11 E12 E13 E14 E15.
  pose proof (cursor_bounds k1 Hk1) as ?. pose proof (u8_range (attr k)) as ?.
  unfold con_put. rewrite E11, (u8_small ch) by lia.
  set (v := ch + 256 * u8 (attr k)). set (k2 := k1 <| vmem ::= store16 (pos k1) v |>).
  assert (Ht : types k1 k2 (strike v s1)).
  { rewrite <- (u16_small v) by (subst v; lia). apply types_strike; [done..|lia]. }
  eapply types_trans; [by split|]. eapply types_trans; [exact Ht|].
  pose proof (types_column k2 (cur_x k1 + 1) _ (ty_wf _ _ _ Ht) (ty_shows _ _ _ Ht)) as Hr.
  unfold at_column, update_field in *. subst k2. cbn -[u32 Z.mul Z.add Z.sub store16] in *.
  unfold update_field in *. cbn -[u32 Z.mul Z.add Z.sub store16] in *.
  rewrite !u32_small by lia. unfold advance. change (carriage (strike v s1)) with (carriage s1).
  rewrite <- (shows_x _ _ Hs1).
  replace (pos k1 + 2) with (pos k1 - 2 * cur_x k1 + 2 * (cur_x k1 + 1)) by lia.
  apply Hr. lia.
Qed.

Lemma types_back k s : wf_console k -> shows k s ->
  types k (back k) (if 0 <? carriage s then advance (-1) s else s).
Proof.
  intros Hk Hs. pose proof (cursor_bounds k Hk) as ?. rewrite <- (shows_x _ _ Hs).
  unfold back. rewrite truth_pos by lia. destruct (Z.ltb_spec 0 (cur_x k)); [|by split].
  rewrite step_left by done. unfold advance. rewrite <- (shows_x _ _ Hs).
  apply types_column; [done..|lia].
Qed.
Lemma types_del k s : wf_console k -> shows k s ->
  types k (del k) (if 0 <? carriage s then strike (blank k) (advance (-1) s) else s).
Proof.
  intros Hk Hs. pose proof (cursor_bounds k Hk) as ?. pose proof (types_back k s Hk Hs) as Hb.
  unfold del, back in *. rewrite truth_pos in * by lia. rewrite <- (shows_x _ _ Hs) in *.
  destruct (Z.ltb_spec 0 (cur_x k)); [|by split].
  rewrite step_left in Hb by done. eapply types_trans; [exact Hb|]. destruct Hb as [Hk1 Hm Ht Hs1].
  set (k1 := at_column _ _ _) in *.
  pose proof (types_strike k1 (video_erase_char k1) _ Hk1 Hs1 ltac:(simpl; lia)) as Hk2.
  assert (E : k <| pos ::= fun p => u32 (p - 2) |> <| cur_x ::= fun x => u32 (x - 1) |> = k1).
  { subst k1. unfold at_column, update_field. cbn -[u32 Z.mul Z.sub].
    rewrite !u32_small by lia. f_equal; lia. }
  cbv zeta. rewrite E. exact Hk2.
Qed.
Lemma types_tab k s : wf_console k -> shows k s ->
  types k (tab k)
    (let s' := move_to (8 * (carriage s / 8) + 8) s in
     if video_num_columns k <? carriage s' then margin (sheet_of k) s' else s').
Proof.
  intros Hk Hs. pose proof (cursor_bounds k Hk) as ?. rewrite (tab_eq k Hk). cbv zeta.
  cbn [carriage move_to]. rewrite <- (shows_x _ _ Hs).
  destruct (Z.ltb_spec (video_num_columns k) (8 * (cur_x k / 8) + 8)).
  - apply types_margin; [done..|zlia|done].
  - apply types_column; [done..|zlia].
Qed.

Section writing.
Variables copy_to_cooked sysbeep : console -> console.

Lemma s8_small c : 0 <= c < 128 -> s8 c = c.
Proof. unfold s8. zlia. Qed.
Lemma s8_neg c : 128 <= c < 256 -> s8 c < 0.
Proof. unfold s8. zlia. Qed.

Lemma con_plain_types ch k s : wf_console k -> shows k s -> plain (sheet_of k) ch ->
  types k (con_plain sysbeep (s8 ch) k) (type_char (sheet_of k) ch s).
Proof using.
  intros Hk Hs (Hr & H7 & H27 & He). cbn [erase_key sheet_of] in He.
  unfold con_plain, type_char. cbn [columns colour erase_key empty_glyph sheet_of].
  pose proof (u8_range (nth VERASE (c_cc (tty k)) 0)) as Hu. fold (ERASE_CHAR (tty k)) in Hu.
  destruct (decide (ch < 128)).
  - rewrite s8_small by lia.
    replace ((31 <? ch) && (ch <? 127)) with ((32 <=? ch) && (ch <=? 126)) by lia.
    destruct (_ && _); [by apply types_print|].
    replace (ch =? 27) with false by lia.
    replace ((ch =? 10) || (ch =? 11) || (ch =? 12)) with ((10 <=? ch) && (ch <=? 12)) by lia.
    destruct (_ && _); [by apply types_lf|].
    destruct (ch =? 13).
    { pose proof (cursor_bounds k Hk) as ?. rewrite cr_column by done.
      apply types_column; [done..|lia]. }
    destruct (ch =? ERASE_CHAR _); [by apply types_del|].
    destruct (ch =? 8); [by apply types_back|].
    destruct (ch =? 9); [by apply types_tab|].
    replace (ch =? 7) with false by lia. by split.
  - pose proof (s8_neg ch ltac:(lia)). specialize (He ltac:(lia)).
    replace (31 <? s8 ch) with false by lia. cbn [andb].
    replace (s8 ch =? 27) with false by lia. replace (s8 ch =? 10) with false by lia.
    replace (s8 ch =? 11) with false by lia. replace (s8 ch =? 12) with false by lia. cbn [orb].
    replace (s8 ch =? 13) with false by lia. replace (s8 ch =? ERASE_CHAR _) with false by lia.
    replace (s8 ch =? 8) with false by lia. replace (s8 ch =? 9) with false by lia.
    replace (s8 ch =? 7) with false by lia.
    replace (ch <=? 126) with false by lia. rewrite andb_false_r.
    replace (ch <=? 12) with false by lia. rewrite andb_false_r.
    replace (ch =? 13) with false by lia. replace (ch =? ERASE_CHAR _) with false by lia.
    replace (ch =? 8) with false by lia. replace (ch =? 9) with false by lia. by split.
Qed.

Lemma con_loop_types text k s : wf_console k -> shows k s -> con_state k = 0 ->
  queue_ok (write_q (tty k)) -> queued (write_q (tty k)) = text ->
  Forall (plain (sheet_of k)) text ->
  let k' := con_loop copy_to_cooked sysbeep (length text) k in
  wf_console k' /\ mode k' = mode k /\ shows k' (typed (sheet_of k) text s) /\
  queue_ok (write_q (tty k')) /\ queued (write_q (tty k')) = [].
Proof using.
  revert k s. induction text as [|ch text IH]; intros k s Hk Hs Hst Hq Eq Hp; [done|].
  apply Forall_cons in Hp as [Hch Hp]. cbn [length con_loop].
  destruct (GETCH_queued _ Hq ltac:(by rewrite Eq)) as [Eg Hq'].
  destruct (GETCH (write_q (tty k))) as [c q]. simpl in Eg, Hq'.
  rewrite Eq in Eg. injection Eg as Ec Et. subst c.
  set (k1 := k <| tty ::= _ |>).
  assert (Hk1 : wf_console k1) by (apply (safe_wf k); apply safe_update; keeps Hk).
  assert (Hs1 : shows k1 s) by (destruct Hs; by split).
  pose proof (con_plain_types ch k1 s Hk1 Hs1 Hch) as [Hk2 Hm2 Ht2 Hs2].
  replace (con_char copy_to_cooked sysbeep (s8 ch) k1) with (con_plain sysbeep (s8 ch) k1)
    by (unfold con_char; by rewrite (Hst : con_state k1 = 0)).
  set (k2 := con_plain sysbeep (s8 ch) k1) in *. clearbody k2.
  assert (Em : mode k2 = mode k) by done.
  assert (Eq2 : write_q (tty k2) = q) by (rewrite Ht2; done).
  assert (Es : con_state k2 = 0).
  { unfold mode in Em. injection Em as E1 E2 E3 E4 E5 E6 E7 E8 E9 E10 E11 E12 E13 E14 E15.
    congruence. }
  change (typed (sheet_of k) (ch :: text) s) with
    (typed (sheet_of k) text (type_char (sheet_of k) ch s)).
  rewrite <- Em, <- (mode_sheet _ _ Em). apply IH.
  - done.
  - rewrite (mode_sheet _ _ Em). exact Hs2.
  - done.
  - by rewrite Eq2.
  - by rewrite Eq2.
  - by rewrite (mode_sheet _ _ Em).
Qed.

Lemma set_cursor_outs k : outs (set_cursor k) =
  (u8 (255 .& (u32 (pos k - video_mem_start k) .>> 1)), video_port_val k) ::
  (u8 15, video_port_reg k) ::
  (u8 (255 .& (u32 (pos k - video_mem_start k) .>> 9)), video_port_val k) ::
  (u8 14, video_port_reg k) :: outs k.
Proof using. reflexivity. Qed.

(** C13. kernel/chr_drv/console.c, con_write: text (no bell, no escape sequence) written to
    a well-formed console does to the screen what a typewriter does: each character is
    struck in its place in the current colour, past the right margin and after a line feed
    the carriage is on the next line, on the last line of the region the region scrolls,
    and backspace, tab, the erase key and carriage return move as they should.  All
    characters are taken from the queue, and the card is told where the cursor is. *)
Theorem con_write_types text k s : wf_console k -> shows k s -> con_state k = 0 ->
  queue_ok (write_q (tty k)) -> queued (write_q (tty k)) = text ->
  Forall (plain (sheet_of k)) text ->
  let k' := con_write copy_to_cooked sysbeep k in
  wf_console k' /\ mode k' = mode k /\ shows k' (typed (sheet_of k) text s) /\
  EMPTY (write_q (tty k')) = true /\
  let cell_number := cur_y k' * video_num_columns k' + cur_x k' +
                     (origin k' - video_mem_start k') / 2 in
  take 4 (outs k') =
    [(cell_number mod 256, video_port_val k'); (15, video_port_reg k');
     ((cell_number / 256) mod 256, video_port_val k'); (14, video_port_reg k')].
Proof using.
  intros Hk Hs Hst Hq Eq Hp. cbv zeta. unfold con_write.
  rewrite (CHARS_queued _ Hq), Eq, Nat2Z.id.
  destruct (con_loop_types text k s Hk Hs Hst Hq Eq Hp) as (Hk' & Hm & Hs' & Hq' & Eq').
  set (k1 := con_loop _ _ _ k) in *. clearbody k1.
  split; [apply (safe_wf k1), set_cursor_safe; done|]. split; [done|].
  split; [destruct Hs'; by split|]. split; [by apply EMPTY_queued|].
  pose proof (cursor_bounds k1 Hk') as ?. pose proof (origin_ok _ (wf_window _ Hk')) as ?.
  pose proof (memory_ok _ (wf_card _ Hk')) as ?. pose proof (pos_ok _ (wf_cursor _ Hk')) as Ep.
  pose proof (size_row_ok _ (wf_card _ Hk')) as Es.
  rewrite set_cursor_outs. cbn [take].
  rewrite (Z.land_comm 255), (Z.land_comm 255), !land_ff, !shiftr_div by lia.
  rewrite (u32_small (pos k1 - video_mem_start k1)) by lia.
  rewrite !(u8_small (_ mod 256)) by zlia.
  rewrite (u8_small 14), (u8_small 15) by done.
  replace (pos k1 - video_mem_start k1) with
    (origin k1 - video_mem_start k1 + (cur_y k1 * video_num_columns k1 + cur_x k1) * 2)
    by (rewrite Ep, Es; ring).
  change (2 ^ 9) with (2 * 256). change (2 ^ 1) with 2.
  rewrite <- Z.div_div, !Z.div_add by lia.
  by rewrite (Z.add_comm ((origin k1 - video_mem_start k1) / 2)).
Qed.
End writing.

(** ** Addressing the cursor *)

Section addressing.
Variables copy_to_cooked sysbeep : console -> console.

(** Characters, one after the other. *)
Definition feed (text : list Z) (k : console) : console :=
  fold_left (fun k0 ch => con_char copy_to_cooked sysbeep (s8 ch) k0) text k.

(** Inside a control sequence: the numbers so far. *)
Definition parsed (ps : list Z) (n : Z) (k : console) : console :=
  k <| par := ps |> <| npar := n |> <| con_state := 3 |> <| ques := 0 |>.

Lemma feed_app t1 t2 k : feed (t1 ++ t2) k = feed t2 (feed t1 k).
Proof using. apply fold_left_app. Qed.

Lemma con_char_0 c k : con_state k = 0 ->
  con_char copy_to_cooked sysbeep c k = con_plain sysbeep c k.
Proof using. intros Hst. unfold con_char. by rewrite Hst. Qed.
Lemma feed_csi c text k : con_state k = 0 -> c <> 63 -> 0 <= c < 128 ->
  feed (27 :: 91 :: c :: text) k = feed (c :: text) (parsed (replicate 16 0) 0 k).
Proof using.
  intros Hst Hc Hr.
  change (feed (27 :: 91 :: c :: text) k) with (feed text (con_char copy_to_cooked sysbeep (s8 c)
    (con_char copy_to_cooked sysbeep 91 (con_char copy_to_cooked sysbeep 27 k)))).
  change (feed (c :: text) (parsed (replicate 16 0) 0 k)) with
    (feed text (con_number (s8 c) (parsed (replicate 16 0) 0 k))).
  rewrite (con_char_0 27 k), s8_small by done. f_equal.
  change (con_char copy_to_cooked sysbeep c
    (con_char copy_to_cooked sysbeep 91 (con_plain sysbeep 27 k))) with
    (con_bracket c (set_state 2 (set_state 0 (set_state 1 k)))).
  unfold con_bracket. destruct (Z.eqb_spec c 63); [done|]. reflexivity.
Qed.

Lemma alter_insert {A} (f : A -> A) i x (l : list A) : (i < length l)%nat ->
  alter f i (<[i := x]> l) = <[i := f x]> l.
Proof using.
  intros Hi. apply list_eq. intros j. destruct (decide (i = j)) as [<- | Hj].
  - by rewrite list_lookup_alter_eq, !list_lookup_insert_eq by done.
  - by rewrite list_lookup_alter_ne, !list_lookup_insert_ne by done.
Qed.
Lemma con_number_digit d ps n k : 0 <= d < 10 ->
  con_number (48 + d) (parsed ps n k) =
    parsed (alter (fun p => u32 (10 * p + (48 + d) - 48)) (Z.to_nat n) ps) n k.
Proof using.
  intros Hd. unfold con_number. replace (48 + d =? 59) with false by lia. cbn [andb].
  replace ((48 <=? 48 + d) && (48 + d <=? 57)) with true by lia. reflexivity.
Qed.
Lemma feed_digits ds n k : Forall (fun d => 0 <= d < 10) ds -> 0 <= n < 16 ->
  forall ps v, length ps = 16%nat ->
  feed (map (digit SIGN) ds) (parsed (<[Z.to_nat n := u32 v]> ps) n k) =
    parsed (<[Z.to_nat n := u32 (high_first 10 v ds)]> ps) n k.
Proof using.
  intros Hds Hn. induction Hds as [|d ds Hd Hds IH]; intros ps v Hl; [done|].
  change (feed (map (digit SIGN) (d :: ds)) (parsed (<[Z.to_nat n := u32 v]> ps) n k)) with
    (feed (map (digit SIGN) ds)
      (con_number (s8 (digit SIGN d)) (parsed (<[Z.to_nat n := u32 v]> ps) n k))).
  rewrite digit_10, s8_small, con_number_digit, alter_insert by lia. cbn [high_first].
  rewrite <- IH by done.
  by replace (u32 (10 * u32 v + (48 + d) - 48)) with (u32 (v * 10 + d)) by (unfold u32; zlia).
Qed.

(** A number from the format, and the character behind it. *)
Lemma feed_number x n ps k : 0 <= x < 2147483648 -> 0 <= n < 16 -> length ps = 16%nat ->
  nth (Z.to_nat n) ps 0 = 0 ->
  exists out, number x 10 (-1) (-1) SIGN = Some out /\
    (exists c t, out = c :: t /\ 48 <= c <= 57) /\
    feed out (parsed ps n k) = parsed (<[Z.to_nat n := x]> ps) n k.
Proof using.
  intros Hx Hn Hl Hp. destruct (number_decimal_digits x ltac:(lia)) as (ds & E & Hv & Hd & Hne).
  rewrite (proj2 (Z.ltb_ge x 0)) in E by lia. eexists. split; [exact E|]. simpl. split.
  - destruct ds as [|d ds]; [done|]. apply Forall_cons in Hd as [Hd _].
    exists (48 + d), (map (digit SIGN) ds). simpl. rewrite digit_10 by done. split; [done|lia].
  - replace ps with (<[Z.to_nat n := u32 0]> ps) at 1.
    + rewrite feed_digits by done. rewrite Hv, Z.abs_eq, u32_small by lia. done.
    + apply list_insert_id. rewrite nth_lookup in Hp.
      destruct (lookup_lt_is_Some_2 ps (Z.to_nat n)) as [v Ev]; [lia|].
      rewrite Ev in *. simpl in Hp. by rewrite Hp.
Qed.

(** What [vsprintf] makes of two numbers in a text. *)
Lemma vsprintf_two string_at t1 t2 t3 a b out1 out2 :
  Forall (fun c => c <> 37) t1 -> Forall (fun c => c <> 37) t2 -> Forall (fun c => c <> 37) t3 ->
  0 <= a < 2147483648 -> 0 <= b < 2147483648 ->
  number a 10 (-1) (-1) SIGN = Some out1 -> number b 10 (-1) (-1) SIGN = Some out2 ->
  let out := t1 ++ out1 ++ t2 ++ out2 ++ t3 in
  vsprintf string_at (t1 ++ 37 :: 100 :: t2 ++ 37 :: 100 :: t3) [a; b] =
    Some (out, [], Z.of_nat (length out)).
Proof using.
  intros H1 H2 H3 Ha Hb E1 E2 out. unfold vsprintf.
  rewrite length_app, vsprintf_loop_text by done. cbn [length].
  rewrite vsprintf_loop_d. unfold Vsprintf.put_number, va_arg. cbn [f_args update_field].
  cbn [mbind option_bind]. rewrite s32_id, E1 by lia. cbn [mbind option_bind].
  replace (S (length (t2 ++ 37 :: 100 :: t3))) with (length t2 + S (S (S (length t3))))%nat
    by (rewrite length_app; simpl; lia).
  rewrite vsprintf_loop_text by done. rewrite vsprintf_loop_d.
  unfold Vsprintf.put_number, va_arg. cbn [f_args update_field].
  cbn [mbind option_bind]. rewrite s32_id, E2 by lia. cbn [mbind option_bind].
  replace (S (S (length t3))) with (length t3 + 2)%nat by lia.
  rewrite <- (app_nil_r t3) at 2. rewrite vsprintf_loop_text by done.
  cbn [vsprintf_loop mbind option_bind f_str f_stores update_field]. subst out.
  by rewrite <- !app_assoc.
Qed.

(** [if (par[i]) par[i]--;] *)
Lemma par_dec_parsed i ps n k : (i < length ps)%nat -> 0 <= nth i ps 0 < 2147483648 ->
  par_dec i (set_state 0 (parsed ps n k)) =
    set_state 0 (parsed (<[i := Z.max 0 (nth i ps 0 - 1)]> ps) n k).
Proof using.
  intros Hi Hv. unfold par_dec. change (par_at (set_state 0 (parsed ps n k)) i) with (nth i ps 0).
  rewrite truth_pos by lia.
  destruct (lookup_lt_is_Some_2 ps i Hi) as [v Ev]. rewrite nth_lookup, Ev in *. simpl in Hv |- *.
  destruct (Z.ltb_spec 0 v).
  - change (set_par i ?f (set_state 0 (parsed ps n k))) with
      (set_state 0 (parsed (alter (fun p => u32 (f p)) i ps) n k)).
    rewrite <- (list_insert_id ps i v Ev) at 1. rewrite alter_insert, u32_small by lia.
    by replace (Z.max 0 (v - 1)) with (v - 1) by lia.
  - replace (Z.max 0 (v - 1)) with v by lia. by rewrite list_insert_id.
Qed.

Lemma set_state_twice a b k : set_state a (set_state b k) = set_state a k.
Proof using. reflexivity. Qed.
Lemma con_number_H k : con_number 72 k = con_final 72 (set_state 4 k).
Proof using. reflexivity. Qed.
Lemma con_final_gotoxy k : con_final 72 k =
  let k2 := par_dec 1 (par_dec 0 (set_state 0 k)) in gotoxy (par_at k2 1) (par_at k2 0) k2.
Proof using. reflexivity. Qed.

(** The last character: [par[0]] and [par[1]] count from 1. *)
Lemma con_final_H r c k : wf_console k -> 0 <= r < 2147483648 -> 0 <= c < 2147483648 ->
  let x := Z.max 0 (c - 1) in let y := Z.max 0 (r - 1) in
  let k' := con_number 72 (parsed (<[1%nat := c]> (<[0%nat := r]> (replicate 16 0))) 1 k) in
  con_state k' = 0 /\ origin k' = origin k /\ vmem k' = vmem k /\
  if (x <=? video_num_columns k) && (y <? video_num_lines k)
  then cur_x k' = x /\ cur_y k' = y /\ pos k' = origin k + y * video_size_row k + 2 * x
  else cur_x k' = cur_x k /\ cur_y k' = cur_y k /\ pos k' = pos k.
Proof using.
  intros Hk Hr Hc x y k'.
  set (ps := <[1%nat := c]> (<[0%nat := r]> (replicate 16 0))) in *.
  assert (E : k' = gotoxy x y (set_state 0 (parsed (<[1%nat := x]> (<[0%nat := y]> ps)) 1 k))).
  { assert (Ek : k' = let k2 := par_dec 1 (par_dec 0 (set_state 0 (parsed ps 1 k))) in
      gotoxy (par_at k2 1) (par_at k2 0) k2).
    { subst k'. rewrite con_number_H, con_final_gotoxy. by rewrite set_state_twice. }
    rewrite Ek. cbv zeta. rewrite !par_dec_parsed by (simpl; lia). reflexivity. }
  set (k2 := set_state 0 _) in E.
  assert (Hk2 : wf_console k2).
  { apply (safe_wf k), safe_update; try keeps Hk. split; [done| |done].
    subst x y. repeat (constructor; [lia|]). constructor. }
  destruct (gotoxy_spec x y k2 Hk2 ltac:(lia) ltac:(lia)) as [_ Eg]. rewrite E, Eg.
  change (video_num_columns k2) with (video_num_columns k).
  change (video_num_lines k2) with (video_num_lines k). by destruct (_ && _).
Qed.

(** kernel/chr_drv/console.c with kernel/vsprintf.c: for every row and column, the
    sequence ESC [ row ; column H, with the numbers as vsprintf prints them, leaves the
    console outside any sequence with the cursor there - rows and columns counted from 1,
    0 being the first - if that is on the screen (one column behind the last is), else
    where it was; nothing on the screen changes. *)
Theorem cursor_addressed string_at r c k : wf_console k -> con_state k = 0 ->
  0 <= r < 2147483648 -> 0 <= c < 2147483648 ->
  exists out, vsprintf string_at (27 :: bytes_of "[%d;%dH") [r; c] =
      Some (out, [], Z.of_nat (length out)) /\
    let x := Z.max 0 (c - 1) in let y := Z.max 0 (r - 1) in let k' := feed out k in
    con_state k' = 0 /\ origin k' = origin k /\ vmem k' = vmem k /\
    if (x <=? video_num_columns k) && (y <? video_num_lines k)
    then cur_x k' = x /\ cur_y k' = y /\ pos k' = origin k + y * video_size_row k + 2 * x
    else cur_x k' = cur_x k /\ cur_y k' = cur_y k /\ pos k' = pos k.
Proof using.
  intros Hk Hst Hr Hc.
  destruct (feed_number r 0 (replicate 16 0) k Hr ltac:(lia) eq_refl eq_refl)
    as (out1 & E1 & (c1 & t1 & Et & Hc1) & F1).
  destruct (feed_number c 1 (<[0%nat := r]> (replicate 16 0)) k Hc ltac:(lia) ltac:(done) ltac:(done))
    as (out2 & E2 & _ & F2).
  change (Z.to_nat 0) with 0%nat in F1. change (Z.to_nat 1) with 1%nat in F2.
  assert (Hn : forall x l, x <> 37 -> Forall (fun c => c <> 37) l -> Forall (fun c => c <> 37) (x :: l))
    by (intros; by constructor).
  exists ([27; 91] ++ out1 ++ [59] ++ out2 ++ [72]). split.
  { change (27 :: bytes_of "[%d;%dH") with ([27; 91] ++ 37 :: 100 :: [59] ++ 37 :: 100 :: [72]).
    apply vsprintf_two; auto. }
  cbv zeta.
  assert (Ef : feed ([27; 91] ++ out1 ++ [59] ++ out2 ++ [72]) k =
    con_number 72 (parsed (<[1%nat := c]> (<[0%nat := r]> (replicate 16 0))) 1 k)).
  { rewrite Et. cbn [app]. rewrite (feed_csi c1) by (done || lia).
    change (c1 :: t1 ++ ?l) with ((c1 :: t1) ++ l). rewrite <- Et, feed_app, F1.
    change (59 :: out2 ++ [72]) with ([59] ++ out2 ++ [72]). rewrite !feed_app.
    change (feed [59] (parsed ?ps 0 k)) with (parsed ps 1 k). by rewrite F2. }
  rewrite Ef. by apply con_final_H.
Qed.
End addressing.

(** C29. kernel/chr_drv/console.c, scrup: moving the window down in video memory (EGA and
    VGA), and starting over when its end is reached, shows the same screen as copying
    the rows: the rows of the region move up by one and the last one is blank; the
    cursor stays on its row and column. *)
Theorem scrup_like_copying k : wf_console k -> forall r c, on_screen k r c ->
  cell (scrup k) r c = cell (copy_up k) r c /\
  cell (scrup k) r c =
    (if (top k <=? r) && (r <? bottom k - 1) then cell k (r + 1) c
     else if r =? bottom k - 1 then blank k else cell k r c) /\
  pos (scrup k) - origin (scrup k) = pos k - origin k.
Proof.
  intros Hk r c Hrc. destruct (scrup_scrolls k Hk) as [Hs Hup], (copy_up_scrolls k Hk) as [_ Hup'].
  rewrite (Hup r c Hrc), (Hup' r c Hrc), (sc_pos _ _ Hs). split; [done|]. split; [done|lia].
Qed.

(** ESC 7 saves the cursor only in column 55, where every other character that is not a
    command does so too: the code compares the column with the digit. *)
Theorem escape_7_by_column copy_to_cooked k :
  (cur_x k <> 55 -> cur_x k <> 56 -> con_escape copy_to_cooked 55 k = set_state 0 k) /\
  (cur_x k = 55 -> con_escape copy_to_cooked 120 k = save_cur (set_state 0 k)).
Proof.
  unfold con_escape. cbn [Z.eqb Pos.eqb]. change (cur_x (set_state 0 k)) with (cur_x k). split.
  - intros H1 H2. by rewrite (proj2 (Z.eqb_neq _ _) H1), (proj2 (Z.eqb_neq _ _) H2).
  - intros ->. done.
Qed.

(** ** A console *)

(** An EGA card of 80 columns; the cursor on the last row. *)
Definition sample_bios (a : Z) : Z :=
  if a =? 0x90001 then 24 else if a =? 0x90006 then 3 else if a =? 0x90007 then 80 else 0.
Definition sample_queue (text : list Z) : tty_queue :=
  TtyQueue 0 (Z.of_nat (length text)) 0 (text ++ replicate (1024 - length text) 0).
Definition sample_tty (text : list Z) : tty_struct :=
  TtyStruct [3; 28; 127] 0 0 (sample_queue []) (sample_queue text) (sample_queue []).
Definition console_0 (text : list Z) : console :=
  Console 0 0 0 0 0 0 0 0 0 0 0 0 0 0 0 0 0 0 0 (replicate 16 0) 0 7 0 0 ∅ (sample_tty text) [].
Definition sample_console (text : list Z) : console :=
  con_init sample_bios (fun _ => 0) (console_0 text).

Lemma sample_console_wf text : wf_console (sample_console text).
Proof.
  split; split; cbn; try lia; try (by exists 40); try done; repeat constructor; lia.
Qed.
Lemma sample_queue_ok text : (length text < 1024)%nat ->
  queue_ok (sample_queue text) /\ length (queued (sample_queue text)) = length text.
Proof.
  intros Hl. split.
  - split; simpl; unfold TTY_BUF_SIZE; [lia|lia|]. rewrite length_app, length_replicate. lia.
  - unfold queued. simpl. rewrite length_fmap, length_seqZ. unfold TTY_BUF_SIZE. zlia.
Qed.

Lemma con_init_wf_witness :
  let k := con_init sample_bios (fun _ => 0) (console_0 []) in
  wf_console k /\ cur_x k = 0 /\ cur_y k = 24 /\
  forall r c, on_screen k r c -> ~ (r = 0 /\ video_num_columns k - 4 <= c) ->
    cell k r c = load16 (vmem (console_0 [])) (origin k + r * video_size_row k + 2 * c).
Proof.
  apply (con_init_wf sample_bios (fun _ => 0) (console_0 [])).
  - vm_compute. split; congruence.
  - by exists 40.
  - vm_compute. split; congruence.
  - vm_compute. split; congruence.
  - split; [reflexivity| |by vm_compute]. repeat (constructor; [lia|]). constructor.
Defined.

(** Text, a sequence that addresses the cursor, one that deletes a line, the bell. *)
Definition sample_text : list Z :=
  bytes_of "halt" ++ [27] ++ bytes_of "[25;80H" ++ [27] ++ bytes_of "[3M" ++ [10; 7].
Lemma con_write_safe_witness :
  wf_console (sample_console sample_text) /\
  safe (sample_console sample_text) (con_write (fun k => k) (fun k => k) (sample_console sample_text)).
Proof.
  split; [apply sample_console_wf|].
  apply con_write_safe; [intros; by apply safe_refl..|apply sample_console_wf].
Defined.

(** Two lines on the last row: the screen scrolls. *)
Definition sample_lines : list Z := bytes_of "login:" ++ [13; 10] ++ bytes_of "root".
Lemma con_write_types_witness :
  let k := sample_console sample_lines in
  let k' := con_write (fun k => k) (fun k => k) k in
  (cur_x k', cur_y k', cell k' 23 0, cell k' 24 3) = (4, 24, 1900, 1908) /\
  wf_console k' /\ mode k' = mode k /\
  shows k' (typed (sheet_of k) sample_lines (screen_of k)) /\
  EMPTY (write_q (tty k')) = true /\
  let cell_number := cur_y k' * video_num_columns k' + cur_x k' +
                     (origin k' - video_mem_start k') / 2 in
  take 4 (outs k') =
    [(cell_number mod 256, video_port_val k'); (15, video_port_reg k');
     ((cell_number / 256) mod 256, video_port_val k'); (14, video_port_reg k')].
Proof.
  cbv zeta. split; [vm_compute; reflexivity|].
  apply (con_write_types (fun k => k) (fun k => k) sample_lines (sample_console sample_lines)
    (screen_of (sample_console sample_lines))).
  - apply sample_console_wf.
  - apply shows_screen_of.
  - reflexivity.
  - apply (sample_queue_ok sample_lines). vm_compute. lia.
  - vm_compute. reflexivity.
  - repeat (constructor; [vm_compute; repeat split; congruence|]). constructor.
Defined.

Lemma cursor_addressed_witness :
  let k := sample_console [] in
  exists out, vsprintf (fun _ => []) (27 :: bytes_of "[%d;%dH") [7; 40] =
      Some (out, [], Z.of_nat (length out)) /\
    let k' := feed (fun k => k) (fun k => k) out k in
    con_state k' = 0 /\ origin k' = origin k /\ vmem k' = vmem k /\
    cur_x k' = 39 /\ cur_y k' = 6 /\ pos k' = origin k + 6 * video_size_row k + 2 * 39.
Proof.
  apply (cursor_addressed (fun k => k) (fun k => k) (fun _ => []) 7 40 (sample_console []));
    [apply sample_console_wf|reflexivity|lia..].
Defined.

Lemma scrup_like_copying_witness :
  let k := sample_console [] in
  wf_console k /\ cell (scrup k) 24 3 = cell (copy_up k) 24 3 /\
  cell (scrup k) 24 3 = blank k /\ pos (scrup k) - origin (scrup k) = pos k - origin k.
Proof.
  split; [apply sample_console_wf|].
  apply (scrup_like_copying (sample_console []) (sample_console_wf []) 24 3).
  split; vm_compute; split; congruence.
Defined.
