(* ===== verification/Sched.v ===== *)
(** The process table and the scheduler: [kernel/sched.c], with the structures
    of [include/linux/sched.h].  [task_struct] is the whole structure but for
    the FPU image; a task pointer is the index of the task's slot in [task[]],
    so [current] and the heads of the wait queues are indices. *)
From S2P Require Import Prelude.

(** include/signal.h:48-53 [sigaction] *)
Record sigaction : Type := SigAction {
  sa_handler : Z; sa_mask : Z; sa_flags : Z; sa_restorer : Z;
}.
#[global] Instance eta_sigaction : Eta sigaction := fun r =>
  SigAction (sa_handler r) (sa_mask r) (sa_flags r) (sa_restorer r).

(** include/linux/head.h:4-6 [desc_struct]: a segment descriptor, two words *)
Record desc_struct : Type := Desc { d_a : Z; d_b : Z }.

(** include/linux/sched.h:53-78 [tss_struct] *)
Record tss_struct : Type := Tss {
  back_link : Z; esp0 : Z; ss0 : Z; esp1 : Z; ss1 : Z; esp2 : Z; ss2 : Z;
  cr3 : Z; eip : Z; eflags : Z; eax : Z; ecx : Z; edx : Z; ebx : Z;
  esp : Z; ebp : Z; esi : Z; edi : Z;
  es : Z; cs : Z; ss : Z; ds : Z; fs : Z; gs : Z;
  tss_ldt : Z; trace_bitmap : Z;
}.
#[global] Instance eta_tss_struct : Eta tss_struct := fun r =>
  Tss (back_link r) (esp0 r) (ss0 r) (esp1 r) (ss1 r) (esp2 r) (ss2 r)
    (cr3 r) (eip r) (eflags r) (eax r) (ecx r) (edx r) (ebx r)
    (esp r) (ebp r) (esi r) (edi r) (es r) (cs r) (ss r) (ds r) (fs r) (gs r)
    (tss_ldt r) (trace_bitmap r).

(** include/linux/sched.h:80-109 [task_struct]: [pwd], [root], [executable]
    are indices in the inode table, [filp] indices in the file table *)
Record task_struct : Type := Task {
  state : Z; counter : Z; priority : Z;
  signal : Z; sigactions : list sigaction; blocked : Z;
  exit_code : Z;
  start_code : Z; end_code : Z; end_data : Z; brk : Z; start_stack : Z;
  pid : Z; father : Z; pgrp : Z; session : Z; leader : Z;
  uid : Z; euid : Z; suid : Z; gid : Z; egid : Z; sgid : Z;
  alarm : Z; utime : Z; stime : Z; cutime : Z; cstime : Z; start_time : Z;
  used_math : Z;
  tty : Z; umask : Z;
  pwd : option nat; root : option nat; executable : option nat;
  close_on_exec : Z; filp : list (option nat);
  ldt : list desc_struct; tss : tss_struct;
}.
#[global] Instance eta_task_struct : Eta task_struct := fun r =>
  Task (state r) (counter r) (priority r) (signal r) (sigactions r) (blocked r)
    (exit_code r) (start_code r) (end_code r) (end_data r) (brk r)
    (start_stack r) (pid r) (father r) (pgrp r) (session r) (leader r)
    (uid r) (euid r) (suid r) (gid r) (egid r) (sgid r)
    (alarm r) (utime r) (stime r) (cutime r) (cstime r) (start_time r)
    (used_math r) (tty r) (umask r) (pwd r) (root r) (executable r)
    (close_on_exec r) (filp r) (ldt r) (tss r).

Definition NR_TASKS : nat := 64.
Definition HZ : Z := 100.
Definition TASK_RUNNING : Z := 0.
Definition TASK_INTERRUPTIBLE : Z := 1.
Definition TASK_UNINTERRUPTIBLE : Z := 2.
Definition TASK_ZOMBIE : Z := 3.
Definition TASK_STOPPED : Z := 4.
Definition SIGKILL : Z := 9.
Definition SIGALRM : Z := 14.
Definition SIGSTOP : Z := 19.

(** include/linux/sched.h:115-164 [INIT_TASK]: task 0.  Addresses the linker
    chooses ([init_task], [pg_dir]) are arguments. *)
Definition INIT_TASK (init_task_addr pg_dir : Z) : task_struct :=
  Task 0 15 15 0 (repeat (SigAction 0 0 0 0) 32) 0 0 0 0 0 0 0
    0 (-1) 0 0 0 0 0 0 0 0 0 0 0 0 0 0 0 0 (-1) 18 None None None 0
    (repeat None 20) [Desc 0 0; Desc 0x9f 0xc0fa00; Desc 0x9f 0xc0f200]
    (Tss 0 (4096 + init_task_addr) 0x10 0 0 0 0 pg_dir 0 0 0 0 0 0 0 0
       0 0 0x17 0x17 0x17 0x17 0x17 0x17 0x28 0x80000000).

(** kernel/sched.c:234-238 [timer_list]: one slot of the timer array; [fn] is
    the code of the function, [None] in a free slot *)
Record timer_list : Type := Timer {
  t_jiffies : Z; t_fn : option Z; t_next : option nat;
}.
#[global] Instance eta_timer_list : Eta timer_list := fun r =>
  Timer (t_jiffies r) (t_fn r) (t_next r).

Record sched : Type := Sched {
  task : list (option task_struct);
  current : nat;
  jiffies : Z;
  startup_time : Z;
  last_task_used_math : option nat;
  queue : wqueue -> option nat;         (* the head of each wait queue *)
  timers : list timer_list;
  next_timer : option nat;
  beepcount : Z;
  mon_timer : list Z; moff_timer : list Z;
  current_DOR : Z; selected : Z;
}.
#[global] Instance eta_sched : Eta sched := fun r =>
  Sched (task r) (current r) (jiffies r) (startup_time r)
    (last_task_used_math r) (queue r) (timers r) (next_timer r) (beepcount r)
    (mon_timer r) (moff_timer r) (current_DOR r) (selected r).

(** ** Access to a task *)
Definition task_at (s : sched) (i : nat) : option task_struct := mjoin (task s !! i).
Definition cur_task (s : sched) : task_struct :=
  default (INIT_TASK 0 0) (task_at s (current s)).
Definition upd_task (i : nat) (f : task_struct -> task_struct) (s : sched) : sched :=
  s <| task ::= alter (fmap f) i |>.
Definition upd_cur (f : task_struct -> task_struct) (s : sched) : sched :=
  upd_task (current s) f s.
Definition set_queue (q : wqueue) (h : option nat) (s : sched) : sched :=
  s <| queue ::= fun g q' => if decide (q' = q) then h else g q' |>.

(** include/linux/sched.h:172-172 [CURRENT_TIME] *)
Definition CURRENT_TIME (s : sched) : Z := s32 (startup_time s + Z.quot (jiffies s) HZ).

(** ** schedule()

    kernel/sched.c:23-23 [_BLOCKABLE] *)
Definition BLOCKABLE : Z := Z.lnot ((1 .<< (SIGKILL - 1)) .| (1 .<< (SIGSTOP - 1))).

(** kernel/sched.c:78-88 [schedule]: the body of the alarm loop, for one task *)
Definition check_alarm (now : Z) (t : task_struct) : task_struct :=
  let t := if truth (alarm t) && (alarm t <? now)
           then t <| signal ::= fun sg => sg .| (1 .<< (SIGALRM - 1)) |> <| alarm := 0 |>
           else t in
  if truth (signal t .& Z.lnot (BLOCKABLE .& blocked t))
     && (state t =? TASK_INTERRUPTIBLE)
  then t <| state := TASK_RUNNING |> else t.

(** All tasks but task 0, as the loops from [&LAST_TASK] down to [&FIRST_TASK]
    visit them: what they do to one task does not depend on the others. *)
Definition map_tasks (f : task_struct -> task_struct)
    (ts : list (option task_struct)) : list (option task_struct) :=
  match ts with
  | [] => []
  | t0 :: rest => t0 :: ((fun o : option task_struct => f <$> o) <$> rest)
  end.

(** kernel/sched.c:93-102 [schedule]: [while (--i)], from slot [i - 1] down to
    slot 1 *)
Fixpoint pick_loop (ts : list (option task_struct)) (i : nat) (c : Z)
    (next : nat) : Z * nat :=
  match i with
  | O | 1%nat => (c, next)
  | S i' =>
      match mjoin (ts !! i') with
      | Some t =>
          if (state t =? TASK_RUNNING) && (c <? counter t)
          then pick_loop ts i' (counter t) i'
          else pick_loop ts i' c next
      | None => pick_loop ts i' c next
      end
  end.
Definition pick (ts : list (option task_struct)) : Z * nat :=
  pick_loop ts NR_TASKS (-1) 0%nat.

(** kernel/sched.c:104-107 [schedule]: new time slices for all tasks *)
Definition recharge (t : task_struct) : task_struct :=
  t <| counter := s32 ((counter t .>> 1) + priority t) |>.

(** kernel/sched.c:92-108 [schedule]: the scheduler proper *)
Fixpoint select_next (fuel : nat) (ts : list (option task_struct)) :
    option (list (option task_struct) * nat) :=
  match fuel with
  | O => None
  | S n =>
      let '(c, next) := pick ts in
      if truth c then Some (ts, next)
      else select_next n (map_tasks recharge ts)
  end.

(** include/linux/sched.h:195-208 [switch_to]: nothing when task [n] is running
    already; otherwise the processor is given away until this task is chosen
    again. *)
Definition switch_to (n : nat) : M sched unit := fun s w =>
  if decide (n = current s) then Ret tt s w
  else
    match script w with
    | [] => Asleep (s <| current := n |>)
    | f :: sc =>
        Ret tt (f (s <| current := n |>) <| current := current s |>)
          (World sc (log w))
    end.

(** A round of new slices and one more search are enough. *)
Definition SCHED_FUEL : nat := 64.
(** kernel/sched.c:73-108 [schedule]: alarms and signals, and the task to run next *)
Definition choose_next : M sched nat :=
  now ← gets jiffies ;
  modify (fun s => s <| task ::= map_tasks (check_alarm now) |>) ;;
  ts ← gets task ;
  match select_next SCHED_FUEL ts with
  | Some (ts', next) => modify (fun s => s <| task := ts' |>) ;; mret next
  | None => out_of_fuel
  end.
(** kernel/sched.c:71-110 [schedule] *)
Definition schedule : M sched unit := next ← choose_next ; switch_to next.

(** ** Sleeping and waking *)

(** kernel/sched.c:112-117 [sys_pause] *)
Definition sys_pause : M sched Z :=
  modify (upd_cur (fun t => t <| state := TASK_INTERRUPTIBLE |>)) ;;
  schedule ;;
  mret 0.

Definition wake_task (t : option nat) : M sched unit :=
  match t with
  | Some i => modify (upd_task i (fun t => t <| state := 0 |>))
  | None => mret tt
  end.

(** kernel/sched.c:119-133 [sleep_on] *)
Definition sleep_on (p : wqueue) : M sched unit :=
  cur ← gets current ;
  if decide (cur = 0%nat) then panic "task[0] trying to sleep" else
  tmp ← gets (fun s => queue s p) ;
  modify (set_queue p (Some cur)) ;;
  modify (upd_cur (fun t => t <| state := TASK_UNINTERRUPTIBLE |>)) ;;
  schedule ;;
  wake_task tmp.

(** kernel/sched.c:135-154 [interruptible_sleep_on]: every turn but the last
    has slept, so the length of the script bounds the turns *)
Definition interruptible_sleep_on (p : wqueue) : M sched unit :=
  cur ← gets current ;
  if decide (cur = 0%nat) then panic "task[0] trying to sleep" else
  tmp ← gets (fun s => queue s p) ;
  modify (set_queue p (Some cur)) ;;
  (fun s w => repeat_until (S (S (length (script w))))
    (modify (upd_cur (fun t => t <| state := TASK_INTERRUPTIBLE |>)) ;;
     schedule ;;
     h ← gets (fun s => queue s p) ;
     match h with
     | Some i =>
         if decide (i = cur) then mret (Some tt)
         else wake_task (Some i) ;; mret None
     | None => mret (Some tt)
     end) s w) ;;
  modify (set_queue p None) ;;
  wake_task tmp.

(** kernel/sched.c:156-162 [wake_up] *)
Definition wake_up (p : wqueue) : M sched unit :=
  h ← gets (fun s => queue s p) ;
  match h with
  | Some i => wake_task (Some i) ;; modify (set_queue p None)
  | None => mret tt
  end.

(** ** Floppy motor timers *)
Definition FD_DOR : Z := 0x3f2.
Definition nth_z (l : list Z) (i : nat) : Z := nth i l 0.

(** kernel/sched.c:174-198 [ticks_to_floppy_on] *)
Definition ticks_to_floppy_on (nr : nat) : M sched Z :=
  if decide (3 < nr)%nat then panic "floppy_on: nr>3" else
  modify (fun s => s <| moff_timer ::= <[nr := 10000]> |>) ;;
  s ← get ;
  let m0 := u8 (0x10 .<< Z.of_nat nr) .| current_DOR s in
  let mask := if truth (selected s) then m0
              else (m0 .& 0xFC) .| Z.of_nat nr in
  (if mask =? current_DOR s then mret tt
   else
     emit (EvOut mask FD_DOR) ;;
     (if truth ((mask .^ current_DOR s) .& 0xf0)
      then modify (fun s => s <| mon_timer ::= <[nr := Z.quot HZ 2]> |>)
      else when (nth_z (mon_timer s) nr <? 2)
             (modify (fun s => s <| mon_timer ::= <[nr := 2]> |>))) ;;
     modify (fun s => s <| current_DOR := mask |>)) ;;
  gets (fun s => nth_z (mon_timer s) nr).

(** kernel/sched.c:200-206 [floppy_on] *)
Definition floppy_on (nr : nat) : M sched unit := fun s w =>
  repeat_until (S (length (script w)))
    (t ← ticks_to_floppy_on nr ;
     if truth t then sleep_on (WMotor nr) ;; mret None else mret (Some tt)) s w.

(** kernel/sched.c:208-211 [floppy_off] *)
Definition floppy_off (nr : nat) : M sched unit :=
  modify (fun s => s <| moff_timer ::= <[nr := 3 * HZ]> |>).

(** kernel/sched.c:213-230 [do_floppy_timer] *)
Definition do_floppy_timer : M sched unit :=
  for_each (seq 0 4) (fun i =>
    s ← get ;
    let mask := u8 (0x10 .<< Z.of_nat i) in
    if negb (truth (mask .& current_DOR s)) then mret tt
    else if truth (nth_z (mon_timer s) i) then
      modify (fun s => s <| mon_timer ::= <[i := nth_z (mon_timer s) i - 1]> |>) ;;
      when (nth_z (mon_timer s) i - 1 =? 0) (wake_up (WMotor i))
    else if negb (truth (nth_z (moff_timer s) i)) then
      modify (fun s => s <| current_DOR ::= fun d => d .& Z.lnot mask |>) ;;
      d ← gets current_DOR ;
      emit (EvOut d FD_DOR)
    else
      modify (fun s => s <| moff_timer ::= <[i := nth_z (moff_timer s) i - 1]> |>)).

(** ** Timers *)
Definition TIME_REQUESTS : nat := 64.
Definition no_timer : timer_list := Timer 0 None None.
Definition timer_at (tl : list timer_list) (p : nat) : timer_list :=
  default no_timer (tl !! p).

(** kernel/sched.c:250-252 [add_timer]: the first free slot *)
Fixpoint free_timer (tl : list timer_list) : option nat :=
  match tl with
  | [] => None
  | t :: tl' => match t_fn t with
                | None => Some 0%nat
                | Some _ => S <$> free_timer tl'
                end
  end.

(** kernel/sched.c:259-268 [add_timer]: the new entry moves down the list, by
    exchanging the contents of neighbouring slots *)
Fixpoint sink_timer (fuel : nat) (tl : list timer_list) (p : nat) :
    option (list timer_list) :=
  match fuel with
  | O => None
  | S n =>
      let tp := timer_at tl p in
      match t_next tp with
      | None => Some tl
      | Some q =>
          let tq := timer_at tl q in
          if t_jiffies tq <? t_jiffies tp then
            let j := s32 (t_jiffies tp - t_jiffies tq) in
            let tl1 := <[p := tp <| t_jiffies := t_jiffies tq |> <| t_fn := t_fn tq |>]> tl in
            let tl2 := <[q := tq <| t_jiffies := j |> <| t_fn := t_fn tp |>]> tl1 in
            sink_timer n tl2 q
          else Some tl
      end
  end.

(** kernel/sched.c:240-271 [add_timer] *)
Definition add_timer (jif : Z) (fn : option Z) : M sched unit :=
  match fn with
  | None => mret tt
  | Some f =>
      if jif <=? 0 then emit (EvCall f) else
      tl ← gets timers ;
      match free_timer tl with
      | None => panic "No more time requests free"
      | Some p =>
          nxt ← gets next_timer ;
          match sink_timer (S TIME_REQUESTS) (<[p := Timer jif (Some f) nxt]> tl) p with
          | Some tl' => modify (fun s => s <| timers := tl' |> <| next_timer := Some p |>)
          | None => out_of_fuel
          end
      end
  end.

(** kernel/sched.c:287-297 [do_timer]: the functions of the expired entries *)
Definition run_timers : M sched unit :=
  repeat_until (S TIME_REQUESTS)
    (s ← get ;
     match next_timer s with
     | None => mret (Some tt)
     | Some p =>
         let tp := timer_at (timers s) p in
         if t_jiffies tp <=? 0 then
           modify (fun s => s <| timers ::= <[p := tp <| t_fn := None |>]> |>
                              <| next_timer := t_next tp |>) ;;
           match t_fn tp with
           | Some f => emit (EvCall f)
           | None => panic "call through a null pointer"
           end ;;
           mret None
         else mret (Some tt)
     end).

(** kernel/sched.c:273-303 [do_timer]: the accounts, the timers and the time slice; does
    the task have to give way?  A timer's function is called while the
    list is being run; here the call is an event of the log, so a function that
    adds a timer is not run inside the loop. *)
Definition timer_tick (cpl : Z) : M sched bool :=
  b ← gets beepcount ;
  when (truth b)
    (modify (fun s => s <| beepcount := b - 1 |>) ;;
     when (b - 1 =? 0) (emit (EvCall (-1)))) ;;           (* sysbeepstop *)
  (if truth cpl
   then modify (upd_cur (fun t => t <| utime ::= fun x => s32 (x + 1) |>))
   else modify (upd_cur (fun t => t <| stime ::= fun x => s32 (x + 1) |>))) ;;
  nxt ← gets next_timer ;
  match nxt with
  | Some p =>
      modify (fun s => s <| timers ::=
        alter (fun t => t <| t_jiffies ::= fun j => s32 (j - 1) |>) p |>) ;;
      run_timers
  | None => mret tt
  end ;;
  dor ← gets current_DOR ;
  when (truth (dor .& 0xf0)) do_floppy_timer ;;
  modify (upd_cur (fun t => t <| counter ::= fun c => s32 (c - 1) |>)) ;;
  t ← gets cur_task ;
  if 0 <? counter t then mret false else
  modify (upd_cur (fun t => t <| counter := 0 |>)) ;;
  mret (truth cpl).
(** kernel/sched.c:273-304 [do_timer] *)
Definition do_timer (cpl : Z) : M sched unit := b ← timer_tick cpl ; when b schedule.

(** ** System calls of sched.c *)

(** kernel/sched.c:306-314 [sys_alarm] *)
Definition sys_alarm (seconds : Z) : M sched Z :=
  s ← get ;
  let old := alarm (cur_task s) in
  let old := if truth old then Z.quot (s32 (old - jiffies s)) HZ else old in
  modify (upd_cur (fun t => t <| alarm :=
    if 0 <? seconds then s32 (jiffies s + HZ * seconds) else 0 |>)) ;;
  mret old.

(** kernel/sched.c:316-319 [sys_getpid] *)
Definition sys_getpid : M sched Z := gets (fun s => pid (cur_task s)).
(** kernel/sched.c:321-324 [sys_getppid] *)
Definition sys_getppid : M sched Z := gets (fun s => father (cur_task s)).
(** kernel/sched.c:326-329 [sys_getuid] *)
Definition sys_getuid : M sched Z := gets (fun s => uid (cur_task s)).
(** kernel/sched.c:331-334 [sys_geteuid] *)
Definition sys_geteuid : M sched Z := gets (fun s => euid (cur_task s)).
(** kernel/sched.c:336-339 [sys_getgid] *)
Definition sys_getgid : M sched Z := gets (fun s => gid (cur_task s)).
(** kernel/sched.c:341-344 [sys_getegid] *)
Definition sys_getegid : M sched Z := gets (fun s => egid (cur_task s)).

(** kernel/sched.c:346-351 [sys_nice] *)
Definition sys_nice (increment : Z) : M sched Z :=
  modify (upd_cur (fun t =>
    if 0 <? s32 (priority t - increment)
    then t <| priority ::= fun p => s32 (p - increment) |> else t)) ;;
  mret 0.

(** kernel/sched.c:353-380 [sched_init]: the process table; the descriptors,
    the task register and the timer chip are hardware *)
Definition sched_init : M sched unit :=
  modify (fun s => s <| task ::=
    fun ts => match ts with
              | [] => []
              | t0 :: rest => t0 :: (const None <$> rest)
              end |>).

(** ** Show *)

(** kernel/sched.c:25-34 [show_task]: [free] is the number of unused bytes of
    the task's kernel stack *)
Definition show_task (free : task_struct -> Z) (nr : nat) (t : task_struct) : M sched unit :=
  printk "%d: pid=%d, state=%d, " [Z.of_nat nr; pid t; state t] ;;
  printk "%d (of %d) chars free in kernel stack" [free t; 4096 - 956].

(** kernel/sched.c:36-43 [show_stat] *)
Definition show_stat (free : task_struct -> Z) : M sched unit :=
  for_each (seq 0 NR_TASKS) (fun i =>
    t ← gets (fun s => task_at s i) ;
    match t with
    | Some t => show_task free i t
    | None => mret tt
    end).

(** * What [pick] chooses

    [runnable ts i t]: slot [i] holds the runnable task [t]. *)
Definition runnable (ts : list (option task_struct)) (i : nat) (t : task_struct) : Prop :=
  mjoin (ts !! i) = Some t /\ state t = TASK_RUNNING.

(** [best ts lo c next]: among the slots from [lo] up, [next] is the runnable
    task with the largest counter [c], the highest slot on a tie; when there is
    none with a counter above [-1], [next] is task 0 and [c] is [-1]. *)
Definition best (ts : list (option task_struct)) (lo : nat) (c : Z) (next : nat) : Prop :=
  ((next = 0%nat /\ c = -1) \/
   (lo <= next < NR_TASKS)%nat /\ -1 < c /\
     exists t, runnable ts next t /\ counter t = c) /\
  forall j t, (lo <= j < NR_TASKS)%nat -> runnable ts j t ->
    counter t <= c /\ ((next < j)%nat -> next <> 0%nat -> counter t < c).

Lemma pick_loop_best ts i c next :
  (1 <= i <= NR_TASKS)%nat -> best ts i c next -> -1 <= c ->
  let '(c', next') := pick_loop ts i c next in best ts 1 c' next'.
Proof.
  revert c next. induction i as [|i IH]; intros c next Hi Hb Hc; [lia|].
  destruct i as [|i]; [done|].
  change (pick_loop ts (S (S i)) c next) with
    (match mjoin (ts !! S i) with
     | Some t => if (state t =? TASK_RUNNING) && (c <? counter t)
                 then pick_loop ts (S i) (counter t) (S i)
                 else pick_loop ts (S i) c next
     | None => pick_loop ts (S i) c next
     end).
  destruct Hb as [Hn Hmax].
  assert (Hsplit : forall j, (S i <= j < NR_TASKS)%nat ->
    j = S i \/ (S (S i) <= j < NR_TASKS)%nat) by lia.
  destruct (mjoin (ts !! S i)) as [t|] eqn:Ht.
  - destruct ((state t =? TASK_RUNNING) && (c <? counter t)) eqn:Hsel.
    + apply andb_prop in Hsel as [Hs Hlt].
      apply Z.eqb_eq in Hs. apply Z.ltb_lt in Hlt.
      apply IH; [lia| |lia]. split.
      * right. split; [lia|]. split; [lia|]. exists t. by repeat split.
      * intros j u Hj Hu. destruct (Hsplit j Hj) as [->|Hj'].
        -- destruct Hu as [Hu _]. assert (u = t) as -> by congruence. lia.
        -- destruct (Hmax j u Hj' Hu). split; lia.
    + apply IH; [lia| |lia]. split.
      * destruct Hn as [?|(? & ? & ?)]; [by left|right]. split; [lia|done].
      * intros j u Hj Hu. destruct (Hsplit j Hj) as [->|Hj']; [|by apply Hmax].
        destruct Hu as [Hu Hr]. assert (u = t) as -> by congruence.
        rewrite Hr, Z.eqb_refl in Hsel. simpl in Hsel.
        apply Z.ltb_ge in Hsel. split; [done|].
        destruct Hn as [[-> _]|(? & ? & _)]; lia.
  - apply IH; [lia| |lia]. split.
    + destruct Hn as [?|(? & ? & ?)]; [by left|right]. split; [lia|done].
    + intros j u Hj Hu. destruct (Hsplit j Hj) as [->|Hj']; [|by apply Hmax].
      destruct Hu as [Hu _]. congruence.
Qed.

Lemma pick_best ts : let '(c, next) := pick ts in best ts 1 c next.
Proof.
  apply pick_loop_best; [unfold NR_TASKS; lia| |lia].
  split; [by left|]. intros j t Hj. lia.
Qed.

Lemma map_tasks_lookup f ts i :
  mjoin (map_tasks f ts !! i) =
  if decide (i = 0%nat) then mjoin (ts !! i) else f <$> mjoin (ts !! i).
Proof.
  destruct ts as [|t0 ts], i as [|i]; try done; simpl.
  rewrite list_lookup_fmap. by destruct (ts !! i).
Qed.

Lemma length_map_tasks f ts : length (map_tasks f ts) = length ts.
Proof. destruct ts; simpl; [done|]. by rewrite length_fmap. Qed.

(** The tasks the scheduler may choose have a sane time slice. *)
Definition slices_ok (ts : list (option task_struct)) : Prop :=
  forall i t, (1 <= i)%nat -> runnable ts i t ->
    0 <= counter t <= 2 ^ 30 /\ 1 <= priority t <= 2 ^ 29.

Lemma recharge_counter t :
  0 <= counter t <= 2 ^ 30 -> 1 <= priority t <= 2 ^ 29 ->
  counter (recharge t) = counter t / 2 + priority t.
Proof.
  intros Hc Hp. cbn. rewrite shiftr_div by lia.
  apply s32_small. zlia.
Qed.

Lemma select_next_two ts :
  slices_ok ts ->
  exists ts' next, select_next 2 ts = Some (ts', next) /\
    (ts' = ts \/ ts' = map_tasks recharge ts) /\
    exists c, pick ts' = (c, next) /\ c <> 0.
Proof.
  intros Hok. simpl.
  pose proof (pick_best ts) as Hb. destruct (pick ts) as [c next] eqn:Hp.
  destruct (truth c) eqn:Hc.
  { exists ts, next. repeat split; [by left|]. exists c. split; [done|].
    unfold truth in Hc. intros ->. done. }
  assert (c = 0) as -> by (unfold truth in Hc; by apply negb_false_iff, Z.eqb_eq in Hc).
  pose proof (pick_best (map_tasks recharge ts)) as Hb2.
  destruct (pick (map_tasks recharge ts)) as [c2 next2] eqn:Hp2.
  destruct Hb as [[[_ ?]|(Hn & _ & t & Hrun & Hct)] _]; [done|].
  destruct (Hok next t ltac:(lia) Hrun) as [Hrc Hrp].
  assert (Hrun' : runnable (map_tasks recharge ts) next (recharge t)).
  { destruct Hrun as [Hl Hs]. split; [|done].
    rewrite map_tasks_lookup, decide_False by lia. by rewrite Hl. }
  destruct Hb2 as [_ Hmax2]. specialize (Hmax2 next _ Hn Hrun') as [Hle _].
  rewrite recharge_counter in Hle by done.
  assert (Hc2 : c2 <> 0) by zlia.
  replace (truth c2) with true
    by (unfold truth; by destruct (Z.eqb_spec c2 0)).
  exists (map_tasks recharge ts), next2. eauto 10.
Qed.

Lemma select_next_mono n m ts r :
  (n <= m)%nat -> select_next n ts = Some r -> select_next m ts = Some r.
Proof.
  revert m ts. induction n as [|n IH]; intros m ts Hm; [done|].
  destruct m as [|m]; [lia|]. simpl. destruct (pick ts) as [c next].
  destruct (truth c); [done|]. apply IH. lia.
Qed.

(** C18. [schedule]'s search always ends, and the task it switches to is the
    runnable one with the largest time slice left (the highest slot on a tie),
    after at most one round of new time slices; it is the idle task 0 only when
    no other task is runnable. *)
Theorem schedule_choice (ts : list (option task_struct)) (Hok : slices_ok ts) :
  exists ts' next,
    select_next SCHED_FUEL ts = Some (ts', next) /\
    (ts' = ts \/ ts' = map_tasks recharge ts) /\
    (next = 0%nat -> forall j t, (1 <= j < NR_TASKS)%nat -> ~ runnable ts j t) /\
    (next <> 0%nat ->
      (next < NR_TASKS)%nat /\ exists t, runnable ts' next t /\ 0 < counter t /\
      forall j u, (1 <= j < NR_TASKS)%nat -> runnable ts' j u ->
        counter u <= counter t /\ ((next < j)%nat -> counter u < counter t)).
Proof.
  destruct (select_next_two ts Hok) as (ts' & next & Hsel & Hts & c & Hp & Hc).
  exists ts', next. split; [eapply select_next_mono, Hsel; unfold SCHED_FUEL; lia|].
  split; [done|]. pose proof (pick_best ts') as Hb. rewrite Hp in Hb.
  destruct Hb as [Hn Hmax]. split.
  - intros -> j t Hj Hrun.
    destruct Hn as [[_ Hc1]|(? & _)]; [|lia]. subst c.
    assert (exists u, runnable ts' j u /\ 0 <= counter u) as (u & Hu & Hu0).
    { destruct (Hok j t ltac:(lia) Hrun) as [Hrc Hrp].
      destruct Hts as [-> | ->]; [exists t; split; [done|lia]|].
      exists (recharge t). destruct Hrun as [Hl Hs]. split.
      - split; [|done]. rewrite map_tasks_lookup, decide_False by lia. by rewrite Hl.
      - rewrite recharge_counter by done. zlia. }
    specialize (Hmax j u Hj Hu). lia.
  - intros Hn0. destruct Hn as [[? _]|(Hr & Hlo & t & Hrun & Hct)]; [done|].
    split; [lia|]. exists t. split; [done|]. split; [lia|].
    intros j u Hj Hu. destruct (Hmax j u Hj Hu) as [H1 H2]. split; [lia|].
    intros Hlt. specialize (H2 Hlt Hn0). lia.
Qed.

Lemma slices_ok_Forall t0 ts :
  Forall (fun o => match o with
                   | Some t => state t = TASK_RUNNING ->
                       0 <= counter t <= 2 ^ 30 /\ 1 <= priority t <= 2 ^ 29
                   | None => True
                   end) ts ->
  slices_ok (t0 :: ts).
Proof.
  intros Hall i t Hi [Hl Hs]. destruct i as [|i]; [lia|]. simpl in Hl.
  destruct (ts !! i) as [o|] eqn:Ho; [|done]. simpl in Hl. subst o.
  rewrite Forall_lookup in Hall. by apply (Hall _ _ Ho).
Qed.

(** A table with three tasks, the last two runnable with no slice left. *)
Definition sample_table : list (option task_struct) :=
  let t := INIT_TASK 0 0 in
  [Some t; Some (t <| state := TASK_INTERRUPTIBLE |>);
   Some (t <| counter := 0 |>); Some (t <| counter := 0 |> <| priority := 20 |>)]
  ++ repeat None 60.

Lemma sample_table_ok : slices_ok sample_table.
Proof.
  apply slices_ok_Forall. simpl.
  repeat constructor; cbn; intros; lia.
Qed.

Lemma schedule_choice_witness :
  slices_ok sample_table /\
  exists ts' next, select_next SCHED_FUEL sample_table = Some (ts', next) /\ next = 3%nat.
Proof.
  split; [apply sample_table_ok|].
  destruct (schedule_choice sample_table sample_table_ok)
    as (ts' & next & Hsel & _).
  exists ts', next. split; [exact Hsel|].
  vm_compute in Hsel. injection Hsel as _ Hn. symmetry. exact Hn.
Defined.

(** * Time slices

    A task that does not run keeps half of what it had: its counter stays below
    twice its priority. *)

(** The bound [counter <= 2 * priority] on a task's time slice survives a
    recharge, and a task that is recharged without running gains on every
    round until it is within one tick of that bound. *)
Theorem recharge_bound (t : task_struct)
    (Hc : 0 <= counter t <= 2 ^ 30) (Hp : 1 <= priority t <= 2 ^ 29)
    (Hb : counter t <= 2 * priority t) :
  priority t <= counter (recharge t) <= 2 * priority t /\
  (counter t + 1 < 2 * priority t -> counter t < counter (recharge t)).
Proof. rewrite recharge_counter by done. zlia. Qed.

Lemma recharge_bound_witness :
  let t := INIT_TASK 0 0 in
  counter t <= 2 * priority t /\
  (counter t + 1 < 2 * priority t -> counter t < counter (recharge t)).
Proof.
  cbv zeta. split; [cbn; lia|].
  apply (recharge_bound (INIT_TASK 0 0)); cbn; lia.
Defined.

(** * Alarms and signals *)

(** The alarm loop of [schedule] sends [SIGALRM] exactly to the tasks whose
    alarm has passed and clears the alarm; a sleeping task with a pending
    unblocked signal becomes runnable, and SIGKILL and SIGSTOP cannot be
    blocked, whatever the mask [blocked] holds. *)
Theorem check_alarm_spec (now : Z) (t : task_struct) :
  let fired := truth (alarm t) && (alarm t <? now) in
  let t' := check_alarm now t in
  alarm t' = (if fired then 0 else alarm t) /\
  (forall n, 0 <= n -> Z.testbit (signal t') n =
     Z.testbit (signal t) n || (fired && (n =? SIGALRM - 1))) /\
  (state t = TASK_INTERRUPTIBLE ->
     (exists n, 0 <= n /\ Z.testbit (signal t') n = true /\
        (Z.testbit (blocked t) n = false \/ n = SIGKILL - 1 \/ n = SIGSTOP - 1)) ->
     state t' = TASK_RUNNING) /\
  (state t <> TASK_INTERRUPTIBLE -> state t' = state t).
Proof.
  cbv zeta. unfold check_alarm.
  set (t1 := if truth (alarm t) && (alarm t <? now) then _ else _).
  assert (H1 : alarm t1 = (if truth (alarm t) && (alarm t <? now) then 0 else alarm t) /\
    signal t1 = (if truth (alarm t) && (alarm t <? now)
                 then signal t .| (1 .<< (SIGALRM - 1)) else signal t) /\
    blocked t1 = blocked t /\ state t1 = state t)
    by (subst t1; by destruct (truth (alarm t) && (alarm t <? now))).
  destruct H1 as (Ha & Hs & Hb & Hst).
  set (wake := truth (signal t1 .& _) && _).
  assert (Ha' : alarm (if wake then t1 <| state := TASK_RUNNING |> else t1) = alarm t1)
    by by destruct wake.
  assert (Hs' : signal (if wake then t1 <| state := TASK_RUNNING |> else t1) = signal t1)
    by by destruct wake.
  rewrite Ha', Hs'. split; [done|]. split; [|split].
  - intros n Hn. rewrite Hs.
    destruct (truth (alarm t) && (alarm t <? now)); [|by rewrite orb_false_r].
    rewrite Z.lor_spec. f_equal. simpl.
    rewrite Z.shiftl_1_l, Z.pow2_bits_eqb by (unfold SIGALRM; lia).
    apply Z.eqb_sym.
  - intros Hint (n & Hn & Hbit & Hub).
    replace wake with true; [done|]. symmetry. subst wake.
    rewrite Hst, Hint, Z.eqb_refl, andb_true_r, Hb.
    unfold truth. apply negb_true_iff, Z.eqb_neq. intros H0.
    assert (Hz : Z.testbit (signal t1 .& Z.lnot (BLOCKABLE .& blocked t)) n = false)
      by (rewrite H0; apply Z.bits_0).
    rewrite Z.land_spec, Z.lnot_spec, Z.land_spec, Hbit in Hz by lia.
    simpl in Hz. apply negb_false_iff, andb_prop in Hz as [Hz1 Hz2].
    destruct Hub as [? | [-> | ->]]; [congruence|done|done].
  - intros Hint. replace wake with false; [done|]. symmetry. subst wake.
    rewrite Hst. apply andb_false_intro2. by apply Z.eqb_neq.
Qed.

(** * The timer list as a list

    [chain tl h l]: from slot [h], the [next] pointers run through the slots of
    [l] and end; every slot on the way holds a function. *)
Inductive chain (tl : list timer_list) : option nat -> list nat -> Prop :=
| chain_nil : chain tl None []
| chain_cons p f l :
    (p < length tl)%nat -> t_fn (timer_at tl p) = Some f -> p ∉ l ->
    chain tl (t_next (timer_at tl p)) l ->
    chain tl (Some p) (p :: l).
#[export] Hint Constructors chain : core.

(** The queue of (ticks after the predecessor, function). *)
Definition entry (tl : list timer_list) (p : nat) : Z * option Z :=
  (t_jiffies (timer_at tl p), t_fn (timer_at tl p)).
Definition queue_of (tl : list timer_list) (l : list nat) : list (Z * option Z) :=
  map (entry tl) l.

(** What [add_timer] means by a new entry: it goes behind the entries that are
    due earlier, and what is left of its delay is relative to them. *)
Fixpoint insert_timer (j : Z) (f : option Z) (q : list (Z * option Z)) :
    list (Z * option Z) :=
  match q with
  | [] => [(j, f)]
  | (j', f') :: q' =>
      if j' <? j then (j', f') :: insert_timer (j - j') f q'
      else (j, f) :: (j', f') :: q'
  end.

Lemma timer_at_insert tl p q t :
  (p < length tl)%nat ->
  timer_at (<[p := t]> tl) q = if decide (p = q) then t else timer_at tl q.
Proof.
  intros Hp. unfold timer_at. case_decide as Hpq.
  - subst. by rewrite list_lookup_insert_eq.
  - by rewrite list_lookup_insert_ne.
Qed.

(** A chain depends on the [next] pointers and on which slots are in use. *)
Lemma chain_ext tl tl' h l :
  chain tl h l -> length tl' = length tl ->
  (forall q, q ∈ l -> t_next (timer_at tl' q) = t_next (timer_at tl q) /\
     is_Some (t_fn (timer_at tl' q))) ->
  chain tl' h l.
Proof.
  intros Hch Hlen Hq. induction Hch as [|p f l Hp Hf Hnin Hch IH]; [done|].
  destruct (Hq p ltac:(left)) as [Hn [f' Hf']].
  eapply chain_cons; [lia|done|done|]. rewrite Hn.
  apply IH. intros q Hin. apply Hq. by right.
Qed.

Lemma queue_of_ext tl tl' l :
  (forall q, q ∈ l -> timer_at tl' q = timer_at tl q) -> queue_of tl' l = queue_of tl l.
Proof.
  intros H. apply map_ext_in. intros q Hq. unfold entry.
  by rewrite H by by apply list_elem_of_In.
Qed.

Definition delays_ok (q : list (Z * option Z)) : Prop :=
  Forall (fun e => 0 <= e.1 < 2147483648) q.

Lemma chain_in_use tl h l q : chain tl h l -> q ∈ l -> is_Some (t_fn (timer_at tl q)).
Proof.
  intros Hch. induction Hch as [|p f l' Hp Hf Hnin Hch IH]; intros Hq.
  - by apply not_elem_of_nil in Hq.
  - apply elem_of_cons in Hq as [-> | Hq]; [by rewrite Hf|by apply IH].
Qed.

(** The exchange loop computes [insert_timer], in place. *)
Lemma sink_timer_spec fuel tl p l :
  chain tl (Some p) (p :: l) -> (length l < fuel)%nat ->
  delays_ok (queue_of tl (p :: l)) ->
  exists tl', sink_timer fuel tl p = Some tl' /\ length tl' = length tl /\
    queue_of tl' (p :: l) =
      insert_timer (t_jiffies (timer_at tl p)) (t_fn (timer_at tl p)) (queue_of tl l) /\
    (forall q, t_next (timer_at tl' q) = t_next (timer_at tl q)) /\
    (forall q, q ∉ p :: l -> timer_at tl' q = timer_at tl q) /\
    (forall q, q ∈ p :: l -> is_Some (t_fn (timer_at tl' q))).
Proof.
  revert fuel tl p. induction l as [|q l IH]; intros fuel tl p Hch Hfuel Hd.
  - destruct fuel as [|n]; [lia|]. inversion Hch as [|? f ? Hp Hf ? Hch' ]; subst.
    assert (Hnone : t_next (timer_at tl p) = None) by by inversion Hch'.
    exists tl. simpl. rewrite Hnone. repeat split.
    intros q Hq. apply list_elem_of_singleton in Hq as ->. by rewrite Hf.
  - destruct fuel as [|n]; [simpl in Hfuel; lia|].
    inversion Hch as [|? f ? Hp Hf Hnin Hch']; subst.
    inversion Hch' as [|? g ? Hq Hg Hnin' Hch'' Hnext]; subst.
    simpl in Hd. apply Forall_cons in Hd as [Hd1 Hd2].
    apply Forall_cons in Hd2 as [Hd2 Hd3]. simpl in Hd1, Hd2.
    apply not_elem_of_cons in Hnin as [Hpq Hnin].
    simpl sink_timer. rewrite <- Hnext. simpl.
    destruct (Z.ltb_spec (t_jiffies (timer_at tl q)) (t_jiffies (timer_at tl p)))
      as [Hlt|Hge].
    + set (tl1 := <[p := _]> tl). set (tl2 := <[q := _]> tl1).
      assert (Hlen1 : length tl1 = length tl) by apply length_insert.
      assert (Hat : forall r, timer_at tl2 r =
        if decide (q = r) then timer_at tl q
             <| t_jiffies := s32 (t_jiffies (timer_at tl p) - t_jiffies (timer_at tl q)) |>
             <| t_fn := t_fn (timer_at tl p) |>
        else if decide (p = r) then timer_at tl p
             <| t_jiffies := t_jiffies (timer_at tl q) |> <| t_fn := t_fn (timer_at tl q) |>
        else timer_at tl r).
      { intros r. subst tl2. rewrite timer_at_insert by (rewrite Hlen1; done).
        case_decide; [done|]. subst tl1. rewrite timer_at_insert by done. case_decide; [|done]. cbn. by rewrite Hnext. }
      assert (Hrest : forall r, r ∈ l -> timer_at tl2 r = timer_at tl r).
      { intros r Hr. rewrite Hat, !decide_False; [done|(intros E; subst r; done)..]. }
      destruct (IH n tl2 q) as (tl' & Hs & Hlen & Hv & Hnx & Hfr & Hfn).
      * rewrite <- Hnext in Hch'. eapply chain_ext; [exact Hch'|subst tl2; by rewrite length_insert|].
        intros r Hr. rewrite Hat. case_decide as Hqr.
        { subst r. cbn. split; [done|]. by rewrite Hf. }
        apply elem_of_cons in Hr as [-> | Hr]; [done|].
        rewrite decide_False by (intros E; subst r; done). split; [done|].
        by apply (chain_in_use _ _ _ _ Hch'').
      * simpl in Hfuel. lia.
      * simpl. apply Forall_cons. split.
        { unfold entry. rewrite Hat, decide_True by done. cbn. rewrite s32_small; lia. }
        rewrite (queue_of_ext tl tl2) by done. done.
      * exists tl'. split; [done|].
        rewrite Hat, decide_True in Hv by done. cbn in Hv.
        rewrite (queue_of_ext tl tl2), s32_small in Hv by (done || lia).
        split; [rewrite Hlen; subst tl2; by rewrite length_insert|].
        assert (Hp' : timer_at tl' p = timer_at tl p
             <| t_jiffies := t_jiffies (timer_at tl q) |> <| t_fn := t_fn (timer_at tl q) |>).
        { rewrite Hfr by (by apply not_elem_of_cons). by rewrite Hat, decide_False, decide_True. }
        split; [|split; [|split]].
        -- etransitivity; [apply (f_equal (cons (entry tl' p))); exact Hv|].
           unfold entry. by rewrite Hp'.
        -- intros r. rewrite Hnx, Hat. case_decide; [by subst|]. by case_decide; subst.
        -- intros r Hr. apply not_elem_of_cons in Hr as [? Hr]. rewrite Hfr by done.
           apply not_elem_of_cons in Hr as [? _]. by rewrite Hat, !decide_False by congruence.
        -- intros r Hr. apply elem_of_cons in Hr as [-> | Hr]; [|by apply Hfn].
           rewrite Hp'. cbn. eauto.
    + exists tl. split; [done|]. split; [done|]. split; [done|]. split; [done|].
      split; [done|]. intros r Hr. exact (chain_in_use _ _ _ _ Hch Hr).
Qed.

Lemma chain_NoDup tl h l : chain tl h l -> NoDup l.
Proof. induction 1; by constructor. Qed.

Lemma timer_chain_lt tl h l q : chain tl h l -> q ∈ l -> (q < length tl)%nat.
Proof.
  intros Hch. induction Hch as [|p f l' Hp Hf Hnin Hch IH]; intros Hq.
  - by apply not_elem_of_nil in Hq.
  - apply elem_of_cons in Hq as [-> | Hq]; auto.
Qed.

Lemma chain_length tl h l : chain tl h l -> (length l <= length tl)%nat.
Proof.
  intros Hch. rewrite <- (length_seq (length tl) 0).
  apply submseteq_length, NoDup_submseteq; [by eapply chain_NoDup|].
  intros q Hq. apply elem_of_seq. apply (timer_chain_lt _ _ _ _ Hch) in Hq. lia.
Qed.

Lemma free_timer_spec tl p :
  free_timer tl = Some p -> (p < length tl)%nat /\ t_fn (timer_at tl p) = None.
Proof.
  revert p. induction tl as [|t tl IH]; intros p; simpl; [done|].
  destruct (t_fn t) eqn:Ht.
  - destruct (free_timer tl) as [q|]; simpl; [|done]. intros [= <-].
    destruct (IH q eq_refl). split; [lia|done].
  - intros [= <-]. split; [lia|]. unfold timer_at. by simpl.
Qed.

Lemma chain_insert_out tl h l p t :
  chain tl h l -> p ∉ l -> (p < length tl)%nat ->
  chain (<[p := t]> tl) h l /\ queue_of (<[p := t]> tl) l = queue_of tl l.
Proof.
  intros Hch Hnin Hp.
  assert (Hat : forall q, q ∈ l -> timer_at (<[p := t]> tl) q = timer_at tl q).
  { intros q Hq. rewrite timer_at_insert by done.
    rewrite decide_False; [done|]. by intros ->. }
  split; [|by apply queue_of_ext].
  eapply chain_ext; [done|by rewrite length_insert|].
  intros q Hq. rewrite Hat by done. split; [done|]. by eapply chain_in_use.
Qed.

Lemma chain_not_free tl h l p : chain tl h l -> t_fn (timer_at tl p) = None -> p ∉ l.
Proof. intros Hch Hf Hin. destruct (chain_in_use _ _ _ _ Hch Hin). congruence. Qed.

(** What one call of [add_timer] does to the list of slots. *)
Lemma add_timer_run (s : sched) (w : world sched) (jif f : Z) (l : list nat) :
  length (timers s) = TIME_REQUESTS -> chain (timers s) (next_timer s) l ->
  delays_ok (queue_of (timers s) l) -> 0 < jif < 2147483648 ->
  match free_timer (timers s) with
  | None => add_timer jif (Some f) s w = Panicked "No more time requests free" s
  | Some p =>
      exists s', add_timer jif (Some f) s w = Ret tt s' w /\
        chain (timers s') (next_timer s') (p :: l) /\
        queue_of (timers s') (p :: l) =
          insert_timer jif (Some f) (queue_of (timers s) l)
  end.
Proof.
  intros Hlen Hch Hd Hj.
  unfold add_timer. rewrite (proj2 (Z.leb_gt jif 0)) by lia.
  unfold mbind, M_bind, gets.
  destruct (free_timer (timers s)) as [p|] eqn:Hfree; [|done].
  apply free_timer_spec in Hfree as [Hp Hfn].
  pose proof (chain_not_free _ _ _ _ Hch Hfn) as Hnin.
  destruct (chain_insert_out _ _ _ p (Timer jif (Some f) (next_timer s)) Hch Hnin Hp)
    as [Hch1 Hq1].
  set (tl := <[p := _]> (timers s)) in *.
  assert (Hat : timer_at tl p = Timer jif (Some f) (next_timer s)).
  { subst tl. by rewrite timer_at_insert, decide_True. }
  assert (Hchp : chain tl (Some p) (p :: l)).
  { eapply chain_cons; [by subst tl; rewrite length_insert|by rewrite Hat|done|].
    by rewrite Hat. }
  destruct (sink_timer_spec (S TIME_REQUESTS) tl p l Hchp)
    as (tl' & Hs & Hlen' & Hv & Hnx & Hfr & Hfn').
  { apply chain_length in Hch. lia. }
  { simpl. apply Forall_cons. split; [unfold entry; rewrite Hat; simpl; lia|].
    fold (queue_of tl l). by rewrite Hq1. }
  rewrite Hs. eexists. split; [reflexivity|]. cbn. split.
  - eapply chain_ext; [exact Hchp|done|]. intros q Hq. split; [apply Hnx|by apply Hfn'].
  - rewrite Hat, Hq1 in Hv. exact Hv.
Qed.

(** When each entry of the queue is due, counted from now. *)
Fixpoint due (base : Z) (q : list (Z * option Z)) : list (Z * option Z) :=
  match q with
  | [] => []
  | (j, f) :: q' => (base + j, f) :: due (base + j) q'
  end.
Fixpoint delay_of (q : list (Z * option Z)) : Z :=
  match q with
  | [] => 0
  | (j, _) :: q' => j + delay_of q'
  end.

Lemma due_insert (j base : Z) (f : option Z) (q : list (Z * option Z)) :
  0 < j ->
  exists q1 q2, q = q1 ++ q2 /\ delay_of q1 < j /\
    due base q = due base q1 ++ due (base + delay_of q1) q2 /\
    due base (insert_timer j f q) =
      due base q1 ++ (base + j, f) :: due (base + j) q2.
Proof.
  revert j base. induction q as [|[j' f'] q IH]; intros j base Hj.
  - exists [], []. repeat split; simpl; auto with lia.
  - simpl. destruct (Z.ltb_spec j' j) as [Hlt|Hge].
    + destruct (IH (j - j') (base + j') ltac:(lia)) as (q1 & q2 & -> & Hd & H1 & H2).
      exists ((j', f') :: q1), q2. split; [done|].
      simpl. split; [lia|]. rewrite H1, H2. split.
      * by rewrite Z.add_assoc.
      * by replace (base + j' + (j - j')) with (base + j) by lia.
    + exists [], ((j', f') :: q). simpl. rewrite Z.add_0_r. auto.
Qed.

(** [add_timer] on a list with a free slot: the new function is linked in
    behind the entries that are due before it, with the rest of its delay, and
    the entries themselves are unchanged; the slots stay a proper list.  With
    no slot free it panics. *)
Theorem add_timer_spec (s : sched) (w : world sched) (jif f : Z) (l : list nat)
    (Hlen : length (timers s) = TIME_REQUESTS)
    (Hch : chain (timers s) (next_timer s) l)
    (Hd : delays_ok (queue_of (timers s) l)) (Hj : 0 < jif < 2147483648) :
  match free_timer (timers s) with
  | None => add_timer jif (Some f) s w = Panicked "No more time requests free" s
  | Some p =>
      exists s', add_timer jif (Some f) s w = Ret tt s' w /\
        chain (timers s') (next_timer s') (p :: l) /\
        queue_of (timers s') (p :: l) =
          insert_timer jif (Some f) (queue_of (timers s) l)
  end.
Proof. by apply add_timer_run. Qed.

(** When each function runs, counted in ticks from the call of [add_timer]:
    the new function is due exactly when asked and the entries in front of it
    keep their times, but every entry behind it becomes due later than it was,
    by the time between the new function and the last entry in front of it: the
    delay of the next entry is not reduced. *)
Theorem add_timer_due (s : sched) (w : world sched) (jif f : Z) (l : list nat) (p : nat)
    (Hlen : length (timers s) = TIME_REQUESTS)
    (Hch : chain (timers s) (next_timer s) l)
    (Hd : delays_ok (queue_of (timers s) l)) (Hj : 0 < jif < 2147483648)
    (Hfree : free_timer (timers s) = Some p) :
  exists s' q1 q2, add_timer jif (Some f) s w = Ret tt s' w /\
    queue_of (timers s) l = q1 ++ q2 /\ delay_of q1 < jif /\
    due 0 (queue_of (timers s) l) = due 0 q1 ++ due (delay_of q1) q2 /\
    due 0 (queue_of (timers s') (p :: l)) =
      due 0 q1 ++ (jif, Some f) :: due jif q2.
Proof.
  pose proof (add_timer_run s w jif f l Hlen Hch Hd Hj) as H. rewrite Hfree in H.
  destruct H as (s' & Hrun & _ & Hq).
  destruct (due_insert jif 0 (Some f) (queue_of (timers s) l) ltac:(lia))
    as (q1 & q2 & H1 & H2 & H3 & H4).
  exists s', q1, q2. rewrite Hq. auto.
Qed.

Definition no_sched (tl : list timer_list) (h : option nat) : sched :=
  Sched [Some (INIT_TASK 0 0)] 0 0 0 None (fun _ => None) tl h 0
    [0; 0; 0; 0] [0; 0; 0; 0] 0x0c 0.

Lemma add_timer_spec_witness :
  let s := no_sched (Timer 5 (Some 1) None :: repeat no_timer 63) (Some 0%nat) in
  length (timers s) = TIME_REQUESTS /\
  exists s', add_timer 3 (Some 2) s (World [] []) = Ret tt s' (World [] []) /\
    queue_of (timers s') [1%nat; 0%nat] = [(3, Some 2); (5, Some 1)].
Proof.
  cbv zeta. split; [reflexivity|].
  pose proof (add_timer_spec (no_sched (Timer 5 (Some 1) None :: repeat no_timer 63)
    (Some 0%nat)) (World [] []) 3 2 [0%nat]) as H.
  cbv beta zeta in H. simpl free_timer in H.
  destruct H as (s' & Ha & _ & Hq).
  { reflexivity. }
  { apply chain_cons with (f := 1); [simpl; lia|reflexivity|apply not_elem_of_nil|].
    constructor. }
  { constructor; [simpl; lia|constructor]. }
  { lia. }
  exists s'. split; [exact Ha|]. exact Hq.
Defined.

(** A function due in 5 ticks is put off to 8 by one that is due in 3. *)
Lemma add_timer_due_witness :
  let s := no_sched (Timer 5 (Some 1) None :: repeat no_timer 63) (Some 0%nat) in
  free_timer (timers s) = Some 1%nat /\ due 0 (queue_of (timers s) [0%nat]) = [(5, Some 1)] /\
  exists s', add_timer 3 (Some 2) s (World [] []) = Ret tt s' (World [] []) /\
    due 0 (queue_of (timers s') [1%nat; 0%nat]) = [(3, Some 2); (8, Some 1)].
Proof.
  cbv zeta. split; [reflexivity|]. split; [reflexivity|].
  destruct (add_timer_due (no_sched (Timer 5 (Some 1) None :: repeat no_timer 63)
    (Some 0%nat)) (World [] []) 3 2 [0%nat] 1%nat) as (s' & q1 & q2 & Ha & Hq & Hd & _ & H').
  { reflexivity. }
  { apply chain_cons with (f := 1); [simpl; lia|reflexivity|apply not_elem_of_nil|].
    constructor. }
  { constructor; [simpl; lia|constructor]. }
  { lia. }
  { reflexivity. }
  exists s'. split; [exact Ha|]. rewrite H'.
  destruct q1 as [|[j1 f1] q1]; simpl in Hq.
  - rewrite <- Hq. reflexivity.
  - injection Hq as <- <- Hq. symmetry in Hq. apply app_nil in Hq as [-> ->].
    simpl in Hd. lia.
Defined.

(** The calls a queue of functions makes, newest first. *)
Definition calls_of (q : list (Z * option Z)) : list event :=
  rev (map (fun e => EvCall (default 0 e.2)) q).

Definition timer_body : M sched (option unit) :=
  (s ← get ;
   match next_timer s with
   | None => mret (Some tt)
   | Some p =>
       let tp := timer_at (timers s) p in
       if t_jiffies tp <=? 0 then
         modify (fun s => s <| timers ::= <[p := tp <| t_fn := None |>]> |>
                            <| next_timer := t_next tp |>) ;;
         match t_fn tp with
         | Some f => emit (EvCall f)
         | None => panic "call through a null pointer"
         end ;;
         mret None
       else mret (Some tt)
   end).

Lemma run_timers_unfold : run_timers = repeat_until (S TIME_REQUESTS) timer_body.
Proof. reflexivity. Qed.

Lemma run_timers_loop n s w l :
  (length l < n)%nat -> chain (timers s) (next_timer s) l ->
  exists l1 l2 s', l = l1 ++ l2 /\
    repeat_until n timer_body s w =
      Ret tt s' (World (script w) (calls_of (queue_of (timers s) l1) ++ log w)) /\
    chain (timers s') (next_timer s') l2 /\
    queue_of (timers s') l2 = queue_of (timers s) l2 /\
    (forall p, p ∈ l1 -> t_jiffies (timer_at (timers s) p) <= 0 /\
       t_fn (timer_at (timers s') p) = None) /\
    (forall p, head l2 = Some p -> 0 < t_jiffies (timer_at (timers s) p)) /\
    (forall p, p ∉ l1 -> timer_at (timers s') p = timer_at (timers s) p).
Proof.
  revert s w l. induction n as [|n IH]; intros s [sc lg] l Hn Hch; [lia|].
  inversion Hch as [Hh|p f l' Hp Hf Hnin Hch' Hh]; subst.
  { exists [], [], s. split; [done|]. split.
    - simpl repeat_until. unfold timer_body. run. by rewrite <- Hh.
    - rewrite <- Hh. split; [constructor|]. split; [done|].
      split; [by intros ? ?%not_elem_of_nil|done]. }
  destruct (Z.leb_spec (t_jiffies (timer_at (timers s) p)) 0) as [Hle|Hgt].
  2: { exists [], (p :: l'), s. split; [done|]. split.
    - simpl repeat_until. unfold timer_body. run. rewrite <- Hh.
      cbv zeta. by rewrite (proj2 (Z.leb_gt _ _) Hgt).
    - split; [done|]. split; [done|]. split; [by intros q ?%not_elem_of_nil|].
      split; [by intros q [= <-]|done]. }
  set (s1 := s <| timers ::= <[p := timer_at (timers s) p <| t_fn := None |>]> |>
               <| next_timer := t_next (timer_at (timers s) p) |>).
  destruct (chain_insert_out _ _ _ p (timer_at (timers s) p <| t_fn := None |>)
    Hch' Hnin Hp) as [Hc1 Hq1].
  destruct (IH s1 (World sc (EvCall f :: lg)) l') as
    (l1 & l2 & s' & -> & Hrun & Hc2 & Hq2 & Hl1 & Hl2 & Hfr); [simpl in Hn; lia|done|].
  assert (Hat : forall q, q <> p -> timer_at (timers s1) q = timer_at (timers s) q).
  { intros q Hq. cbn. by rewrite timer_at_insert, decide_False by done. }
  assert (Hin : forall q, q ∈ l1 ++ l2 -> timer_at (timers s1) q = timer_at (timers s) q).
  { intros q Hq. apply Hat. by intros ->. }
  exists (p :: l1), l2, s'. split; [done|]. split.
  { assert (Hb : timer_body s (World sc lg) = Ret None s1 (World sc (EvCall f :: lg))).
    { unfold timer_body. run. rewrite <- Hh. cbv zeta.
      rewrite (proj2 (Z.leb_le _ _) Hle), Hf. by run. }
    simpl repeat_until. rewrite (run_ret _ _ _ _ _ _ _ Hb).
    rewrite Hrun, (queue_of_ext (timers s)).
    - simpl. unfold calls_of. simpl. rewrite Hf. simpl. by rewrite <- app_assoc.
    - intros q Hq. apply Hin, elem_of_app. by left. }
  split; [done|]. split.
  { rewrite Hq2. apply queue_of_ext. intros q Hq. apply Hin, elem_of_app. by right. }
  split; [|split].
  - intros q [-> | Hq]%elem_of_cons.
    + split; [done|]. rewrite Hfr by (intros ?; apply Hnin, elem_of_app; by left).
      cbn. by rewrite timer_at_insert, decide_True by done.
    + destruct (Hl1 q Hq) as [H1 H2]. split; [|done].
      rewrite Hin in H1; [done|]. apply elem_of_app. by left.
  - intros q Hq. rewrite <- Hin; [by apply Hl2|].
    apply elem_of_app. right. destruct l2; [done|]. injection Hq as ->. by left.
  - intros q [Hqp Hq]%not_elem_of_cons. rewrite Hfr by done. by apply Hat.
Qed.

(** [do_timer]'s loop over the timer list ends, calls the functions of the
    longest prefix of entries that are due, in order, frees exactly their
    slots, and leaves the rest of the list as it was. *)
Theorem run_timers_spec (s : sched) (w : world sched) (l : list nat)
    (Hlen : length (timers s) = TIME_REQUESTS)
    (Hch : chain (timers s) (next_timer s) l) :
  exists l1 l2 s', l = l1 ++ l2 /\
    run_timers s w =
      Ret tt s' (World (script w) (calls_of (queue_of (timers s) l1) ++ log w)) /\
    chain (timers s') (next_timer s') l2 /\
    queue_of (timers s') l2 = queue_of (timers s) l2 /\
    (forall p, p ∈ l1 -> t_jiffies (timer_at (timers s) p) <= 0 /\
       t_fn (timer_at (timers s') p) = None) /\
    (forall p, head l2 = Some p -> 0 < t_jiffies (timer_at (timers s) p)).
Proof.
  rewrite run_timers_unfold.
  destruct (run_timers_loop (S TIME_REQUESTS) s w l)
    as (l1 & l2 & s' & H1 & H2 & H3 & H4 & H5 & H6 & _);
    [apply chain_length in Hch; lia|done|].
  by exists l1, l2, s'.
Qed.

Lemma run_timers_spec_witness :
  let s := no_sched (Timer 0 (Some 1) (Some 1%nat) :: Timer 5 (Some 2) None
             :: repeat no_timer 62) (Some 0%nat) in
  exists s', run_timers s (World [] []) = Ret tt s' (World [] [EvCall 1]) /\
    next_timer s' = Some 1%nat.
Proof.
  cbv zeta. set (s := no_sched _ _).
  assert (Hch : chain (timers s) (next_timer s) [0%nat; 1%nat]).
  { apply chain_cons with (f := 1); [simpl; lia|reflexivity| |].
    - by apply not_elem_of_cons; split; [|apply not_elem_of_nil].
    - apply chain_cons with (f := 2); [simpl; lia|reflexivity|apply not_elem_of_nil|].
      constructor. }
  destruct (run_timers_spec s (World [] []) [0%nat; 1%nat] eq_refl Hch)
    as (l1 & l2 & s' & _ & Hrun & _).
  exists s'. vm_compute in Hrun. injection Hrun as Hs Hl. subst s'.
  split; reflexivity.
Defined.
