(* ===== verification/Mm.v ===== *)
(** Physical memory, the page tables and demand paging: [mm/memory.c].

    [mem] is physical memory as the kernel addresses it (identity mapped): the
    32-bit word at each word-aligned address.  The page directory is at address
    0, page tables are ordinary pages.  [mem_map] is the array of use counts, an
    unsigned char per page of main memory; an index outside
    [0 .. PAGING_PAGES-1] is a byte of whatever the linker puts around it. *)
From S2P Require Import Prelude Sched.

Definition LOW_MEM : Z := 0x100000.
Definition PAGING_MEMORY : Z := 15 * 1024 * 1024.
Definition PAGING_PAGES : Z := 3840.
Definition USED : Z := 100.
Definition PAGE_SIZE : Z := 4096.
Definition SIGSEGV : Z := 11.

Record mm : Type := Mm {
  mem : Z -> Z;
  mem_map : Z -> Z;
  HIGH_MEMORY : Z;
}.
#[global] Instance eta_mm : Eta mm := fun r => Mm (mem r) (mem_map r) (HIGH_MEMORY r).

(** [f] with the value at [a] replaced. *)
Definition upd {A} (a : Z) (v : A) (f : Z -> A) : Z -> A :=
  fun x => if x =? a then v else f x.

Definition load (a : Z) : M mm Z := gets (fun s => mem s a).
Definition store (a v : Z) : M mm unit := modify (fun s => s <| mem ::= upd a v |>).
Definition map_at (i : Z) : M mm Z := gets (fun s => mem_map s i).
Definition set_map (i v : Z) : M mm unit := modify (fun s => s <| mem_map ::= upd i (u8 v) |>).

(** mm/memory.c:39-40 [invalidate] *)
Definition invalidate : M mm unit := emit EvInvalidate.

(** mm/memory.c:46-46 [MAP_NR] *)
Definition MAP_NR (addr : Z) : Z := u32 (addr - LOW_MEM) .>> 12.

(** mm/memory.c:33-37 [oom]: [do_exit] does not come back *)
Definition oom {A} : M mm A := printk "out of memory" [] ;; exit_task SIGSEGV.

(** mm/memory.c:54-55 [copy_page]: 1024 words upwards *)
Definition copy_page (from to : Z) : M mm unit :=
  modify (fun s => s <| mem ::= fun m =>
    fun x => if (to <=? x) && (x <? to + PAGE_SIZE) then m (from + (x - to)) else m x |>).

(** mm/memory.c:72-75 [get_free_page]: [rep stosl] of zeros *)
Definition clear_page (a : Z) (m : Z -> Z) : Z -> Z :=
  fun x => if (a <=? x) && (x <? a + PAGE_SIZE) then 0 else m x.

(** mm/memory.c:67-68 [get_free_page]: [std; repne scasb] from the last byte of
    [mem_map] down; the index of the free page found *)
Fixpoint scan_free (n : nat) (map : Z -> Z) : option Z :=
  match n with
  | O => None
  | S i => if map (Z.of_nat i) =? 0 then Some (Z.of_nat i) else scan_free i map
  end.

(** mm/memory.c:63-83 [get_free_page] *)
Definition get_free_page : M mm Z :=
  s ← get ;
  match scan_free (Z.to_nat PAGING_PAGES) (mem_map s) with
  | None => mret 0
  | Some i =>
      let addr := (i .<< 12) + LOW_MEM in
      modify (fun s => s <| mem_map ::= upd i 1 |> <| mem ::= clear_page addr |>) ;;
      mret addr
  end.

(** mm/memory.c:89-99 [free_page] *)
Definition free_page (addr : Z) : M mm unit :=
  if addr <? LOW_MEM then mret tt else
  high ← gets HIGH_MEMORY ;
  if high <=? addr then panic "trying to free nonexistent page" else
  let nr := (addr - LOW_MEM) .>> 12 in
  c ← map_at nr ;
  set_map nr (c - 1) ;;
  if truth c then mret tt else
  set_map nr 0 ;;
  panic "trying to free free page".

(** mm/memory.c:120-125 [free_page_tables]: one page table *)
Definition free_page_table (pg_table : Z) : M mm unit :=
  for_each (seq 0 1024) (fun nr =>
    let e := pg_table + 4 * Z.of_nat nr in
    v ← load e ;
    when (truth (1 .& v)) (free_page (0xfffff000 .& v)) ;;
    store e 0).

(** mm/memory.c:105-131 [free_page_tables] *)
Definition free_page_tables (from size : Z) : M mm Z :=
  if truth (from .& 0x3fffff) then panic "free_page_tables called with wrong alignment" else
  if from =? 0 then panic "Trying to free up swapper memory space" else
  let size := u32 (size + 0x3fffff) .>> 22 in
  let dir := (from .>> 20) .& 0xffc in
  for_each (seq 0 (Z.to_nat size)) (fun i =>
    let d := dir + 4 * Z.of_nat i in
    v ← load d ;
    when (truth (1 .& v))
      (free_page_table (0xfffff000 .& v) ;;
       v ← load d ;
       free_page (0xfffff000 .& v) ;;
       store d 0)) ;;
  invalidate ;;
  mret 0.

(** mm/memory.c:187-199 [copy_page_tables]: the entries of one page table *)
Definition copy_pte (from_e to_e : Z) : M mm unit :=
  this_page ← load from_e ;
  if negb (truth (1 .& this_page)) then mret tt else
  let this_page := this_page .& Z.lnot 2 in
  store to_e this_page ;;
  when (LOW_MEM <? this_page)
    (store from_e this_page ;;
     let nr := (this_page - LOW_MEM) .>> 12 in
     c ← map_at nr ;
     set_map nr (c + 1)).

(** mm/memory.c:178-199 [copy_page_tables]: one directory entry; [Some r] is
    [return r] *)
Definition copy_dir (from from_dir to_dir : Z) : M mm (option Z) :=
  d ← load to_dir ;
  if truth (1 .& d) then panic "copy_page_tables: already exist" else
  d ← load from_dir ;
  if negb (truth (1 .& d)) then mret None else
  let from_page_table := 0xfffff000 .& d in
  to_page_table ← get_free_page ;
  if negb (truth to_page_table) then mret (Some (-1)) else
  store to_dir (to_page_table .| 7) ;;
  let nr := if from =? 0 then 0xA0%nat else 1024%nat in
  for_each (seq 0 nr) (fun i =>
    copy_pte (from_page_table + 4 * Z.of_nat i) (to_page_table + 4 * Z.of_nat i)) ;;
  mret None.

(** mm/memory.c:150-203 [copy_page_tables] *)
Definition copy_page_tables (from to size : Z) : M mm Z :=
  if truth (from .& 0x3fffff) || truth (to .& 0x3fffff)
  then panic "copy_page_tables called with wrong alignment" else
  let from_dir := (from .>> 20) .& 0xffc in
  let to_dir := (to .>> 20) .& 0xffc in
  let size := u32 (size + 0x3fffff) .>> 22 in
  r ← for_ret (seq 0 (Z.to_nat size)) (fun i =>
        copy_dir from (from_dir + 4 * Z.of_nat i) (to_dir + 4 * Z.of_nat i)) ;
  match r with
  | Some e => mret e
  | None => invalidate ;; mret 0
  end.

(** mm/memory.c:211-233 [put_page] *)
Definition put_page (page address : Z) : M mm Z :=
  high ← gets HIGH_MEMORY ;
  when ((page <? LOW_MEM) || (high <=? page))
    (printk "Trying to put page %p at %p" [page; address]) ;;
  c ← map_at (MAP_NR page) ;
  when (negb (c =? 1)) (printk "mem_map disagrees with %p at %p" [page; address]) ;;
  let dir := (address .>> 20) .& 0xffc in
  let slot := 4 * ((address .>> 12) .& 0x3ff) in
  d ← load dir ;
  if truth (d .& 1) then
    store ((0xfffff000 .& d) + slot) (page .| 7) ;; mret page
  else
    tmp ← get_free_page ;
    if negb (truth tmp) then mret 0 else
    store dir (tmp .| 7) ;;
    store (tmp + slot) (page .| 7) ;;
    mret page.

(** mm/memory.c:235-252 [un_wp_page] *)
Definition un_wp_page (table_entry : Z) : M mm unit :=
  e ← load table_entry ;
  let old_page := 0xfffff000 .& e in
  c ← map_at (MAP_NR old_page) ;
  if (LOW_MEM <=? old_page) && (c =? 1) then
    store table_entry (e .| 2) ;; invalidate
  else
    new_page ← get_free_page ;
    if negb (truth new_page) then oom else
    when (LOW_MEM <=? old_page)
      (c ← map_at (MAP_NR old_page) ; set_map (MAP_NR old_page) (c - 1)) ;;
    store table_entry (new_page .| 7) ;;
    invalidate ;;
    copy_page old_page new_page.

(** mm/memory.c:261-273 [do_wp_page] *)
Definition do_wp_page (error_code address : Z) : M mm unit :=
  d ← load ((address .>> 20) .& 0xffc) ;
  un_wp_page (((address .>> 10) .& 0xffc) + (0xfffff000 .& d)).

(** mm/memory.c:276-287 [write_verify] *)
Definition write_verify (address : Z) : M mm unit :=
  page ← load ((address .>> 20) .& 0xffc) ;
  if negb (truth (page .& 1)) then mret tt else
  let page := (page .& 0xfffff000) + ((address .>> 10) .& 0xffc) in
  e ← load page ;
  when ((3 .& e) =? 1) (un_wp_page page).

(** mm/memory.c:290-298 [get_empty_page] *)
Definition get_empty_page (address : Z) : M mm unit :=
  tmp ← get_free_page ;
  ok ← (if truth tmp then r ← put_page tmp address ; mret (truth r) else mret false) ;
  if (ok : bool) then mret tt else
  free_page tmp ;; oom.

(** mm/memory.c:308-350 [try_to_share]: [p_start] and [cur_start] are the
    [start_code] of the two tasks *)
Definition try_to_share (address p_start cur_start : Z) : M mm Z :=
  let dir := (address .>> 20) .& 0xffc in
  let from_page := dir + ((p_start .>> 20) .& 0xffc) in
  let to_page := dir + ((cur_start .>> 20) .& 0xffc) in
  from ← load from_page ;
  if negb (truth (from .& 1)) then mret 0 else
  let from_page := (from .& 0xfffff000) + ((address .>> 10) .& 0xffc) in
  phys_addr ← load from_page ;
  if negb ((phys_addr .& 0x41) =? 0x01) then mret 0 else
  let phys_addr := phys_addr .& 0xfffff000 in
  high ← gets HIGH_MEMORY ;
  if (high <=? phys_addr) || (phys_addr <? LOW_MEM) then mret 0 else
  to ← load to_page ;
  to ← (if negb (truth (to .& 1)) then
          to ← get_free_page ;
          if truth to then store to_page (to .| 7) ;; mret to else oom
        else mret to) ;
  let to_page := (to .& 0xfffff000) + ((address .>> 10) .& 0xffc) in
  e ← load to_page ;
  if truth (1 .& e) then panic "try_to_share: to_page already exists" else
  v ← load from_page ;
  store from_page (v .& Z.lnot 2) ;;
  v ← load from_page ;
  store to_page v ;;
  invalidate ;;
  let nr := (phys_addr - LOW_MEM) .>> 12 in
  c ← map_at nr ;
  set_map nr (c + 1) ;;
  mret 1.

(** mm/memory.c:368-377 [share_page]: the slots from [&LAST_TASK] down to slot 1 *)
Fixpoint share_loop (address : Z) (ts : list (option task_struct)) (cur : nat)
    (me : task_struct) (i : nat) : M mm Z :=
  match i with
  | O | 1%nat => mret 0
  | S i' =>
      match mjoin (ts !! i') with
      | Some p =>
          if decide (i' = cur) then share_loop address ts cur me i'
          else if decide (executable p <> executable me)
          then share_loop address ts cur me i'
          else r ← try_to_share address (start_code p) (start_code me) ;
               if truth r then mret 1 else share_loop address ts cur me i'
      | None => share_loop address ts cur me i'
      end
  end.
(** mm/memory.c:360-379 [share_page]; [i_count] gives the use count of an inode *)
Definition share_page (i_count : nat -> Z) (ts : list (option task_struct))
    (cur : nat) (me : task_struct) (address : Z) : M mm Z :=
  match executable me with
  | None => mret 0
  | Some ino =>
      if i_count ino <? 2 then mret 0
      else share_loop address ts cur me NR_TASKS
  end.

(** mm/memory.c:419-431 [mem_init] *)
Definition mem_init (start_mem end_mem : Z) : M mm unit :=
  modify (fun s => s <| HIGH_MEMORY := end_mem |>) ;;
  for_each (seq 0 (Z.to_nat PAGING_PAGES)) (fun i => set_map (Z.of_nat i) USED) ;;
  let i := (start_mem - LOW_MEM) .>> 12 in
  let n := (end_mem - start_mem) .>> 12 in
  for_each (seq 0 (Z.to_nat n)) (fun j => set_map (i + Z.of_nat j) 0).

(** mm/memory.c:433-450 [calc_mem] *)
Definition calc_mem (pg_dir : Z) : M mm unit :=
  s ← get ;
  let free := length (filter (fun i => mem_map s (Z.of_nat i) = 0)
                        (seq 0 (Z.to_nat PAGING_PAGES))) in
  printk "%d pages free (of %d)" [Z.of_nat free; PAGING_PAGES] ;;
  for_each (seq 2 1022) (fun i =>
    d ← load (pg_dir + 4 * Z.of_nat i) ;
    when (truth (1 .& d))
      (s ← get ;
       let tbl := 0xfffff000 .& d in
       let k := length (filter (fun j => truth (mem s (tbl + 4 * Z.of_nat j) .& 1) = true)
                          (seq 0 1024)) in
       printk "Pg-dir[%d] uses %d pages" [Z.of_nat i; Z.of_nat k])).

(** * The page allocator *)

(** The page of main memory number [i]. *)
Definition page_addr (i : Z) : Z := LOW_MEM + 4096 * i.

Lemma upd_eq {A} a (v : A) f : upd a v f a = v.
Proof. unfold upd. by rewrite Z.eqb_refl. Qed.
Lemma upd_ne {A} a (v : A) f x : x <> a -> upd a v f x = f x.
Proof. unfold upd. intros H. by rewrite (proj2 (Z.eqb_neq _ _) H). Qed.
Lemma clear_out p m a : ~ page_addr p <= a < page_addr p + 4096 ->
  clear_page (page_addr p) m a = m a.
Proof.
  intros Ha. unfold clear_page, PAGE_SIZE.
  destruct (Z.leb_spec (page_addr p) a), (Z.ltb_spec a (page_addr p + 4096)); simpl; lia || done.
Qed.
Lemma page_addr_apart p q x y : 0 <= x < 4096 -> 0 <= y < 4096 ->
  page_addr p + x = page_addr q + y -> p = q /\ x = y.
Proof. unfold page_addr. lia. Qed.
Lemma page_addr_shift i : (i .<< 12) + LOW_MEM = page_addr i.
Proof. rewrite shiftl_mul by lia. unfold page_addr. lia. Qed.

Lemma page_addr_nr i x :
  0 <= x < 4096 -> (page_addr i + x - LOW_MEM) .>> 12 = i.
Proof.
  intros. rewrite shiftr_div by lia. unfold page_addr, LOW_MEM. zlia.
Qed.

Lemma MAP_NR_page i : 0 <= i < PAGING_PAGES -> MAP_NR (page_addr i) = i.
Proof.
  intros Hi. unfold MAP_NR, PAGING_PAGES in *.
  rewrite u32_small by (unfold page_addr, LOW_MEM; lia).
  rewrite <- (Z.add_0_r (page_addr i)). apply page_addr_nr. lia.
Qed.

Lemma scan_free_spec n map :
  match scan_free n map with
  | Some i => 0 <= i < Z.of_nat n /\ map i = 0 /\
              (forall j, i < j < Z.of_nat n -> map j <> 0)
  | None => forall j, 0 <= j < Z.of_nat n -> map j <> 0
  end.
Proof.
  induction n as [|n IH]; [simpl; lia|].
  cbn [scan_free]. destruct (map (Z.of_nat n) =? 0) eqn:E.
  - split; [lia|]. split; [lia|]. intros. lia.
  - destruct (scan_free n map) as [i|].
    + destruct IH as (? & ? & IH). split; [lia|]. split; [done|].
      intros j ?. destruct (decide (j = Z.of_nat n)) as [-> | ]; [lia|]. apply IH. lia.
    + intros j ?. destruct (decide (j = Z.of_nat n)) as [-> | ]; [lia|]. apply IH. lia.
Qed.

(** What allocating page [i] does to the state. *)
Definition take_page (i : Z) (s : mm) : mm :=
  s <| mem_map ::= upd i 1 |> <| mem ::= clear_page (page_addr i) |>.

(** [i] is the page [get_free_page] chooses. *)
Definition highest_free (s : mm) (i : Z) : Prop :=
  0 <= i < PAGING_PAGES /\ mem_map s i = 0 /\
  forall j, i < j < PAGING_PAGES -> mem_map s j <> 0.
Definition no_free_page (s : mm) : Prop :=
  forall j, 0 <= j < PAGING_PAGES -> mem_map s j <> 0.

Lemma get_free_page_cases s w :
  (get_free_page s w = Ret 0 s w /\ no_free_page s) \/
  (exists i, get_free_page s w = Ret (page_addr i) (take_page i s) w /\
     highest_free s i).
Proof.
  unfold get_free_page. run.
  pose proof (scan_free_spec (Z.to_nat PAGING_PAGES) (mem_map s)) as H.
  replace (Z.of_nat (Z.to_nat PAGING_PAGES)) with PAGING_PAGES in H by done.
  destruct (scan_free _ _) as [i|].
  - right. exists i. run. by rewrite page_addr_shift.
  - by left.
Qed.

Lemma page_addr_pos i : 0 <= i -> 0 < page_addr i.
Proof. unfold page_addr, LOW_MEM. lia. Qed.

(** C24. [get_free_page] never sleeps or fails.  It returns 0, changing nothing,
    exactly when every page of main memory is in use; otherwise it returns the
    address of the highest free page, whose use count becomes 1 and whose 4096
    bytes become zero, and no other count and no other word of memory changes. *)
Theorem get_free_page_spec s w :
  exists r s', get_free_page s w = Ret r s' w /\
    (r = 0 <-> no_free_page s) /\
    (r = 0 -> s' = s) /\
    (r <> 0 -> exists i, r = page_addr i /\ highest_free s i /\
       HIGH_MEMORY s' = HIGH_MEMORY s /\
       mem_map s' i = 1 /\ (forall j, j <> i -> mem_map s' j = mem_map s j) /\
       (forall x, 0 <= x < 4096 -> mem s' (r + x) = 0) /\
       (forall a, (a < r \/ r + 4096 <= a) -> mem s' a = mem s a)).
Proof.
  destruct (get_free_page_cases s w) as [[E Hn] | (i & E & Hi)];
    do 2 eexists; (split; [exact E|]).
  - naive_solver.
  - pose proof (page_addr_pos i ltac:(destruct Hi; lia)).
    split; [split; [lia|] | split; [lia|]].
    + intros Hn. destruct Hi as (? & Hi0 & _). exfalso. by apply (Hn i).
    + intros _. exists i. unfold take_page, upd, clear_page; simpl.
      rewrite Z.eqb_refl. repeat split; try done; try apply Hi.
      * intros j ?. destruct (Z.eqb_spec j i); [done|done].
      * intros x ?. destruct (Z.leb_spec (page_addr i) (page_addr i + x));
          destruct (Z.ltb_spec (page_addr i + x) (page_addr i + PAGE_SIZE));
          unfold PAGE_SIZE in *; simpl; lia || done.
      * intros a ?. destruct (Z.leb_spec (page_addr i) a);
          destruct (Z.ltb_spec a (page_addr i + PAGE_SIZE));
          unfold PAGE_SIZE in *; simpl; lia || done.
Qed.

(** [free_page], its three guards resolved. *)
Lemma free_page_run addr s w :
  free_page addr s w =
    if addr <? LOW_MEM then Ret tt s w
    else if HIGH_MEMORY s <=? addr then Panicked "trying to free nonexistent page" s
    else
      let nr := (addr - LOW_MEM) / 4096 in
      if mem_map s nr =? 0
      then Panicked "trying to free free page"
             (s <| mem_map ::= fun f => upd nr 0 (upd nr 255 f) |>)
      else Ret tt (s <| mem_map ::= upd nr (u8 (mem_map s nr - 1)) |>) w.
Proof.
  unfold free_page, map_at, set_map, LOW_MEM. destruct (addr <? _) eqn:?; [done|]. run.
  destruct (HIGH_MEMORY s <=? addr); [done|]. run.
  rewrite shiftr_div by lia. change (2 ^ 12) with 4096. unfold truth.
  destruct (Z.eqb_spec (mem_map s ((addr - 1048576) / 4096)) 0) as [-> | ]; [|done].
  simpl. run. done.
Qed.

(** [free_page] on every address: below 1 MB it does nothing; at or above
    the end of memory it panics; on a page whose count is 0 it panics (leaving
    the count 0); otherwise it only takes one from the count of the page the
    address lies in. *)
Theorem free_page_spec addr s w :
  free_page addr s w =
    if addr <? LOW_MEM then Ret tt s w
    else if HIGH_MEMORY s <=? addr then Panicked "trying to free nonexistent page" s
    else
      let nr := (addr - LOW_MEM) / 4096 in
      if mem_map s nr =? 0
      then Panicked "trying to free free page"
             (s <| mem_map ::= fun f => upd nr 0 (upd nr 255 f) |>)
      else Ret tt (s <| mem_map ::= upd nr (u8 (mem_map s nr - 1)) |>) w.
Proof. apply free_page_run. Qed.

(** * Initialisation *)
Lemma fill_map base v n s w : 0 <= v < 256 ->
  wp (for_each (seq 0 n) (fun j => set_map (base + Z.of_nat j) v))
    (fun _ s' _ => mem s' = mem s /\ HIGH_MEMORY s' = HIGH_MEMORY s /\
       forall q, mem_map s' q =
         if (base <=? q) && (q <? base + Z.of_nat n) then v else mem_map s q) s w.
Proof.
  intros Hv.
  apply (wp_for_seq (fun m s' _ => mem s' = mem s /\ HIGH_MEMORY s' = HIGH_MEMORY s /\
    forall q, mem_map s' q =
      if (base <=? q) && (q <? base + Z.of_nat m) then v else mem_map s q)).
  - split; [done|]. split; [done|]. intros q.
    destruct (Z.leb_spec base q), (Z.ltb_spec q (base + Z.of_nat 0)); simpl; done || lia.
  - intros m s' w' _ (Emem & Eh & Hq). unfold set_map. wp_step.
    split; [done|]. split; [done|]. intros q. simpl. unfold upd. rewrite Hq, u8_small by done.
    destruct (Z.eqb_spec q (base + Z.of_nat m)), (Z.leb_spec base q),
      (Z.ltb_spec q (base + Z.of_nat m)), (Z.ltb_spec q (base + Z.of_nat (S m)));
      simpl; done || lia.
Qed.

(** [mem_init start end] always returns, and then a page of main memory is
    free exactly when it lies between [start] and [end]: every other count of
    [mem_map] is [USED], [HIGH_MEMORY] is [end], and memory is untouched. *)
Theorem mem_init_spec start_mem end_mem s w :
  start_mem mod 4096 = 0 -> LOW_MEM <= start_mem <= end_mem ->
  end_mem <= LOW_MEM + PAGING_MEMORY ->
  exists s' w', mem_init start_mem end_mem s w = Ret tt s' w' /\
    HIGH_MEMORY s' = end_mem /\ mem s' = mem s /\
    forall i, 0 <= i < PAGING_PAGES ->
      mem_map s' i = if (start_mem <=? page_addr i) && (page_addr i + 4096 <=? end_mem)
                     then 0 else USED.
Proof.
  intros Hal Hse Hend. enough (H : wp (mem_init start_mem end_mem)
    (fun _ s' _ => HIGH_MEMORY s' = end_mem /\ mem s' = mem s /\
       forall i, 0 <= i < PAGING_PAGES ->
         mem_map s' i = if (start_mem <=? page_addr i) && (page_addr i + 4096 <=? end_mem)
                        then 0 else USED) s w).
  { destruct (wp_inv _ _ _ _ H) as ([] & s' & w' & E & HQ). eauto. }
  unfold mem_init. wp_step. wp_step. wp_step.
  eapply wp_mono; [apply (fill_map 0); unfold USED; lia|].
  intros [] s1 w1 (Em1 & Eh1 & Hq1).
  eapply wp_mono; [apply fill_map; lia|].
  intros [] s2 w2 (Em2 & Eh2 & Hq2).
  rewrite Eh2, Eh1, Em2, Em1. split; [done|]. split; [done|].
  intros i Hi. rewrite Hq2, Hq1. rewrite !shiftr_div by lia. change (2 ^ 12) with 4096.
  unfold PAGING_PAGES, page_addr, LOW_MEM, PAGING_MEMORY in *.
  repeat match goal with
  | |- context [?a <=? ?b] => destruct (Z.leb_spec a b)
  | |- context [?a <? ?b] => destruct (Z.ltb_spec a b)
  end; simpl; try done; exfalso; zlia.
Qed.

Definition no_mm : mm := Mm (fun _ => 0) (fun _ => 0) 0.

Lemma mem_init_spec_witness : exists s' w',
  mem_init 0x400000 0x1000000 no_mm (World [] []) = Ret tt s' w' /\
  mem_map s' 768 = 0 /\ mem_map s' 767 = USED.
Proof.
  destruct (mem_init_spec 0x400000 0x1000000 no_mm (World [] []))
    as (s' & w' & E & _ & _ & H);
    [reflexivity | unfold LOW_MEM; lia | unfold LOW_MEM, PAGING_MEMORY; lia |].
  exists s', w'. split; [exact E|]. split; rewrite H by (unfold PAGING_PAGES; lia); reflexivity.
Defined.
