(* ===== verification/Tables.v ===== *)
(** Address spaces: what the page tables of [Mm] mean to the processor, the
    invariant [wf_mm] of all tables and use counts together, and the routines of
    [mm/memory.c] that map a page ([put_page]) and resolve a write to a shared one
    ([do_wp_page]).

    Addresses are taken by the page: page [v] of the linear address space is entry
    [v mod 1024] of the table that directory entry [v / 1024] names. *)
From S2P Require Import Prelude Sched Mm.

(** * Address translation *)
Definition present (e : Z) : bool := truth (e .& 1).
Definition writable (e : Z) : bool := truth (e .& 2).
Definition frame (e : Z) : Z := 0xfffff000 .& e.

(** The page table of directory entry [k]. *)
Definition table (s : mm) (k : Z) : option Z :=
  let d := mem s (4 * k) in if present d then Some (frame d) else None.
(** The entry that maps page [v]. *)
Definition vmap (s : mm) (v : Z) : option Z :=
  match table s (v / 1024) with
  | Some t => let e := mem s (t + 4 * (v mod 1024)) in if present e then Some e else None
  | None => None
  end.
Definition translate (s : mm) (va : Z) : option Z :=
  match vmap s (va / 4096) with
  | Some e => Some (frame e + va mod 4096)
  | None => None
  end.

Definition is_va (va : Z) : Prop := 0 <= va < 4294967296.
Definition is_page (v : Z) : Prop := 0 <= v < 1048576.
(** The pages above 64 MB: the address spaces of tasks 1 to 63.  Below are task 0
    and the kernel, which map all of memory as it is. *)
Definition user_page (v : Z) : Prop := 16384 <= v < 1048576.

(** ** Entries *)
Lemma frame_eq e : 0 <= e < 4294967296 -> frame e = e - e mod 4096.
Proof. apply land_fffff000. Qed.
Lemma frame_range e : 0 <= e < 4294967296 ->
  0 <= frame e /\ frame e mod 4096 = 0 /\ frame e + 4096 <= 4294967296.
Proof. intros. rewrite frame_eq by done. zlia. Qed.
Lemma present_bit e : present e = Z.odd e.
Proof. unfold present, truth. rewrite land_1, Zmod_odd. by destruct (Z.odd e). Qed.
Lemma writable_bit e : writable e = Z.testbit e 1.
Proof.
  unfold writable, truth. destruct (Z.testbit e 1) eqn:E.
  - destruct (Z.eqb_spec (e .& 2) 0) as [H|]; [|done].
    assert (Z.testbit (e .& 2) 1 = true) by by rewrite Z.land_spec, E.
    rewrite H in *. done.
  - replace (e .& 2) with 0; [done|]. apply Z.bits_inj'. intros n Hn.
    rewrite Z.land_spec, Z.bits_0. change 2 with (2 ^ 1). rewrite Z.pow2_bits_eqb by lia.
    destruct (Z.eqb_spec 1 n) as [<-|]; [by rewrite E|by rewrite andb_false_r].
Qed.

(** An entry is a page address and twelve bits of flags. *)
Lemma entry_split e : 0 <= e < 4294967296 ->
  e = frame e + e mod 4096 /\ present e = present (e mod 4096) /\
  writable e = writable (e mod 4096).
Proof.
  intros He. rewrite frame_eq by done. split; [lia|].
  rewrite !present_bit, !writable_bit. change 4096 with (2 ^ 12).
  rewrite <- Z.bit0_odd, <- Z.bit0_odd, !Z.mod_pow2_bits_low by lia. done.
Qed.
Lemma entry_make t f : t mod 4096 = 0 -> 0 <= t -> t + 4096 <= 4294967296 ->
  0 <= f < 4096 ->
  frame (t + f) = t /\ present (t + f) = present f /\ writable (t + f) = writable f /\
  0 <= t + f < 4294967296.
Proof.
  intros Ht ? ? Hf. assert (Hr : 0 <= t + f < 4294967296) by lia.
  destruct (entry_split (t + f) Hr) as (_ & -> & ->).
  replace ((t + f) mod 4096) with f by zlia.
  rewrite frame_eq by done. repeat split; zlia.
Qed.

Definition is_word (e : Z) : Prop := 0 <= e < 4294967296.

Lemma page_or7 i : 0 <= i < PAGING_PAGES ->
  frame (page_addr i .| 7) = page_addr i /\ present (page_addr i .| 7) = true /\
  writable (page_addr i .| 7) = true /\ is_word (page_addr i .| 7).
Proof.
  unfold PAGING_PAGES. intros Hi.
  rewrite (lor_low_add (page_addr i) 7 12) by (unfold page_addr, LOW_MEM; zlia).
  destruct (entry_make (page_addr i) 7) as (? & ? & ? & ?);
    try (unfold page_addr, LOW_MEM; zlia). done.
Qed.

(** Setting the write flag. *)
Lemma with_write e : is_word e ->
  frame (e .| 2) = frame e /\ present (e .| 2) = present e /\
  writable (e .| 2) = true /\ is_word (e .| 2).
Proof.
  intros He. destruct (entry_split e He) as (E & _ & _).
  pose proof (frame_range e He) as (H0 & Hm & Hr).
  assert (Hf : 0 <= e mod 4096 .| 2 < 2 ^ 12).
  { split; [apply Z.lor_nonneg; zlia|]. destruct (decide (e mod 4096 .| 2 = 0)); [lia|].
    apply Z.log2_lt_pow2; [assert (0 <= e mod 4096 .| 2) by (apply Z.lor_nonneg; zlia); lia|].
    rewrite Z.log2_lor by zlia. apply Z.max_lub_lt; [|done].
    destruct (decide (e mod 4096 = 0)) as [-> | ]; [done|]. apply Z.log2_lt_pow2; zlia. }
  assert (E2 : e .| 2 = frame e + (e mod 4096 .| 2)).
  { rewrite E at 1. rewrite <- !(lor_low_add (frame e) _ 12) by (done || zlia).
    by rewrite Z.lor_assoc. }
  destruct (entry_make (frame e) (e mod 4096 .| 2)) as (? & Hp & Hw & ?); try (done || lia).
  rewrite E2, Hp, Hw, !writable_bit, !present_bit. repeat split; try (done || lia).
  - rewrite <- !Z.bit0_odd, Z.lor_spec, orb_false_r. change 4096 with (2 ^ 12).
    by rewrite Z.mod_pow2_bits_low by lia.
  - rewrite Z.lor_spec. by rewrite orb_true_r.
Qed.

(** Clearing the write flag, as [copy_page_tables] does. *)
Definition read_only (e : Z) : Z := e .& Z.lnot 2.
Lemma read_only_entry e : is_word e ->
  frame (read_only e) = frame e /\ present (read_only e) = present e /\
  writable (read_only e) = false /\ is_word (read_only e).
Proof.
  intros He. unfold read_only.
  assert (Hw : writable (e .& Z.lnot 2) = false).
  { rewrite writable_bit, Z.land_spec, Z.lnot_spec by lia. by rewrite andb_false_r. }
  assert (Hp : present (e .& Z.lnot 2) = present e).
  { rewrite !present_bit, <- !Z.bit0_odd, Z.land_spec, Z.lnot_spec by lia.
    by rewrite andb_true_r. }
  assert (Hr : is_word (e .& Z.lnot 2)).
  { unfold is_word in *. replace e with (e .& Z.ones 32).
    - rewrite <- Z.land_assoc, (Z.land_comm (Z.ones 32)), Z.land_assoc, Z.land_ones by lia. zlia.
    - rewrite Z.land_ones by lia. apply Z.mod_small. lia. }
  split; [|split; [done|split; done]].
  unfold frame. rewrite (Z.land_comm e), Z.land_assoc. done.
Qed.

(** * The invariant *)

(** [a] is page [p] of the main memory there is. *)
Definition main_page (s : mm) (a p : Z) : Prop :=
  0 <= p < PAGING_PAGES /\ a = page_addr p /\ a < HIGH_MEMORY s.

(** What may be mapped in a user's space: memory below 1 MB to be read only; above,
    a page that is not a page table. *)
Definition good_entry (s : mm) (e : Z) : Prop :=
  (frame e < LOW_MEM -> writable e = false) /\
  (LOW_MEM <= frame e -> (exists p, main_page s (frame e) p) /\
     forall k, 0 <= k < 1024 -> table s k <> Some (frame e)).

(** How often page [p] of main memory is mapped by the [n] pages from [v] on, and by
    all users' pages. *)
Definition hit (m : option Z) (p : Z) : Z :=
  match m with Some e => if frame e =? page_addr p then 1 else 0 | None => 0 end.
Definition refs_in (v n : Z) (s : mm) (p : Z) : Z :=
  sum_over (fun u => hit (vmap s u) p) (seqZ v n).
Definition refs (s : mm) (p : Z) : Z := refs_in 16384 1032192 s p.

Record wf_mm (s : mm) : Prop := {
  wf_word : forall a, is_word (mem s a);
  wf_count : forall p, 0 <= mem_map s p < 256;
  (** memory that is not there is never free *)
  wf_high : forall p, 0 <= p < PAGING_PAGES -> mem_map s p = 0 -> page_addr p < HIGH_MEMORY s;
  (** page tables are pages in use, each of one directory entry; a task's is in main
      memory *)
  wf_table : forall k t, 0 <= k < 1024 -> table s k = Some t ->
    4096 <= t /\ (16 <= k -> LOW_MEM <= t) /\
    (LOW_MEM <= t -> exists p, main_page s t p /\ mem_map s p <> 0);
  wf_distinct : forall k k' t, 0 <= k < 1024 -> 0 <= k' < 1024 ->
    table s k = Some t -> table s k' = Some t -> k = k';
  wf_user : forall v e, user_page v -> vmap s v = Some e -> good_entry s e;
  (** a page is counted at least as often as it is mapped *)
  wf_refs : forall p, 0 <= p < PAGING_PAGES -> refs s p <= mem_map s p;
  (** a page that is mapped twice is read-only everywhere *)
  wf_private : forall v v' e e', user_page v -> user_page v' -> v <> v' ->
    vmap s v = Some e -> vmap s v' = Some e' -> frame e = frame e' -> writable e = false;
}.

(** ** Counting *)
Lemma hit_range m p : 0 <= hit m p <= 1.
Proof. unfold hit. destruct m; [case_match|]; lia. Qed.
Lemma hit_page e p : frame e = page_addr p -> hit (Some e) p = 1.
Proof. intros E. simpl. by rewrite E, Z.eqb_refl. Qed.
Lemma page_addr_inj p q : page_addr p = page_addr q -> p = q.
Proof. unfold page_addr. lia. Qed.
Lemma hit_other e p q : frame e = page_addr p -> q <> p -> hit (Some e) q = 0.
Proof.
  intros E Hne. simpl. destruct (Z.eqb_spec (frame e) (page_addr q)) as [H|]; [|done].
  rewrite E in H. by apply page_addr_inj in H.
Qed.
Lemma hit_low e p : frame e < LOW_MEM -> 0 <= p -> hit (Some e) p = 0.
Proof.
  intros H Hp. simpl. destruct (Z.eqb_spec (frame e) (page_addr p)) as [E|]; [|done].
  unfold page_addr in E. lia.
Qed.
Lemma hit_frame e e' p : frame e = frame e' -> hit (Some e) p = hit (Some e') p.
Proof. intros E. simpl. by rewrite E. Qed.

Lemma user_in v : user_page v <-> v ∈ seqZ 16384 1032192.
Proof. unfold user_page. rewrite elem_of_seqZ. lia. Qed.

Lemma refs_change s s' v x p : user_page v ->
  (forall u, user_page u -> vmap s' u = if u =? v then x else vmap s u) ->
  refs s' p = refs s p - hit (vmap s v) p + hit x p.
Proof.
  intros Hv Hs. unfold refs, refs_in.
  rewrite (sum_change (fun u => hit (vmap s u) p) _ _ v); [|apply NoDup_seqZ|by apply user_in|].
  - by rewrite (Hs v Hv), Z.eqb_refl.
  - intros y Hy Hne. rewrite Hs by by apply user_in. by destruct (Z.eqb_spec y v).
Qed.
Lemma refs_same s s' p : (forall u, user_page u -> vmap s' u = vmap s u) ->
  refs s' p = refs s p.
Proof. intros H. apply sum_ext. intros u Hu%user_in. by rewrite H. Qed.
Lemma refs_hit s v p : user_page v -> hit (vmap s v) p <= refs s p.
Proof.
  intros Hv. apply (sum_ge (fun u => hit (vmap s u) p)); [|by apply user_in].
  intros u. by apply hit_range.
Qed.
Lemma refs_nonneg s p : 0 <= refs s p.
Proof. apply sum_nonneg. intros u. apply hit_range. Qed.
Lemma refs_two s v v' e e' p : user_page v -> user_page v' -> v <> v' ->
  vmap s v = Some e -> vmap s v' = Some e' -> frame e = page_addr p -> frame e' = page_addr p ->
  2 <= refs s p.
Proof.
  intros Hv Hv' Hne E E' F F'.
  pose proof (sum_ge_two (fun u => hit (vmap s u) p) (seqZ 16384 1032192) v v') as H.
  cbv beta in H. rewrite E, E', (hit_page e p), (hit_page e' p) in H by done.
  apply H; [|by apply user_in..|done]. intros u. apply hit_range.
Qed.

(** A mapped page is in use. *)
Lemma mapped_in_use s v e p : wf_mm s -> user_page v -> vmap s v = Some e ->
  0 <= p < PAGING_PAGES -> frame e = page_addr p -> 0 < mem_map s p.
Proof.
  intros Hwf Hv E Hp F. pose proof (wf_refs s Hwf p Hp). pose proof (refs_hit s v p Hv).
  rewrite E, (hit_page e p F) in *. lia.
Qed.
(** A page that nobody counts is neither mapped nor a table. *)
Lemma free_unmapped s p : wf_mm s -> 0 <= p < PAGING_PAGES -> mem_map s p = 0 ->
  (forall v e, user_page v -> vmap s v = Some e -> frame e <> page_addr p) /\
  (forall k, 0 <= k < 1024 -> table s k <> Some (page_addr p)) /\ refs s p = 0.
Proof.
  intros Hwf Hp H0. split; [|split].
  - intros v e Hv E F. pose proof (mapped_in_use s v e p Hwf Hv E Hp F). lia.
  - intros k Hk E. destruct (wf_table s Hwf k _ Hk E) as (_ & _ & Ht).
    destruct Ht as (q & (_ & Hq & _) & Hc); [unfold page_addr; lia|].
    apply page_addr_inj in Hq as ->. done.
  - pose proof (wf_refs s Hwf p Hp). pose proof (refs_nonneg s p). lia.
Qed.

(** ** Preservation *)

(** Nobody maps a page table. *)
Lemma table_no_hit s v k p : wf_mm s -> user_page v -> 0 <= k < 1024 -> 0 <= p ->
  table s k = Some (page_addr p) -> hit (vmap s v) p = 0.
Proof.
  intros Hwf Hv Hk Hp Ht. destruct (vmap s v) as [e|] eqn:E; [|done].
  simpl. destruct (Z.eqb_spec (frame e) (page_addr p)) as [F|]; [|done].
  destruct (wf_user s Hwf v e Hv E) as (_ & _ & Hn); [unfold page_addr in F; lia|].
  destruct (Hn k Hk). by rewrite F.
Qed.

(** The entry of one user's page changes from [vmap s v] to [x], with the counts. *)
Lemma wf_update s s' v x : wf_mm s -> user_page v ->
  (forall a, is_word (mem s' a)) -> (forall p, 0 <= mem_map s' p < 256) ->
  HIGH_MEMORY s' = HIGH_MEMORY s ->
  (forall k, 0 <= k < 1024 -> table s' k = table s k) ->
  (forall u, user_page u -> vmap s' u = if u =? v then x else vmap s u) ->
  (forall p, 0 <= p < PAGING_PAGES -> mem_map s p - hit (vmap s v) p <= mem_map s' p) ->
  (forall p, 0 <= p < PAGING_PAGES ->
     refs s p - hit (vmap s v) p + hit x p <= mem_map s' p) ->
  (forall e, x = Some e -> good_entry s e) ->
  (forall e u e', x = Some e -> user_page u -> u <> v -> vmap s u = Some e' ->
     frame e' = frame e -> writable e = false /\ writable e' = false) ->
  wf_mm s'.
Proof.
  intros Hwf Hv Hword Hcount Hhigh Htab Hmap Hc Hr Hgood Hpriv.
  assert (Hmain : forall a p, main_page s a p -> main_page s' a p).
  { intros a p (? & ? & ?). unfold main_page. by rewrite Hhigh. }
  assert (Hg : forall e, good_entry s e -> good_entry s' e).
  { intros e [H1 H2]. split; [done|]. intros Hl. destruct (H2 Hl) as [[p Hp] Hn].
    split; [exists p; auto|]. intros k Hk. rewrite Htab by done. auto. }
  split; [done|done|..].
  - intros p Hp H0. specialize (Hc p Hp). rewrite H0, Hhigh in *.
    destruct (hit_range (vmap s v) p) as [_ Hx].
    destruct (decide (hit (vmap s v) p = 0)) as [Hz|Hz].
    { apply (wf_high s Hwf p Hp). pose proof (wf_count s Hwf p). lia. }
    destruct (vmap s v) as [e|] eqn:E; [|done]. simpl in Hz.
    destruct (Z.eqb_spec (frame e) (page_addr p)) as [F|]; [|done].
    destruct (wf_user s Hwf v e Hv E) as (_ & (q & _ & _ & Hq) & _);
      [unfold page_addr in F; lia|]. by rewrite <- F.
  - intros k t Hk. rewrite Htab by done. intros Ht.
    destruct (wf_table s Hwf k t Hk Ht) as (? & ? & Hp). do 2 (split; [done|]).
    intros Hl. destruct (Hp Hl) as (p & Hmp & Hz). exists p. split; [auto|].
    destruct Hmp as (Hp' & -> & _). specialize (Hc p Hp').
    rewrite (table_no_hit s v k p) in Hc by (done || lia).
    pose proof (wf_count s Hwf p). lia.
  - intros k k' t Hk Hk'. rewrite !Htab by done. by apply (wf_distinct s Hwf).
  - intros u e Hu. rewrite Hmap by done. destruct (u =? v); intros E; apply Hg; [auto|].
    by apply (wf_user s Hwf u).
  - intros p Hp. rewrite (refs_change s s' v x) by done. auto.
  - intros u u' e e' Hu Hu' Hne. rewrite !Hmap by done.
    destruct (Z.eqb_spec u v) as [-> | ], (Z.eqb_spec u' v) as [-> | ]; intros E E' F; [done|..].
    + by destruct (Hpriv e u' e').
    + by destruct (Hpriv e' u e).
    + by apply (wf_private s Hwf u u' e e').
Qed.

(** The tables stay as they are and no count falls. *)
Lemma wf_same s s' : wf_mm s ->
  (forall a, is_word (mem s' a)) -> (forall p, 0 <= mem_map s' p < 256) ->
  HIGH_MEMORY s' = HIGH_MEMORY s ->
  (forall k, 0 <= k < 1024 -> table s' k = table s k) ->
  (forall u, user_page u -> vmap s' u = vmap s u) ->
  (forall p, 0 <= p < PAGING_PAGES -> mem_map s p <= mem_map s' p) -> wf_mm s'.
Proof.
  intros Hwf Hword Hcount Hhigh Htab Hmap Hc. assert (H0 : user_page 16384) by done.
  apply (wf_update s s' 16384 (vmap s 16384)); try done.
  - intros u Hu. rewrite Hmap by done. by destruct (Z.eqb_spec u 16384) as [-> | ].
  - intros p Hp. specialize (Hc p Hp). pose proof (hit_range (vmap s 16384) p). lia.
  - intros p Hp. specialize (Hc p Hp). pose proof (wf_refs s Hwf p Hp). lia.
  - intros e. by apply (wf_user s Hwf).
  - intros e u e' E Hu Hne E' F. split.
    + by apply (wf_private s Hwf 16384 u e e').
    + by apply (wf_private s Hwf u 16384 e' e).
Qed.

(** Directory entry [k] gets a page of its own as its table. *)
Lemma wf_add_table s s' k i : wf_mm s -> 0 <= k < 1024 -> table s k = None ->
  main_page s (page_addr i) i -> mem_map s i <> 0 -> refs s i = 0 ->
  (forall k', 0 <= k' < 1024 -> table s k' <> Some (page_addr i)) ->
  (forall a, is_word (mem s' a)) -> mem_map s' = mem_map s ->
  HIGH_MEMORY s' = HIGH_MEMORY s ->
  (forall k', 0 <= k' < 1024 ->
     table s' k' = if k' =? k then Some (page_addr i) else table s k') ->
  (forall u, user_page u -> vmap s' u = vmap s u) -> wf_mm s'.
Proof.
  intros Hwf Hk Hnone Hi Hused Hrefs Hnew Hword Hmm Hhigh Htab Hmap.
  assert (Hmain : forall a p, main_page s a p -> main_page s' a p).
  { intros a p (? & ? & ?). unfold main_page. by rewrite Hhigh. }
  split; [done|by rewrite Hmm; apply wf_count|by rewrite Hmm, Hhigh; apply wf_high|..].
  - intros k' t Hk'. rewrite Htab, Hmm by done. destruct (k' =? k).
    + intros [= <-]. destruct Hi as (Hr & Hi). unfold page_addr at 1 2 3, LOW_MEM.
      split; [lia|]. split; [lia|]. intros _. exists i. split; [|done]. by apply Hmain.
    + intros Ht. destruct (wf_table s Hwf k' t Hk' Ht) as (? & ? & Hp).
      do 2 (split; [done|]). intros Hl. destruct (Hp Hl) as (p & ? & ?). exists p. auto.
  - intros k1 k2 t H1 H2. rewrite !Htab by done.
    destruct (Z.eqb_spec k1 k) as [-> | ], (Z.eqb_spec k2 k) as [-> | ]; intros E1 E2; [done|..].
    + injection E1 as <-. by destruct (Hnew k2).
    + injection E2 as <-. by destruct (Hnew k1).
    + by apply (wf_distinct s Hwf k1 k2 t).
  - intros v e Hv. rewrite Hmap by done. intros E.
    destruct (wf_user s Hwf v e Hv E) as [H1 H2]. split; [done|]. intros Hl.
    destruct (H2 Hl) as [[p Hp] Hn]. split; [exists p; auto|]. intros k' Hk'.
    rewrite Htab by done. destruct (k' =? k); [|auto]. intros [= F].
    pose proof (refs_hit s v i Hv) as Hh. rewrite E, (hit_page e i) in Hh by done. lia.
  - intros p Hp. rewrite Hmm, (refs_same s s') by done. by apply wf_refs.
  - intros v v' e e' Hv Hv'. rewrite !Hmap by done. by apply (wf_private s Hwf).
Qed.

(** Directory entry [k] loses its table, which maps nothing any more. *)
Lemma wf_drop_table s s' k i : wf_mm s -> 16 <= k < 1024 -> table s k = Some (page_addr i) ->
  0 <= i < PAGING_PAGES ->
  (forall a, is_word (mem s' a)) -> HIGH_MEMORY s' = HIGH_MEMORY s ->
  (forall p, mem_map s' p = if p =? i then mem_map s i - 1 else mem_map s p) ->
  (forall k', 0 <= k' < 1024 -> table s' k' = if k' =? k then None else table s k') ->
  (forall u, user_page u -> vmap s' u = vmap s u) -> wf_mm s'.
Proof.
  intros Hwf Hk Hold Hi Hword Hhigh Hmm Htab Hmap.
  destruct (wf_table s Hwf k _ ltac:(lia) Hold) as (_ & _ & Ht).
  destruct Ht as (i' & (_ & Ei & Hlt) & Hused); [unfold page_addr; lia|].
  apply page_addr_inj in Ei as <-. pose proof (wf_count s Hwf i).
  split; [done|..].
  - intros p. rewrite Hmm. destruct (p =? i); [lia|by apply wf_count].
  - intros p Hp. rewrite Hmm, Hhigh. destruct (Z.eqb_spec p i) as [-> | ]; [done|].
    by apply wf_high.
  - intros k' t Hk'. rewrite Htab by done. destruct (Z.eqb_spec k' k); [done|]. intros Hkt.
    destruct (wf_table s Hwf k' t Hk' Hkt) as (? & ? & Hp). do 2 (split; [done|]).
    intros Hl. destruct (Hp Hl) as (p & (Hp1 & -> & ?) & ?). exists p.
    unfold main_page. rewrite Hhigh, Hmm. destruct (Z.eqb_spec p i) as [-> | ]; [|done].
    by pose proof (wf_distinct s Hwf k' k _ Hk' ltac:(lia) Hkt Hold).
  - intros k1 k2 t H1 H2. rewrite !Htab by done.
    destruct (k1 =? k), (k2 =? k); try done. by apply (wf_distinct s Hwf).
  - intros v e Hv. rewrite Hmap by done. intros E.
    destruct (wf_user s Hwf v e Hv E) as [H1 H2]. split; [done|]. intros Hl.
    destruct (H2 Hl) as [[p (? & ? & ?)] Hn].
    split; [exists p; unfold main_page; by rewrite Hhigh|]. intros k' Hk'.
    rewrite Htab by done. destruct (k' =? k); auto.
  - intros p Hp. rewrite Hmm, (refs_same s s') by done.
    destruct (Z.eqb_spec p i) as [-> | ]; [|by apply wf_refs].
    enough (refs s i = 0) by lia. apply sum_zero. intros u Hu%user_in.
    by apply (table_no_hit s u k); try (done || lia).
  - intros v v' e e' Hv Hv'. rewrite !Hmap by done. by apply (wf_private s Hwf).
Qed.

(** * What the stores do to the tables *)

(** The words the processor reads to translate: the directory and the tables. *)
Definition table_word (s : mm) (a : Z) : Prop :=
  (exists k, 0 <= k < 1024 /\ a = 4 * k) \/
  (exists k t x, 0 <= k < 1024 /\ table s k = Some t /\ 0 <= x < 4096 /\ a = t + x).

Lemma page_dir v : is_page v -> 0 <= v / 1024 < 1024.
Proof. unfold is_page. zlia. Qed.
Lemma user_is_page v : user_page v -> is_page v.
Proof. unfold user_page, is_page. lia. Qed.
Lemma user_dir v : user_page v -> 16 <= v / 1024 < 1024.
Proof. unfold user_page. zlia. Qed.
Lemma entry_word s v t : is_page v -> table s (v / 1024) = Some t ->
  table_word s (t + 4 * (v mod 1024)).
Proof.
  intros Hv Ht. right. exists (v / 1024), t, (4 * (v mod 1024)).
  split; [by apply page_dir|]. repeat split; done || zlia.
Qed.

Lemma table_eq s s' k : mem s' (4 * k) = mem s (4 * k) -> table s' k = table s k.
Proof. unfold table. by intros ->. Qed.

Section same_tables.
Context (s s' : mm).
Context (Hsame : forall a, table_word s a -> mem s' a = mem s a).

Lemma same_table k : 0 <= k < 1024 -> table s' k = table s k.
Proof using Hsame. intros. apply table_eq, Hsame. left. eauto. Qed.
Lemma same_vmap v : is_page v -> vmap s' v = vmap s v.
Proof using Hsame.
  intros Hv. unfold vmap. rewrite same_table by by apply page_dir.
  destruct (table s (v / 1024)) as [t|] eqn:E; [|done].
  by rewrite Hsame by by apply entry_word.
Qed.
End same_tables.

(** Two aligned pages are equal or disjoint. *)
Lemma pages_disjoint p q x y : p mod 4096 = 0 -> q mod 4096 = 0 ->
  0 <= x < 4096 -> 0 <= y < 4096 -> p + x = q + y -> p = q /\ x = y.
Proof. intros. zlia. Qed.
Lemma page_addr_aligned i : page_addr i mod 4096 = 0.
Proof. unfold page_addr, LOW_MEM. zlia. Qed.
Lemma table_aligned s k t : wf_mm s -> table s k = Some t -> 0 <= t /\ t mod 4096 = 0.
Proof.
  unfold table. intros Hwf. destruct (present _); [|done]. intros [= <-].
  pose proof (frame_range _ (wf_word s Hwf (4 * k))). lia.
Qed.
Lemma vmap_word s v e : wf_mm s -> vmap s v = Some e -> is_word e /\ present e = true.
Proof.
  unfold vmap. intros Hwf. destruct (table s (v / 1024)); [|done].
  destruct (present _) eqn:E; [|done]. intros [= <-]. split; [apply (wf_word s Hwf)|done].
Qed.

(** ** One entry *)
Definition set_mem (a v : Z) (s : mm) : mm := s <| mem ::= upd a v |>.
Definition if_present (e : Z) : option Z := if present e then Some e else None.

Section set_entry.
Context (s : mm) (v t e : Z).
Context (Hwf : wf_mm s) (Hv : is_page v) (Ht : table s (v / 1024) = Some t).
#[local] Abbreviation s' := (set_mem (t + 4 * (v mod 1024)) e s).

Lemma set_entry_dir a : a < 4096 -> mem s' a = mem s a.
Proof using Hwf Hv Ht.
  intros Ha. simpl. unfold upd. destruct (Z.eqb_spec a (t + 4 * (v mod 1024))); [|done].
  destruct (wf_table s Hwf _ t (page_dir v Hv) Ht). zlia.
Qed.
Lemma set_entry_table k : 0 <= k < 1024 -> table s' k = table s k.
Proof using Hwf Hv Ht. intros. apply table_eq, set_entry_dir. lia. Qed.
Lemma set_entry_vmap u : is_page u ->
  vmap s' u = if u =? v then if_present e else vmap s u.
Proof using Hwf Hv Ht.
  intros Hu. unfold vmap at 1. rewrite set_entry_table by by apply page_dir.
  destruct (Z.eqb_spec u v) as [-> | Hne].
  - rewrite Ht. simpl. unfold upd. by rewrite Z.eqb_refl.
  - unfold vmap. destruct (table s (u / 1024)) as [t'|] eqn:E; [|done]. simpl. unfold upd.
    destruct (Z.eqb_spec (t' + 4 * (u mod 1024)) (t + 4 * (v mod 1024))) as [Ea|]; [|done].
    exfalso. destruct (table_aligned s _ _ Hwf E), (table_aligned s _ _ Hwf Ht).
    apply pages_disjoint in Ea as [Ep Ex]; [|zlia..]. subst t'.
    pose proof (wf_distinct s Hwf _ _ t (page_dir u Hu) (page_dir v Hv) E Ht). zlia.
Qed.
Lemma set_entry_words : is_word e -> forall a, is_word (mem s' a).
Proof using Hwf.
  intros He a. simpl. unfold upd. destruct (a =? _); [done|apply (wf_word s Hwf)].
Qed.
(** Outside of the tables memory is as before. *)
Lemma set_entry_data a q : q mod 4096 = 0 -> q <= a < q + 4096 -> q <> t ->
  mem s' a = mem s a.
Proof using Hwf Ht.
  intros Hq Ha Hne. simpl. unfold upd.
  destruct (Z.eqb_spec a (t + 4 * (v mod 1024))) as [E|]; [|done]. exfalso.
  destruct (table_aligned s _ _ Hwf Ht).
  destruct (pages_disjoint t q (4 * (v mod 1024)) (a - q)); (done || zlia).
Qed.
End set_entry.

(** ** A fresh page *)
Section take_page.
Context (s : mm) (i : Z).
#[local] Abbreviation s1 := (take_page i s).
Lemma take_page_mem a : mem s1 a =
  if (page_addr i <=? a) && (a <? page_addr i + 4096) then 0 else mem s a.
Proof using. done. Qed.
Lemma take_page_inside a : page_addr i <= a < page_addr i + 4096 -> mem s1 a = 0.
Proof using.
  intros Ha. rewrite take_page_mem, (proj2 (Z.leb_le _ _)), (proj2 (Z.ltb_lt _ _)) by lia. done.
Qed.
Lemma take_page_outside a : a < page_addr i \/ page_addr i + 4096 <= a -> mem s1 a = mem s a.
Proof using.
  intros Ha. rewrite take_page_mem.
  destruct (Z.leb_spec (page_addr i) a), (Z.ltb_spec a (page_addr i + 4096)); simpl; lia || done.
Qed.
Lemma take_page_data a q : q mod 4096 = 0 -> q <= a < q + 4096 -> q <> page_addr i ->
  mem s1 a = mem s a.
Proof using.
  intros Hq Ha Hne. apply take_page_outside. pose proof (page_addr_aligned i). zlia.
Qed.
Lemma take_page_map p : mem_map s1 p = if p =? i then 1 else mem_map s p.
Proof using. done. Qed.

Context (Hwf : wf_mm s) (Hi : 0 <= i < PAGING_PAGES) (H0 : mem_map s i = 0).
Lemma take_page_words a : is_word (mem s1 a).
Proof using Hwf.
  rewrite take_page_mem. destruct (_ && _); [done|apply (wf_word s Hwf)].
Qed.
Lemma take_page_tables a : table_word s a -> mem s1 a = mem s a.
Proof using Hwf Hi H0.
  intros [(k & Hk & ->) | (k & t & x & Hk & Ht & Hx & ->)].
  - apply take_page_outside. unfold page_addr, LOW_MEM. lia.
  - destruct (table_aligned s k t Hwf Ht). apply (take_page_data _ t); [lia..|]. intros ->.
    by destruct (free_unmapped s i Hwf Hi H0) as (_ & Hn & _); destruct (Hn k Hk).
Qed.
Lemma take_page_table k : 0 <= k < 1024 -> table s1 k = table s k.
Proof using Hwf Hi H0. apply same_table, take_page_tables. Qed.
Lemma take_page_vmap v : is_page v -> vmap s1 v = vmap s v.
Proof using Hwf Hi H0. apply same_vmap, take_page_tables. Qed.
Lemma take_page_wf : wf_mm s1.
Proof using Hwf Hi H0.
  apply (wf_same s); [done|apply take_page_words|..|done| | |].
  - intros p. rewrite take_page_map. destruct (p =? i); [lia|by apply wf_count].
  - intros k. apply take_page_table.
  - intros u Hu. by apply take_page_vmap, user_is_page.
  - intros p Hp. rewrite take_page_map. destruct (Z.eqb_spec p i) as [-> | ]; lia.
Qed.
(** It is nobody's yet. *)
Lemma take_page_new : main_page s1 (page_addr i) i /\ mem_map s1 i = 1 /\ refs s1 i = 0 /\
  (forall v e, user_page v -> vmap s1 v = Some e -> frame e <> page_addr i) /\
  (forall k, 0 <= k < 1024 -> table s1 k <> Some (page_addr i)).
Proof using Hwf Hi H0.
  destruct (free_unmapped s i Hwf Hi H0) as (Hm & Ht & Hr).
  split; [split; [done|]; split; [done|]; by apply (wf_high s Hwf)|].
  rewrite take_page_map, Z.eqb_refl. split; [done|].
  split; [rewrite (refs_same s); [done|]; intros u Hu; by apply take_page_vmap, user_is_page|].
  split; [intros v e Hv|intros k Hk].
  - rewrite take_page_vmap by by apply user_is_page. by apply Hm.
  - rewrite take_page_table by done. by apply Ht.
Qed.
End take_page.

(** ** A fresh page table *)
Definition new_table (k i : Z) (s : mm) : mm :=
  set_mem (4 * k) (page_addr i .| 7) (take_page i s).

Section new_table.
Context (s : mm) (k i : Z).
Context (Hwf : wf_mm s) (Hk : 0 <= k < 1024) (Hi : 0 <= i < PAGING_PAGES).
Context (H0 : mem_map s i = 0) (Hp : table s k = None).
#[local] Abbreviation s' := (new_table k i s).

Lemma new_table_outside a : 4096 <= a -> mem s' a = mem (take_page i s) a.
Proof using Hk. intros Ha. simpl. unfold upd. destruct (Z.eqb_spec a (4 * k)); [lia|done]. Qed.
Lemma new_table_table k' : 0 <= k' < 1024 ->
  table s' k' = if k' =? k then Some (page_addr i) else table s k'.
Proof using Hwf Hi H0 Hk.
  intros Hk'. destruct (page_or7 i Hi) as (Hf & Hpr & _ & _).
  destruct (Z.eqb_spec k' k) as [-> | Hne].
  - unfold table. simpl. unfold upd. rewrite Z.eqb_refl. by rewrite Hpr, Hf.
  - rewrite <- (take_page_table s i Hwf Hi H0) by done. apply table_eq. simpl. unfold upd.
    destruct (Z.eqb_spec (4 * k') (4 * k)); [lia|done].
Qed.
Lemma new_table_vmap v : is_page v -> vmap s' v = vmap s v.
Proof using Hwf Hi H0 Hp Hk.
  intros Hv. unfold vmap. rewrite new_table_table by by apply page_dir.
  destruct (Z.eqb_spec (v / 1024) k) as [E|].
  - rewrite E, Hp, new_table_outside, take_page_inside by (unfold page_addr, LOW_MEM; zlia).
    done.
  - destruct (table s (v / 1024)) as [t|] eqn:E; [|done].
    destruct (wf_table s Hwf _ t (page_dir v Hv) E).
    rewrite new_table_outside by zlia.
    by rewrite (take_page_tables s i Hwf Hi H0) by by apply entry_word.
Qed.
Lemma new_table_words a : is_word (mem s' a).
Proof using Hwf Hi.
  destruct (page_or7 i Hi) as (_ & _ & _ & Hr). simpl. unfold upd.
  destruct (a =? _); [done|by apply take_page_words].
Qed.
Lemma new_table_data a q : q mod 4096 = 0 -> q <= a < q + 4096 -> 4096 <= q ->
  q <> page_addr i -> mem s' a = mem s a.
Proof using Hk.
  intros Hq Ha Hl Hne. rewrite new_table_outside by lia. by apply (take_page_data s i a q).
Qed.
Lemma new_table_wf : wf_mm s'.
Proof using Hwf Hi H0 Hp Hk.
  pose proof (take_page_wf s i Hwf Hi H0) as Hwf1.
  destruct (take_page_new s i Hwf Hi H0) as (Hm & Hc & Hr & _ & Hn).
  apply (wf_add_table (take_page i s) _ k i); try done.
  - by rewrite take_page_table.
  - by rewrite Hc.
  - apply new_table_words.
  - intros k' Hk'. rewrite new_table_table by done. by rewrite take_page_table.
  - intros u Hu%user_is_page. rewrite new_table_vmap by done. by rewrite take_page_vmap.
Qed.
End new_table.

(** * Mapping a page: [put_page] *)

(** The routines' address arithmetic. *)
Lemma land_ffc x : 0 <= x -> x .& 0xffc = 4 * (x / 4 mod 1024).
Proof.
  intros Hx. replace 0xffc with (0xffc .& 0xfff) by done.
  rewrite (Z.land_comm 0xffc 0xfff), Z.land_assoc, land_fff, Z.land_comm.
  change 0xffc with (2 ^ 12 - 2 ^ 2).
  rewrite (land_high_mask (x mod 4096) 2 12) by (try split; zlia).
  change (2 ^ 2) with 4. zlia.
Qed.
Lemma dir_addr va : is_va va -> (va .>> 20) .& 0xffc = 4 * (va / 4096 / 1024).
Proof.
  intros Hv. unfold is_va in *. rewrite shiftr_div by lia.
  rewrite land_ffc by zlia. change (2 ^ 20) with 1048576. zlia.
Qed.
Lemma slot_addr va : 4 * ((va .>> 12) .& 0x3ff) = 4 * ((va / 4096) mod 1024).
Proof. by rewrite shiftr_div, land_3ff by lia. Qed.
Lemma slot_addr' va : is_va va -> (va .>> 10) .& 0xffc = 4 * ((va / 4096) mod 1024).
Proof.
  intros Hv. unfold is_va in *. rewrite shiftr_div by lia.
  rewrite land_ffc by zlia. rewrite Z.div_div by lia. done.
Qed.
Lemma va_page va : is_va va -> is_page (va / 4096).
Proof. unfold is_va, is_page. zlia. Qed.

Lemma truth_page i : 0 <= i -> truth (page_addr i) = true.
Proof.
  intros. unfold truth. destruct (Z.eqb_spec (page_addr i) 0); [|done].
  pose proof (page_addr_pos i). lia.
Qed.

(** [put_page]'s two messages do not change its effect. *)
Lemma put_page_quiet page address s w : exists w',
  put_page page address s w =
    (d ← load ((address .>> 20) .& 0xffc) ;
     if truth (d .& 1) then
       store ((0xfffff000 .& d) + 4 * ((address .>> 12) .& 0x3ff)) (page .| 7) ;; mret page
     else
       tmp ← get_free_page ;
       if negb (truth tmp) then mret 0 else
       store ((address .>> 20) .& 0xffc) (tmp .| 7) ;;
       store (tmp + 4 * ((address .>> 12) .& 0x3ff)) (page .| 7) ;;
       mret page) s w'.
Proof.
  unfold put_page. unfold map_at. run.
  destruct (_ || _); run; destruct (negb (_ =? 1)); run; eexists; reflexivity.
Qed.

(** A page that was nobody's is mapped, writable, at page [v]. *)
Lemma map_page_wf s v t p : wf_mm s -> user_page v -> table s (v / 1024) = Some t ->
  main_page s (page_addr p) p -> mem_map s p <> 0 -> refs s p = 0 ->
  (forall k, 0 <= k < 1024 -> table s k <> Some (page_addr p)) ->
  wf_mm (set_mem (t + 4 * (v mod 1024)) (page_addr p .| 7) s).
Proof.
  intros Hwf Hv Ht Hm Hused Hrefs Hnt. pose proof (user_is_page v Hv) as Hv'.
  destruct (page_or7 p) as (Hf & Hpr & _ & Hw); [by destruct Hm|].
  apply (wf_update s _ v (Some (page_addr p .| 7))); try done.
  - by apply set_entry_words.
  - apply (wf_count s Hwf).
  - intros k. by apply set_entry_table.
  - intros u Hu. rewrite (set_entry_vmap s v t) by (done || by apply user_is_page).
    unfold if_present. by rewrite Hpr.
  - intros q Hq. pose proof (hit_range (vmap s v) q). simpl. lia.
  - intros q Hq. pose proof (hit_range (vmap s v) q). simpl mem_map.
    destruct (decide (q = p)) as [-> | Hne].
    + rewrite (hit_page _ p Hf). pose proof (wf_count s Hwf p).
      pose proof (refs_hit s v p Hv). lia.
    + rewrite (hit_other _ p q Hf Hne). pose proof (wf_refs s Hwf q Hq). lia.
  - intros e [= <-]. unfold good_entry. rewrite Hf. split; [unfold page_addr; destruct Hm; lia|].
    intros _. split; [by exists p|done].
  - intros e u e' [= <-] Hu _ E F. exfalso. rewrite Hf in F.
    pose proof (refs_hit s u p Hu) as Hh. rewrite E, (hit_page e' p F) in Hh. lia.
Qed.

Lemma translate_set s v t e va : wf_mm s -> is_va va -> va / 4096 = v ->
  table s (v / 1024) = Some t -> present e = true ->
  translate (set_mem (t + 4 * (v mod 1024)) e s) va = Some (frame e + va mod 4096).
Proof.
  intros Hwf Hva <- Ht Hp. unfold translate.
  rewrite (set_entry_vmap s _ t) by (done || by apply va_page).
  rewrite Z.eqb_refl. unfold if_present. by rewrite Hp.
Qed.
Lemma translate_set_ne s v t e va : wf_mm s -> is_va va -> is_page v -> va / 4096 <> v ->
  table s (v / 1024) = Some t ->
  translate (set_mem (t + 4 * (v mod 1024)) e s) va = translate s va.
Proof.
  intros Hwf Hva Hv Hne Ht. unfold translate.
  rewrite (set_entry_vmap s _ t) by (done || by apply va_page).
  by destruct (Z.eqb_spec (va / 4096) v).
Qed.

(** [put_page], with the contents of the page. *)
Lemma put_page_run p va s w :
  wf_mm s -> is_va va -> user_page (va / 4096) ->
  main_page s (page_addr p) p -> mem_map s p <> 0 -> refs s p = 0 ->
  (forall k, 0 <= k < 1024 -> table s k <> Some (page_addr p)) ->
  exists r s' w', put_page (page_addr p) va s w = Ret r s' w' /\
    (r = 0 -> s' = s /\ table s (va / 4096 / 1024) = None /\ no_free_page s) /\
    (r <> 0 -> r = page_addr p /\ wf_mm s' /\
       translate s' va = Some (page_addr p + va mod 4096) /\
       (forall va', is_va va' -> va' / 4096 <> va / 4096 ->
          translate s' va' = translate s va') /\
       (forall x, 0 <= x < 4096 -> mem s' (page_addr p + x) = mem s (page_addr p + x))).
Proof.
  intros Hwf Hva Hv Hm Hused Hrefs Hnt. destruct (page_or7 p) as (Hf & Hpr & _ & _); [by destruct Hm|].
  set (v := va / 4096) in *. pose proof (user_is_page v Hv) as Hv'.
  pose proof (page_dir v Hv') as Hk. assert (0 < page_addr p) by (apply page_addr_pos, Hm).
  destruct (put_page_quiet (page_addr p) va s w) as (w0 & ->).
  unfold load, store. run. rewrite dir_addr, slot_addr by done. fold v.
  fold (present (mem s (4 * (v / 1024)))). fold (frame (mem s (4 * (v / 1024)))).
  destruct (present (mem s (4 * (v / 1024)))) eqn:Hd; run.
  - assert (Ht : table s (v / 1024) = Some (frame (mem s (4 * (v / 1024)))))
      by (unfold table; by rewrite Hd).
    set (t := frame (mem s (4 * (v / 1024)))) in *. fold (set_mem (t + 4 * (v mod 1024)) (page_addr p .| 7) s).
    do 3 eexists. split; [reflexivity|]. split; [lia|]. intros _. split; [done|].
    split; [by apply map_page_wf|]. split; [|split].
    + rewrite (translate_set s v) by done. by rewrite Hf.
    + intros va' Hva' Hne. by apply translate_set_ne.
    + intros x Hx. apply (set_entry_data s v t) with (page_addr p); try done; [apply page_addr_aligned|lia|].
      intros E. by apply (Hnt (v / 1024) Hk); rewrite Ht, E.
  - assert (Hnone : table s (v / 1024) = None) by (unfold table; by rewrite Hd).
    destruct (get_free_page_cases s w0) as [[E Hn] | (i & E & Hi & H0 & _)];
      rewrite (run_ret _ _ _ _ _ _ _ E).
    { do 3 eexists. split; [reflexivity|]. split; [done|]. lia. }
    rewrite truth_page by lia. run. do 3 eexists. split; [reflexivity|].
    split; [lia|]. intros _. split; [done|].
    fold (set_mem (4 * (v / 1024)) (page_addr i .| 7) (take_page i s)).
    fold (new_table (v / 1024) i s). set (s1 := new_table (v / 1024) i s).
    fold (set_mem (page_addr i + 4 * (v mod 1024)) (page_addr p .| 7) s1).
    assert (Hwf1 : wf_mm s1) by by apply new_table_wf.
    assert (Ht : table s1 (v / 1024) = Some (page_addr i))
      by (unfold s1; by rewrite new_table_table, Z.eqb_refl).
    assert (Hmap : forall u, is_page u -> vmap s1 u = vmap s u)
      by (intros; by apply new_table_vmap).
    assert (Hpi : p <> i) by (by intros ->).
    split; [apply map_page_wf; try done|split; [|split]].
    + simpl. unfold upd. by destruct (Z.eqb_spec p i).
    + rewrite (refs_same s); [done|]. intros u Hu. by apply Hmap, user_is_page.
    + intros k Hk'. unfold s1. rewrite new_table_table by done. destruct (k =? _); [|auto].
      intros [= Ea]. by apply page_addr_inj in Ea.
    + rewrite (translate_set s1 v) by done. by rewrite Hf.
    + intros va' Hva' Hne. rewrite translate_set_ne by done. unfold translate.
      by rewrite Hmap by by apply va_page.
    + intros x Hx. pose proof (page_addr_aligned p).
      assert (Hne : page_addr p <> page_addr i) by (intros Ea; by apply page_addr_inj in Ea).
      rewrite (set_entry_data s1 v (page_addr i)) with (q := page_addr p) by (done || lia).
      apply (new_table_data s (v / 1024) i) with (page_addr p); try done; [lia|].
      unfold page_addr, LOW_MEM. destruct Hm. lia.
Qed.

(** C7. [put_page page va] in a well-formed memory, for a page of main memory that
    is counted and so far not mapped and not a page table, at a user's address: it
    fails (returns 0, memory untouched) only when [va] has no page table and no page
    is free; otherwise [va] now translates to the page, every address in another
    page translates as before, the page has its contents, and the invariant of all
    address spaces is kept. *)
Theorem put_page_maps p va s w :
  wf_mm s -> is_va va -> user_page (va / 4096) ->
  main_page s (page_addr p) p -> mem_map s p <> 0 -> refs s p = 0 ->
  (forall k, 0 <= k < 1024 -> table s k <> Some (page_addr p)) ->
  exists r s' w', put_page (page_addr p) va s w = Ret r s' w' /\
    (r = 0 -> s' = s /\ table s (va / 4096 / 1024) = None /\ no_free_page s) /\
    (r <> 0 -> r = page_addr p /\ wf_mm s' /\
       translate s' va = Some (page_addr p + va mod 4096) /\
       (forall va', is_va va' -> va' / 4096 <> va / 4096 ->
          translate s' va' = translate s va') /\
       (forall x, 0 <= x < 4096 -> mem s' (page_addr p + x) = mem s (page_addr p + x))).
Proof. apply put_page_run. Qed.

(** * Copy on write: [un_wp_page] *)

(** One reference less to page [p]. *)
Definition drop_ref (p : Z) (s : mm) : mm :=
  s <| mem_map ::= upd p (u8 (mem_map s p - 1)) |>.
(** The contents of page [from] copied to page [to]. *)
Definition with_copy (from to : Z) (s : mm) : mm :=
  s <| mem ::= fun m => fun x =>
    if (to <=? x) && (x <? to + PAGE_SIZE) then m (from + (x - to)) else m x |>.

Lemma un_wp_page_run s w a :
  un_wp_page a s w =
    let e := mem s a in
    if (LOW_MEM <=? frame e) && (mem_map s (MAP_NR (frame e)) =? 1)
    then Ret tt (set_mem a (e .| 2) s) (World (script w) (EvInvalidate :: log w))
    else match get_free_page s w with
    | Ret r s1 w1 =>
        if r =? 0 then Exited SIGSEGV s1
        else
          let s2 := if LOW_MEM <=? frame e then drop_ref (MAP_NR (frame e)) s1 else s1 in
          Ret tt (with_copy (frame e) r (set_mem a (r .| 7) s2))
            (World (script w1) (EvInvalidate :: log w1))
    | _ => Exited SIGSEGV s
    end.
Proof.
  unfold un_wp_page, load, map_at, invalidate, store. run. fold (frame (mem s a)).
  destruct (_ && _); run; [done|].
  destruct (get_free_page_cases s w) as [[E Hn] | (i & E & Hi & H0 & _)];
    rewrite (run_ret _ _ _ _ _ _ _ E), E; cbn beta iota zeta.
  - done.
  - rewrite truth_page by lia. pose proof (page_addr_pos i).
    destruct (Z.eqb_spec (page_addr i) 0); [lia|]. simpl negb. cbn iota.
    destruct (LOW_MEM <=? frame (mem s a)); run; done.
Qed.

(** The entry of a user's address as [do_wp_page] computes it. *)
Lemma do_wp_page_entry s va ec w t : is_va va -> table s (va / 4096 / 1024) = Some t ->
  do_wp_page ec va s w = un_wp_page (t + 4 * ((va / 4096) mod 1024)) s w.
Proof.
  intros Hva. unfold do_wp_page, load, table. run. rewrite dir_addr, slot_addr' by done.
  destruct (present _); [|done]. intros [= <-]. unfold frame. by rewrite Z.add_comm.
Qed.

Lemma vmap_some s v e : vmap s v = Some e -> exists t,
  table s (v / 1024) = Some t /\ mem s (t + 4 * (v mod 1024)) = e /\ present e = true.
Proof.
  unfold vmap. destruct (table s (v / 1024)) as [t|]; [|done].
  destruct (present _) eqn:E; [|done]. intros [= <-]. eauto.
Qed.

(** The only user of a page may write to it. *)
Lemma allow_write_wf s v t e p : wf_mm s -> user_page v -> table s (v / 1024) = Some t ->
  vmap s v = Some e -> 0 <= p < PAGING_PAGES -> frame e = page_addr p -> mem_map s p = 1 ->
  wf_mm (set_mem (t + 4 * (v mod 1024)) (e .| 2) s).
Proof.
  intros Hwf Hv Ht E Hp F H1. pose proof (user_is_page v Hv) as Hv'.
  destruct (vmap_word s v e Hwf E) as [Hw Hpr].
  destruct (with_write e Hw) as (Ef & Epr & _ & Hw').
  apply (wf_update s _ v (Some (e .| 2))); try done.
  - by apply set_entry_words.
  - apply (wf_count s Hwf).
  - intros k. by apply set_entry_table.
  - intros u Hu. rewrite (set_entry_vmap s v t) by (done || by apply user_is_page).
    unfold if_present. by rewrite Epr, Hpr.
  - intros q Hq. pose proof (hit_range (vmap s v) q). simpl. lia.
  - intros q Hq. rewrite E, (hit_frame (e .| 2) e) by done. simpl mem_map.
    pose proof (wf_refs s Hwf q Hq). lia.
  - intros e' [= <-]. destruct (wf_user s Hwf v e Hv E) as [_ Hg]. unfold good_entry.
    rewrite Ef. split; [unfold page_addr in F; lia|done].
  - intros e1 u e' [= <-] Hu Hne E' F'. exfalso. rewrite Ef, F in F'.
    pose proof (refs_two s u v e' e p Hu Hv Hne E' E F' F).
    pose proof (wf_refs s Hwf p Hp). lia.
Qed.

Section copy_on_write.
Context (s : mm) (i v t e : Z).
Context (Hwf : wf_mm s) (Hi : 0 <= i < PAGING_PAGES) (H0 : mem_map s i = 0).
Context (Hv : user_page v) (Ht : table s (v / 1024) = Some t) (He : vmap s v = Some e).

#[local] Abbreviation s1 := (take_page i s).
#[local] Abbreviation s2 :=
  (if LOW_MEM <=? frame e then drop_ref (MAP_NR (frame e)) s1 else s1).
#[local] Abbreviation a := (t + 4 * (v mod 1024)).
#[local] Abbreviation s3 := (set_mem a (page_addr i .| 7) s1).
#[local] Abbreviation s4 := (with_copy (frame e) (page_addr i)
  (set_mem a (page_addr i .| 7) s2)).

Lemma cow_old_page : LOW_MEM <= frame e ->
  exists p, main_page s (frame e) p /\ MAP_NR (frame e) = p /\ p <> i /\ 0 < mem_map s p.
Proof using Hwf Hv He H0.
  intros Hl. destruct (wf_user s Hwf v e Hv He) as (_ & Hg).
  destruct (Hg Hl) as ((p & Hm) & _). exists p. split; [done|]. destruct Hm as (Hp & F & _).
  pose proof (mapped_in_use s v e p Hwf Hv He Hp F).
  rewrite F, MAP_NR_page by done. split; [done|]. split; [|done]. intros ->. lia.
Qed.

Lemma cow_mem x : mem s4 x =
  if (page_addr i <=? x) && (x <? page_addr i + PAGE_SIZE)
  then mem s3 (frame e + (x - page_addr i)) else mem s3 x.
Proof using. simpl. by destruct (LOW_MEM <=? frame e). Qed.

Lemma cow_map q : mem_map s4 q =
  if (LOW_MEM <=? frame e) && (q =? MAP_NR (frame e))
  then mem_map s q - 1 else if q =? i then 1 else mem_map s q.
Proof using Hwf Hv He H0.
  simpl. destruct (LOW_MEM <=? frame e) eqn:El; [|done]. apply Z.leb_le in El.
  destruct (cow_old_page El) as (p & Hm & Em & Hne & Hc). rewrite Em. simpl.
  unfold upd. destruct (Z.eqb_spec q p) as [-> | ]; [|done].
  destruct (Z.eqb_spec p i); [done|]. pose proof (wf_count s Hwf p). apply u8_small. lia.
Qed.

Lemma cow_table1 : table s1 (v / 1024) = Some t.
Proof using Hwf Hi H0 Hv Ht. rewrite take_page_table; auto using page_dir, user_is_page. Qed.

Lemma cow_vmap3 u : is_page u ->
  vmap s3 u = if u =? v then Some (page_addr i .| 7) else vmap s u.
Proof using Hwf Hi H0 Hv Ht.
  intros Hu. pose proof (take_page_wf s i Hwf Hi H0) as Hwf1.
  rewrite (set_entry_vmap s1 v t) by (done || apply cow_table1 || by apply user_is_page).
  rewrite take_page_vmap by done. unfold if_present.
  by destruct (page_or7 i Hi) as (_ & -> & _).
Qed.
Lemma cow_table3 k : 0 <= k < 1024 -> table s3 k = table s k.
Proof using Hwf Hi H0 Hv Ht.
  intros Hk. pose proof (take_page_wf s i Hwf Hi H0) as Hwf1.
  rewrite (set_entry_table s1 v t) by (done || apply cow_table1 || by apply user_is_page).
  by apply take_page_table.
Qed.

(** The copy goes to a page that is no table. *)
Lemma cow_tables4 x : table_word s3 x -> mem s4 x = mem s3 x.
Proof using Hwf Hi H0 Hv Ht.
  intros Hx. rewrite cow_mem. destruct (_ && _) eqn:E; [|done]. exfalso.
  apply andb_true_iff in E as [E1%Z.leb_le E2%Z.ltb_lt]. unfold PAGE_SIZE in E2.
  destruct Hx as [(k & Hk & ->) | (k & t' & y & Hk & Ht' & Hy & ->)].
  - unfold page_addr, LOW_MEM in *. lia.
  - rewrite cow_table3 in Ht' by done. destruct (table_aligned s k t' Hwf Ht').
    pose proof (page_addr_aligned i). destruct (free_unmapped s i Hwf Hi H0) as (_ & Hn & _).
    apply (Hn k Hk). rewrite Ht'. f_equal. zlia.
Qed.
Lemma cow_vmap u : is_page u ->
  vmap s4 u = if u =? v then Some (page_addr i .| 7) else vmap s u.
Proof using Hwf Hi H0 Hv Ht.
  intros Hu. rewrite (same_vmap s3) by (apply cow_tables4 || done). by apply cow_vmap3.
Qed.
Lemma cow_table k : 0 <= k < 1024 -> table s4 k = table s k.
Proof using Hwf Hi H0 Hv Ht.
  intros Hk. rewrite (same_table s3) by (apply cow_tables4 || done). by apply cow_table3.
Qed.

Lemma cow_words x : is_word (mem s4 x).
Proof using Hwf Hi.
  assert (H3 : forall y, is_word (mem s3 y)).
  { intros y. simpl. unfold upd. destruct (page_or7 i Hi) as (_ & _ & _ & Hr).
    destruct (y =? a); [done|]. by apply take_page_words. }
  rewrite cow_mem. by destruct (_ && _).
Qed.

Lemma cow_wf : wf_mm s4.
Proof using Hwf Hi H0 Hv Ht He.
  pose proof (take_page_wf s i Hwf Hi H0) as Hwf1.
  destruct (take_page_new s i Hwf Hi H0) as (Hm & Hc & Hr & Hu & Hn).
  destruct (page_or7 i Hi) as (Hf & _ & _ & _).
  assert (Hev : vmap s1 v = Some e) by (rewrite take_page_vmap; auto using user_is_page).
  assert (Hcnt : forall q, 0 <= q -> mem_map s4 q = mem_map s1 q - hit (Some e) q).
  { intros q Hq. rewrite cow_map, take_page_map.
    destruct (Z.leb_spec LOW_MEM (frame e)) as [El|El]; simpl andb.
    - destruct (cow_old_page El) as (p & (Hp & F & _) & Em & Hne & _). rewrite Em.
      destruct (Z.eqb_spec q p) as [-> | Hqp].
      + rewrite (hit_page e p F). by destruct (Z.eqb_spec p i).
      + rewrite (hit_other e p q F Hqp). lia.
    - rewrite (hit_low e q El Hq). lia. }
  apply (wf_update s1 _ v (Some (page_addr i .| 7))); rewrite ?Hev; try done.
  - apply cow_words.
  - intros p. rewrite cow_map. pose proof (wf_count s Hwf p).
    destruct (Z.leb_spec LOW_MEM (frame e)) as [El|]; simpl andb; [|by destruct (p =? i)].
    destruct (cow_old_page El) as (p' & _ & Em & _ & Hc'). rewrite Em.
    destruct (Z.eqb_spec p p') as [-> | ]; [lia|]. by destruct (p =? i).
  - simpl. by destruct (LOW_MEM <=? frame e).
  - intros k Hk. rewrite cow_table, take_page_table by done. done.
  - intros u Hu'%user_is_page. rewrite cow_vmap by done. by rewrite take_page_vmap.
  - intros q Hq. rewrite Hcnt by lia. lia.
  - intros q Hq. rewrite Hcnt by lia. destruct (decide (q = i)) as [-> | Hne].
    + rewrite (hit_page _ i Hf), Hr, Hc. pose proof (hit_range (Some e) i). lia.
    + rewrite (hit_other _ i q Hf Hne). pose proof (wf_refs s1 Hwf1 q Hq). lia.
  - intros e' [= <-]. unfold good_entry. rewrite Hf. split; [unfold page_addr; lia|].
    intros _. split; [by exists i|done].
  - intros e' u e1 [= <-] Hu' _ E F. exfalso. rewrite Hf in F. by apply (Hu u e1).
Qed.

(** The old page is neither the new one nor the table being written. *)
Lemma cow_old_kept x : 0 <= x < 4096 -> mem s4 (frame e + x) = mem s (frame e + x) /\
  mem s4 (page_addr i + x) = mem s (frame e + x).
Proof using Hwf Hi H0 Hv Ht He.
  intros Hx. destruct (vmap_word s v e Hwf He) as [Hw _]. pose proof (frame_range e Hw) as Hfr.
  pose proof (page_addr_aligned i) as Hal.
  destruct (free_unmapped s i Hwf Hi H0) as (Hfree & _ & _).
  pose proof (Hfree v e Hv He) as Hne.
  assert (Hold : forall y, 0 <= y < 4096 -> mem s3 (frame e + y) = mem s (frame e + y)).
  { intros y Hy. rewrite (set_entry_data s1 v t) with (q := frame e).
    - apply (take_page_data s i _ (frame e)); lia.
    - by apply take_page_wf.
    - apply cow_table1.
    - lia.
    - lia.
    - destruct (wf_user s Hwf v e Hv He) as [_ Hg]. intros Eft.
      pose proof (user_dir v Hv) as Hk. pose proof Ht as Ht'. rewrite <- Eft in Ht'.
      assert (Hk' : 0 <= v / 1024 < 1024) by lia.
      destruct (wf_table s Hwf _ _ Hk' Ht') as (_ & Hl & _).
      destruct (Hg (Hl (proj1 Hk))) as (_ & Hn). by apply (Hn (v / 1024) Hk'). }
  rewrite !cow_mem. unfold PAGE_SIZE. split.
  - destruct (_ && _) eqn:E; [|by apply Hold]. exfalso.
    apply andb_true_iff in E as [E1%Z.leb_le E2%Z.ltb_lt]. zlia.
  - rewrite (proj2 (Z.leb_le _ _)), (proj2 (Z.ltb_lt _ _)) by lia. simpl andb.
    replace (frame e + (page_addr i + x - page_addr i)) with (frame e + x) by lia.
    by apply Hold.
Qed.
End copy_on_write.

(** C6. A write fault on a user's page ([do_wp_page]) in a well-formed memory.  If no
    page is free and the page is shared, the task is killed with the counts and
    tables unchanged.  Otherwise the faulting address becomes writable, in a page
    that no other user's address maps, with exactly the old contents: the same page
    if this was its only user, else a page that was free, the old one keeping its
    contents and losing one from its count.  No other page's mapping changes and the
    invariant of all address spaces is kept. *)
Theorem do_wp_page_copies ec va e s w :
  wf_mm s -> is_va va -> user_page (va / 4096) -> vmap s (va / 4096) = Some e ->
  (do_wp_page ec va s w = Exited SIGSEGV s /\ no_free_page s /\
     (LOW_MEM <= frame e -> mem_map s (MAP_NR (frame e)) <> 1)) \/
  (exists s' w' e', do_wp_page ec va s w = Ret tt s' w' /\ wf_mm s' /\
     (forall u, is_page u -> vmap s' u = if u =? va / 4096 then Some e' else vmap s u) /\
     writable e' = true /\
     (forall u e1, user_page u -> u <> va / 4096 -> vmap s' u = Some e1 ->
        frame e1 <> frame e') /\
     (forall x, 0 <= x < 4096 ->
        mem s' (frame e' + x) = mem s (frame e + x) /\
        mem s' (frame e + x) = mem s (frame e + x)) /\
     ((frame e' = frame e /\ mem_map s' = mem_map s) \/
      (exists i, frame e' = page_addr i /\ highest_free s i /\
         forall q, mem_map s' q =
           if (LOW_MEM <=? frame e) && (q =? MAP_NR (frame e)) then mem_map s q - 1
           else if q =? i then 1 else mem_map s q))).
Proof.
  intros Hwf Hva Hv He. set (v := va / 4096) in *.
  destruct (vmap_some s v e He) as (t & Ht & Hm & Hpe). pose proof (user_is_page v Hv) as Hv'.
  destruct (vmap_word s v e Hwf He) as [Hw _].
  rewrite (do_wp_page_entry s va ec w t) by done. fold v. rewrite un_wp_page_run, Hm. cbn zeta.
  (* a writable page has one user *)
  assert (Hsole : forall s' e', wf_mm s' -> vmap s' v = Some e' -> writable e' = true ->
    forall u e1, user_page u -> u <> v -> vmap s' u = Some e1 -> frame e1 <> frame e').
  { intros s' e' Hwf' E Hwr u e1 Hu Hne E1 F.
    by rewrite (wf_private s' Hwf' v u e' e1) in Hwr. }
  destruct (_ && _) eqn:Eown.
  - right. destruct (with_write e Hw) as (Ef & Ep & Ew & Er).
    apply andb_true_iff in Eown as [El%Z.leb_le E1%Z.eqb_eq].
    destruct (wf_user s Hwf v e Hv He) as (_ & Hg).
    destruct (Hg El) as ((p & Hp & F & _) & _). rewrite F, MAP_NR_page in E1 by done.
    pose proof (allow_write_wf s v t e p Hwf Hv Ht He Hp F E1) as Hwf'.
    assert (Hmap : forall u, is_page u ->
      vmap (set_mem (t + 4 * (v mod 1024)) (e .| 2) s) u = if u =? v then Some (e .| 2) else vmap s u).
    { intros u Hu. rewrite (set_entry_vmap s v t) by done. unfold if_present. by rewrite Ep, Hpe. }
    do 3 eexists. split; [reflexivity|]. do 2 (split; [done|]). split; [done|].
    split; [apply Hsole; [done| |done]; by rewrite Hmap, Z.eqb_refl|]. rewrite Ef.
    split; [|by left]. intros x Hx. pose proof (frame_range e Hw).
    pose proof (user_dir v Hv). destruct (Hg El) as (_ & Hn).
    split; apply (set_entry_data s v t) with (q := frame e); try (done || lia);
      intros Eft; rewrite <- Eft in Ht; by apply (Hn (v / 1024) ltac:(lia)).
  - assert (Hsh : LOW_MEM <= frame e -> mem_map s (MAP_NR (frame e)) <> 1).
    { apply andb_false_iff in Eown as [E%Z.leb_gt|E%Z.eqb_neq]; lia. }
    destruct (get_free_page_cases s w) as [[E Hn] | (i & E & Hfree)]; rewrite E; [by left|].
    destruct Hfree as (Hi & H0 & Hmax). pose proof (page_addr_pos i).
    destruct (Z.eqb_spec (page_addr i) 0); [lia|].
    destruct (page_or7 i Hi) as (Ef & Ep & Ew & Er).
    pose proof (cow_wf s i v t e Hwf Hi H0 Hv Ht He) as Hwf'.
    pose proof (cow_vmap s i v t e Hwf Hi H0 Hv Ht) as Hmap.
    right. do 2 eexists. exists (page_addr i .| 7). split; [reflexivity|].
    do 2 (split; [done|]). split; [done|].
    split; [apply Hsole; [done| |done]; by rewrite Hmap, Z.eqb_refl|]. rewrite Ef. split.
    + intros x Hx. destruct (cow_old_kept s i v t e Hwf Hi H0 Hv Ht He x Hx). done.
    + right. exists i. split; [done|]. split; [done|]. intros q. by apply (cow_map s i v t e).
Qed.

(** * The theorems apply

    A task at 64 MB (slot 1) with one page table, page 100 of main memory, that maps
    page 200, read-only and counted twice, at address 64 MB; page 300 is in use and
    not mapped. *)
Definition sample_mm : mm :=
  Mm (fun a => if a =? 64 then page_addr 100 .| 7
               else if a =? page_addr 100 then page_addr 200 .| 5 else 0)
     (fun i => if i =? 100 then 1 else if i =? 200 then 2
               else if i =? 300 then 1 else 0)
     (LOW_MEM + PAGING_MEMORY).

Lemma sample_table k : 0 <= k < 1024 -> table sample_mm k = if k =? 16 then Some (page_addr 100) else None.
Proof.
  intros Hk. unfold table. simpl. destruct (Z.eqb_spec k 16) as [-> | ]; [done|].
  destruct (Z.eqb_spec (4 * k) 64); [lia|].
  destruct (Z.eqb_spec (4 * k) (page_addr 100)) as [E|]; [|done].
  unfold page_addr, LOW_MEM in E. lia.
Qed.
Lemma sample_vmap v : is_page v ->
  vmap sample_mm v = if v =? 16384 then Some (page_addr 200 .| 5) else None.
Proof.
  intros Hv. unfold vmap. rewrite sample_table by by apply page_dir. destruct (Z.eqb_spec v 16384) as [-> | ]; [done|].
  destruct (Z.eqb_spec (v / 1024) 16); [|done]. simpl.
  destruct (Z.eqb_spec (page_addr 100 + 4 * (v mod 1024)) 64) as [E|].
  { unfold page_addr, LOW_MEM in E. zlia. }
  destruct (Z.eqb_spec (page_addr 100 + 4 * (v mod 1024)) (page_addr 100)); [zlia|done].
Qed.
Lemma sample_refs p : refs sample_mm p = hit (Some (page_addr 200 .| 5)) p.
Proof.
  unfold refs, refs_in.
  rewrite (sum_change (fun _ => 0) _ _ 16384); [|apply NoDup_seqZ|by apply user_in|].
  - rewrite (sum_zero (fun _ => 0)) by done. by rewrite sample_vmap.
  - intros u Hu%user_in%user_is_page Hne. rewrite sample_vmap by done. by destruct (Z.eqb_spec u 16384).
Qed.
Lemma sample_mm_wf : wf_mm sample_mm.
Proof.
  split.
  - intros a. simpl. destruct (a =? 64); [done|]. by destruct (a =? _).
  - intros i. simpl. destruct (i =? 100); [lia|]. destruct (i =? 200); [lia|].
    destruct (i =? 300); lia.
  - unfold PAGING_PAGES, page_addr, sample_mm, PAGING_MEMORY, LOW_MEM. simpl. lia.
  - intros k t Hk. rewrite sample_table by done. destruct (Z.eqb_spec k 16); [|done].
    intros [= <-]. split; [done|]. split; [done|]. intros _. by exists 100.
  - intros k k' t Hk Hk'. rewrite !sample_table by done.
    destruct (Z.eqb_spec k 16), (Z.eqb_spec k' 16); congruence.
  - intros v e Hv%user_is_page. rewrite sample_vmap by done. destruct (v =? 16384); [|done]. intros [= <-].
    split; [done|]. intros _. split; [by exists 200|]. intros k Hk. rewrite sample_table by done.
    by destruct (k =? 16).
  - intros p _. rewrite sample_refs. destruct (decide (p = 200)) as [-> | Hne]; [done|].
    rewrite (hit_other _ 200) by done. simpl.
    destruct (p =? 100); [done|]. destruct (p =? 200); [done|]. by destruct (p =? 300).
  - intros v v' e e' Hv%user_is_page Hv'%user_is_page Hne. rewrite !sample_vmap by done.
    destruct (Z.eqb_spec v 16384), (Z.eqb_spec v' 16384); congruence.
Qed.

Lemma put_page_maps_witness :
  wf_mm sample_mm /\
  exists r s' w', put_page (page_addr 300) 0x8000123 sample_mm (World [] []) = Ret r s' w' /\
  (r <> 0 -> wf_mm s' /\ translate s' 0x8000123 = Some (page_addr 300 + 0x123)).
Proof.
  split; [exact sample_mm_wf|].
  destruct (put_page_maps 300 0x8000123 sample_mm (World [] []) sample_mm_wf)
    as (r & s' & w' & E & _ & H).
  - done.
  - done.
  - done.
  - done.
  - by rewrite sample_refs.
  - intros k Hk. rewrite sample_table by exact Hk. by destruct (k =? 16).
  - exists r, s', w'. split; [exact E|]. intros Hr. destruct (H Hr) as (_ & Hwf & Ht & _).
    split; [exact Hwf|exact Ht].
Defined.

Lemma do_wp_page_copies_witness :
  vmap sample_mm (0x4000123 / 4096) = Some (page_addr 200 .| 5) /\
  exists s' w', do_wp_page 3 0x4000123 sample_mm (World [] []) = Ret tt s' w' /\ wf_mm s'.
Proof.
  split; [reflexivity|].
  destruct (do_wp_page_copies 3 0x4000123 (page_addr 200 .| 5) sample_mm (World [] [])
              sample_mm_wf) as [(_ & Hn & _) | (s' & w' & e' & E & Hwf & _)];
    [done | done | reflexivity | exfalso |].
  - apply (Hn 5); [unfold PAGING_PAGES; lia | reflexivity].
  - exists s', w'. split; [exact E | exact Hwf].
Defined.
