(* ===== verification/Copy.v ===== *)
(** Copying and releasing an address space: [copy_page_tables], by which a fork shares
    all pages of the parent with the child, and [free_page_tables], against the
    invariant of [Tables]. *)
From S2P Require Import Prelude Sched Mm Tables.

(** What becomes of the parent's entry: memory below 1 MB stays writable for it. *)
Definition protect (e : Z) : Z := if LOW_MEM <=? frame e then read_only e else e.
Lemma protect_frame e : is_word e -> frame (protect e) = frame e.
Proof. intros He. unfold protect. case_match; [by apply read_only_entry|done]. Qed.

(** How often page [p] is a table of the [n] directory entries from [k] on. *)
Definition table_hit (m : option Z) (p : Z) : Z :=
  match m with Some t => if t =? page_addr p then 1 else 0 | None => 0 end.
Definition tables_in (k n : Z) (s : mm) (p : Z) : Z :=
  sum_over (fun i => table_hit (table s i) p) (seqZ k n).

Lemma table_hit_range m p : 0 <= table_hit m p <= 1.
Proof. unfold table_hit. destruct m; [case_match|]; lia. Qed.
Lemma refs_in_S v n s p : 0 <= n ->
  refs_in v (n + 1) s p = refs_in v n s p + hit (vmap s (v + n)) p.
Proof.
  intros Hn. unfold refs_in. rewrite seqZ_app, sum_app by lia.
  rewrite (seqZ_cons (v + n)), (seqZ_nil (Z.succ (v + n))) by lia. simpl. lia.
Qed.
Lemma refs_in_add v n n' s p : 0 <= n -> 0 <= n' ->
  refs_in v (n + n') s p = refs_in v n s p + refs_in (v + n) n' s p.
Proof. intros. unfold refs_in. by rewrite seqZ_app, sum_app by lia. Qed.
Lemma refs_in_none v n s p : (forall u, v <= u < v + n -> vmap s u = None) ->
  refs_in v n s p = 0.
Proof. intros H. apply sum_zero. intros u Hu%elem_of_seqZ. by rewrite H. Qed.
Lemma refs_in_nonneg v n s p : 0 <= refs_in v n s p.
Proof. apply sum_nonneg. intros. apply hit_range. Qed.
Lemma refs_in_hit v n s p u : v <= u < v + n -> hit (vmap s u) p <= refs_in v n s p.
Proof.
  intros Hu. apply (sum_ge (fun u => hit (vmap s u) p)); [intros; apply hit_range|].
  by apply elem_of_seqZ.
Qed.
(** The same pages are mapped at other places, or with other flags. *)
Lemma refs_in_shift v v' n s s' p :
  (forall i, 0 <= i < n -> hit (vmap s' (v' + i)) p = hit (vmap s (v + i)) p) ->
  refs_in v' n s' p = refs_in v n s p.
Proof.
  intros H. destruct (Z_le_gt_dec n 0); [unfold refs_in; by rewrite !seqZ_nil by lia|].
  rewrite <- (Z2Nat.id n) in * by lia. revert H. generalize (Z.to_nat n). clear.
  induction n as [|n IH]; intros H; [done|].
  rewrite Nat2Z.inj_succ, <- Z.add_1_r, !refs_in_S by lia. rewrite IH, H by lia || (intros; apply H; lia).
  done.
Qed.
Lemma tables_in_S k n s p : 0 <= n ->
  tables_in k (n + 1) s p = tables_in k n s p + table_hit (table s (k + n)) p.
Proof.
  intros Hn. unfold tables_in. rewrite seqZ_app, sum_app by lia.
  rewrite (seqZ_cons (k + n)), (seqZ_nil (Z.succ (k + n))) by lia. simpl. lia.
Qed.
Lemma tables_in_nonneg k n s p : 0 <= tables_in k n s p.
Proof. apply sum_nonneg. intros. apply table_hit_range. Qed.
Lemma tables_in_ext k n s s' p : (forall i, k <= i < k + n -> table s' i = table s i) ->
  tables_in k n s' p = tables_in k n s p.
Proof. intros H. apply sum_ext. intros i Hi%elem_of_seqZ. by rewrite H. Qed.

(** * One page of [copy_page_tables] *)
Definition add_ref (p : Z) (s : mm) : mm :=
  s <| mem_map ::= upd p (u8 (mem_map s p + 1)) |>.
Definition copied_pte (a b : Z) (s : mm) : mm :=
  let e := mem s a in
  if present e then
    let e' := read_only e in
    let s1 := set_mem b e' s in
    if LOW_MEM <? e' then add_ref ((e' - LOW_MEM) .>> 12) (set_mem a e' s1) else s1
  else s.

Lemma copy_pte_run a b s w : copy_pte a b s w = Ret tt (copied_pte a b s) w.
Proof.
  unfold copy_pte, copied_pte, load, store, map_at, set_map. run. rewrite (Z.land_comm 1).
  fold (present (mem s a)). destruct (present (mem s a)); [|done]. run.
  fold (read_only (mem s a)). destruct (LOW_MEM <? _); run; done.
Qed.

(** The test the code makes on the whole entry is one on its page. *)
Lemma read_only_high e : is_word e -> present e = true ->
  (LOW_MEM <? read_only e) = (LOW_MEM <=? frame e).
Proof.
  intros He Hp. destruct (read_only_entry e He) as (Hf & Hp' & _ & Hw).
  rewrite <- Hf. destruct (entry_split _ Hw) as (E & Ep & _).
  pose proof (frame_range _ Hw). rewrite Hp', Hp in Ep.
  assert (read_only e mod 4096 <> 0) by (intros H0; by rewrite H0 in Ep).
  unfold LOW_MEM in *. destruct (Z.ltb_spec 1048576 (read_only e)),
    (Z.leb_spec 1048576 (frame (read_only e))); zlia || done.
Qed.
Lemma read_only_nr e p : is_word e -> frame e = page_addr p ->
  (read_only e - LOW_MEM) .>> 12 = p.
Proof.
  intros He F. destruct (read_only_entry e He) as (Hf & _ & _ & Hw).
  destruct (entry_split _ Hw) as (E & _ & _). rewrite E, Hf, F. apply page_addr_nr. zlia.
Qed.

Section copy_page.
Context (s : mm) (vf vt tf tt : Z).
Context (Hwf : wf_mm s) (Hvf : is_page vf) (Hvt : user_page vt) (Hne : vf <> vt).
Context (Htf : table s (vf / 1024) = Some tf) (Htt : table s (vt / 1024) = Some tt).
Context (Hnone : vmap s vt = None).
Context (Hsrc : forall e, vmap s vf = Some e -> LOW_MEM <= frame e -> user_page vf).
Context (Hroom : forall p, 0 <= p < PAGING_PAGES -> hit (vmap s vf) p = 1 -> mem_map s p < 255).
#[local] Abbreviation a := (tf + 4 * (vf mod 1024)).
#[local] Abbreviation b := (tt + 4 * (vt mod 1024)).
#[local] Abbreviation s' := (copied_pte a b s).

Lemma copy_page_none : vmap s vf = None -> s' = s.
Proof using Htf.
  unfold vmap. rewrite Htf. unfold copied_pte. by destruct (present (mem s a)).
Qed.

Lemma copy_page_some e : vmap s vf = Some e ->
  mem s' = (if LOW_MEM <=? frame e then upd a (read_only e) (upd b (read_only e) (mem s))
            else upd b (read_only e) (mem s)) /\
  HIGH_MEMORY s' = HIGH_MEMORY s /\ (forall p, 0 <= mem_map s' p < 256) /\
  forall p, 0 <= p < PAGING_PAGES -> mem_map s' p = mem_map s p + hit (Some e) p.
Proof using Hwf Htf Hsrc Hroom.
  intros E. destruct (vmap_word s vf e Hwf E) as [Hw Hp].
  destruct (vmap_some s vf e E) as (t & Ht & Hm & _). rewrite Htf in Ht. injection Ht as <-.
  unfold copied_pte. rewrite Hm, Hp, read_only_high by done.
  destruct (Z.leb_spec LOW_MEM (frame e)) as [Hl|Hl].
  - split; [done|]. split; [done|].
    destruct (wf_user s Hwf vf e (Hsrc e E Hl) E) as (_ & Hg).
    destruct (Hg Hl) as ((p' & Hp' & F & _) & _).
    rewrite (read_only_nr e p') by done. simpl mem_map. unfold upd.
    pose proof (Hroom p' Hp') as Hr. rewrite E, (hit_page e p' F) in Hr. specialize (Hr eq_refl).
    pose proof (wf_count s Hwf p'). rewrite u8_small by lia.
    split; intros p; [pose proof (wf_count s Hwf p); destruct (p =? p'); lia|]. intros Hpp.
    destruct (Z.eqb_spec p p') as [-> | Hpne]; [by rewrite (hit_page e p' F)|].
    rewrite (hit_other e p' p F Hpne). lia.
  - split; [done|]. split; [done|]. split; [apply (wf_count s Hwf)|].
    intros p Hpp. rewrite hit_low by lia. simpl. lia.
Qed.

(** The parent's entry, then the child's. *)
#[local] Abbreviation shared_parent e := (if LOW_MEM <=? frame e then set_mem a (read_only e) s else s).

Lemma shared_parent_ok e : vmap s vf = Some e ->
  let s1 := shared_parent e in
  wf_mm s1 /\ (forall k, 0 <= k < 1024 -> table s1 k = table s k) /\
  (forall u, is_page u -> vmap s1 u = if u =? vf then Some (protect e) else vmap s u).
Proof using Hwf Hvf Htf Hsrc.
  intros E s1. destruct (vmap_word s vf e Hwf E) as [Hw Hp].
  destruct (read_only_entry e Hw) as (Hf & Hpr & Hwr & Hw').
  unfold s1, protect. destruct (Z.leb_spec LOW_MEM (frame e)) as [Hl|Hl].
  - assert (Hmap : forall u, is_page u -> vmap (set_mem a (read_only e) s) u =
      if u =? vf then Some (read_only e) else vmap s u).
    { intros u Hu. rewrite (set_entry_vmap s vf tf) by done. unfold if_present.
      by rewrite Hpr, Hp. }
    split; [|split; [intros; by apply set_entry_table|done]].
    pose proof (Hsrc e E Hl) as Huf.
    apply (wf_update s _ vf (Some (read_only e))); try done.
    + by apply set_entry_words.
    + apply (wf_count s Hwf).
    + intros. by apply set_entry_table.
    + intros u Hu. by apply Hmap, user_is_page.
    + intros p Hpp. pose proof (hit_range (vmap s vf) p). simpl. lia.
    + intros p Hpp. rewrite E, (hit_frame (read_only e) e) by done.
      pose proof (wf_refs s Hwf p Hpp). simpl mem_map. lia.
    + intros e' [= <-]. destruct (wf_user s Hwf vf e Huf E) as (_ & Hg).
      unfold good_entry. rewrite Hf. split; [lia|done].
    + intros e1 u e' [= <-] Hu Hne' E' F. split; [done|]. rewrite Hf in F.
      by apply (wf_private s Hwf u vf e' e).
  - split; [done|]. split; [done|]. intros u Hu. by destruct (Z.eqb_spec u vf) as [-> | ].
Qed.

Lemma copied_words e : vmap s vf = Some e ->
  forall x, mem s' x = mem (set_mem b (read_only e) (shared_parent e)) x.
Proof using Hwf Htf Hsrc Hroom.
  intros E x. destruct (copy_page_some e E) as (-> & _). simpl.
  destruct (LOW_MEM <=? frame e); [|done]. simpl. unfold upd.
  by destruct (x =? a), (x =? b).
Qed.

Lemma copy_page_ok :
  wf_mm s' /\ HIGH_MEMORY s' = HIGH_MEMORY s /\
  (forall k, 0 <= k < 1024 -> table s' k = table s k) /\
  (forall u, is_page u -> vmap s' u =
     if u =? vt then read_only <$> vmap s vf
     else if u =? vf then protect <$> vmap s vf else vmap s u) /\
  (forall p, 0 <= p < PAGING_PAGES -> mem_map s' p = mem_map s p + hit (vmap s vf) p) /\
  (forall q x, q mod 4096 = 0 -> q <= x < q + 4096 -> q <> tf -> q <> tt ->
     mem s' x = mem s x).
Proof using All.
  assert (Hcase : vmap s vf = None \/ exists e, vmap s vf = Some e)
    by (destruct (vmap s vf); eauto).
  destruct Hcase as [E|[e E]]; rewrite E.
  { rewrite copy_page_none by done. do 3 (split; [done|]). split; [|by split; simpl; [lia|]].
       intros u Hu. destruct (Z.eqb_spec u vt) as [-> | ]; [done|].
       by destruct (Z.eqb_spec u vf) as [-> | ]. }
  destruct (vmap_word s vf e Hwf E) as [Hw Hp].
  destruct (read_only_entry e Hw) as (Hf & Hpr & Hwr & Hw').
  destruct (shared_parent_ok e E) as (Hwf1 & Htab1 & Hmap1).
  destruct (copy_page_some e E) as (_ & Hh & Hbytes & Hcnt). pose proof (copied_words e E) as Hwords.
  set (s1 := shared_parent e) in *.
  assert (Em1 : mem_map s1 = mem_map s) by (unfold s1; by destruct (LOW_MEM <=? _)).
  assert (Eh1 : HIGH_MEMORY s1 = HIGH_MEMORY s) by (unfold s1; by destruct (LOW_MEM <=? _)).
  pose proof (user_is_page vt Hvt) as Hvt'.
  assert (Htt1 : table s1 (vt / 1024) = Some tt) by (rewrite Htab1; auto using page_dir).
  assert (Hvt1 : vmap s1 vt = None).
  { rewrite Hmap1 by done. by destruct (Z.eqb_spec vt vf). }
  assert (Htab : forall k, 0 <= k < 1024 -> table s' k = table s k).
  { intros k Hk. rewrite (same_table (set_mem b (read_only e) s1)) by done.
    rewrite (set_entry_table s1 vt tt) by done. auto. }
  assert (Hmap : forall u, is_page u ->
    vmap s' u = if u =? vt then Some (read_only e) else vmap s1 u).
  { intros u Hu. rewrite (same_vmap (set_mem b (read_only e) s1)) by done.
    rewrite (set_entry_vmap s1 vt tt) by done. unfold if_present. by rewrite Hpr, Hp. }
  split; [|split; [done|split; [done|split; [|split; [done|]]]]].
  - apply (wf_update s1 _ vt (Some (read_only e))); rewrite ?Hvt1, ?Em1; try done.
    + intros x. rewrite Hwords. by apply set_entry_words.
    + by rewrite Hh.
    + intros k Hk. by rewrite Htab, Htab1.
    + intros u Hu. by apply Hmap, user_is_page.
    + intros p Hpp. rewrite Hcnt by done. pose proof (hit_range (Some e) p). simpl hit at 1. lia.
    + intros p Hpp. rewrite Hcnt, (hit_frame (read_only e) e) by done.
      pose proof (wf_refs s1 Hwf1 p Hpp). rewrite Em1 in *. simpl hit at 1. lia.
    + intros e' [= <-]. unfold good_entry. rewrite Hf. split; [done|]. intros Hl.
      assert (Hv1 : vmap s1 vf = Some (protect e)) by (by rewrite Hmap1, Z.eqb_refl).
      destruct (wf_user s1 Hwf1 vf _ (Hsrc e E Hl) Hv1) as (_ & Hg).
      rewrite protect_frame in Hg by done. by apply Hg.
    + intros e1 u e' [= <-] Hu Hne' E' F. split; [done|]. rewrite Hf in F.
      rewrite Hmap1 in E' by by apply user_is_page. destruct (Z.eqb_spec u vf) as [-> | Huf].
      * injection E' as <-. destruct (Z_lt_le_dec (frame e) LOW_MEM) as [Hl|Hl].
        { destruct (wf_user s Hwf vf e Hu E) as (Hlow & _). unfold protect.
          destruct (Z.leb_spec LOW_MEM (frame e)); [lia|auto]. }
        unfold protect. by destruct (Z.leb_spec LOW_MEM (frame e)); [|lia].
      * destruct (Z_lt_le_dec (frame e) LOW_MEM) as [Hl|Hl].
        { destruct (wf_user s Hwf u e' Hu E') as (Hlow & _). apply Hlow. lia. }
        by apply (wf_private s Hwf u vf e' e Hu (Hsrc e E Hl) Huf).
  - intros u Hu. rewrite Hmap, Hmap1 by done. simpl. done.
  - intros q x Hq Hx Hqf Hqt. rewrite Hwords.
    rewrite (set_entry_data s1 vt tt) with (q := q) by done.
    unfold s1. destruct (LOW_MEM <=? frame e); [|done].
    by apply (set_entry_data s vf tf) with (q := q).
Qed.
End copy_page.

(** * The loops of [copy_page_tables]

    [m] pages from [1024 * fd] on have been copied to [1024 * td] on, for [nd]
    directory entries. *)
Record copied (s0 : mm) (fd td m nd : Z) (s : mm) : Prop := {
  cp_wf : wf_mm s;
  cp_high : HIGH_MEMORY s = HIGH_MEMORY s0;
  cp_table : forall k, 0 <= k < 1024 -> ~ (td <= k < td + nd) -> table s k = table s0 k;
  cp_child : forall i, 0 <= i < m -> vmap s (1024 * td + i) = read_only <$> vmap s0 (1024 * fd + i);
  cp_parent : forall i, 0 <= i < m -> vmap s (1024 * fd + i) = protect <$> vmap s0 (1024 * fd + i);
  cp_rest : forall u, is_page u -> ~ (1024 * td <= u < 1024 * td + m) ->
    ~ (1024 * fd <= u < 1024 * fd + m) -> vmap s u = vmap s0 u;
  (** the counts grow by exactly the references that are added *)
  cp_count : forall p, 0 <= p < PAGING_PAGES ->
    mem_map s p = mem_map s0 p + refs_in (1024 * fd) m s0 p + tables_in td nd s p;
  (** the contents of the users' pages *)
  cp_data : forall v e x, user_page v -> vmap s0 v = Some e -> LOW_MEM <= frame e ->
    0 <= x < 4096 -> mem s (frame e + x) = mem s0 (frame e + x);
}.

Lemma table_some s k : match table s k with
  | Some t => present (mem s (4 * k)) = true /\ t = frame (mem s (4 * k))
  | None => present (mem s (4 * k)) = false end.
Proof. unfold table. by destruct (present _). Qed.

Section copy_range.
Context (s0 : mm) (fd td n total : Z).
Context (Hwf0 : wf_mm s0) (Hn : 0 <= n) (Htotal : 0 <= total <= 1024 * n).
Context (Hfd : 0 <= fd /\ fd + n <= 1024) (Htd : 16 <= td /\ td + n <= 1024).
Context (Hdisj : fd + n <= td \/ td + n <= fd).
Context (Hfresh : forall k, td <= k < td + n -> table s0 k = None).
Context (Hsrc : forall i e, 0 <= i < total -> vmap s0 (1024 * fd + i) = Some e ->
  LOW_MEM <= frame e -> 16 <= fd).
Context (Hroom : forall p, 0 <= p < PAGING_PAGES ->
  mem_map s0 p + refs_in (1024 * fd) total s0 p < 256).

Lemma copied_start : copied s0 fd td 0 0 s0.
Proof using All.
  split; try (done || lia). intros p Hp. unfold refs_in, tables_in. rewrite !seqZ_nil by lia.
  simpl. lia.
Qed.

(** What is still to be copied is as it was at the start. *)
Lemma copied_next m nd s i : copied s0 fd td m nd s -> 0 <= m <= i -> i < 1024 * n ->
  vmap s (1024 * fd + i) = vmap s0 (1024 * fd + i) /\ vmap s (1024 * td + i) = None.
Proof using All.
  intros Hc Hm Hi.
  assert (Hp : forall d, 0 <= d <= 1024 - n -> is_page (1024 * d + i)) by (unfold is_page; lia).
  split.
  - apply (cp_rest _ _ _ _ _ _ Hc); [apply Hp; lia|lia|lia].
  - rewrite (cp_rest _ _ _ _ _ _ Hc); [|apply Hp; lia|lia|lia].
    unfold vmap. by rewrite Hfresh by zlia.
Qed.
Lemma copied_from_table m nd s k : copied s0 fd td m nd s -> nd <= n -> 0 <= k < n ->
  table s (fd + k) = table s0 (fd + k).
Proof using All. intros Hc ? ?. apply (cp_table _ _ _ _ _ _ Hc); lia. Qed.

(** Pages that map nothing need no work. *)
Lemma copied_skip m m' nd s : copied s0 fd td m nd s -> 0 <= m <= m' -> m' <= 1024 * n ->
  0 <= nd < n -> (forall i, m <= i < m' -> vmap s0 (1024 * fd + i) = None) ->
  copied s0 fd td m' (nd + 1) s.
Proof using All.
  intros Hc Hm Hm' Hnd Hempty. pose proof Hc as [? ? Htab ? ? Hrest Hcount ?].
  split; try done.
  - intros k Hk Hne. apply Htab; lia.
  - intros i Hi. destruct (Z_lt_le_dec i m); [apply (cp_child _ _ _ _ _ _ Hc); lia|].
    destruct (copied_next m nd s i Hc) as [_ ->]; [lia..|]. by rewrite Hempty by lia.
  - intros i Hi. destruct (Z_lt_le_dec i m); [apply (cp_parent _ _ _ _ _ _ Hc); lia|].
    destruct (copied_next m nd s i Hc) as [-> _]; [lia..|]. by rewrite Hempty by lia.
  - intros u Hu Hu1 Hu2. apply Hrest; [done|lia|lia].
  - intros p Hp. rewrite Hcount, tables_in_S by (done || lia).
    replace m' with (m + (m' - m)) by lia. rewrite refs_in_add by lia.
    rewrite (refs_in_none (1024 * fd + m)).
    + rewrite Htab, Hfresh by lia. simpl. lia.
    + intros u Hu. replace u with (1024 * fd + (u - 1024 * fd)) by lia. apply Hempty. lia.
Qed.

(** A page that was mapped at the start still is. *)
Lemma copied_mapped m nd s v e : copied s0 fd td m nd s -> 0 <= m <= 1024 * n ->
  user_page v -> vmap s0 v = Some e -> exists e', vmap s v = Some e' /\ frame e' = frame e.
Proof using All.
  intros Hc Hm Hv E. destruct (vmap_word s0 v e Hwf0 E) as [Hw _].
  assert (Hnt : ~ (1024 * td <= v < 1024 * td + m)).
  { intros Hr. unfold vmap in E. by rewrite Hfresh in E by zlia. }
  destruct (decide (1024 * fd <= v < 1024 * fd + m)) as [Hr|Hr].
  - pose proof (cp_parent _ _ _ _ _ _ Hc (v - 1024 * fd) ltac:(lia)) as H.
    replace (1024 * fd + (v - 1024 * fd)) with v in H by lia. rewrite E in H.
    exists (protect e). split; [done|]. by apply protect_frame.
  - exists e. split; [|done]. rewrite (cp_rest _ _ _ _ _ _ Hc); [done|by apply user_is_page|done..].
Qed.
(** Its page is neither free nor a table. *)
Lemma copied_page_kept m nd s v e : copied s0 fd td m nd s -> 0 <= m <= 1024 * n ->
  user_page v -> vmap s0 v = Some e -> LOW_MEM <= frame e ->
  (forall k, 0 <= k < 1024 -> table s k <> Some (frame e)) /\
  exists p, main_page s (frame e) p /\ 0 < mem_map s p.
Proof using All.
  intros Hc Hm Hv E Hl. destruct (copied_mapped m nd s v e Hc Hm Hv E) as (e' & E' & F).
  pose proof (cp_wf _ _ _ _ _ _ Hc) as Hwf.
  destruct (wf_user s Hwf v e' Hv E') as (_ & Hg). rewrite F in Hg.
  destruct (Hg Hl) as ((p & Hp) & Hn'). split; [done|]. exists p. split; [done|].
  destruct Hp as (Hp & Fp & _). apply (mapped_in_use s v e'); try done. by rewrite F.
Qed.

(** A new table for the next directory entry. *)
Lemma copied_new_table m nd s i : copied s0 fd td m nd s -> 0 <= m <= 1024 * n ->
  0 <= nd < n -> 0 <= i < PAGING_PAGES -> mem_map s i = 0 ->
  copied s0 fd td m (nd + 1) (new_table (td + nd) i s).
Proof using All.
  intros Hc Hm Hnd Hi H0. pose proof Hc as [Hwf Hh Htab Hch Hpa Hrest Hcount Hdata].
  assert (Hnone : table s (td + nd) = None) by (rewrite Htab by lia; apply Hfresh; lia).
  assert (Hmap : forall u, is_page u -> vmap (new_table (td + nd) i s) u = vmap s u).
  { intros u Hu. apply new_table_vmap; try done. lia. }
  assert (Htab' : forall k, 0 <= k < 1024 -> table (new_table (td + nd) i s) k =
    if k =? td + nd then Some (page_addr i) else table s k).
  { intros k Hk. apply new_table_table; try done. lia. }
  split.
  - apply new_table_wf; try done. lia.
  - done.
  - intros k Hk Hne. rewrite Htab' by done. destruct (Z.eqb_spec k (td + nd)); [lia|].
    apply Htab; lia.
  - intros j Hj. rewrite Hmap by (unfold is_page; lia). auto.
  - intros j Hj. rewrite Hmap by (unfold is_page; lia). auto.
  - intros u Hu Hu1 Hu2. rewrite Hmap by done. auto.
  - intros p Hp. rewrite tables_in_S, Htab', Z.eqb_refl by lia.
    rewrite (tables_in_ext td nd s (new_table (td + nd) i s)).
    2: { intros k Hk. rewrite Htab' by lia. by destruct (Z.eqb_spec k (td + nd)); [lia|]. }
    specialize (Hcount p Hp). simpl. unfold upd.
    destruct (Z.eqb_spec p i) as [-> | Hne].
    + rewrite Z.eqb_refl. pose proof (refs_in_nonneg (1024 * fd) m s0 i).
      pose proof (tables_in_nonneg td nd s i). pose proof (wf_count s0 Hwf0 i). lia.
    + destruct (Z.eqb_spec (page_addr i) (page_addr p)) as [Ep|]; [|lia].
      by apply page_addr_inj in Ep.
  - intros v e x Hv E Hl Hx.
    destruct (copied_page_kept m nd s v e Hc Hm Hv E Hl) as (_ & p & (Hp & F & _) & Hused).
    destruct (vmap_word s0 v e Hwf0 E) as [Hw _]. pose proof (frame_range e Hw).
    rewrite (new_table_data s (td + nd) i ltac:(lia) _ (frame e)); [by apply (Hdata v)|lia|lia| |].
    + unfold LOW_MEM in Hl. lia.
    + rewrite F. intros Ep%page_addr_inj. by subst; lia.
Qed.

(** One page more. *)
Lemma copied_page m nd s tf tt : copied s0 fd td m nd s -> 0 <= m < total -> nd <= n ->
  table s (fd + m / 1024) = Some tf -> table s (td + m / 1024) = Some tt ->
  let s' := copied_pte (tf + 4 * (m mod 1024)) (tt + 4 * (m mod 1024)) s in
  copied s0 fd td (m + 1) nd s' /\ forall k, 0 <= k < 1024 -> table s' k = table s k.
Proof using All.
  intros Hc Hm Hnd Htf Htt. cbv zeta. pose proof Hc as [Hwf Hh Htab Hch Hpa Hrest Hcount Hdata].
  destruct (copied_next m nd s m Hc) as (Evf & Evt); [lia|lia|].
  set (vf := 1024 * fd + m) in *. set (vt := 1024 * td + m) in *.
  replace (fd + m / 1024) with (vf / 1024) in Htf by (unfold vf; zlia).
  replace (td + m / 1024) with (vt / 1024) in Htt by (unfold vt; zlia).
  replace (tf + 4 * (m mod 1024)) with (tf + 4 * (vf mod 1024)) by (unfold vf; zlia).
  replace (tt + 4 * (m mod 1024)) with (tt + 4 * (vt mod 1024)) by (unfold vt; zlia).
  assert (Hvf : is_page vf) by (unfold vf, is_page; lia).
  assert (Hvt : user_page vt) by (unfold vt, user_page; lia).
  assert (Hne : vf <> vt) by (unfold vf, vt; zlia).
  assert (Huf : forall e, vmap s vf = Some e -> LOW_MEM <= frame e -> user_page vf).
  { intros e E Hl. rewrite Evf in E. pose proof (Hsrc m e Hm E Hl).
    unfold vf, user_page. lia. }
  destruct (copy_page_ok s vf vt tf tt) as (Hwf' & Hh' & Htab' & Hmap' & Hcnt' & Hdata'); try done.
  { intros p Hp Hhit. specialize (Hcount p Hp). specialize (Hroom p Hp).
    assert (tables_in td nd s p = 0) as E0.
    { apply sum_zero. intros k Hk%elem_of_seqZ. unfold table_hit.
      destruct (table s k) as [t|] eqn:Ek; [|done].
      destruct (Z.eqb_spec t (page_addr p)) as [-> | ]; [|done]. exfalso.
      destruct (vmap s vf) as [e|] eqn:E; [|done].
      destruct (Z_lt_le_dec (frame e) LOW_MEM); [by rewrite hit_low in Hhit by lia|].
      pose proof (table_no_hit s vf k p Hwf (Huf e eq_refl ltac:(lia)) ltac:(lia) ltac:(lia) Ek) as Hz.
      rewrite E in Hz. lia. }
    pose proof (refs_in_add (1024 * fd) (m + 1) (total - (m + 1)) s0 p ltac:(lia) ltac:(lia)) as Ht.
    replace (m + 1 + (total - (m + 1))) with total in Ht by lia.
    rewrite refs_in_S in Ht by lia. fold vf in Ht. rewrite <- Evf, Hhit in Ht.
    pose proof (refs_in_nonneg (1024 * fd + (m + 1)) (total - (m + 1)) s0 p). lia. }
  set (s' := copied_pte _ _ s) in *. split; [|exact Htab']. split.
  - done.
  - by rewrite Hh'.
  - intros k Hk Hk'. rewrite Htab' by done. auto.
  - intros i Hi. rewrite Hmap' by (unfold is_page; lia).
    destruct (Z.eqb_spec (1024 * td + i) vt) as [E|].
    { replace i with m by (unfold vt in E; lia). by rewrite Evf. }
    destruct (Z.eqb_spec (1024 * td + i) vf); [unfold vf in *; zlia|]. apply Hch. unfold vt in *. lia.
  - intros i Hi. rewrite Hmap' by (unfold is_page; lia).
    destruct (Z.eqb_spec (1024 * fd + i) vt) as [E|]; [unfold vt in E; zlia|].
    destruct (Z.eqb_spec (1024 * fd + i) vf) as [E|].
    { replace i with m by (unfold vf in E; lia). by rewrite Evf. }
    apply Hpa. unfold vf in *. lia.
  - intros u Hu Hu1 Hu2. rewrite Hmap' by done.
    destruct (Z.eqb_spec u vt); [unfold vt in *; lia|].
    destruct (Z.eqb_spec u vf); [unfold vf in *; lia|]. apply Hrest; [done|lia|lia].
  - intros p Hp. rewrite Hcnt', Hcount, refs_in_S by (done || lia). fold vf. rewrite <- Evf.
    rewrite (tables_in_ext td nd s s'); [lia|]. intros k Hk. apply Htab'. lia.
  - intros v e x Hv E Hl Hx. destruct (vmap_word s0 v e Hwf0 E) as [Hw _].
    pose proof (frame_range e Hw).
    destruct (copied_page_kept m nd s v e Hc ltac:(lia) Hv E Hl) as (Hnt & _).
    rewrite (Hdata' (frame e)); [by apply (Hdata v)|lia|lia|..]; intros Et; subst.
    + by apply (Hnt (vf / 1024) (page_dir vf Hvf)).
    + by apply (Hnt (vt / 1024) (page_dir vt (user_is_page vt Hvt))).
Qed.

(** ** One directory entry *)
Context (from nr : Z) (Hnr' : nr = 1024 \/ nr = 160 /\ n <= 1) (Hnr_total : total = nr * n).
Context (Hfrom_nr : (if from =? 0 then 0xA0%nat else 1024%nat) = Z.to_nat nr).

Lemma copy_dir_ok d s w : 0 <= d < n -> copied s0 fd td (nr * d) d s ->
  wp (copy_dir from (4 * (fd + d)) (4 * (td + d))) (fun r s' _ => match r with
    | Some e => e = -1 /\ no_free_page s' /\ copied s0 fd td (nr * d) d s'
    | None => copied s0 fd td (nr * (d + 1)) (d + 1) s' end) s w.
Proof using All.
  intros Hd Hc. assert (Hnr : 0 < nr <= 1024) by (destruct Hnr' as [->|[-> ?]]; lia).
  assert (Hnd : nr * d = 1024 * d) by (destruct Hnr' as [->|[-> ?]]; lia).
  assert (Htn : table s (td + d) = None).
  { rewrite (cp_table _ _ _ _ _ _ Hc) by lia. apply Hfresh. lia. }
  unfold copy_dir, load, store.
  pose proof (table_some s (td + d)) as Hto. rewrite Htn in Hto.
  pose proof (table_some s (fd + d)) as Hfrom.
  do 2 wp_step. rewrite (Z.land_comm 1). fold (present (mem s (4 * (td + d)))). rewrite Hto.
  do 2 wp_step. rewrite (Z.land_comm 1). fold (present (mem s (4 * (fd + d)))).
  destruct (table s (fd + d)) as [tf|] eqn:Etf.
  2: { rewrite Hfrom. simpl. eapply copied_skip; try done; [nia|nia|].
       intros i Hi. unfold vmap. assert (Hi' : 1024 * d <= i < 1024 * d + 1024) by lia.
       replace ((1024 * fd + i) / 1024) with (fd + d) by (clear -Hi'; zlia).
       by rewrite <- (cp_table _ _ _ _ _ _ Hc (fd + d)), Etf by lia. }
  destruct Hfrom as [-> Etf']. cbn [negb]. fold (frame (mem s (4 * (fd + d)))). rewrite <- Etf'.
  wp_step. destruct (get_free_page_cases s w) as [[E Hfree] | (i & E & Hi & H0 & _)];
    eapply wp_of_ret; [exact E| |exact E|].
  { by apply wp_ret. }
  rewrite truth_page by lia. cbn [negb]. do 2 wp_step.
  fold (set_mem (4 * (td + d)) (page_addr i .| 7) (take_page i s)).
  fold (new_table (td + d) i s).
  assert (Hc1 : copied s0 fd td (nr * d) (d + 1) (new_table (td + d) i s))
    by (apply copied_new_table; done || lia).
  wp_step. rewrite Hfrom_nr.
  eapply wp_mono; [apply (wp_for_seq (fun j s' _ =>
    copied s0 fd td (nr * d + Z.of_nat j) (d + 1) s' /\
    table s' (fd + d) = Some tf /\ table s' (td + d) = Some (page_addr i)))|].
  - rewrite Z.add_0_r. split; [done|]. rewrite !new_table_table; try (done || lia);
      try apply Hc. rewrite Z.eqb_refl. split; [|done].
    by destruct (Z.eqb_spec (fd + d) (td + d)); [lia|].
  - intros j s' w' Hj (Hc' & Htf & Htt). eapply wp_of_ret; [apply copy_pte_run|].
    assert (Hjm : (nr * d + Z.of_nat j) / 1024 = d /\ (nr * d + Z.of_nat j) mod 1024 = Z.of_nat j)
      by (rewrite Hnd; zlia).
    destruct Hjm as [Hj1 Hj2].
    destruct (copied_page (nr * d + Z.of_nat j) (d + 1) s' tf (page_addr i))
      as (Hc2 & Htab2); rewrite ?Hj1; try (done || nia). rewrite Hj2 in Hc2, Htab2.
    rewrite Nat2Z.inj_succ, <- Z.add_1_r, Z.add_assoc.
    split; [exact Hc2|]. rewrite !Htab2 by lia. done.
  - intros [] s' w' (Hc' & _). wp_step. rewrite Z2Nat.id in Hc' by lia.
    by replace (nr * (d + 1)) with (nr * d + nr) by lia.
Qed.
End copy_range.

(** * [copy_page_tables] *)

(** 4 MB, what one directory entry maps; and how many of its pages are copied: of the
    kernel's space (the first fork) 640 kB. *)
Definition DIR_SIZE : Z := 4194304.
Definition pages_per_dir (from : Z) : Z := if from =? 0 then 160 else 1024.
Definition dirs_of (size : Z) : Z := u32 (size + 0x3fffff) / DIR_SIZE.

(** What [copy_mem] asks for: two ranges of whole directory entries that do not meet,
    the target a user's and unused, the source a user's or the kernel's memory below
    1 MB; and no page so often mapped that its count overflows. *)
Record copy_ok (s : mm) (from to n : Z) : Prop := {
  co_size : 0 < n;
  co_from : 0 <= from /\ from mod DIR_SIZE = 0 /\ from + DIR_SIZE * n <= 4294967296;
  co_to : 16 * DIR_SIZE <= to /\ to mod DIR_SIZE = 0 /\ to + DIR_SIZE * n <= 4294967296;
  co_apart : from + DIR_SIZE * n <= to \/ to + DIR_SIZE * n <= from;
  co_unused : forall k, to / DIR_SIZE <= k < to / DIR_SIZE + n -> table s k = None;
  co_source : 16 * DIR_SIZE <= from \/
    from = 0 /\ n <= 1 /\ forall v e, 0 <= v < 160 -> vmap s v = Some e -> frame e < LOW_MEM;
  co_room : forall p, 0 <= p < PAGING_PAGES ->
    mem_map s p + refs_in (from / 4096) (pages_per_dir from * n) s p < 256;
}.

Lemma dir_entry a : 0 <= a < 4294967296 -> a mod DIR_SIZE = 0 ->
  (a .>> 20) .& 0xffc = 4 * (a / DIR_SIZE).
Proof. unfold DIR_SIZE. intros Ha Hm. rewrite dir_addr by done. zlia. Qed.
Lemma dir_mask a : 0 <= a -> truth (a .& 0x3fffff) = negb (a mod DIR_SIZE =? 0).
Proof.
  intros Ha. unfold truth, DIR_SIZE. change 0x3fffff with (Z.ones 22).
  by rewrite Z.land_ones by lia.
Qed.

Section copy_loop.
Context (s0 : mm) (from to n : Z) (Hwf0 : wf_mm s0) (Hok : copy_ok s0 from to n).
#[local] Abbreviation fd := (from / DIR_SIZE).
#[local] Abbreviation td := (to / DIR_SIZE).
#[local] Abbreviation nr := (pages_per_dir from).

Lemma pages_per_dir_le : 0 < nr <= 1024 /\ (nr = 1024 \/ nr = 160 /\ n <= 1).
Proof using Hok.
  destruct Hok as [? ? ? ? ? Hs ?]. unfold pages_per_dir, DIR_SIZE in *.
  destruct (Z.eqb_spec from 0); [|lia]. split; [lia|]. right. split; [done|]. lia.
Qed.

(** The hypotheses of the lemmas about ranges. *)
Lemma copy_ok_range : 0 < n /\ 0 <= nr * n <= 1024 * n /\ (0 <= fd /\ fd + n <= 1024) /\
  (16 <= td /\ td + n <= 1024) /\ (fd + n <= td \/ td + n <= fd) /\
  (forall i e, 0 <= i < nr * n -> vmap s0 (1024 * fd + i) = Some e -> LOW_MEM <= frame e ->
     16 <= fd) /\
  (forall p, 0 <= p < PAGING_PAGES -> mem_map s0 p + refs_in (1024 * fd) (nr * n) s0 p < 256).
Proof using Hok.
  destruct pages_per_dir_le as [Hnr _]. destruct Hok as [? Hf Ht Ha ? Hs Hr].
  assert (Hf4 : from / 4096 = 1024 * fd) by (unfold DIR_SIZE in *; zlia).
  rewrite Hf4 in Hr. unfold DIR_SIZE in *.
  split; [done|]. split; [nia|]. split; [zlia|]. split; [zlia|]. split; [zlia|].
  split; [|done]. intros i e Hi E Hl. destruct Hs as [Hs|(E0 & Hn1 & Hs)]; [zlia|].
  subst from. exfalso. unfold pages_per_dir in Hi. simpl in Hi, E.
  specialize (Hs i e ltac:(lia) E). lia.
Qed.


Lemma copy_loop_ok size w : n = dirs_of size ->
  wp (copy_page_tables from to size) (fun r s' _ =>
    r = 0 /\ copied s0 fd td (nr * n) n s' \/
    r = -1 /\ no_free_page s' /\ exists d, 0 <= d < n /\ copied s0 fd td (nr * d) d s') s0 w.
Proof using Hwf0 Hok.
  intros En. destruct copy_ok_range as (Hn0 & Htot & Hfd & Htd & Hdj & Hsrc & Hroom).
  pose proof Hok as [_ Hf Ht _ Hfresh _ _]. destruct pages_per_dir_le as [Hnr Hnr'].
  assert (Hn : 0 <= n) by lia.
  destruct Hf as (Hf0 & Hfm & Hf1), Ht as (Ht0 & Htm & Ht1).
  assert (Hb : 0 <= from < 4294967296 /\ 0 <= to < 4294967296) by (unfold DIR_SIZE in *; lia).
  unfold copy_page_tables. rewrite !dir_mask, Hfm, Htm by lia. cbn [Z.eqb negb orb].
  rewrite !dir_entry by (done || lia). rewrite shiftr_div by lia.
  change (u32 (size + 0x3fffff) / 2 ^ 22) with (dirs_of size). rewrite <- En.
  wp_step.
  eapply wp_mono; [apply (wp_for_ret_seq
    (fun d s' _ => copied s0 fd td (nr * Z.of_nat d) (Z.of_nat d) s')
    (fun e s' _ => e = -1 /\ no_free_page s' /\
       exists d, 0 <= d < n /\ copied s0 fd td (nr * d) d s'))|].
  - rewrite Z.mul_0_r. by apply (copied_start s0 fd td n (nr * n)).
  - intros d s' w' Hd Hc. rewrite <- !Z.mul_add_distr_l.
    eapply wp_mono; [apply (copy_dir_ok s0 fd td n (nr * n)) with (nr := nr); try (done || lia)|].
    + unfold pages_per_dir. by destruct (from =? 0).
    + intros [e|] s1 w1 H1.
      * destruct H1 as (? & ? & ?). split; [done|]. split; [done|]. exists (Z.of_nat d).
        split; [lia|done].
      * by rewrite Nat2Z.inj_succ, <- Z.add_1_r.
  - intros [e|] s1 w1 H1; [by apply wp_ret; right|]. unfold invalidate. do 2 wp_step.
    left. by rewrite Z2Nat.id in H1.
Qed.
End copy_loop.

(** * [free_page_tables] *)

(** A mapped page of main memory loses one from its count; [free_page] does not
    complain. *)
Lemma free_mapped s v e w : wf_mm s -> user_page v -> vmap s v = Some e ->
  exists s', free_page (frame e) s w = Ret tt s' w /\ mem s' = mem s /\
    HIGH_MEMORY s' = HIGH_MEMORY s /\ (forall p, 0 <= mem_map s' p < 256) /\
    forall p, 0 <= p < PAGING_PAGES -> mem_map s' p = mem_map s p - hit (Some e) p.
Proof.
  intros Hwf Hv E. rewrite free_page_run.
  destruct (Z.ltb_spec (frame e) LOW_MEM) as [Hl|Hl].
  { exists s. do 3 (split; [done|]). split; [apply (wf_count s Hwf)|].
    intros p Hp. rewrite hit_low by lia. lia. }
  destruct (wf_user s Hwf v e Hv E) as (_ & Hg).
  destruct (Hg Hl) as ((q & Hq & F & Hh) & _). pose proof (mapped_in_use s v e q Hwf Hv E Hq F).
  destruct (Z.leb_spec (HIGH_MEMORY s) (frame e)); [lia|].
  replace ((frame e - LOW_MEM) / 4096) with q by (rewrite F; unfold page_addr; zlia).
  cbv zeta. destruct (Z.eqb_spec (mem_map s q) 0); [lia|].
  pose proof (wf_count s Hwf q). rewrite u8_small by lia.
  eexists. split; [reflexivity|]. do 2 (split; [done|]). simpl mem_map. unfold upd. split.
  - intros p. pose proof (wf_count s Hwf p). destruct (p =? q); lia.
  - intros p Hp. destruct (Z.eqb_spec p q) as [-> | Hne]; [by rewrite (hit_page e q F)|].
    rewrite (hit_other e q p F Hne). lia.
Qed.

Lemma free_pte_ok s v t w : wf_mm s -> user_page v -> table s (v / 1024) = Some t ->
  let a := t + 4 * (v mod 1024) in
  wp (x ← load a ; when (truth (1 .& x)) (free_page (0xfffff000 .& x)) ;; store a 0)
    (fun _ s' _ => wf_mm s' /\ HIGH_MEMORY s' = HIGH_MEMORY s /\
       (forall k, 0 <= k < 1024 -> table s' k = table s k) /\
       (forall u, is_page u -> vmap s' u = if u =? v then None else vmap s u) /\
       (forall p, 0 <= p < PAGING_PAGES -> mem_map s' p = mem_map s p - hit (vmap s v) p)) s w.
Proof.
  intros Hwf Hv Ht a. pose proof (user_is_page v Hv) as Hv'.
  (* what is left to show once the page has been released *)
  assert (Hend : forall s1 w1, mem s1 = mem s -> HIGH_MEMORY s1 = HIGH_MEMORY s ->
    (forall p, 0 <= mem_map s1 p < 256) ->
    (forall p, 0 <= p < PAGING_PAGES -> mem_map s1 p = mem_map s p - hit (vmap s v) p) ->
    wp (store a 0) (fun _ s' _ => wf_mm s' /\ HIGH_MEMORY s' = HIGH_MEMORY s /\
       (forall k, 0 <= k < 1024 -> table s' k = table s k) /\
       (forall u, is_page u -> vmap s' u = if u =? v then None else vmap s u) /\
       (forall p, 0 <= p < PAGING_PAGES -> mem_map s' p = mem_map s p - hit (vmap s v) p)) s1 w1).
  { intros s1 w1 Em Eh Hb Hc. unfold store. wp_step. fold (set_mem a 0 s1).
    set (s' := set_mem a 0 s1).
    assert (Hm : forall x, mem s' x = mem (set_mem a 0 s) x) by (intros x; simpl; by rewrite Em).
    assert (Htab : forall k, 0 <= k < 1024 -> table s' k = table s k).
    { intros k Hk. rewrite (same_table (set_mem a 0 s)) by done. by apply set_entry_table. }
    assert (Hmap : forall u, is_page u -> vmap s' u = if u =? v then None else vmap s u).
    { intros u Hu. rewrite (same_vmap (set_mem a 0 s)) by done.
      by rewrite (set_entry_vmap s v t) by done. }
    split; [|done]. apply (wf_update s _ v None); try done.
    - intros x. rewrite Hm. by apply set_entry_words.
    - intros u Hu. by apply Hmap, user_is_page.
    - intros p Hp. simpl mem_map. rewrite Hc by done. lia.
    - intros p Hp. simpl mem_map. rewrite Hc by done. pose proof (wf_refs s Hwf p Hp). simpl. lia. }
  unfold load. do 2 wp_step. rewrite (Z.land_comm 1). fold (present (mem s a)).
  assert (E : vmap s v = if present (mem s a) then Some (mem s a) else None)
    by (unfold vmap; by rewrite Ht).
  destruct (present (mem s a)).
  - destruct (free_mapped s v (mem s a) w Hwf Hv E) as (s1 & Er & Em & Eh & Hb & Hc).
    wp_step. eapply wp_of_ret; [exact Er|]. apply Hend; try done. by rewrite E.
  - wp_step. apply wp_ret. apply Hend; try done; [apply (wf_count s Hwf)|].
    intros p Hp. rewrite E. simpl. lia.
Qed.

(** A table that maps nothing goes too. *)
Lemma free_table_ok s k t w : wf_mm s -> 16 <= k < 1024 -> table s k = Some t ->
  (forall u, u / 1024 = k -> vmap s u = None) ->
  wp (x ← load (4 * k) ; free_page (0xfffff000 .& x) ;; store (4 * k) 0)
    (fun _ s' _ => wf_mm s' /\ HIGH_MEMORY s' = HIGH_MEMORY s /\
       (forall k', 0 <= k' < 1024 -> table s' k' = if k' =? k then None else table s k') /\
       (forall u, is_page u -> vmap s' u = vmap s u) /\
       (forall p, 0 <= p < PAGING_PAGES -> mem_map s' p = mem_map s p - table_hit (Some t) p)) s w.
Proof.
  intros Hwf Hk Ht Hempty. pose proof (table_some s k) as Hts. rewrite Ht in Hts.
  destruct Hts as [Hp Et].
  destruct (wf_table s Hwf k t ltac:(lia) Ht) as (_ & Hl & Hm). specialize (Hl ltac:(lia)).
  destruct (Hm Hl) as (i & (Hi & Ei & Hh) & Hused). clear Hm. subst t. rewrite Ei in *.
  unfold load, store. do 3 wp_step. fold (frame (mem s (4 * k))). rewrite Ei.
  eapply wp_of_ret.
  { rewrite free_page_run. rewrite (proj2 (Z.ltb_ge _ _)), (proj2 (Z.leb_gt _ _)) by lia.
    replace ((page_addr i - LOW_MEM) / 4096) with i by (unfold page_addr; zlia). cbv zeta.
    by rewrite (proj2 (Z.eqb_neq _ _)) by done. }
  wp_step. set (s' := update_field mem _ _).
  assert (Htab : forall k', 0 <= k' < 1024 -> table s' k' = if k' =? k then None else table s k').
  { intros k' Hk'. unfold table. simpl. unfold upd.
    destruct (Z.eqb_spec (4 * k') (4 * k)), (Z.eqb_spec k' k); try (done || lia). }
  assert (Hmap : forall u, is_page u -> vmap s' u = vmap s u).
  { intros u Hu. destruct (decide (u / 1024 = k)) as [Eu|Eu].
    - rewrite Hempty by done. unfold vmap. rewrite Htab by by apply page_dir.
      by rewrite Eu, Z.eqb_refl.
    - unfold vmap. rewrite Htab by by apply page_dir. destruct (Z.eqb_spec (u / 1024) k); [done|].
      destruct (table s (u / 1024)) as [t'|] eqn:E; [|done]. simpl. unfold upd.
      destruct (wf_table s Hwf _ _ (page_dir u Hu) E) as (? & _).
      destruct (Z.eqb_spec (t' + 4 * (u mod 1024)) (4 * k)); [zlia|done]. }
  pose proof (wf_count s Hwf i).
  assert (Hcnt : forall p, mem_map s' p = if p =? i then mem_map s i - 1 else mem_map s p).
  { intros p. simpl. unfold upd. by rewrite u8_small by lia. }
  split; [|split; [done|split; [done|split; [done|]]]].
  - apply (wf_drop_table s s' k i); try done.
    + intros x. simpl. unfold upd. destruct (x =? 4 * k); [done|apply (wf_word s Hwf)].
    + intros u Hu. by apply Hmap, user_is_page.
  - intros p Hpp. rewrite Hcnt. simpl. destruct (Z.eqb_spec p i) as [-> | Hne].
    + rewrite Z.eqb_refl. lia.
    + destruct (Z.eqb_spec (page_addr i) (page_addr p)) as [E|]; [|lia].
      by apply page_addr_inj in E.
Qed.

(** ** The loops: [m] pages and [nd] tables from directory entry [fd] on are gone. *)
Record released (s0 : mm) (fd m nd : Z) (s : mm) : Prop := {
  rl_wf : wf_mm s;
  rl_high : HIGH_MEMORY s = HIGH_MEMORY s0;
  rl_table : forall k, 0 <= k < 1024 ->
    table s k = if (fd <=? k) && (k <? fd + nd) then None else table s0 k;
  rl_map : forall u, is_page u ->
    vmap s u = if (1024 * fd <=? u) && (u <? 1024 * fd + m) then None else vmap s0 u;
  (** the counts fall by exactly the references that are dropped *)
  rl_count : forall p, 0 <= p < PAGING_PAGES ->
    mem_map s p = mem_map s0 p - refs_in (1024 * fd) m s0 p - tables_in fd nd s0 p;
}.

Section release.
Context (s0 : mm) (fd n : Z).
Context (Hwf0 : wf_mm s0) (Hn : 0 <= n) (Hfd : 16 <= fd /\ fd + n <= 1024).

Lemma released_start : released s0 fd 0 0 s0.
Proof using Hwf0.
  split; try done.
  - intros k _. by destruct (Z.leb_spec fd k), (Z.ltb_spec k (fd + 0)); simpl; [lia|..].
  - intros u _. by destruct (Z.leb_spec (1024 * fd) u), (Z.ltb_spec u (1024 * fd + 0)); simpl; [lia|..].
  - intros p _. unfold refs_in, tables_in. rewrite !seqZ_nil by lia. simpl. lia.
Qed.

Lemma released_next m nd s i : released s0 fd m nd s -> m <= i ->
  is_page (1024 * fd + i) -> vmap s (1024 * fd + i) = vmap s0 (1024 * fd + i).
Proof using.
  intros Hr Hi Hp. rewrite (rl_map _ _ _ _ _ Hr) by done.
  destruct (Z.ltb_spec (1024 * fd + i) (1024 * fd + m)); [lia|]. by rewrite andb_false_r.
Qed.

Lemma released_page m d s s' : released s0 fd m d s -> 0 <= m < 1024 * n -> wf_mm s' ->
  HIGH_MEMORY s' = HIGH_MEMORY s -> (forall k, 0 <= k < 1024 -> table s' k = table s k) ->
  (forall u, is_page u -> vmap s' u = if u =? 1024 * fd + m then None else vmap s u) ->
  (forall p, 0 <= p < PAGING_PAGES ->
     mem_map s' p = mem_map s p - hit (vmap s (1024 * fd + m)) p) ->
  released s0 fd (m + 1) d s'.
Proof using All.
  intros Hr Hm Hwf Hh Htab Hmap Hcnt. split.
  - done.
  - by rewrite Hh, (rl_high _ _ _ _ _ Hr).
  - intros k Hk. rewrite Htab by done. by apply (rl_table _ _ _ _ _ Hr).
  - intros u Hu. rewrite Hmap, (rl_map _ _ _ _ _ Hr) by done.
    destruct (Z.eqb_spec u (1024 * fd + m)), (Z.leb_spec (1024 * fd) u),
      (Z.ltb_spec u (1024 * fd + m)), (Z.ltb_spec u (1024 * fd + (m + 1)));
      simpl; done || lia.
  - intros p Hp. rewrite Hcnt, (rl_count _ _ _ _ _ Hr), refs_in_S by (done || lia).
    rewrite (released_next m d s m Hr) by (unfold is_page; lia). lia.
Qed.

Lemma released_skip d s : released s0 fd (1024 * d) d s -> 0 <= d < n ->
  table s (fd + d) = None -> released s0 fd (1024 * (d + 1)) (d + 1) s.
Proof using All.
  intros Hr Hd Hnone.
  assert (Hnone0 : table s0 (fd + d) = None).
  { rewrite (rl_table _ _ _ _ _ Hr) in Hnone by lia.
    destruct (Z.ltb_spec (fd + d) (fd + d)); [lia|]. by rewrite andb_false_r in Hnone. }
  assert (Hempty : forall u, 1024 * (fd + d) <= u < 1024 * (fd + d) + 1024 -> vmap s0 u = None).
  { intros u Hu. unfold vmap. by replace (u / 1024) with (fd + d) by zlia; rewrite Hnone0. }
  split.
  - apply (rl_wf _ _ _ _ _ Hr).
  - apply (rl_high _ _ _ _ _ Hr).
  - intros k Hk. rewrite (rl_table _ _ _ _ _ Hr) by done.
    destruct (Z.leb_spec fd k), (Z.ltb_spec k (fd + d)), (Z.ltb_spec k (fd + (d + 1)));
      simpl; try (done || lia). by replace k with (fd + d) by lia.
  - intros u Hu. rewrite (rl_map _ _ _ _ _ Hr) by done.
    destruct (Z.leb_spec (1024 * fd) u), (Z.ltb_spec u (1024 * fd + 1024 * d)),
      (Z.ltb_spec u (1024 * fd + 1024 * (d + 1))); simpl; try (done || lia).
    apply Hempty. lia.
  - intros p Hp. rewrite (rl_count _ _ _ _ _ Hr), tables_in_S, Hnone0 by (done || lia).
    rewrite Z.mul_add_distr_l, refs_in_add by lia.
    rewrite (refs_in_none (1024 * fd + 1024 * d)); [simpl; lia|]. intros u Hu. apply Hempty. lia.
Qed.

Lemma release_dir_ok d s w : 0 <= d < n -> released s0 fd (1024 * d) d s ->
  wp (let k := 4 * (fd + d) in
      v ← load k ;
      when (truth (1 .& v))
        (free_page_table (0xfffff000 .& v) ;;
         v ← load k ; free_page (0xfffff000 .& v) ;; store k 0))
    (fun _ s' _ => released s0 fd (1024 * (d + 1)) (d + 1) s') s w.
Proof using All.
  intros Hd Hr. cbv zeta. pose proof (table_some s (fd + d)) as Ht.
  unfold load. do 2 wp_step. rewrite (Z.land_comm 1). fold (present (mem s (4 * (fd + d)))).
  destruct (table s (fd + d)) as [t|] eqn:Et.
  2: { rewrite Ht. apply wp_ret. by apply released_skip. }
  destruct Ht as [-> Ht]. fold (frame (mem s (4 * (fd + d)))). rewrite <- Ht. unfold when. wp_step.
  eapply wp_mono; [apply (wp_for_seq (fun j s' _ =>
    released s0 fd (1024 * d + Z.of_nat j) d s' /\ table s' (fd + d) = Some t))|].
  - by rewrite Z.add_0_r.
  - intros j s1 w1 Hj (Hr1 & Ht1). set (v := 1024 * fd + (1024 * d + Z.of_nat j)).
    assert (Hv : user_page v) by (unfold v, user_page; lia).
    assert (Hvd : v / 1024 = fd + d /\ v mod 1024 = Z.of_nat j) by (unfold v; zlia).
    destruct Hvd as [Hvd Hvm]. rewrite <- Hvd in Ht1.
    pose proof (free_pte_ok s1 v t w1 (rl_wf _ _ _ _ _ Hr1) Hv Ht1) as Hok. cbv zeta in Hok.
    rewrite Hvm in Hok. eapply wp_mono; [exact Hok|].
    intros [] s2 w2 (Hwf2 & Hh2 & Htab2 & Hmap2 & Hcnt2).
    rewrite Nat2Z.inj_succ, <- Z.add_1_r, Z.add_assoc. split.
    + apply (released_page _ _ s1); try done. lia.
    + rewrite Htab2 by lia. by rewrite <- Hvd.
  - intros [] s1 w1 (Hr1 & Ht1). replace (1024 * d + Z.of_nat 1024) with (1024 * (d + 1)) in Hr1 by lia.
    eapply wp_mono; [apply (free_table_ok s1 (fd + d) t)|].
    + apply Hr1.
    + lia.
    + done.
    + intros u Hu. rewrite (rl_map _ _ _ _ _ Hr1) by (unfold is_page; zlia).
      destruct (Z.leb_spec (1024 * fd) u), (Z.ltb_spec u (1024 * fd + 1024 * (d + 1)));
        simpl; done || zlia.
    + intros [] s2 w2 (Hwf2 & Hh2 & Htab2 & Hmap2 & Hcnt2).
      pose proof Hr1 as [_ Hh1 Htab1 Hmap1 Hcnt1].
      assert (Et0 : table s0 (fd + d) = Some t).
      { rewrite Htab1 in Ht1 by lia. destruct (Z.ltb_spec (fd + d) (fd + d)); [lia|].
        by rewrite andb_false_r in Ht1. }
      split; [done|by rewrite Hh2|..].
      * intros k Hk. rewrite Htab2, Htab1 by done.
        destruct (Z.eqb_spec k (fd + d)), (Z.leb_spec fd k), (Z.ltb_spec k (fd + d)),
          (Z.ltb_spec k (fd + (d + 1))); simpl; done || lia.
      * intros u Hu. rewrite Hmap2 by done. by apply Hmap1.
      * intros p Hp. rewrite Hcnt2, Hcnt1, tables_in_S, Et0 by (done || lia). lia.
Qed.

Lemma release_loop_ok from size w : n = dirs_of size -> 0 <= from < 4294967296 ->
  from mod DIR_SIZE = 0 -> fd = from / DIR_SIZE ->
  wp (free_page_tables from size) (fun r s' _ => r = 0 /\ released s0 fd (1024 * n) n s') s0 w.
Proof using All.
  intros En Hf Hfm Efd. unfold free_page_tables. rewrite dir_mask, Hfm by lia. cbn [Z.eqb negb].
  destruct (Z.eqb_spec from 0) as [-> | ]; [exfalso; rewrite Efd in Hfd; change (0 / DIR_SIZE) with 0 in Hfd; lia|].
  rewrite dir_entry, shiftr_div by (done || lia). rewrite <- Efd.
  change (u32 (size + 0x3fffff) / 2 ^ 22) with (dirs_of size). rewrite <- En. wp_step.
  eapply wp_mono; [apply (wp_for_seq (fun d s' _ =>
    released s0 fd (1024 * Z.of_nat d) (Z.of_nat d) s'))|].
  - apply released_start.
  - intros d s' w' Hd Hr. rewrite <- Z.mul_add_distr_l, Nat2Z.inj_succ, <- Z.add_1_r.
    apply release_dir_ok; [lia|done].
  - intros [] s1 w1 H1. unfold invalidate. do 3 wp_step. by rewrite Z2Nat.id in H1.
Qed.
End release.

(** * The two routines *)

Lemma copied_translate s0 fd td m n nd s va : wf_mm s0 -> copied s0 fd td m nd s ->
  m <= 1024 * n -> is_va va -> ~ (DIR_SIZE * td <= va < DIR_SIZE * td + DIR_SIZE * n) ->
  translate s va = translate s0 va.
Proof.
  intros Hwf0 Hc Hm Hva Hout. unfold translate. pose proof (va_page va Hva) as Hv.
  unfold DIR_SIZE in Hout.
  assert (Hu : ~ (1024 * td <= va / 4096 < 1024 * td + m)) by zlia.
  destruct (decide (1024 * fd <= va / 4096 < 1024 * fd + m)) as [Hr|Hr].
  - pose proof (cp_parent _ _ _ _ _ _ Hc (va / 4096 - 1024 * fd) ltac:(lia)) as H.
    replace (1024 * fd + (va / 4096 - 1024 * fd)) with (va / 4096) in H by lia.
    rewrite H. destruct (vmap s0 (va / 4096)) as [e|] eqn:E; [|done]. simpl.
    by rewrite protect_frame by (apply (vmap_word s0 _ e Hwf0 E)).
  - by rewrite (cp_rest _ _ _ _ _ _ Hc).
Qed.

(** C5. [copy_page_tables] from one space to an unused one, as a fork calls it.  It
    always returns.  With 0, every address of the new range translates to where the
    old one's does, no page of main memory in either range can be written to, so that
    both get a copy on the first write, and the count of each page has grown by
    exactly the number of times it is now mapped more, or a new page table.  With -1,
    no page was free for a table.  In both cases every address outside the new range
    translates as before, no user's page has changed its contents, and the invariant
    of all address spaces is kept. *)
Theorem copy_page_tables_shares s w from to size :
  wf_mm s -> copy_ok s from to (dirs_of size) ->
  let n := dirs_of size in
  let pages := pages_per_dir from * n in
  exists r s' w', copy_page_tables from to size s w = Ret r s' w' /\ wf_mm s' /\
    (forall va, is_va va -> ~ (to <= va < to + DIR_SIZE * n) ->
       translate s' va = translate s va) /\
    (forall v e x, user_page v -> vmap s v = Some e -> LOW_MEM <= frame e -> 0 <= x < 4096 ->
       mem s' (frame e + x) = mem s (frame e + x)) /\
    (r <> 0 -> r = -1 /\ no_free_page s') /\
    (r = 0 ->
       (forall x, 0 <= x < 4096 * pages -> translate s' (to + x) = translate s (from + x)) /\
       (forall i e, 0 <= i < pages -> LOW_MEM <= frame e ->
          vmap s' (to / 4096 + i) = Some e \/ vmap s' (from / 4096 + i) = Some e ->
          writable e = false) /\
       (forall p, 0 <= p < PAGING_PAGES -> mem_map s' p =
          mem_map s p + refs_in (from / 4096) pages s p + tables_in (to / DIR_SIZE) n s' p)).
Proof.
  intros Hwf Hok n pages.
  pose proof (copy_loop_ok s from to n Hwf Hok size w eq_refl) as Hwp.
  destruct (copy_ok_range s from to n Hok) as (Hn & Htot & Hfd & Htd & _).
  pose proof Hok as [_ (Hf0 & Hfm & Hf1) (Ht0 & Htm & Ht1) _ _ _ _].
  assert (Ef : from = DIR_SIZE * (from / DIR_SIZE)) by (unfold DIR_SIZE in *; zlia).
  assert (Et : to = DIR_SIZE * (to / DIR_SIZE)) by (unfold DIR_SIZE in *; zlia).
  assert (Ef4 : from / 4096 = 1024 * (from / DIR_SIZE)) by (unfold DIR_SIZE in *; zlia).
  assert (Et4 : to / 4096 = 1024 * (to / DIR_SIZE)) by (unfold DIR_SIZE in *; zlia).
  apply wp_inv in Hwp as (r & s' & w' & E & H). exists r, s', w'. split; [done|].
  assert (Hc : exists m nd, copied s (from / DIR_SIZE) (to / DIR_SIZE) m nd s' /\ m <= 1024 * n).
  { destruct H as [(_ & Hc)|(_ & _ & d & Hd & Hc)]; do 2 eexists; (split; [exact Hc|]); [lia|].
    destruct (pages_per_dir_le s from to n Hok). nia. }
  destruct Hc as (m & nd & Hc & Hm). split; [apply Hc|].
  split.
  { intros va Hva Hout. apply (copied_translate s (from / DIR_SIZE) (to / DIR_SIZE) m n nd); try done.
    by rewrite <- Et. }
  split; [exact (cp_data _ _ _ _ _ _ Hc)|].
  destruct H as [(-> & Hc')|(-> & Hfree & _)]; [|done].
  split; [done|]. intros _. clear Hc m nd Hm. split; [|split].
  - intros x Hx. unfold translate.
    replace ((to + x) / 4096) with (1024 * (to / DIR_SIZE) + x / 4096) by (rewrite <- Et4; unfold DIR_SIZE in *; zlia).
    replace ((from + x) / 4096) with (1024 * (from / DIR_SIZE) + x / 4096)
      by (rewrite <- Ef4; unfold DIR_SIZE in *; zlia).
    rewrite (cp_child _ _ _ _ _ _ Hc') by (unfold pages in Hx; zlia).
    destruct (vmap s _) as [e|] eqn:Ev; [|done]. simpl.
    destruct (read_only_entry e) as (-> & _); [apply (vmap_word s _ e Hwf Ev)|].
    do 2 f_equal. unfold DIR_SIZE in *. zlia.
  - intros i e Hi Hl. rewrite Ef4, Et4, (cp_child _ _ _ _ _ _ Hc'), (cp_parent _ _ _ _ _ _ Hc') by done.
    destruct (vmap s _) as [e0|] eqn:Ev; [|by intros []].
    destruct (vmap_word s _ e0 Hwf Ev) as [Hw _].
    destruct (read_only_entry e0 Hw) as (_ & _ & Hro & _).
    intros [[= <-]|[= <-]]; [done|]. rewrite protect_frame in Hl by done. unfold protect.
    by destruct (Z.leb_spec LOW_MEM (frame e0)); [|lia].
  - intros p Hp. rewrite Ef4. by apply (cp_count _ _ _ _ _ _ Hc').
Qed.

(** C8. [free_page_tables] on whole directory entries of users: it always returns 0
    and never complains about a page; nothing is mapped in the range any more and its
    page tables are gone, every other page is mapped as before, each page's count has
    fallen by exactly the references that were dropped, and the invariant of all
    address spaces is kept. *)
Theorem free_page_tables_releases s w from size :
  wf_mm s -> let n := dirs_of size in
  from mod DIR_SIZE = 0 -> 16 * DIR_SIZE <= from -> from < 4294967296 ->
  from + DIR_SIZE * n <= 4294967296 ->
  exists s' w', free_page_tables from size s w = Ret 0 s' w' /\ wf_mm s' /\
    (forall va, is_va va -> translate s' va =
       if (from <=? va) && (va <? from + DIR_SIZE * n) then None else translate s va) /\
    (forall u, is_page u -> vmap s' u =
       if (from / 4096 <=? u) && (u <? from / 4096 + 1024 * n) then None else vmap s u) /\
    (forall k, 0 <= k < 1024 -> table s' k =
       if (from / DIR_SIZE <=? k) && (k <? from / DIR_SIZE + n) then None else table s k) /\
    (forall p, 0 <= p < PAGING_PAGES -> mem_map s' p =
       mem_map s p - refs_in (from / 4096) (1024 * n) s p - tables_in (from / DIR_SIZE) n s p).
Proof.
  intros Hwf n Hm Hf Hlt Hto.
  assert (Hn : 0 <= n) by (unfold n, dirs_of, u32, DIR_SIZE; zlia).
  assert (E4 : from / 4096 = 1024 * (from / DIR_SIZE)) by (unfold DIR_SIZE in *; zlia).
  assert (Hr : 16 <= from / DIR_SIZE /\ from / DIR_SIZE + n <= 1024) by (unfold DIR_SIZE in *; zlia).
  pose proof (release_loop_ok s (from / DIR_SIZE) n Hwf Hn Hr from size w eq_refl) as Hwp.
  apply wp_inv in Hwp as (r & s' & w' & E & -> & [Hwf' Hh Ht Hv Hc]); [| |done|done].
  2: { unfold DIR_SIZE in Hf. lia. }
  exists s', w'. split; [done|]. split; [done|]. rewrite E4. split; [|done].
  intros va Hva. unfold translate. rewrite Hv by by apply va_page.
  unfold DIR_SIZE in *.
  destruct (Z.leb_spec (1024 * (from / 4194304)) (va / 4096)), (Z.leb_spec from va),
    (Z.ltb_spec (va / 4096) (1024 * (from / 4194304) + 1024 * n)),
    (Z.ltb_spec va (from + 4194304 * n)); simpl; try done; zlia.
Qed.

(** C9. A fork whose child gives its space up again, with no write in between, loses
    and keeps no page: after [copy_page_tables] that succeeded and [free_page_tables]
    of the new range, every count and every translation is what it was before. *)
Theorem copy_then_free s w from to size :
  wf_mm s -> copy_ok s from to (dirs_of size) ->
  exists r s1 w1, copy_page_tables from to size s w = Ret r s1 w1 /\
    (r = 0 -> exists s2 w2, free_page_tables to size s1 w1 = Ret 0 s2 w2 /\ wf_mm s2 /\
       (forall p, 0 <= p < PAGING_PAGES -> mem_map s2 p = mem_map s p) /\
       (forall va, is_va va -> translate s2 va = translate s va)).
Proof.
  intros Hwf Hok. set (n := dirs_of size) in *.
  pose proof (copy_loop_ok s from to n Hwf Hok size w eq_refl) as Hwp.
  destruct (copy_ok_range s from to n Hok) as (Hn & Htot & Hfd & Htd & _).
  pose proof Hok as [_ (Hf0 & Hfm & Hf1) (Ht0 & Htm & Ht1) _ Hunused _ _].
  apply wp_inv in Hwp as (r & s1 & w1 & E & H). exists r, s1, w1. split; [done|]. intros ->.
  destruct H as [(_ & Hc)|(? & _)]; [|done].
  set (fd := from / DIR_SIZE) in *. set (td := to / DIR_SIZE) in *.
  assert (Et : to = DIR_SIZE * td) by (unfold td, DIR_SIZE in *; zlia).
  pose proof (release_loop_ok s1 td n (cp_wf _ _ _ _ _ _ Hc) ltac:(lia) Htd to size w1 eq_refl) as Hwp.
  apply wp_inv in Hwp as (r & s2 & w2 & E2 & -> & Hr); [|unfold DIR_SIZE in *; lia|done|done].
  exists s2, w2. split; [done|]. split; [apply Hr|].
  assert (Hold : forall i, 0 <= i < 1024 * n -> vmap s (1024 * td + i) = None).
  { intros i Hi. unfold vmap. by rewrite Hunused by zlia. }
  split.
  - intros p Hp. rewrite (rl_count _ _ _ _ _ Hr), (cp_count _ _ _ _ _ _ Hc) by done.
    set (m := pages_per_dir from * n) in *.
    replace (1024 * n) with (m + (1024 * n - m)) by lia. rewrite refs_in_add by lia.
    rewrite (refs_in_none (1024 * td + m)).
    + rewrite (refs_in_shift (1024 * fd) (1024 * td) m s s1); [lia|]. intros i Hi.
      rewrite (cp_child _ _ _ _ _ _ Hc) by done. destruct (vmap s _) as [e|] eqn:Ev; [|done].
      apply hit_frame. apply read_only_entry. apply (vmap_word s _ e Hwf Ev).
    + intros u Hu. rewrite (cp_rest _ _ _ _ _ _ Hc); [|unfold is_page; lia|lia|].
      * replace u with (1024 * td + (u - 1024 * td)) by lia. apply Hold. lia.
      * destruct (co_apart _ _ _ _ Hok); unfold fd, td, DIR_SIZE in *; zlia.
  - intros va Hva. unfold translate. pose proof (va_page va Hva) as Hv.
    rewrite (rl_map _ _ _ _ _ Hr) by done.
    destruct (decide (1024 * td <= va / 4096 < 1024 * td + 1024 * n)) as [Hin|Hout].
    + destruct (Z.leb_spec (1024 * td) (va / 4096)), (Z.ltb_spec (va / 4096) (1024 * td + 1024 * n));
        simpl; try lia.
      replace (va / 4096) with (1024 * td + (va / 4096 - 1024 * td)) by lia.
      by rewrite Hold by lia.
    + pose proof (copied_translate s fd td _ n n s1 va Hwf Hc ltac:(lia) Hva) as Htr.
      unfold translate in Htr. rewrite <- Htr by (unfold DIR_SIZE; zlia).
      by destruct (Z.leb_spec (1024 * td) (va / 4096)),
        (Z.ltb_spec (va / 4096) (1024 * td + 1024 * n)); simpl; try lia.
Qed.

(** * The theorems apply

    The task of [sample_mm] forks into slot 2, at 128 MB. *)
Lemma sample_refs_in v n p : 0 <= v -> v + n <= 1048576 -> refs_in v n sample_mm p <= 1.
Proof.
  intros Hv Hn. unfold refs_in.
  assert (Hz : forall u, v <= u < v + n -> u <> 16384 -> vmap sample_mm u = None).
  { intros u Hu Hne. rewrite sample_vmap by (unfold is_page; lia). by destruct (Z.eqb_spec u 16384). }
  destruct (decide (v <= 16384 < v + n)) as [Hin|Hout].
  - rewrite (sum_change (fun _ => 0) _ _ 16384).
    + rewrite (sum_zero (fun _ => 0)) by done. pose proof (hit_range (vmap sample_mm 16384) p). lia.
    + apply NoDup_seqZ.
    + by apply elem_of_seqZ.
    + intros u Hu%elem_of_seqZ Hne. by rewrite Hz.
  - rewrite sum_zero; [lia|]. intros u Hu%elem_of_seqZ. rewrite Hz by (done || lia). done.
Qed.
Lemma sample_copy_ok : copy_ok sample_mm 0x4000000 0x8000000 (dirs_of 4096).
Proof.
  change (dirs_of 4096) with 1. split.
  - lia.
  - unfold DIR_SIZE. split; [lia|]. split; [done|lia].
  - unfold DIR_SIZE. split; [lia|]. split; [done|lia].
  - unfold DIR_SIZE. lia.
  - intros k Hk. change (0x8000000 / DIR_SIZE) with 32 in Hk. rewrite sample_table by lia.
    by destruct (Z.eqb_spec k 16); [lia|].
  - left. unfold DIR_SIZE. lia.
  - intros p Hp. change (0x4000000 / 4096) with 16384. change (pages_per_dir 0x4000000 * 1) with 1024.
    pose proof (sample_refs_in 16384 1024 p ltac:(lia) ltac:(lia)).
    assert (mem_map sample_mm p <= 2).
    { simpl. destruct (p =? 100); [lia|]. destruct (p =? 200); [lia|]. destruct (p =? 300); lia. }
    lia.
Qed.

Lemma copy_page_tables_shares_witness :
  copy_ok sample_mm 0x4000000 0x8000000 (dirs_of 4096) /\
  exists r s' w', copy_page_tables 0x4000000 0x8000000 4096 sample_mm (World [] []) = Ret r s' w' /\
    wf_mm s' /\ (r = 0 -> translate s' 0x8000123 = Some (page_addr 200 + 0x123)).
Proof.
  split; [exact sample_copy_ok|].
  destruct (copy_page_tables_shares sample_mm (World [] []) 0x4000000 0x8000000 4096
    sample_mm_wf sample_copy_ok) as (r & s' & w' & E & Hwf & _ & _ & _ & H).
  exists r, s', w'. split; [exact E|]. split; [exact Hwf|]. intros Hr.
  destruct (H Hr) as (Ht & _). change 0x8000123 with (0x8000000 + 0x123). rewrite Ht.
  - reflexivity.
  - change (pages_per_dir 0x4000000 * dirs_of 4096) with 1024. lia.
Defined.

Lemma free_page_tables_releases_witness :
  wf_mm sample_mm /\ exists s' w', free_page_tables 0x4000000 4096 sample_mm (World [] []) = Ret 0 s' w' /\
    translate sample_mm 0x4000123 = Some (page_addr 200 + 0x123) /\ translate s' 0x4000123 = None.
Proof.
  split; [exact sample_mm_wf|].
  destruct (free_page_tables_releases sample_mm (World [] []) 0x4000000 4096 sample_mm_wf)
    as (s' & w' & E & _ & Ht & _); [reflexivity|unfold DIR_SIZE; lia|lia| |].
  - change (dirs_of 4096) with 1. unfold DIR_SIZE. lia.
  - exists s', w'. split; [exact E|]. split; [vm_compute; reflexivity|].
    rewrite Ht by (unfold is_va; lia). change (dirs_of 4096) with 1. reflexivity.
Defined.

Lemma copy_then_free_witness :
  copy_ok sample_mm 0x4000000 0x8000000 (dirs_of 4096) /\
  exists r s1 w1, copy_page_tables 0x4000000 0x8000000 4096 sample_mm (World [] []) = Ret r s1 w1 /\
    (r = 0 -> exists s2 w2, free_page_tables 0x8000000 4096 s1 w1 = Ret 0 s2 w2 /\
       mem_map s2 200 = 2).
Proof.
  split; [exact sample_copy_ok|].
  destruct (copy_then_free sample_mm (World [] []) 0x4000000 0x8000000 4096
    sample_mm_wf sample_copy_ok) as (r & s1 & w1 & E & H).
  exists r, s1, w1. split; [exact E|]. intros Hr.
  destruct (H Hr) as (s2 & w2 & E2 & _ & Hc & _). exists s2, w2. split; [exact E2|].
  rewrite Hc; [reflexivity|]. unfold PAGING_PAGES. lia.
Defined.
