(* ===== verification/Malloc.v ===== *)
(** The kernel's general memory allocator, lib/malloc.c: the definitions.

    The bucket descriptors and the free lists live in pages of main memory, as in the
    source: a descriptor at [d] has its page at [d], the next descriptor at [d + 4], the
    first free object at [d + 8] and, in the word at [d + 12], the count of objects in
    use (low half) and their size (high half); a free object holds the address of the
    next one.  Pages come from mm/memory.c ([Mm.get_free_page], [Mm.free_page]).

    A walk along a chain of descriptors has one round of fuel per descriptor that main
    memory can hold. *)
From S2P Require Import Prelude Sched Mm.

(** lib/malloc.c:61-93 [bucket_dir]: the chains of the nine sizes, the list of free
    descriptors, and the memory they are in *)
Record kmem : Type := Kmem {
  pages : mm;
  chain : nat -> Z;
  free_bucket_desc : Z;
}.
#[global] Instance eta_kmem : Eta kmem := fun s => Kmem (pages s) (chain s) (free_bucket_desc s).

(** lib/malloc.c:78-88 [bucket_dir]: the sizes; the last one ends the list *)
Definition bucket_sizes : list Z := [16; 32; 64; 128; 256; 512; 1024; 2048; 4096].
Definition size_of (i : nat) : Z := nth i bucket_sizes 0.

Definition kload (a : Z) : M kmem Z := gets (fun s => mem (pages s) a).
Definition kstore (a v : Z) : M kmem unit :=
  modify (fun s => s <| pages ::= fun m => m <| mem ::= upd a v |> |>).
Definition on_pages {A} (m : M mm A) : M kmem A :=
  liftM pages (fun m s => s <| pages := m |>) m.

(** lib/malloc.c:52-58 [bucket_desc]: the fields *)
Definition page_field (d : Z) : Z := d.
Definition next_field (d : Z) : Z := d + 4.
Definition freeptr_field (d : Z) : Z := d + 8.
Definition counts_field (d : Z) : Z := d + 12.
Definition refcnt_of (v : Z) : Z := v mod 65536.
Definition set_refcnt (d v : Z) : M kmem unit :=
  old ← kload (counts_field d) ;
  kstore (counts_field d) (u16 v + 65536 * (old / 65536)).
Definition set_bucket_size (d v : Z) : M kmem unit :=
  old ← kload (counts_field d) ;
  kstore (counts_field d) (refcnt_of old + 65536 * u16 v).

(** lib/malloc.c:98-116 [init_bucket_desc] *)
Definition init_bucket_desc : M kmem unit :=
  first ← on_pages get_free_page ;
  if first =? 0 then panic "Out of memory in init_bucket_desc()" else
  for_each (seq 0 255) (fun i =>
    let bdesc := first + 16 * Z.of_nat i in kstore (next_field bdesc) (bdesc + 16)) ;;
  f ← gets free_bucket_desc ;
  kstore (next_field (first + 16 * 255)) f ;;
  modify (fun s => s <| free_bucket_desc := first |>).

(** lib/malloc.c:128-130 [malloc]: the first of [n] sizes from [i] on that is large
    enough *)
Fixpoint find_dir (n i : nat) (len : Z) : option nat :=
  match n with
  | O => None
  | S n' => if len <=? size_of i then Some i else find_dir n' (S i) len
  end.

Definition DESC_FUEL : nat := Z.to_nat (PAGING_PAGES * 256 + 1).

(** lib/malloc.c:140-142 [malloc]: a descriptor with a free object, or null *)
Fixpoint find_space (fuel : nat) (m : Z -> Z) (d : Z) : option Z :=
  match fuel with
  | O => None
  | S n =>
      if d =? 0 then Some 0
      else if truth (m (freeptr_field d)) then Some d
      else find_space n m (m (next_field d))
  end.

(** lib/malloc.c:148-167 [malloc]: a new bucket for the size [i] *)
Definition new_bucket (i : nat) : M kmem Z :=
  f ← gets free_bucket_desc ;
  when (f =? 0) init_bucket_desc ;;
  bdesc ← gets free_bucket_desc ;
  next ← kload (next_field bdesc) ;
  modify (fun s => s <| free_bucket_desc := next |>) ;;
  set_refcnt bdesc 0 ;;
  set_bucket_size bdesc (size_of i) ;;
  cp ← on_pages get_free_page ;
  kstore (freeptr_field bdesc) cp ;;
  kstore (page_field bdesc) cp ;;
  if cp =? 0 then panic "Out of memory in kernel malloc()" else
  let n := Z.to_nat (PAGE_SIZE / size_of i - 1) in
  for_each (seq 0 n) (fun j =>
    let cp := cp + size_of i * Z.of_nat j in kstore cp (cp + size_of i)) ;;
  kstore (cp + size_of i * Z.of_nat n) 0 ;;
  c ← gets (fun s => chain s i) ;
  kstore (next_field bdesc) c ;;
  modify (fun s => s <| chain ::= fun f j => if (j =? i)%nat then bdesc else f j |>) ;;
  mret bdesc.

(** lib/malloc.c:169-173 [malloc]: the first free object of a bucket *)
Definition take_object (bdesc : Z) : M kmem Z :=
  retval ← kload (freeptr_field bdesc) ;
  next ← kload retval ;
  kstore (freeptr_field bdesc) next ;;
  c ← kload (counts_field bdesc) ;
  set_refcnt bdesc (refcnt_of c + 1) ;;
  mret retval.

(** lib/malloc.c:118-174 [malloc] *)
Definition malloc (len : Z) : M kmem Z :=
  match find_dir 9 0 len with
  | None => printk "malloc called with impossibly large argument (%d)" [len] ;;
            panic "malloc: bad arg"
  | Some i =>
      s ← get ;
      match find_space DESC_FUEL (mem (pages s)) (chain s i) with
      | None => out_of_fuel
      | Some d =>
          bdesc ← (if d =? 0 then new_bucket i else mret d) ;
          take_object bdesc
      end
  end.

(** lib/malloc.c:197-201 [free_s]: the descriptor of [page] in a chain and the one
    before it *)
Fixpoint find_page (fuel : nat) (m : Z -> Z) (page d prev : Z) : option (option (Z * Z)) :=
  match fuel with
  | O => None
  | S n =>
      if d =? 0 then Some None
      else if m (page_field d) =? page then Some (Some (d, prev))
      else find_page n m page (m (next_field d)) d
  end.
(** lib/malloc.c:192-202 [free_s]: the sizes from [i] on; [Some (Some (i, bdesc, prev))]
    is [goto found] *)
Fixpoint search_dirs (n i : nat) (m : Z -> Z) (ch : nat -> Z) (page size : Z) :
    option (option (nat * Z * Z)) :=
  match n with
  | O => Some None
  | S n' =>
      if size_of i <? size then search_dirs n' (S i) m ch page size
      else
        match find_page DESC_FUEL m page (ch i) 0 with
        | None => None
        | Some (Some (d, prev)) => Some (Some (i, d, prev))
        | Some None => search_dirs n' (S i) m ch page size
        end
  end.
(** lib/malloc.c:216-218 [free_s]: look again for the descriptor before [bdesc] *)
Fixpoint find_prev (fuel : nat) (m : Z -> Z) (bdesc prev : Z) : option Z :=
  match fuel with
  | O => None
  | S n =>
      if prev =? 0 then Some 0
      else if m (next_field prev) =? bdesc then Some prev
      else find_prev n m bdesc (m (next_field prev))
  end.

(** lib/malloc.c:209-229 [free_s]: a bucket without objects in use goes back *)
Definition release_bucket (i : nat) (bdesc prev : Z) : M kmem unit :=
  s ← get ;
  let m := mem (pages s) in
  let stale := if truth prev then negb (m (next_field prev) =? bdesc)
               else negb (chain s i =? bdesc) in
  match (if stale then find_prev DESC_FUEL m bdesc (chain s i) else Some prev) with
  | None => out_of_fuel
  | Some prev =>
      next ← kload (next_field bdesc) ;
      (if truth prev then kstore (next_field prev) next
       else if negb (chain s i =? bdesc) then panic "malloc bucket chains corrupted"
       else modify (fun s => s <| chain ::= fun f j => if (j =? i)%nat then next else f j |>)) ;;
      page ← kload (page_field bdesc) ;
      on_pages (free_page page) ;;
      f ← gets free_bucket_desc ;
      kstore (next_field bdesc) f ;;
      modify (fun s => s <| free_bucket_desc := bdesc |>)
  end.

(** lib/malloc.c:183-232 [free_s] *)
Definition free_s (obj size : Z) : M kmem unit :=
  let page := obj .& 0xfffff000 in
  s ← get ;
  match search_dirs 9 0 (mem (pages s)) (chain s) page size with
  | None => out_of_fuel
  | Some None => panic "Bad address passed to kernel free_s()"
  | Some (Some (i, bdesc, prev)) =>
      f ← kload (freeptr_field bdesc) ;
      kstore obj f ;;
      kstore (freeptr_field bdesc) obj ;;
      c ← kload (counts_field bdesc) ;
      set_refcnt bdesc (refcnt_of c - 1) ;;
      c ← kload (counts_field bdesc) ;
      when (refcnt_of c =? 0) (release_bucket i bdesc prev)
  end.
