(* ===== verification/Heap.v ===== *)
(** The kernel's allocator against its abstract heap.

    A [heap] lists, for each size, the buckets with their free objects, and the
    descriptors that are not in use; [rep s h] says that the memory of [Malloc] holds
    it.  The objects handed out are the [live] ones: [malloc] adds one that lies apart
    from all others and whose memory nobody else uses, [free_s] takes one away and gives
    the page back with its last object; neither touches the memory of a live object. *)
From S2P Require Import Prelude Sched Mm Malloc.

#[local] Arguments DESC_FUEL : simpl never.
#[local] Arguments page_addr : simpl never.

(** ** Chains through memory *)

Fixpoint links (next : Z -> Z) (p : Z) (l : list Z) : Prop :=
  match l with
  | [] => p = 0
  | x :: l' => p = x /\ x <> 0 /\ links next (next x) l'
  end.

Lemma links_ext next next' p l : (forall x, x ∈ l -> next' x = next x) ->
  links next p l -> links next' p l.
Proof.
  revert p. induction l as [|x l IH]; intros p He; [done|]. simpl.
  intros (-> & Hx & Hl). split; [done|]. split; [done|].
  rewrite He by left. apply IH; [|done]. intros y Hy. apply He. by right.
Qed.
Lemma links_nonnull next p l : links next p l -> p <> 0 <-> l <> [].
Proof. destruct l; simpl; [by intros ->|]. intros (-> & ? & _). by split. Qed.
Lemma links_app next p l1 x l2 : links next p (l1 ++ x :: l2) ->
  links next (next x) l2 /\ x <> 0 /\
  match last l1 with Some y => next y = x | None => p = x end.
Proof.
  revert p. induction l1 as [|y l1 IH]; intros p; simpl.
  - by intros (-> & ? & ?).
  - intros (-> & Hy & Hl). destruct (IH _ Hl) as (H1 & H2 & H3). split; [done|]. split; [done|].
    destruct l1 as [|z l1]; [done|]. change (last (y :: z :: l1)) with (last (z :: l1)).
    destruct (last (z :: l1)) eqn:E; [done|]. by apply last_None in E.
Qed.
(** Taking one element out, by its predecessor or at the head. *)
Lemma links_remove next next' p l1 x l2 : NoDup (l1 ++ x :: l2) ->
  links next p (l1 ++ x :: l2) ->
  (forall y, y ∈ l1 ++ l2 -> next' y = if decide (last l1 = Some y) then next x else next y) ->
  links next' (if decide (l1 = []) then next x else p) (l1 ++ l2).
Proof.
  revert p. induction l1 as [|y l1 IH]; intros p Hd Hl Hn; simpl in *.
  - destruct Hl as (-> & _ & Hl). eapply links_ext; [|exact Hl]. intros z Hz. by apply Hn.
  - apply NoDup_cons in Hd as [Hy Hd]. destruct Hl as (-> & Hy0 & Hl).
    split; [done|]. split; [done|].
    assert (Hn' : forall z, z ∈ l1 ++ l2 ->
      next' z = if decide (last l1 = Some z) then next x else next z).
    { intros z Hz. rewrite Hn by (by right). destruct l1 as [|a l1]; [|done].
      simpl. rewrite decide_False; [done|]. intros [= ->]. apply Hy. by right. }
    specialize (IH _ Hd Hl Hn'). rewrite Hn by left. destruct l1 as [|a l1].
    + simpl in *. by rewrite decide_True.
    + rewrite decide_False in IH by done. rewrite decide_False; [done|].
      intros E. apply Hy. change (last (y :: a :: l1)) with (last (a :: l1)) in E.
      apply elem_of_app. left. by apply last_Some_elem_of.
Qed.

(** ** The abstract heap *)

Record bucket : Type := Bucket {
  desc : Z;             (* the descriptor *)
  bpage : Z;            (* the number of the page *)
  bfree : list Z;       (* the objects that are not in use *)
}.
#[global] Instance bucket_eq_dec : EqDecision bucket.
Proof. solve_decision. Defined.
Record heap : Type := Heap {
  buckets : nat -> list bucket;
  spare : list Z;       (* the descriptors that are not in use *)
}.

(** The objects of a page cut into pieces of size [i]. *)
Definition per_page (i : nat) : nat := Z.to_nat (PAGE_SIZE / size_of i).
Definition object (i : nat) (p : Z) (j : nat) : Z := page_addr p + size_of i * Z.of_nat j.
Definition objects (i : nat) (p : Z) : list Z := object i p <$> seq 0 (per_page i).

Definition bucket_in (h : heap) (i : nat) (b : bucket) : Prop := (i < 9)%nat /\ b ∈ buckets h i.
(** The object at [o] of the size [i] is in use. *)
Definition live (h : heap) (i : nat) (o : Z) : Prop :=
  exists b, bucket_in h i b /\ o ∈ objects i (bpage b) /\ o ∉ bfree b.

Record bucket_ok (m : Z -> Z) (i : nat) (b : bucket) : Prop := {
  bo_page : m (page_field (desc b)) = page_addr (bpage b);
  bo_free : links m (m (freeptr_field (desc b))) (bfree b);
  bo_counts : m (counts_field (desc b)) =
    Z.of_nat (per_page i - length (bfree b)) + 65536 * size_of i;
  bo_nodup : NoDup (bfree b);
  bo_sub : forall o, o ∈ bfree b -> o ∈ objects i (bpage b);
}.

(** A descriptor lies in a page that is in use, and not as a bucket's page. *)
Definition desc_place (s : mm) (h : heap) (d : Z) : Prop :=
  exists p j, 0 <= p < PAGING_PAGES /\ 0 <= j < 256 /\ d = page_addr p + 16 * j /\
    mem_map s p <> 0 /\ forall i b, bucket_in h i b -> bpage b <> p.

Record rep (s : kmem) (h : heap) : Prop := {
  rep_chain : forall i, (i < 9)%nat ->
    links (fun d => mem (pages s) (next_field d)) (chain s i) (desc <$> buckets h i);
  rep_spare : links (fun d => mem (pages s) (next_field d)) (free_bucket_desc s) (spare h);
  rep_bucket : forall i b, bucket_in h i b -> bucket_ok (mem (pages s)) i b;
  rep_nodup : forall i, (i < 9)%nat -> NoDup (desc <$> buckets h i);
  rep_spare_nodup : NoDup (spare h);
  rep_apart : forall i b i' b', bucket_in h i b -> bucket_in h i' b' ->
    desc b = desc b' \/ bpage b = bpage b' -> i = i' /\ b = b';
  rep_spare_apart : forall i b, bucket_in h i b -> desc b ∉ spare h;
  rep_place : forall d, d ∈ spare h \/ (exists i b, bucket_in h i b /\ d = desc b) ->
    desc_place (pages s) h d;
  rep_pages : forall i b, bucket_in h i b -> 0 <= bpage b < PAGING_PAGES /\
    mem_map (pages s) (bpage b) = 1 /\ page_addr (bpage b) < HIGH_MEMORY (pages s);
  rep_high : forall p, 0 <= p < PAGING_PAGES -> mem_map (pages s) p = 0 ->
    page_addr p < HIGH_MEMORY (pages s);
}.

Lemma bucket_in_mid h i l1 b l2 : (i < 9)%nat -> buckets h i = l1 ++ b :: l2 -> bucket_in h i b.
Proof. intros Hi El. split; [done|]. rewrite El. apply elem_of_app. right. left. Qed.

(** ** Sizes and addresses *)

Lemma size_cases i : (i < 9)%nat -> exists k, (4 <= k <= 12)%nat /\ size_of i = 2 ^ Z.of_nat k.
Proof.
  intros Hi. exists (i + 4)%nat. split; [lia|].
  do 9 (destruct i as [|i]; [reflexivity|]). lia.
Qed.
Lemma size_facts i : (i < 9)%nat ->
  16 <= size_of i <= 4096 /\ size_of i * Z.of_nat (per_page i) = 4096 /\
  (1 <= per_page i <= 256)%nat.
Proof.
  intros Hi. unfold per_page, PAGE_SIZE.
  do 9 (destruct i as [|i]; [vm_compute; repeat split; congruence || lia|]). lia.
Qed.
Lemma size_mono i j : (i <= j < 9)%nat -> size_of i <= size_of j.
Proof.
  intros Hij. do 9 (destruct j as [|j]; [do 9 (destruct i as [|i]; [vm_compute; congruence||lia|]); lia|]).
  lia.
Qed.

Lemma elem_of_objects i p o : o ∈ objects i p <->
  exists j, (j < per_page i)%nat /\ o = object i p j.
Proof.
  unfold objects. rewrite list_elem_of_fmap. split.
  - intros (j & -> & Hj%elem_of_seq). exists j. split; [lia|done].
  - intros (j & Hj & ->). exists j. split; [done|]. apply elem_of_seq. lia.
Qed.
Lemma NoDup_objects i p : (i < 9)%nat -> NoDup (objects i p).
Proof.
  intros Hi. apply NoDup_fmap_2_strong; [|apply NoDup_seq].
  intros j k _ _. unfold object. pose proof (size_facts i Hi). nia.
Qed.
Lemma length_objects i p : length (objects i p) = per_page i.
Proof. unfold objects. by rewrite length_fmap, length_seq. Qed.
(** An object lies in its page. *)
Lemma object_in_page i p o : (i < 9)%nat -> o ∈ objects i p ->
  page_addr p <= o /\ o + size_of i <= page_addr p + 4096.
Proof.
  intros Hi (j & Hj & ->)%elem_of_objects. pose proof (size_facts i Hi). unfold object. nia.
Qed.
(** Two objects of a page are the same or apart. *)
Lemma object_apart i p o o' : (i < 9)%nat -> o ∈ objects i p -> o' ∈ objects i p -> o <> o' ->
  o + size_of i <= o' \/ o' + size_of i <= o.
Proof.
  intros Hi (j & Hj & ->)%elem_of_objects (k & Hk & ->)%elem_of_objects Hne.
  pose proof (size_facts i Hi). unfold object in *.
  destruct (Nat.lt_trichotomy j k) as [? | [-> | ?]]; [left; nia|done|right; nia].
Qed.
Lemma page_addr_le p x : 0 <= p < PAGING_PAGES -> 0 <= x < 4096 ->
  0 < page_addr p + x < 2 ^ 32.
Proof. unfold page_addr, PAGING_PAGES, LOW_MEM. lia. Qed.

(** [a] is a word of the descriptor [d]. *)
Definition in_desc (d a : Z) : Prop := d <= a < d + 16.
Lemma desc_not_in_page s h d a p : desc_place s h d -> in_desc d a ->
  (exists i b, bucket_in h i b /\ bpage b = p) -> ~ (page_addr p <= a < page_addr p + 4096).
Proof.
  intros (q & j & Hq & Hj & -> & _ & Hn) Ha (i & b & Hb & <-). specialize (Hn i b Hb).
  unfold in_desc, page_addr in *. lia.
Qed.
Lemma desc_apart s h d d' a : desc_place s h d -> desc_place s h d' -> in_desc d a ->
  in_desc d' a -> d = d'.
Proof.
  intros (q & j & Hq & Hj & -> & _) (q' & j' & Hq' & Hj' & -> & _). unfold in_desc, page_addr. lia.
Qed.
Lemma desc_place_pos s h d : desc_place s h d -> 0 < d.
Proof. intros (q & j & Hq & Hj & -> & _). unfold page_addr, LOW_MEM. lia. Qed.

(** ** Changing one bucket *)

Definition with_mem (m : Z -> Z) (s : kmem) : kmem := s <| pages ::= fun p => p <| mem := m |> |>.
Definition kput (a v : Z) (s : kmem) : kmem := with_mem (upd a v (mem (pages s))) s.
Definition set_chain (i : nat) (l : list bucket) (h : heap) : heap :=
  Heap (fun j => if decide (j = i) then l else buckets h j) (spare h).
Lemma bucket_in_set_chain i l h j c : bucket_in (set_chain i l h) j c <->
  (j < 9)%nat /\ if decide (j = i) then c ∈ l else c ∈ buckets h j.
Proof. unfold bucket_in. simpl. by destruct (decide (j = i)). Qed.

Lemma bucket_ok_ext m m' i b :
  (forall a, a = page_field (desc b) \/ a = freeptr_field (desc b) \/ a = counts_field (desc b) \/
     a ∈ bfree b -> m' a = m a) -> bucket_ok m i b -> bucket_ok m' i b.
Proof.
  intros He [H1 H2 H3 H4 H5]. split; [rewrite He; auto| |rewrite He; auto|done..].
  rewrite He by auto. eapply links_ext; [|exact H2]. intros x Hx. apply He. auto.
Qed.

(** Of a bucket's words, those that another bucket or a spare descriptor has. *)
Lemma bucket_word s h i b c a : rep s h -> bucket_in h i b -> bucket_in h c.1 c.2 ->
  (i, b) <> c -> a ∈ objects c.1 (bpage c.2) \/ in_desc (desc c.2) a ->
  ~ in_desc (desc b) a /\ a ∉ objects i (bpage b).
Proof.
  destruct c as [j c]. simpl. intros Hr Hb Hc Hne Ha.
  assert (Hpl : forall i b, bucket_in h i b -> desc_place (pages s) h (desc b))
    by (intros i0 b0 H0; apply (rep_place _ _ Hr); right; by exists i0, b0).
  destruct Ha as [Ha | Ha].
  - pose proof (object_in_page _ _ _ (proj1 Hc) Ha). pose proof (size_facts j (proj1 Hc)). split.
    + intros Hd. apply (desc_not_in_page _ _ _ _ (bpage c) (Hpl _ _ Hb) Hd); [by exists j, c|lia].
    + intros Ho. pose proof (object_in_page _ _ _ (proj1 Hb) Ho). pose proof (size_facts i (proj1 Hb)).
      destruct (rep_apart _ _ Hr i b j c Hb Hc) as [-> ->]; [right; unfold page_addr in *; lia|done].
  - split.
    + intros Hd. pose proof (desc_apart _ _ _ _ _ (Hpl _ _ Hb) (Hpl _ _ Hc) Hd Ha).
      by destruct (rep_apart _ _ Hr i b j c Hb Hc) as [-> ->]; [left|].
    + intros Ho. pose proof (object_in_page _ _ _ (proj1 Hb) Ho). pose proof (size_facts i (proj1 Hb)).
      apply (desc_not_in_page _ _ _ _ (bpage b) (Hpl _ _ Hc) Ha); [by exists i, b|lia].
Qed.
Lemma spare_word s h i b d a : rep s h -> bucket_in h i b -> d ∈ spare h -> in_desc d a ->
  ~ in_desc (desc b) a /\ a ∉ objects i (bpage b).
Proof.
  intros Hr Hb Hd Ha.
  pose proof (rep_place _ _ Hr d (or_introl Hd)) as Hpd.
  assert (Hpb : desc_place (pages s) h (desc b))
    by (apply (rep_place _ _ Hr); right; by exists i, b).
  split.
  - intros Hdb. pose proof (desc_apart _ _ _ _ _ Hpb Hpd Hdb Ha) as E.
    apply (rep_spare_apart _ _ Hr i b Hb). by rewrite E.
  - intros Ho. pose proof (object_in_page _ _ _ (proj1 Hb) Ho). pose proof (size_facts i (proj1 Hb)).
    apply (desc_not_in_page _ _ _ _ (bpage b) Hpd Ha); [by exists i, b|lia].
Qed.

(** A bucket of the heap with [b'] in the place of [b] is one of the old ones, but for
    its free objects. *)
Lemma set_chain_old h i l1 b b' l2 j c : NoDup (desc <$> l1 ++ b :: l2) ->
  buckets h i = l1 ++ b :: l2 -> bucket_in (set_chain i (l1 ++ b' :: l2) h) j c ->
  (j = i /\ c = b') \/ (bucket_in h j c /\ (i, b) <> (j, c)).
Proof.
  intros Hd El [Hj Hc]%bucket_in_set_chain. unfold bucket_in.
  rewrite fmap_app, fmap_cons in Hd. apply NoDup_app in Hd as (_ & Hd1 & Hd2%NoDup_cons).
  destruct (decide (j = i)) as [-> | Hne]; [|right; split; [done|congruence]].
  rewrite El. apply elem_of_app in Hc as [Hc | [-> | Hc]%elem_of_cons]; [|by left|].
  - right. split; [set_solver|]. intros [= ->].
    eapply Hd1; [by apply list_elem_of_fmap_2|by left].
  - right. split; [set_solver|]. intros [= ->]. apply Hd2. by apply list_elem_of_fmap_2.
Qed.

(** Memory that differs only in the count, the free list and the objects of [b]. *)
Definition changes (m m' : Z -> Z) (i : nat) (b : bucket) : Prop := forall a, m' a <> m a ->
  a = freeptr_field (desc b) \/ a = counts_field (desc b) \/ a ∈ objects i (bpage b).

Lemma changes_same m m' i b a : changes m m' i b ->
  ~ in_desc (desc b) a -> a ∉ objects i (bpage b) -> m' a = m a.
Proof.
  intros Hm Ha Ho. destruct (decide (m' a = m a)) as [|Hne]; [done|]. exfalso.
  destruct (Hm a Hne) as [-> | [-> | ?]]; [| |done];
    apply Ha; unfold in_desc, freeptr_field, counts_field; lia.
Qed.
Lemma changes_next s h i b m d : rep s h -> bucket_in h i b -> changes (mem (pages s)) m i b ->
  d ∈ spare h \/ (exists j c, bucket_in h j c /\ d = desc c) ->
  m (next_field d) = mem (pages s) (next_field d).
Proof.
  intros Hr Hb Hm Hd.
  assert (Hin : in_desc d (next_field d)) by (unfold in_desc, next_field; lia).
  destruct Hd as [Hd | (j & c & Hc & ->)].
  - destruct (spare_word s h i b d _ Hr Hb Hd Hin). by apply (changes_same _ _ i b).
  - destruct (decide ((i, b) = (j, c))) as [[= -> ->] | Hne].
    + destruct (decide (m (next_field (desc c)) = mem (pages s) (next_field (desc c)))) as [|H]; [done|].
      exfalso. destruct (Hm _ H) as [E | [E | E]];
        [unfold next_field, freeptr_field, counts_field in *; lia..|].
      pose proof (object_in_page _ _ _ (proj1 Hb) E). pose proof (size_facts j (proj1 Hb)).
      apply (desc_not_in_page (pages s) h (desc c) (next_field (desc c)) (bpage c));
        [apply (rep_place _ _ Hr); right; by exists j, c|done|by exists j, c|lia].
    + destruct (bucket_word s h i b (j, c) (next_field (desc c)) Hr Hb Hc Hne (or_intror Hin)).
      by apply (changes_same _ _ i b).
Qed.
Lemma changes_bucket s h i b m j c : rep s h -> bucket_in h i b -> changes (mem (pages s)) m i b ->
  bucket_in h j c -> (i, b) <> (j, c) -> bucket_ok m j c.
Proof.
  intros Hr Hb Hm Hc Hne. pose proof (rep_bucket _ _ Hr j c Hc) as Ho.
  eapply bucket_ok_ext; [|exact Ho]. intros a Ha.
  assert (Hw : a ∈ objects j (bpage c) \/ in_desc (desc c) a).
  { destruct Ha as [-> | [-> | [-> | Ha]]]; [right..|left; by apply (bo_sub _ _ _ Ho)];
      unfold in_desc, page_field, freeptr_field, counts_field; lia. }
  destruct (bucket_word s h i b (j, c) a Hr Hb Hc Hne Hw). by apply (changes_same _ _ i b).
Qed.

Lemma rep_update s h i l1 b l2 f m : rep s h -> (i < 9)%nat -> buckets h i = l1 ++ b :: l2 ->
  changes (mem (pages s)) m i b -> bucket_ok m i (Bucket (desc b) (bpage b) f) ->
  rep (with_mem m s) (set_chain i (l1 ++ Bucket (desc b) (bpage b) f :: l2) h).
Proof.
  intros Hr Hi El Hm Hb'. set (b' := Bucket (desc b) (bpage b) f) in *.
  pose proof (bucket_in_mid h i l1 b l2 Hi El) as Hb.
  pose proof (rep_nodup _ _ Hr i Hi) as Hd. rewrite El in Hd.
  pose proof (fun j c => set_chain_old h i l1 b b' l2 j c Hd El) as Hold.
  assert (Hdesc : forall j, desc <$> buckets (set_chain i (l1 ++ b' :: l2) h) j = desc <$> buckets h j).
  { intros j. simpl. destruct (decide (j = i)) as [-> | ]; [|done]. by rewrite El, !fmap_app. }
  (* its descriptor and its page are those of an old bucket *)
  assert (Hsim : forall j c, bucket_in (set_chain i (l1 ++ b' :: l2) h) j c ->
    exists c0, bucket_in h j c0 /\ desc c = desc c0 /\ bpage c = bpage c0 /\
      forall c', bucket_in (set_chain i (l1 ++ b' :: l2) h) j c' -> desc c' = desc c0 -> c' = c).
  { intros j c Hc. destruct (Hold j c Hc) as [[-> ->] | [Hc0 Hne]].
    - exists b. do 3 (split; [done|]). intros c' Hc' E. destruct (Hold i c' Hc') as [[_ ->] | [H1 H2]]; [done|].
      exfalso. apply H2. f_equal. symmetry. by apply (rep_apart _ _ Hr i c' i b H1 Hb (or_introl E)).
    - exists c. do 3 (split; [done|]). intros c' Hc' E. destruct (Hold j c' Hc') as [[-> ->] | [H1 H2]].
      + exfalso. apply Hne. f_equal. by apply (rep_apart _ _ Hr i b i c Hb Hc0 (or_introl E)).
      + by apply (rep_apart _ _ Hr j c' j c H1 Hc0 (or_introl E)). }
  split.
  - intros j Hj. rewrite Hdesc. eapply links_ext; [|apply (rep_chain _ _ Hr j Hj)].
    intros d (c & -> & Hc)%list_elem_of_fmap.
    apply (changes_next s h i b m _ Hr Hb Hm). right. by exists j, c.
  - eapply links_ext; [|apply (rep_spare _ _ Hr)]. intros d Hdd.
    apply (changes_next s h i b m _ Hr Hb Hm). by left.
  - intros j c Hc. destruct (Hold j c Hc) as [[-> ->] | [Hc0 Hne]]; [done|].
    by apply (changes_bucket s h i b).
  - intros j Hj. rewrite Hdesc. by apply (rep_nodup _ _ Hr).
  - apply (rep_spare_nodup _ _ Hr).
  - intros j c j' c' Hc Hc' He. destruct (Hsim j c Hc) as (c0 & H1 & H2 & H3 & H4).
    destruct (Hsim j' c' Hc') as (c0' & H1' & H2' & H3' & H4').
    destruct (rep_apart _ _ Hr j c0 j' c0' H1 H1') as [-> <-]; [by rewrite <- H2, <- H2', <- H3, <- H3'|].
    split; [done|]. symmetry. by apply H4.
  - intros j c Hc. destruct (Hsim j c Hc) as (c0 & H1 & -> & _). by apply (rep_spare_apart _ _ Hr j).
  - intros d Hdd. assert (Hp : desc_place (pages s) h d).
    { apply (rep_place _ _ Hr). destruct Hdd as [?|(j & c & Hc & ->)]; [by left|right].
      destruct (Hsim j c Hc) as (c0 & H1 & -> & _). by exists j, c0. }
    destruct Hp as (p & k & Hp & Hk & -> & Hmp & Hn). exists p, k. repeat split; try done; try lia.
    intros j c Hc. destruct (Hsim j c Hc) as (c0 & H1 & _ & -> & _). by apply (Hn j).
  - intros j c Hc. destruct (Hsim j c Hc) as (c0 & H1 & _ & -> & _). by apply (rep_pages _ _ Hr j).
  - apply (rep_high _ _ Hr).
Qed.

(** ** Taking an object and putting it back *)

Section kruns.
Context {A : Type}.
Implicit Types (s : kmem) (k : Z -> M kmem A) (kk : unit -> M kmem A).
Lemma run_kload a k s w : (kload a ≫= k) s w = k (mem (pages s) a) s w.
Proof. reflexivity. Qed.
Lemma run_kstore a v kk s w : (kstore a v ≫= kk) s w = kk tt (kput a v s) w.
Proof. reflexivity. Qed.
Lemma run_set_refcnt d v kk s w : (set_refcnt d v ≫= kk) s w =
  kk tt (kput (counts_field d) (u16 v + 65536 * (mem (pages s) (counts_field d) / 65536)) s) w.
Proof. reflexivity. Qed.
Lemma run_set_size d v kk s w : (set_bucket_size d v ≫= kk) s w =
  kk tt (kput (counts_field d) (refcnt_of (mem (pages s) (counts_field d)) + 65536 * u16 v) s) w.
Proof. reflexivity. Qed.
End kruns.
Lemma mem_kput a v s : mem (pages (kput a v s)) = upd a v (mem (pages s)).
Proof. reflexivity. Qed.
Lemma kput_with_mem a v m s : kput a v (with_mem m s) = with_mem (upd a v m) s.
Proof. reflexivity. Qed.
Lemma kput_kput a v b u s : kput a v (kput b u s) = with_mem (upd a v (upd b u (mem (pages s)))) s.
Proof. reflexivity. Qed.
Lemma mem_with_mem m s : mem (pages (with_mem m s)) = m.
Proof. reflexivity. Qed.
#[export] Hint Rewrite @run_kload @run_kstore @run_set_refcnt @run_set_size : run.

Lemma bfree_length m i b : bucket_ok m i b -> (length (bfree b) <= per_page i)%nat.
Proof.
  intros [_ _ _ Hd Hs]. rewrite <- (length_objects i (bpage b)).
  apply submseteq_length, NoDup_submseteq; [done|exact Hs].
Qed.

(** The words of a descriptor are not objects of its page. *)
Lemma desc_no_object s h i b a : rep s h -> bucket_in h i b -> in_desc (desc b) a ->
  a ∉ objects i (bpage b).
Proof.
  intros Hr Hb Ha Ho. pose proof (object_in_page _ _ _ (proj1 Hb) Ho).
  pose proof (size_facts i (proj1 Hb)).
  apply (desc_not_in_page (pages s) h (desc b) a (bpage b)); [|done|by exists i, b|lia].
  apply (rep_place _ _ Hr). right. by exists i, b.
Qed.

(** The count and the free list of a bucket, stored. *)
Definition store_bucket (d first count size : Z) (m : Z -> Z) : Z -> Z :=
  upd (counts_field d) (count + 65536 * size) (upd (freeptr_field d) first m).
Lemma store_bucket_changes d first count size m i b : desc b = d ->
  changes m (store_bucket d first count size m) i b.
Proof.
  intros <- a Ha. unfold store_bucket, upd in Ha.
  destruct (Z.eqb_spec a (counts_field (desc b))); [auto|].
  destruct (Z.eqb_spec a (freeptr_field (desc b))); [auto|done].
Qed.
Lemma store_bucket_ok s h i b m first f count : rep s h -> bucket_in h i b ->
  (forall a, in_desc (desc b) a -> m a = mem (pages s) a) ->
  NoDup f -> (forall o, o ∈ f -> o ∈ objects i (bpage b)) -> links m first f ->
  count = Z.of_nat (per_page i - length f) ->
  bucket_ok (store_bucket (desc b) first count (size_of i) m) i (Bucket (desc b) (bpage b) f).
Proof.
  intros Hr Hb Hm Hd Hs Hl ->. pose proof (rep_bucket _ _ Hr i b Hb) as [H1 _ _ _ _].
  unfold store_bucket, page_field, freeptr_field, counts_field in *. split; simpl.
  - unfold page_field. rewrite !upd_ne by lia. rewrite Hm; [done|unfold in_desc; lia].
  - unfold freeptr_field. rewrite upd_ne, upd_eq by lia. eapply links_ext; [|exact Hl].
    intros x Hx. apply Hs in Hx. rewrite !upd_ne; [done|..]; intros ->;
      revert Hx; apply (desc_no_object s h); try done; unfold in_desc; lia.
  - apply upd_eq.
  - done.
  - done.
Qed.

Lemma take_object_run s h i l1 b l2 o rest w : rep s h -> (i < 9)%nat ->
  buckets h i = l1 ++ b :: l2 -> bfree b = o :: rest ->
  exists m, take_object (desc b) s w = Ret o (with_mem m s) w /\
    rep (with_mem m s) (set_chain i (l1 ++ Bucket (desc b) (bpage b) rest :: l2) h) /\
    forall a, ~ in_desc (desc b) a -> m a = mem (pages s) a.
Proof.
  intros Hr Hi El Ef. pose proof (bucket_in_mid h i l1 b l2 Hi El) as Hb.
  pose proof (rep_bucket _ _ Hr i b Hb) as Hok. pose proof (bfree_length _ _ _ Hok) as Hlen.
  pose proof Hok as [H1 H2 H3 H4 H5]. rewrite Ef in *. simpl in H2, Hlen. destruct H2 as (Eo & Ho & Hl).
  pose proof (size_facts i Hi) as (Hsz & _ & Hpp).
  exists (store_bucket (desc b) (mem (pages s) o) (Z.of_nat (per_page i - length rest)) (size_of i)
       (mem (pages s))). split; [|split].
  - unfold take_object. run. rewrite !mem_kput, Eo.
    rewrite (upd_ne (freeptr_field _)) by (unfold freeptr_field, counts_field; lia).
    rewrite H3. unfold store_bucket, refcnt_of. rewrite kput_kput.
    cbn [length]. f_equal. f_equal. f_equal. unfold u16. zlia.
  - apply (rep_update s h i l1 b l2 rest); [done..|by apply store_bucket_changes|].
    apply (store_bucket_ok s h); try done.
    + by apply NoDup_cons in H4 as [_ ?].
    + intros x Hx. apply H5. by right.
  - intros a Ha. unfold store_bucket. rewrite !upd_ne; [done|..]; intros ->; apply Ha;
      unfold in_desc, freeptr_field, counts_field; lia.
Qed.

Lemma NoDup_free_lt i b o m : bucket_ok m i b -> o ∈ objects i (bpage b) -> o ∉ bfree b ->
  (length (bfree b) < per_page i)%nat.
Proof.
  intros [_ _ _ Hd Hs] Ho Hn. rewrite <- (length_objects i (bpage b)).
  assert (H : (length (o :: bfree b) <= length (objects i (bpage b)))%nat).
  { apply submseteq_length, NoDup_submseteq; [by constructor|].
    intros x [-> | Hx]%elem_of_cons; auto. }
  simpl in H. lia.
Qed.

(** The first half of free_s: the object goes to the front of the free list. *)
Definition put_object (obj bdesc : Z) : M kmem unit :=
  f ← kload (freeptr_field bdesc) ;
  kstore obj f ;;
  kstore (freeptr_field bdesc) obj ;;
  c ← kload (counts_field bdesc) ;
  set_refcnt bdesc (refcnt_of c - 1).
Lemma kput3 a v b u c x s : kput a v (kput b u (kput c x s)) =
  with_mem (upd a v (upd b u (upd c x (mem (pages s))))) s.
Proof. reflexivity. Qed.
Lemma ret_set_refcnt d v s w : set_refcnt d v s w =
  Ret tt (kput (counts_field d) (u16 v + 65536 * (mem (pages s) (counts_field d) / 65536)) s) w.
Proof. reflexivity. Qed.
Lemma put_object_run s h i l1 b l2 o w : rep s h -> (i < 9)%nat ->
  buckets h i = l1 ++ b :: l2 -> o ∈ objects i (bpage b) -> o ∉ bfree b ->
  exists m, put_object o (desc b) s w = Ret tt (with_mem m s) w /\
    rep (with_mem m s) (set_chain i (l1 ++ Bucket (desc b) (bpage b) (o :: bfree b) :: l2) h) /\
    forall a, ~ in_desc (desc b) a -> a <> o -> m a = mem (pages s) a.
Proof.
  intros Hr Hi El Ho Hn. pose proof (bucket_in_mid h i l1 b l2 Hi El) as Hb.
  pose proof (rep_bucket _ _ Hr i b Hb) as Hok. pose proof (NoDup_free_lt _ _ _ _ Hok Ho Hn) as Hlt.
  pose proof Hok as [H1 H2 H3 H4 H5]. pose proof (size_facts i Hi) as (Hsz & _ & Hpp).
  assert (Hod : forall a, in_desc (desc b) a -> a <> o)
    by (intros a Ha ->; by apply (desc_no_object s h i b o)).
  assert (Hoc : counts_field (desc b) <> o) by (apply Hod; unfold in_desc, counts_field; lia).
  set (m0 := upd o (mem (pages s) (freeptr_field (desc b))) (mem (pages s))).
  exists (store_bucket (desc b) o (Z.of_nat (per_page i - length (o :: bfree b))) (size_of i) m0).
  split; [|split].
  - unfold put_object. run. rewrite ret_set_refcnt, !mem_kput.
    rewrite (upd_ne (freeptr_field _)) by (unfold freeptr_field, counts_field; lia).
    rewrite (upd_ne o), H3, kput3 by done. unfold store_bucket, refcnt_of. subst m0.
    f_equal. f_equal. f_equal. cbn [length]. unfold u16. zlia.
  - apply (rep_update s h i l1 b l2 (o :: bfree b)); [done..| |].
    + intros a Ha. unfold store_bucket, upd in Ha. subst m0. unfold upd in Ha.
      destruct (Z.eqb_spec a (counts_field (desc b))); [auto|].
      destruct (Z.eqb_spec a (freeptr_field (desc b))); [auto|].
      destruct (Z.eqb_spec a o) as [E | ]; [rewrite E; auto|done].
    + apply (store_bucket_ok s h); try done.
      * intros a Ha. subst m0. rewrite upd_ne by (by apply Hod). done.
      * by constructor.
      * intros x [-> | Hx]%elem_of_cons; auto.
      * simpl. split; [done|]. pose proof (object_in_page _ _ _ Hi Ho).
        split; [pose proof (rep_pages _ _ Hr i b Hb); unfold page_addr, LOW_MEM in *; lia|].
        subst m0. rewrite upd_eq. eapply links_ext; [|exact H2].
        intros x Hx. apply upd_ne. by intros ->.
  - intros a Ha Hao. unfold store_bucket. subst m0. rewrite !upd_ne; [done|done|..]; intros ->; apply Ha;
      unfold in_desc, freeptr_field, counts_field; lia.
Qed.

(** ** A new bucket *)

Lemma for_each_ext {S A} (f g : A -> M S unit) l : (forall x, f x = g x) ->
  for_each l f = for_each l g.
Proof. intros H. induction l as [|x l IH]; [done|]. cbn [for_each]. by rewrite H, IH. Qed.
(** Words stored one after the other. *)
Definition fill (f g : nat -> Z) (l : list nat) (m : Z -> Z) : Z -> Z :=
  fold_left (fun m j => upd (f j) (g j) m) l m.
Lemma fill_run f g l s w :
  for_each l (fun j => kstore (f j) (g j)) s w = Ret tt (with_mem (fill f g l (mem (pages s))) s) w.
Proof.
  revert s. induction l as [|j l IH]; intros s; [by destruct s as [[] ? ?]|]. cbn [for_each fill fold_left].
  rewrite run_kstore, IH. done.
Qed.
Lemma fill_out f g l m a : (forall j, j ∈ l -> a <> f j) -> fill f g l m a = m a.
Proof.
  revert m. induction l as [|j l IH]; intros m H; [done|]. cbn [fill fold_left].
  change (fill f g l (upd (f j) (g j) m) a = m a).
  rewrite IH by (intros k Hk; apply H; by right). apply upd_ne, H. by left.
Qed.
Lemma fill_in f g l m j : (forall k, k ∈ l -> f k = f j -> k = j) -> NoDup l -> j ∈ l ->
  fill f g l m (f j) = g j.
Proof.
  intros Hf Hd. revert m. induction l as [|k l IH]; intros m Hj; [by apply not_elem_of_nil in Hj|].
  apply NoDup_cons in Hd as [Hk Hd]. change (fill f g l (upd (f k) (g k) m) (f j) = g j).
  apply elem_of_cons in Hj as [<- | Hj].
  - rewrite fill_out; [apply upd_eq|]. intros x Hx E. apply Hk.
    by rewrite <- (Hf x) by (try (by right); done).
  - apply IH; [|done..]. intros x Hx. apply Hf. by right.
Qed.

(** A chain of [n + 1] places. *)
Lemma links_fill f n q next tl : (forall j, f j <> 0) ->
  (forall j, (j < n)%nat -> next (f j) = f (S j)) -> next (f n) = q -> links next q tl ->
  forall j, (j <= n)%nat -> links next (f j) ((f <$> seq j (n + 1 - j)) ++ tl).
Proof.
  intros H0 Hn Hq Htl j Hj. remember (n - j)%nat as k eqn:Ek.
  revert j Hj Ek. induction k as [|k IH]; intros j Hj Ek.
  - assert (j = n) as -> by lia. replace (n + 1 - n)%nat with 1%nat by lia. simpl.
    by rewrite Hq.
  - replace (n + 1 - j)%nat with (S (n + 1 - S j)) by lia. simpl.
    split; [done|]. split; [done|]. rewrite Hn by lia. apply IH; lia.
Qed.

(** [p] is a page that was just allocated: nothing of the heap is in it. *)
Record grabbed (s : kmem) (h : heap) (p : Z) : Prop := {
  gr_range : 0 <= p < PAGING_PAGES;
  gr_count : mem_map (pages s) p = 1;
  gr_high : page_addr p < HIGH_MEMORY (pages s);
  gr_bucket : forall i b, bucket_in h i b -> bpage b <> p;
  gr_desc : forall d, d ∈ spare h \/ (exists i b, bucket_in h i b /\ d = desc b) ->
    ~ page_addr p <= d < page_addr p + 4096;
}.
Definition with_page (p : Z) (s : kmem) : kmem := s <| pages ::= take_page p |>.

(** Memory that differs only inside a page that is not the heap's. *)
Lemma rep_other_page s h p m : rep s h -> grabbed s h p ->
  (forall a, ~ page_addr p <= a < page_addr p + 4096 -> m a = mem (pages s) a) ->
  rep (with_mem m s) h.
Proof.
  intros Hr [Hp Hc Hh Hb Hd] Hm.
  assert (Hdw : forall d a, d ∈ spare h \/ (exists i b, bucket_in h i b /\ d = desc b) ->
    in_desc d a -> m a = mem (pages s) a).
  { intros d a Hdd Ha. apply Hm. specialize (Hd d Hdd).
    destruct (rep_place _ _ Hr d Hdd) as (q & j & Hq & Hj & -> & _ & _).
    unfold in_desc, page_addr in *. lia. }
  assert (Hin : forall d, in_desc d (next_field d)) by (intros d; unfold in_desc, next_field; lia).
  split; try apply Hr.
  - intros i Hi. eapply links_ext; [|apply (rep_chain _ _ Hr i Hi)].
    intros d (b & -> & Hbb)%list_elem_of_fmap. apply (Hdw (desc b)); [right; by exists i, b|apply Hin].
  - eapply links_ext; [|apply (rep_spare _ _ Hr)]. intros d Hdd.
    apply (Hdw d); [by left|apply Hin].
  - intros i b Hbb. pose proof (rep_bucket _ _ Hr i b Hbb) as Hok.
    eapply bucket_ok_ext; [|exact Hok]. intros a Ha.
    assert (Hdb : in_desc (desc b) a -> m a = mem (pages s) a)
      by (apply Hdw; right; by exists i, b).
    destruct Ha as [-> | [-> | [-> | Ha]]].
    1-3: apply Hdb; unfold in_desc, page_field, freeptr_field, counts_field; lia.
    apply Hm. apply (bo_sub _ _ _ Hok) in Ha. pose proof (object_in_page _ _ _ (proj1 Hbb) Ha).
    pose proof (size_facts i (proj1 Hbb)). specialize (Hb i b Hbb). unfold page_addr in *. lia.
Qed.

(** Taking a free page out of main memory. *)
Lemma rep_grab s h p : rep s h -> 0 <= p < PAGING_PAGES -> mem_map (pages s) p = 0 ->
  rep (with_page p s) h /\ grabbed (with_page p s) h p.
Proof.
  intros Hr Hp Hz.
  set (s1 := s <| pages ::= fun m => m <| mem_map ::= upd p 1 |> |>).
  assert (Hb : forall i b, bucket_in h i b -> bpage b <> p).
  { intros i b Hb E. pose proof (rep_pages _ _ Hr i b Hb) as (_ & E1 & _). rewrite E in E1. lia. }
  assert (Hd : forall d, d ∈ spare h \/ (exists i b, bucket_in h i b /\ d = desc b) ->
    ~ page_addr p <= d < page_addr p + 4096).
  { intros d Hd Hdp. destruct (rep_place _ _ Hr d Hd) as (q & j & Hq & Hj & -> & Hn & _).
    assert (q = p) as -> by (unfold page_addr in *; lia). done. }
  assert (Hg : grabbed s1 h p)
    by (split; [done|apply upd_eq|by apply (rep_high _ _ Hr)|done|done]).
  assert (Hr1 : rep s1 h).
  { split; try apply Hr; simpl.
    - intros d Hdd. destruct (rep_place _ _ Hr d Hdd) as (q & j & Hq & Hj & -> & Hn & Hqb).
      exists q, j. simpl. do 3 (split; [done|]). split; [|done]. unfold upd. by case_match.
    - intros i b Hbb. rewrite upd_ne by (by apply (Hb i b)). by apply (rep_pages _ _ Hr i).
    - intros q Hq. unfold upd. destruct (q =? p); [done|]. by apply (rep_high _ _ Hr). }
  assert (E : with_page p s = with_mem (clear_page (page_addr p) (mem (pages s))) s1)
    by (by destruct s as [[] ? ?]).
  rewrite E. split; [|by destruct Hg; split]. apply (rep_other_page s1 h p); [done..|].
  intros a Ha. unfold clear_page, PAGE_SIZE.
  destruct (Z.leb_spec (page_addr p) a), (Z.ltb_spec a (page_addr p + 4096)); simpl; [lia|done..].
Qed.
Lemma grab_run s w :
  (on_pages get_free_page s w = Ret 0 s w /\ no_free_page (pages s)) \/
  (exists p, on_pages get_free_page s w = Ret (page_addr p) (with_page p s) w /\
     highest_free (pages s) p).
Proof.
  unfold on_pages, liftM.
  destruct (get_free_page_cases (pages s) (World [] (log w))) as [[E Hn] | (p & E & Hp)]; rewrite E.
  - left. split; [|done]. by destruct s, w.
  - right. exists p. split; [by destruct w|done].
Qed.

(** The descriptors of a page. *)
Definition place (p : Z) (j : nat) : Z := page_addr p + 16 * Z.of_nat j.
Definition places (p : Z) : list Z := place p <$> seq 0 256.
Lemma elem_of_places p d : d ∈ places p -> exists j, (j < 256)%nat /\ d = place p j.
Proof. intros (j & -> & Hj%elem_of_seq)%list_elem_of_fmap. exists j. split; [lia|done]. Qed.

Lemma rep_new_places s h p : rep s h -> spare h = [] -> grabbed s h p ->
  links (fun d => mem (pages s) (next_field d)) (page_addr p) (places p) ->
  rep (s <| free_bucket_desc := page_addr p |>) (Heap (buckets h) (places p)).
Proof.
  intros Hr Es [Hp Hc Hh Hb Hd] Hl.
  assert (Hin : forall d, d ∈ places p -> page_addr p <= d < page_addr p + 4096)
    by (intros d (j & Hj & ->)%elem_of_places; unfold place; lia).
  split; try apply Hr; try done.
  - apply NoDup_fmap_2_strong; [|apply NoDup_seq]. intros j k _ _. unfold place. lia.
  - intros i b Hbb Hs. apply Hin in Hs. revert Hs. apply Hd. right. by exists i, b.
  - intros d [Hdd | Hdd].
    + apply elem_of_places in Hdd as (j & Hj & ->). exists p, (Z.of_nat j).
      do 2 (split; [done || lia|]). split; [done|]. simpl. split; [lia|done].
    + destruct (rep_place _ _ Hr d (or_intror Hdd)) as (q & j & H1 & H2 & H3 & H4 & H5).
      by exists q, j.
Qed.

(** Places threaded into a chain that ends in [q]: [w] is where the address of the next
    one is stored. *)
Definition thread (w : Z -> Z) (f : nat -> Z) (n : nat) (q : Z) (m : Z -> Z) : Z -> Z :=
  upd (w (f n)) q (fill (fun j => w (f j)) (fun j => f (S j)) (seq 0 n) m).
Lemma thread_out w f n q m a : (forall j, (j <= n)%nat -> a <> w (f j)) -> thread w f n q m a = m a.
Proof.
  intros Ha. unfold thread. rewrite upd_ne by (by apply Ha).
  apply fill_out. intros j Hj%elem_of_seq. apply Ha. lia.
Qed.
Lemma thread_links w f n m : (forall j, f j <> 0) -> (forall j k, w (f j) = w (f k) -> j = k) ->
  links (fun x => thread w f n 0 m (w x)) (f 0%nat) (f <$> seq 0 (n + 1)).
Proof.
  intros H0 Hw. rewrite <- (app_nil_r (f <$> seq 0 (n + 1))).
  replace (n + 1)%nat with (n + 1 - 0)%nat by lia.
  apply (links_fill f n 0); [done| | |done|lia].
  - intros j Hj. unfold thread. rewrite upd_ne by (intros E; apply Hw in E; lia).
    apply (fill_in (fun j => w (f j)) (fun j => f (S j))); [|apply NoDup_seq|apply elem_of_seq; lia].
    intros k _. apply Hw.
  - apply upd_eq.
Qed.
Lemma thread_descs_run p n s w :
  (for_each (seq 0 n) (fun i =>
     let bdesc := page_addr p + 16 * Z.of_nat i in kstore (next_field bdesc) (bdesc + 16)) ;;
   f ← gets free_bucket_desc ;
   kstore (next_field (page_addr p + 16 * Z.of_nat n)) f ;;
   modify (fun s => s <| free_bucket_desc := page_addr p |>)) s w =
  Ret tt (with_mem (thread next_field (place p) n (free_bucket_desc s) (mem (pages s))) s
    <| free_bucket_desc := page_addr p |>) w.
Proof.
  rewrite (for_each_ext _ (fun j => kstore (next_field (place p j)) (place p (S j)))).
  2: { intros j. cbv zeta. unfold place. f_equal. lia. }
  rewrite (run_ret _ _ _ _ _ _ _ (fill_run _ _ _ _ _)). reflexivity.
Qed.

Lemma init_run s h w : rep s h -> spare h = [] ->
  (exists msg s', init_bucket_desc s w = Panicked msg s' /\ no_free_page (pages s)) \/
  (exists p s', init_bucket_desc s w = Ret tt s' w /\ highest_free (pages s) p /\
     rep s' (Heap (buckets h) (places p)) /\
     mem_map (pages s') = upd p 1 (mem_map (pages s)) /\
     forall a, ~ page_addr p <= a < page_addr p + 4096 -> mem (pages s') a = mem (pages s) a).
Proof.
  intros Hr Es. unfold init_bucket_desc.
  destruct (grab_run s w) as [[E Hn] | (p & E & Hp)]; rewrite (run_ret _ _ _ _ _ _ _ E).
  { left. do 2 eexists. split; [reflexivity|done]. }
  right. destruct (rep_grab s h p Hr (proj1 Hp) (proj1 (proj2 Hp))) as [Hr1 Hg]. pose proof (gr_range _ _ _ Hg) as Hpr.
  rewrite (proj2 (Z.eqb_neq (page_addr p) 0)) by (pose proof (page_addr_pos p ltac:(lia)); lia).
  change (page_addr p + 16 * 255) with (page_addr p + 16 * Z.of_nat 255). rewrite thread_descs_run.
  assert (E0 : free_bucket_desc (with_page p s) = 0)
    by (pose proof (rep_spare _ _ Hr) as H; by rewrite Es in H).
  rewrite E0. set (m := thread next_field (place p) 255 0 (mem (pages (with_page p s)))).
  assert (Hm : forall a, ~ page_addr p <= a < page_addr p + 4096 ->
    m a = mem (pages (with_page p s)) a) 
    by (intros a Ha; apply thread_out; intros j Hj; unfold next_field, place; lia).
  eexists p, _. split; [reflexivity|]. split; [done|]. split; [|split].
  - apply (rep_new_places (with_mem m (with_page p s))); [|done|by destruct Hg; split|].
    + by apply (rep_other_page _ h p).
    + replace (page_addr p) with (place p 0) by (unfold place; lia).
      apply (thread_links next_field (place p) 255); unfold place, next_field, page_addr, LOW_MEM; lia.
  - reflexivity.
  - intros a Ha. change (m a = mem (pages s) a). rewrite Hm by done. by apply clear_out.
Qed.

(** A spare descriptor [d] gets the page [p]: memory changes in these two only. *)
Definition claims (m m' : Z -> Z) (d p : Z) : Prop :=
  forall a, ~ in_desc d a -> ~ page_addr p <= a < page_addr p + 4096 -> m' a = m a.

Lemma desc_word_off_page s h p d a : rep s h -> grabbed s h p ->
  d ∈ spare h \/ (exists i b, bucket_in h i b /\ d = desc b) -> in_desc d a ->
  ~ page_addr p <= a < page_addr p + 4096.
Proof.
  intros Hr Hg Hd Ha. pose proof (gr_desc _ _ _ Hg d Hd).
  destruct (rep_place _ _ Hr d Hd) as (q & j & Hq & Hj & -> & _ & _).
  unfold in_desc, page_addr in *. lia.
Qed.
Lemma claims_desc s h p d m d' a : rep s h -> grabbed s h p -> d ∈ spare h ->
  claims (mem (pages s)) m d p ->
  d' ∈ spare h \/ (exists i b, bucket_in h i b /\ d' = desc b) -> d' <> d -> in_desc d' a ->
  m a = mem (pages s) a.
Proof.
  intros Hr Hg Hd Hm Hd' Hne Ha. apply Hm; [|by apply (desc_word_off_page s h p d')].
  intros Ha'. apply Hne. apply (desc_apart (pages s) h d' d a); try done; apply (rep_place _ _ Hr); auto.
Qed.
Lemma claims_bucket s h p d m j c : rep s h -> grabbed s h p -> d ∈ spare h ->
  claims (mem (pages s)) m d p -> bucket_in h j c -> bucket_ok m j c.
Proof.
  intros Hr Hg Hd Hm Hc. pose proof (rep_bucket _ _ Hr j c Hc) as Hok.
  eapply bucket_ok_ext; [|exact Hok]. intros a Ha.
  assert (Hw : in_desc (desc c) a -> m a = mem (pages s) a).
  { apply (claims_desc s h p d); try done; [right; by exists j, c|].
    intros E. apply (rep_spare_apart _ _ Hr j c Hc). by rewrite E. }
  destruct Ha as [-> | [-> | [-> | Ha]]].
  1-3: apply Hw; unfold in_desc, page_field, freeptr_field, counts_field; lia.
  apply (bo_sub _ _ _ Hok) in Ha. apply Hm.
  - intros Had. by destruct (spare_word s h j c d a Hr Hc Hd Had).
  - pose proof (object_in_page _ _ _ (proj1 Hc) Ha). pose proof (size_facts j (proj1 Hc)).
    pose proof (gr_bucket _ _ _ Hg j c Hc). unfold page_addr in *. lia.
Qed.

Definition add_bucket (i : nat) (b : bucket) (rest : list Z) (h : heap) : heap :=
  Heap (fun j => if decide (j = i) then b :: buckets h j else buckets h j) rest.
Lemma bucket_in_add i b rest h j c : (i < 9)%nat ->
  bucket_in (add_bucket i b rest h) j c <-> (j = i /\ c = b) \/ bucket_in h j c.
Proof.
  intros Hi. unfold bucket_in, add_bucket. cbn [buckets].
  destruct (decide (j = i)) as [-> | ]; [rewrite elem_of_cons|]; naive_solver.
Qed.
Lemma rep_add_bucket s h p d rest i f m : rep s h -> grabbed s h p -> (i < 9)%nat ->
  spare h = d :: rest -> claims (mem (pages s)) m d p -> m (next_field d) = chain s i ->
  bucket_ok m i (Bucket d p f) ->
  rep (with_mem m s <| free_bucket_desc := mem (pages s) (next_field d) |>
         <| chain ::= fun ch j => if (j =? i)%nat then d else ch j |>)
    (add_bucket i (Bucket d p f) rest h).
Proof.
  intros Hr Hg Hi Es Hm Hn Hok.
  assert (Hd : d ∈ spare h) by (rewrite Es; left).
  pose proof (rep_spare_nodup _ _ Hr) as Hnd. rewrite Es in Hnd. apply NoDup_cons in Hnd as [Hdr Hnd].
  pose proof (rep_spare _ _ Hr) as Hls. rewrite Es in Hls. destruct Hls as (_ & Hd0 & Hls).
  assert (Hdb : forall j c, bucket_in h j c -> desc c <> d).
  { intros j c Hc E. apply (rep_spare_apart _ _ Hr j c Hc). by rewrite E. }
  assert (Hk : forall d', d' ∈ rest \/ (exists j c, bucket_in h j c /\ d' = desc c) ->
    m (next_field d') = mem (pages s) (next_field d')).
  { intros d' Hd'. apply (claims_desc s h p d m d'); try done.
    - destruct Hd' as [?|?]; [left; rewrite Es; by right|by right].
    - intros ->. destruct Hd' as [?|(j & c & Hc & E)]; [done|by apply (Hdb j c)].
    - unfold in_desc, next_field. lia. }
  assert (Hin : forall j c, bucket_in (add_bucket i (Bucket d p f) rest h) j c ->
    (j = i /\ c = Bucket d p f) \/ bucket_in h j c) by (intros j c Hc; by apply (bucket_in_add i) in Hc).
  assert (Hchain : forall j, (j < 9)%nat -> links (fun d => m (next_field d)) (chain s j) (desc <$> buckets h j)).
  { intros j Hj. eapply links_ext; [|apply (rep_chain _ _ Hr j Hj)].
    intros d' (c & -> & Hc)%list_elem_of_fmap. apply Hk. right. by exists j, c. }
  split; try (apply Hr); simpl.
  - intros j Hj. destruct (decide (j = i)) as [-> | Hne].
    + rewrite Nat.eqb_refl. simpl. split; [done|]. split; [done|]. rewrite Hn. by apply Hchain.
    + rewrite (proj2 (Nat.eqb_neq j i)) by done. by apply Hchain.
  - eapply links_ext; [|exact Hls]. intros d' Hd'. apply Hk. by left.
  - intros j c [[-> ->] | Hc]%Hin; [done|]. by apply (claims_bucket s h p d).
  - intros j Hj. destruct (decide (j = i)) as [-> | ]; [|by apply (rep_nodup _ _ Hr)].
    simpl. apply NoDup_cons. split; [|by apply (rep_nodup _ _ Hr)].
    intros (c & E & Hc)%list_elem_of_fmap. by apply (Hdb i c).
  - done.
  - intros j c j' c' [[-> ->] | Hc]%Hin [[-> ->] | Hc']%Hin He; simpl in *.
    + done.
    + destruct He as [E|E]; [by destruct (Hdb j' c')|by destruct (gr_bucket _ _ _ Hg j' c')].
    + destruct He as [E|E]; [by destruct (Hdb j c)|by destruct (gr_bucket _ _ _ Hg j c)].
    + by apply (rep_apart _ _ Hr).
  - intros j c [[-> ->] | Hc]%Hin; [done|]. pose proof (rep_spare_apart _ _ Hr j c Hc) as H.
    rewrite Es in H. intros Hc'. apply H. by right.
  - intros d' Hd'. assert (Hold : d' ∈ spare h \/ (exists j c, bucket_in h j c /\ d' = desc c)).
    { rewrite Es. destruct Hd' as [?|(j & c & [[-> ->] | Hc]%Hin & ->)];
        [left; by right|left; by left|right; by exists j, c]. }
    destruct (rep_place _ _ Hr d' Hold) as (q & k & Hq & Hkk & E & Hmp & Hnq).
    exists q, k. do 4 (split; [done|]). intros j c [[-> ->] | Hc]%Hin; [|by apply (Hnq j)].
    simpl. intros ->. apply (gr_desc _ _ _ Hg d' Hold). lia.
  - intros j c [[-> ->] | Hc]%Hin; [|by apply (rep_pages _ _ Hr j)].
    destruct Hg. done.
Qed.

(** The bucket that new_bucket makes of [d] and the page [p]. *)
Definition fresh_mem (i : nat) (d p c : Z) (m : Z -> Z) : Z -> Z :=
  upd (next_field d) c
    (thread (fun o => o) (object i p) (per_page i - 1) 0
      (upd (page_field d) (page_addr p) (upd (freeptr_field d) (page_addr p)
        (clear_page (page_addr p)
          (upd (counts_field d) (65536 * size_of i)
            (upd (counts_field d) (65536 * (m (counts_field d) / 65536)) m)))))).

Lemma fresh_claims i d p c m : (i < 9)%nat -> claims m (fresh_mem i d p c m) d p.
Proof.
  intros Hi a Hd Hp. pose proof (size_facts i Hi). unfold in_desc in Hd. unfold fresh_mem.
  rewrite upd_ne by (unfold next_field; lia).
  rewrite thread_out by (intros j Hj; unfold object; nia).
  rewrite !upd_ne by (unfold page_field, freeptr_field; lia).
  rewrite clear_out by done. by rewrite !upd_ne by (unfold counts_field; lia).
Qed.
Lemma fresh_bucket_ok i d p c m : (i < 9)%nat -> 0 <= p ->
  ~ page_addr p <= d < page_addr p + 4096 -> ~ page_addr p <= d + 15 < page_addr p + 4096 ->
  bucket_ok (fresh_mem i d p c m) i (Bucket d p (objects i p)).
Proof.
  intros Hi Hp Hd Hd'. pose proof (size_facts i Hi) as (Hs1 & Hs2 & Hs3).
  assert (Ho : forall j k, (j <= per_page i - 1)%nat -> 0 <= k < 16 -> d + k <> object i p j)
    by (intros j k Hj Hk; unfold object; nia).
  split; simpl.
  - unfold fresh_mem, page_field. rewrite upd_ne by (unfold next_field; lia).
    rewrite thread_out; [apply upd_eq|]. intros j Hj. specialize (Ho j 0 Hj ltac:(lia)). lia.
  - assert (E : fresh_mem i d p c m (freeptr_field d) = object i p 0).
    { unfold fresh_mem. rewrite upd_ne by (unfold next_field, freeptr_field; lia).
      rewrite thread_out by (intros j Hj; apply Ho; [done|lia]).
      rewrite upd_ne, upd_eq by (unfold page_field, freeptr_field; lia). unfold object. lia. }
    rewrite E. eapply links_ext; [|replace (objects i p) with (object i p <$> seq 0 (per_page i - 1 + 1))
      by (unfold objects; do 2 f_equal; lia); apply (thread_links (fun o => o) (object i p))].
    + intros x (j & Hj & ->)%elem_of_objects. unfold fresh_mem. apply upd_ne.
      unfold next_field. apply not_eq_sym, Ho; lia.
    + intros j. unfold object, page_addr, LOW_MEM. nia.
    + intros j k. unfold object. nia.
  - unfold fresh_mem. rewrite upd_ne by (unfold next_field, counts_field; lia).
    rewrite thread_out by (intros j Hj; apply Ho; [done|lia]).
    rewrite !(upd_ne _ _ _ (counts_field d)) by (unfold page_field, freeptr_field, counts_field; lia).
    rewrite clear_out by (unfold counts_field; lia). rewrite upd_eq, length_objects.
    replace (per_page i - per_page i)%nat with 0%nat by lia. lia.
  - by apply NoDup_objects.
  - done.
Qed.

(** new_bucket, once there is a spare descriptor. *)
Definition fill_bucket (i : nat) : M kmem Z :=
  bdesc ← gets free_bucket_desc ;
  next ← kload (next_field bdesc) ;
  modify (fun s => s <| free_bucket_desc := next |>) ;;
  set_refcnt bdesc 0 ;;
  set_bucket_size bdesc (size_of i) ;;
  cp ← on_pages get_free_page ;
  kstore (freeptr_field bdesc) cp ;;
  kstore (page_field bdesc) cp ;;
  if cp =? 0 then panic "Out of memory in kernel malloc()" else
  let n := Z.to_nat (PAGE_SIZE / size_of i - 1) in
  for_each (seq 0 n) (fun j =>
    let cp := cp + size_of i * Z.of_nat j in kstore cp (cp + size_of i)) ;;
  kstore (cp + size_of i * Z.of_nat n) 0 ;;
  c ← gets (fun s => chain s i) ;
  kstore (next_field bdesc) c ;;
  modify (fun s => s <| chain ::= fun f j => if (j =? i)%nat then bdesc else f j |>) ;;
  mret bdesc.
Lemma new_bucket_eq i s w : new_bucket i s w =
  (gets free_bucket_desc ≫= fun f => when (f =? 0) init_bucket_desc ;; fill_bucket i) s w.
Proof. reflexivity. Qed.

Lemma cut_run i p n s w {B} (k : unit -> M kmem B) :
  (for_each (seq 0 n) (fun j => let cp := page_addr p + size_of i * Z.of_nat j in
      kstore cp (cp + size_of i)) ≫= fun _ =>
   kstore (page_addr p + size_of i * Z.of_nat n) 0 ≫= k) s w =
  k tt (with_mem (thread (fun o => o) (object i p) n 0 (mem (pages s))) s) w.
Proof.
  rewrite (for_each_ext _ (fun j => kstore (object i p j) (object i p (S j)))).
  2: { intros j. cbv zeta. unfold object. f_equal. lia. }
  rewrite (run_ret _ _ _ _ _ _ _ (fill_run _ _ _ _ _)). reflexivity.
Qed.

Definition bucket_counts (d i : Z) (m : Z -> Z) : Z -> Z :=
  upd (counts_field d) (65536 * i) (upd (counts_field d) (65536 * (m (counts_field d) / 65536)) m).
Lemma counts_run d i s w {B} (k : unit -> M kmem B) : 0 <= i < 65536 ->
  (set_refcnt d 0 ≫= fun _ => set_bucket_size d i ≫= k) s w =
  k tt (with_mem (bucket_counts d i (mem (pages s))) s) w.
Proof.
  intros Hi. run. unfold kput at 1. rewrite !mem_kput, upd_eq. unfold refcnt_of.
  replace ((u16 0 + 65536 * (mem (pages s) (counts_field d) / 65536)) mod 65536) with 0
    by (unfold u16; zlia).
  rewrite (u16_small i) by done. reflexivity.
Qed.

Lemma fill_bucket_run s h d rest i w : rep s h -> (i < 9)%nat -> spare h = d :: rest ->
  (exists msg s', fill_bucket i s w = Panicked msg s' /\ no_free_page (pages s)) \/
  (exists p s', fill_bucket i s w = Ret d s' w /\ highest_free (pages s) p /\
     rep s' (add_bucket i (Bucket d p (objects i p)) rest h) /\
     mem_map (pages s') = upd p 1 (mem_map (pages s)) /\
     claims (mem (pages s)) (mem (pages s')) d p).
Proof.
  intros Hr Hi Es. pose proof (size_facts i Hi) as (Hsz & Hsn & Hpp).
  pose proof (rep_spare _ _ Hr) as Hl. rewrite Es in Hl. destruct Hl as (Ed & _ & _).
  unfold fill_bucket. rewrite run_gets, Ed, run_kload, run_modify, counts_run by lia.
  set (s1 := with_mem _ _).
  destruct (grab_run s1 w) as [[E Hn] | (p & E & Hp)]; rewrite (run_ret _ _ _ _ _ _ _ E).
  { left. do 2 eexists. split; [reflexivity|exact Hn]. }
  right. destruct (rep_grab s h p Hr (proj1 Hp) (proj1 (proj2 Hp))) as [Hr1 Hg].
  pose proof (gr_range _ _ _ Hg) as Hpr. rewrite !run_kstore.
  rewrite (proj2 (Z.eqb_neq (page_addr p) 0)) by (pose proof (page_addr_pos p ltac:(lia)); lia).
  cbv zeta. replace (Z.to_nat (PAGE_SIZE / size_of i - 1)) with (per_page i - 1)%nat
    by (unfold per_page; lia).
  rewrite cut_run, run_gets, run_kstore, run_modify.
  exists p. eexists. split; [reflexivity|]. split; [exact Hp|].
  assert (Hd : ~ page_addr p <= d < page_addr p + 4096 /\ ~ page_addr p <= d + 15 < page_addr p + 4096).
  { assert (Hin : d ∈ spare h) by (rewrite Es; left).
    pose proof (desc_word_off_page _ _ _ d d Hr1 Hg (or_introl Hin)).
    pose proof (desc_word_off_page _ _ _ d (d + 15) Hr1 Hg (or_introl Hin)).
    unfold in_desc in *. lia. }
  pose proof (rep_add_bucket (with_page p s) h p d rest i (objects i p)
    (fresh_mem i d p (chain s i) (mem (pages s))) Hr1 Hg Hi Es) as Hadd.
  assert (Hcl : claims (mem (pages (with_page p s)))
    (fresh_mem i d p (chain s i) (mem (pages s))) d p).
  { intros a Ha Hap. rewrite (fresh_claims i d p _ _ Hi a Ha Hap). symmetry. by apply clear_out. }
  assert (En : mem (pages (with_page p s)) (next_field d) = mem (pages s) (next_field d)).
  { apply clear_out. apply (desc_word_off_page _ h p d (next_field d) Hr1 Hg);
      [left; rewrite Es; left|unfold in_desc, next_field; lia]. }
  rewrite En in Hadd. split; [|split].
  - apply Hadd; [exact Hcl|apply upd_eq|]. apply fresh_bucket_ok; [done|lia|apply Hd..].
  - reflexivity.
  - exact (fresh_claims i d p (chain s i) (mem (pages s)) Hi).
Qed.

(** Less than two pages of main memory are free. *)
Definition short_of_pages (s : mm) : Prop := forall p q, 0 <= p < PAGING_PAGES ->
  0 <= q < PAGING_PAGES -> mem_map s p = 0 -> mem_map s q = 0 -> p = q.
(** [a] is a word of a descriptor of the heap, or of a page that nobody uses. *)
Definition in_free_page (s : mm) (a : Z) : Prop :=
  exists p, 0 <= p < PAGING_PAGES /\ mem_map s p = 0 /\ page_addr p <= a < page_addr p + 4096.
Definition bookkeeping (s : mm) (h : heap) (a : Z) : Prop :=
  (exists d, (d ∈ spare h \/ exists i b, bucket_in h i b /\ d = desc b) /\ in_desc d a) \/
  in_free_page s a.
(** Pages are taken from main memory only, and counted once. *)
Definition takes_pages (s s' : mm) : Prop :=
  forall q, mem_map s' q <> mem_map s q -> mem_map s q = 0 /\ mem_map s' q = 1.

Lemma no_free_short s : no_free_page s -> short_of_pages s.
Proof. intros H p q Hp _ E. by destruct (H p Hp). Qed.
Lemma takes_one p s s' : mem_map s p = 0 -> mem_map s' = upd p 1 (mem_map s) -> takes_pages s s'.
Proof.
  intros H E q. rewrite E. unfold upd. destruct (Z.eqb_spec q p) as [-> | ]; [by rewrite H|done].
Qed.

(** What new_bucket does: it panics for want of pages, or adds a bucket. *)
Definition adds_bucket (s : kmem) (h : heap) (i : nat) (w : world kmem)
    (o : outcome kmem Z) : Prop :=
  (exists msg s', o = Panicked msg s' /\ short_of_pages (pages s)) \/
  (exists d p rest s', o = Ret d s' w /\
     rep s' (add_bucket i (Bucket d p (objects i p)) rest h) /\
     0 <= p < PAGING_PAGES /\ mem_map (pages s) p = 0 /\ takes_pages (pages s) (pages s') /\
     forall a, mem (pages s') a <> mem (pages s) a \/ in_desc d a -> bookkeeping (pages s) h a).

Lemma new_bucket_spare s h d rest i w : rep s h -> (i < 9)%nat -> spare h = d :: rest ->
  adds_bucket s h i w (fill_bucket i s w).
Proof.
  intros Hr Hi Es.
  destruct (fill_bucket_run s h d rest i w Hr Hi Es)
    as [(msg & s2 & E2 & Hn) | (p & s2 & E2 & Hp & Hr2 & Hm2 & Hc2)].
  { left. exists msg, s2. split; [done|by apply no_free_short]. }
  right. destruct Hp as (Hpr & Hp0 & _).
  exists d, p, rest, s2. do 4 (split; [done|]). split; [by apply (takes_one p)|].
  intros a Ha. destruct (decide (d <= a < d + 16)).
  { left. exists d. split; [left; rewrite Es; left|done]. }
  destruct Ha as [Ha|]; [|done]. right. exists p. split; [done|]. split; [done|].
  destruct (decide (page_addr p <= a < page_addr p + 4096)); [done|]. exfalso.
  apply Ha. by apply Hc2.
Qed.
Lemma new_bucket_no_spare s h i w : rep s h -> (i < 9)%nat -> spare h = [] ->
  adds_bucket s h i w ((init_bucket_desc ;; fill_bucket i) s w).
Proof.
  intros Hr Hi Es.
  destruct (init_run s h w Hr Es) as [(msg & s1 & E & Hn) | (p1 & s1 & E & Hp1 & Hr1 & Hm1 & Hc1)].
  { left. exists msg, s1. rewrite (run_panicked _ _ _ _ _ _ E). split; [done|by apply no_free_short]. }
  rewrite (run_ret _ _ _ _ _ _ _ E). destruct Hp1 as (Hp1r & Hp10 & _).
  set (rest := place p1 <$> seq 1 255 : list Z).
  destruct (fill_bucket_run s1 _ (place p1 0) rest i w Hr1 Hi eq_refl)
    as [(msg & s2 & E2 & Hn) | (p & s2 & E2 & (Hpr & Hp0 & _) & Hr2 & Hm2 & Hc2)].
  - left. exists msg, s2. split; [done|]. intros p q Hp Hq Ep Eq.
    assert (Hone : forall x, 0 <= x < PAGING_PAGES -> mem_map (pages s) x = 0 -> x = p1).
    { intros x Hx Ex. destruct (decide (x = p1)) as [|Hne]; [done|]. exfalso.
      apply (Hn x Hx). by rewrite Hm1, upd_ne. }
    by rewrite (Hone p), (Hone q).
  - right. rewrite Hm1 in Hp0.
    assert (Hne : p <> p1) by (intros ->; by rewrite upd_eq in Hp0). rewrite upd_ne in Hp0 by done.
    exists (place p1 0), p, rest, s2. do 4 (split; [done|]). split.
    + intros q. rewrite Hm2, Hm1. unfold upd.
      destruct (Z.eqb_spec q p) as [-> | ]; [by rewrite Hp0|].
      destruct (Z.eqb_spec q p1) as [-> | ]; [by rewrite Hp10|done].
    + intros a Ha. right. destruct (decide (page_addr p <= a < page_addr p + 4096)); [by exists p|].
      exists p1. split; [done|]. split; [done|].
      destruct (decide (page_addr p1 <= a < page_addr p1 + 4096)) as [|Hn]; [done|]. exfalso.
      destruct Ha as [Ha | Ha]; [|unfold in_desc, place in Ha; lia]. apply Ha. rewrite Hc2; [by apply Hc1| |done]. unfold in_desc, place. lia.
Qed.
Lemma new_bucket_run s h i w : rep s h -> (i < 9)%nat -> adds_bucket s h i w (new_bucket i s w).
Proof.
  intros Hr Hi. rewrite new_bucket_eq, run_gets. pose proof (rep_spare _ _ Hr) as Hl.
  destruct (spare h) as [|d rest] eqn:Es.
  - simpl in Hl. rewrite Hl. by apply new_bucket_no_spare.
  - destruct Hl as (Hf & Hd0 & _). rewrite Hf, (proj2 (Z.eqb_neq d 0)) by done.
    by apply (new_bucket_spare s h d rest).
Qed.

(** ** Searching *)

Lemma find_dir_from n : forall i len,
  match find_dir n i len with
  | Some k => (i <= k < i + n)%nat /\ len <= size_of k /\
      forall j, (i <= j < k)%nat -> size_of j < len
  | None => forall j, (i <= j < i + n)%nat -> size_of j < len
  end.
Proof.
  induction n as [|n IH]; intros i len; [cbn; lia|]. cbn [find_dir].
  destruct (Z.leb_spec len (size_of i)) as [|Hlt]; [split; [lia|split; [done|lia]]|].
  specialize (IH (S i) len). destruct (find_dir n (S i) len) as [k|].
  - destruct IH as (H1 & H2 & H3). split; [lia|]. split; [done|]. intros j Hj.
    destruct (decide (j = i)) as [-> | ]; [done|apply H3; lia].
  - intros j Hj. destruct (decide (j = i)) as [-> | ]; [done|apply IH; lia].
Qed.
(** The smallest size that fits; there is one up to a page. *)
Lemma find_dir_spec len :
  match find_dir 9 0 len with
  | Some i => (i < 9)%nat /\ len <= size_of i /\ forall j, (j < i)%nat -> size_of j < len
  | None => 4096 < len
  end.
Proof.
  pose proof (find_dir_from 9 0 len) as H. destruct (find_dir 9 0 len) as [i|].
  - destruct H as (H1 & H2 & H3). split; [lia|]. split; [done|]. intros j Hj. apply H3. lia.
  - apply (H 8%nat). lia.
Qed.

(** Distinct numbers below [n] are at most [n]. *)
Lemma NoDup_length_le (l : list nat) n : NoDup l -> (forall x, x ∈ l -> (x < n)%nat) ->
  (length l <= n)%nat.
Proof.
  intros Hd Hl. replace n with (length (seq 0 n)) by apply length_seq. apply submseteq_length, NoDup_submseteq; [done|].
  intros x Hx. apply elem_of_seq. specialize (Hl x Hx). lia.
Qed.
Lemma desc_number p j : 0 <= j < 256 -> (page_addr p + 16 * j - LOW_MEM) / 16 = 256 * p + j.
Proof. intros Hj. unfold page_addr. zlia. Qed.
Lemma dir_length s h i : rep s h -> (i < 9)%nat ->
  (length (desc <$> buckets h i) < DESC_FUEL)%nat.
Proof.
  intros Hr Hi. set (num := fun d => Z.to_nat ((d - LOW_MEM) / 16)).
  assert (Hpl : forall d, d ∈ desc <$> buckets h i -> desc_place (pages s) h d).
  { intros d (b & -> & Hb)%list_elem_of_fmap. apply (rep_place _ _ Hr). right. by exists i, b. }
  assert (Hn : NoDup (num <$> (desc <$> buckets h i))).
  { apply NoDup_fmap_2_strong; [|by apply (rep_nodup _ _ Hr)]. intros d d' Hd Hd' E.
    destruct (Hpl d Hd) as (q & k & Hq & Hk & -> & _), (Hpl d' Hd') as (q' & k' & Hq' & Hk' & -> & _).
    unfold num in E. rewrite !desc_number in E by done. f_equal; [f_equal|]; lia. }
  apply NoDup_length_le with (n := Z.to_nat (PAGING_PAGES * 256)) in Hn.
  - rewrite length_fmap in Hn. unfold DESC_FUEL, PAGING_PAGES in *. lia.
  - intros x (d & -> & Hd)%list_elem_of_fmap.
    destruct (Hpl d Hd) as (q & k & Hq & Hk & -> & _). unfold num, PAGING_PAGES in *.
    rewrite desc_number by done. lia.
Qed.

Lemma find_space_spec m d l fuel : links (fun d => m (next_field d)) d l -> (length l < fuel)%nat ->
  (find_space fuel m d = Some 0 /\ forall x, x ∈ l -> m (freeptr_field x) = 0) \/
  (exists r l1 l2, find_space fuel m d = Some r /\ r <> 0 /\ l = l1 ++ r :: l2 /\
     m (freeptr_field r) <> 0).
Proof.
  revert d fuel. induction l as [|x l IH]; intros d fuel Hl Hf; (destruct fuel as [|fuel]; [simpl in Hf; lia|]).
  - left. simpl in Hl. subst d. split; [done|]. intros x Hx. by apply not_elem_of_nil in Hx.
  - destruct Hl as (-> & Hx0 & Hl). cbn [find_space]. rewrite (proj2 (Z.eqb_neq x 0)) by done.
    unfold truth. destruct (Z.eqb_spec (m (freeptr_field x)) 0) as [E|E]; cbn [negb].
    + destruct (IH _ fuel Hl ltac:(simpl in Hf; lia)) as [[H1 H2] | (r & l1 & l2 & H1 & H2 & -> & H4)].
      * left. split; [done|]. intros y [-> | Hy]%elem_of_cons; auto.
      * right. by exists r, (x :: l1), l2.
    + right. by exists x, [], l.
Qed.
Lemma find_page_spec m page d prev l fuel : links (fun d => m (next_field d)) d l ->
  (length l < fuel)%nat ->
  (find_page fuel m page d prev = Some None /\ forall x, x ∈ l -> m (page_field x) <> page) \/
  (exists r l1 l2, l = l1 ++ r :: l2 /\ m (page_field r) = page /\
     find_page fuel m page d prev = Some (Some (r, default prev (last l1)))).
Proof.
  revert d prev fuel. induction l as [|x l IH]; intros d prev fuel Hl Hf;
    (destruct fuel as [|fuel]; [simpl in Hf; lia|]).
  - left. simpl in Hl. subst d. split; [done|]. intros x Hx. by apply not_elem_of_nil in Hx.
  - destruct Hl as (-> & Hx0 & Hl). cbn [find_page]. rewrite (proj2 (Z.eqb_neq x 0)) by done.
    destruct (Z.eqb_spec (m (page_field x)) page) as [E|E].
    + right. by exists x, [], l.
    + destruct (IH _ x fuel Hl ltac:(simpl in Hf; lia)) as [[H1 H2] | (r & l1 & l2 & -> & H2 & H3)].
      * left. split; [done|]. intros y [-> | Hy]%elem_of_cons; auto.
      * right. exists r, (x :: l1), l2. split; [done|]. split; [done|]. rewrite H3. do 3 f_equal.
        destruct l1 as [|y l1]; [done|]. change (last (x :: y :: l1)) with (last (y :: l1)).
        destruct (last (y :: l1)) eqn:E1; [done|]. by apply last_None in E1.
Qed.
(** A descriptor in the chain of a size is that of a bucket. *)
Lemma chain_split h i l1 d l2 : desc <$> buckets h i = l1 ++ d :: l2 ->
  exists b1 b b2, buckets h i = b1 ++ b :: b2 /\ desc b = d /\ l1 = desc <$> b1 /\ l2 = desc <$> b2.
Proof.
  intros (b1 & c & -> & E & ->)%fmap_app_inv. symmetry in E.
  apply fmap_cons_inv in E as (b & b2 & -> & -> & ->). by exists b1, b, b2.
Qed.
