(* ===== verification/Alloc.v ===== *)
(** What [Malloc.malloc] and [Malloc.free_s] do to the heap of [Heap]: theorems. *)
From S2P Require Import Prelude Sched Mm Malloc Heap.

#[local] Arguments DESC_FUEL : simpl never.
#[local] Arguments page_addr : simpl never.

(** ** The objects in use *)

(** A page has one bucket. *)
Lemma own_bucket s h i b j c x y : rep s h -> bucket_in h i b -> bucket_in h j c ->
  x ∈ objects i (bpage b) -> y ∈ objects j (bpage c) -> page_addr (bpage b) <= y < page_addr (bpage b) + 4096 ->
  i = j /\ b = c.
Proof.
  intros Hr Hb Hc Hx Hy Hin. pose proof (object_in_page _ _ _ (proj1 Hc) Hy).
  pose proof (size_facts j (proj1 Hc)). apply (rep_apart _ _ Hr); [done..|right].
  unfold page_addr in *. lia.
Qed.
Lemma own_object s h i b c x : rep s h -> bucket_in h i b -> bucket_in h i c ->
  x ∈ objects i (bpage b) -> x ∈ objects i (bpage c) -> b = c.
Proof.
  intros Hr Hb Hc Hx Hy. pose proof (object_in_page _ _ _ (proj1 Hb) Hx).
  pose proof (size_facts i (proj1 Hb)). apply (own_bucket s h i b i c x x); try done. lia.
Qed.
Lemma live_here s h i b x : rep s h -> bucket_in h i b -> x ∈ objects i (bpage b) ->
  live h i x <-> x ∉ bfree b.
Proof.
  intros Hr Hb Hx. split; [|by exists b]. intros (c & Hc & Hx' & Hn).
  by rewrite (own_object s h i b c x).
Qed.
Lemma live_set_chain s h i l1 b l2 f j x : rep s h -> (i < 9)%nat ->
  buckets h i = l1 ++ b :: l2 ->
  live (set_chain i (l1 ++ Bucket (desc b) (bpage b) f :: l2) h) j x <->
  if decide (j = i /\ x ∈ objects i (bpage b)) then x ∉ f else live h j x.
Proof.
  intros Hr Hi El. pose proof (bucket_in_mid h i l1 b l2 Hi El) as Hb.
  pose proof (rep_nodup _ _ Hr i Hi) as Hd. rewrite El in Hd. split.
  - intros (c & Hc & Hx & Hn). destruct (set_chain_old _ _ _ _ _ _ _ _ Hd El Hc) as [[-> ->] | [Hc0 Hne]].
    + simpl in *. by rewrite decide_True.
    + rewrite decide_False; [by exists c|]. intros [-> Hx']. apply Hne. f_equal.
      by apply (own_object s h i b c x).
  - destruct (decide _) as [[-> Hx] | Hn].
    + intros Hf. exists (Bucket (desc b) (bpage b) f). split; [|done].
      apply bucket_in_set_chain. rewrite decide_True; set_solver.
    + intros (c & [Hj Hc] & Hx & Hf). exists c. split; [|done]. apply bucket_in_set_chain. split; [done|].
      destruct (decide (j = i)) as [-> | Hne]; [|done]. rewrite El in Hc.
      apply elem_of_app in Hc as [?|[->|?]%elem_of_cons]; [set_solver|by destruct Hn|set_solver].
Qed.
Lemma live_take s h i l1 b l2 o rest : rep s h -> (i < 9)%nat -> buckets h i = l1 ++ b :: l2 ->
  bfree b = o :: rest ->
  ~ live h i o /\
  forall j x, live (set_chain i (l1 ++ Bucket (desc b) (bpage b) rest :: l2) h) j x <->
    live h j x \/ (j = i /\ x = o).
Proof.
  intros Hr Hi El Ef. pose proof (bucket_in_mid h i l1 b l2 Hi El) as Hb.
  pose proof (rep_bucket _ _ Hr i b Hb) as [_ _ _ Hd Hs]. rewrite Ef in Hd, Hs.
  apply NoDup_cons in Hd as [Ho _].
  assert (Hob : o ∈ objects i (bpage b)) by (apply Hs; left).
  split; [rewrite (live_here s h i b o), Ef by done; set_solver|].
  intros j x. rewrite (live_set_chain s) by done. destruct (decide _) as [[-> Hx] | Hn].
  - rewrite (live_here s h i b x), Ef by done. destruct (decide (x = o)) as [-> | ]; set_solver.
  - split; [by left|]. intros [? | [-> ->]]; [done|]. by destruct Hn.
Qed.
Lemma live_put s h i l1 b l2 o : rep s h -> (i < 9)%nat -> buckets h i = l1 ++ b :: l2 ->
  o ∈ objects i (bpage b) ->
  forall j x, live (set_chain i (l1 ++ Bucket (desc b) (bpage b) (o :: bfree b) :: l2) h) j x <->
    live h j x /\ (j, x) <> (i, o).
Proof.
  intros Hr Hi El Ho j x. pose proof (bucket_in_mid h i l1 b l2 Hi El) as Hb.
  rewrite (live_set_chain s) by done. destruct (decide _) as [[-> Hx] | Hn].
  - rewrite (live_here s h i b x) by done. destruct (decide (x = o)) as [-> | Hne]; [set_solver|].
    rewrite not_elem_of_cons. naive_solver.
  - split; [|by intros [? _]]. intros Hl. split; [done|]. intros [= -> ->]. by destruct Hn.
Qed.
Lemma live_add i d p rest h j x : (i < 9)%nat ->
  live (add_bucket i (Bucket d p (objects i p)) rest h) j x <-> live h j x.
Proof.
  intros Hi. unfold live. split.
  - intros (c & [[-> ->] | Hc]%bucket_in_add & Hx & Hn); [done|by exists c|done].
  - intros (c & Hc & Hx). exists c. split; [|done]. apply bucket_in_add; auto.
Qed.

(** Live objects are apart from each other and from the allocator's own memory. *)
Lemma live_apart s h i x j y : rep s h -> live h i x -> live h j y -> (i, x) <> (j, y) ->
  x + size_of i <= y \/ y + size_of j <= x.
Proof.
  intros Hr (b & Hb & Hx & _) (c & Hc & Hy & _) Hne.
  pose proof (object_in_page _ _ _ (proj1 Hb) Hx). pose proof (object_in_page _ _ _ (proj1 Hc) Hy).
  pose proof (size_facts i (proj1 Hb)). pose proof (size_facts j (proj1 Hc)).
  destruct (decide (bpage b = bpage c)) as [E | ]; [|unfold page_addr in *; lia].
  destruct (rep_apart _ _ Hr i b j c Hb Hc (or_intror E)) as [-> ->].
  apply (object_apart j (bpage c)); [apply Hb|done..|congruence].
Qed.
Lemma live_not_bookkeeping s h j x a : rep s h -> live h j x -> x <= a < x + size_of j ->
  ~ bookkeeping (pages s) h a.
Proof.
  intros Hr (c & Hc & Hx & _) Ha. pose proof (object_in_page _ _ _ (proj1 Hc) Hx).
  intros [(d & Hd & Hda) | (p & Hp & Hp0 & Hpa)].
  - apply (desc_not_in_page (pages s) h d a (bpage c)); [by apply (rep_place _ _ Hr)|done|by exists j, c|lia].
  - destruct (rep_pages _ _ Hr j c Hc) as (_ & H1 & _).
    assert (p = bpage c) as -> by (unfold page_addr in *; lia). congruence.
Qed.

(** ** malloc *)

(** An object of the size [i] is handed out: from [s] with the heap [h] to [s']. *)
Record hands_out (s : kmem) (h : heap) (i : nat) (p : Z) (s' : kmem) (h' : heap) : Prop := {
  ho_rep : rep s' h';
  ho_new : ~ live h i p;
  ho_live : forall j x, live h' j x <-> live h j x \/ (j = i /\ x = p);
  ho_kept : forall a, ~ bookkeeping (pages s) h a -> mem (pages s') a = mem (pages s) a;
  ho_pages : takes_pages (pages s) (pages s');
}.

Lemma take_hands_out s h i l1 b l2 w : rep s h -> (i < 9)%nat -> buckets h i = l1 ++ b :: l2 ->
  bfree b <> [] -> exists p s' h', take_object (desc b) s w = Ret p s' w /\ hands_out s h i p s' h'.
Proof.
  intros Hr Hi El Ef. destruct (bfree b) as [|o rest] eqn:E; [done|].
  destruct (take_object_run s h i l1 b l2 o rest w Hr Hi El E) as (m & Em & Hr' & Hm).
  destruct (live_take s h i l1 b l2 o rest Hr Hi El E) as [Hn Hl].
  exists o, (with_mem m s). eexists. split; [done|]. split; [exact Hr'|done|done| |by intros q Hq].
  intros a Ha. apply Hm. intros Hd. apply Ha. left. exists (desc b). split; [|done].
  right. exists i, b. split; [|done]. by apply (bucket_in_mid h i l1 b l2).
Qed.

(** The search of malloc finds a bucket with a free object, or there is none. *)
Lemma malloc_search s h i : rep s h -> (i < 9)%nat ->
  find_space DESC_FUEL (mem (pages s)) (chain s i) = Some 0 \/
  (exists b l1 l2, find_space DESC_FUEL (mem (pages s)) (chain s i) = Some (desc b) /\ desc b <> 0 /\
     buckets h i = l1 ++ b :: l2 /\ bfree b <> []).
Proof.
  intros Hr Hi.
  destruct (find_space_spec _ _ _ DESC_FUEL (rep_chain _ _ Hr i Hi) (dir_length s h i Hr Hi))
    as [[E _] | (r & d1 & d2 & E & Hr0 & El & Hf)]; [by left|right].
  apply chain_split in El as (b1 & b & b2 & El & <- & _ & _). exists b, b1, b2.
  do 3 (split; [done|]). pose proof (bucket_in_mid h i b1 b b2 Hi El) as Hb.
  pose proof (bo_free _ _ _ (rep_bucket _ _ Hr i b Hb)) as Hl. by apply (links_nonnull _ _ _ Hl).
Qed.
Lemma objects_head i p : (1 <= per_page i)%nat ->
  objects i p = object i p 0 :: (object i p <$> seq 1 (per_page i - 1)).
Proof.
  unfold objects. generalize (per_page i). intros [|n] Hn; [lia|]. cbn [seq fmap list_fmap].
  do 2 f_equal. replace (S n - 1)%nat with n by lia. reflexivity.
Qed.
(** A new bucket, and its first object. *)
Lemma fresh_hands_out s h i w : rep s h -> (i < 9)%nat ->
  (exists msg s', (new_bucket i ≫= take_object) s w = Panicked msg s' /\ short_of_pages (pages s)) \/
  (exists p s' h', (new_bucket i ≫= take_object) s w = Ret p s' w /\ hands_out s h i p s' h').
Proof.
  intros Hr Hi. pose proof (size_facts i Hi) as (Hsz & Hsn & Hpp).
  destruct (new_bucket_run s h i w Hr Hi)
    as [(msg & s' & E & Hs) | (d & p & rest & s1 & E & Hr1 & Hp & Hp0 & Ht & Hk)].
  { left. exists msg, s'. by rewrite (run_panicked _ _ _ _ _ _ E). }
  right. rewrite (run_ret _ _ _ _ _ _ _ E). set (b := Bucket d p (objects i p)) in *.
  assert (El : buckets (add_bucket i b rest h) i = [] ++ b :: buckets h i)
    by (simpl; by rewrite decide_True).
  assert (Eo : bfree b = object i p 0 :: (object i p <$> seq 1 (per_page i - 1))).
  { subst b. cbn [bfree]. apply objects_head. lia. }
  destruct (take_object_run s1 _ i [] b _ _ _ w Hr1 Hi El Eo) as (m & Em & Hr' & Hm).
  destruct (live_take s1 _ i [] b _ _ _ Hr1 Hi El Eo) as [Hn Hl].
  exists (object i p 0), (with_mem m s1). eexists. split; [done|].
  pose proof (fun j x => live_add i d p rest h j x Hi) as La. fold b in La.
  split; [exact Hr'|by rewrite La in Hn| | |done].
  - intros j x. by rewrite (Hl j x), La.
  - intros a Ha. change (m a = mem (pages s) a).
    assert (Hd : ~ in_desc d a) by (intros Hd; apply Ha, Hk; by right).
    rewrite Hm by done. destruct (decide (mem (pages s1) a = mem (pages s) a)) as [|Hne]; [done|].
    exfalso. apply Ha, Hk. by left.
Qed.
Lemma malloc_run s h i len w : rep s h -> find_dir 9 0 len = Some i -> (i < 9)%nat ->
  (exists msg s', malloc len s w = Panicked msg s' /\ short_of_pages (pages s)) \/
  (exists p s' h', malloc len s w = Ret p s' w /\ hands_out s h i p s' h').
Proof.
  intros Hr Ed Hi. unfold malloc. rewrite Ed, run_get.
  destruct (malloc_search s h i Hr Hi) as [E | (b & l1 & l2 & E & Hd & El & Hf)]; rewrite E.
  - rewrite Z.eqb_refl. by apply fresh_hands_out.
  - right. rewrite (proj2 (Z.eqb_neq _ _)), run_mret by done. by apply (take_hands_out s h i l1 b l2).
Qed.
Lemma hands_out_apart s h i p s' h' j x : hands_out s h i p s' h' -> live h j x ->
  p + size_of i <= x \/ x + size_of j <= p.
Proof.
  intros [Hr Hn Hl _ _] Hx. apply (live_apart s' h'); [done|apply Hl; by right|apply Hl; by left|].
  by intros [= -> ->].
Qed.
(** No size fits. *)
Lemma malloc_too_large len s w : 4096 < len -> malloc len s w = Panicked "malloc: bad arg" s.
Proof.
  intros H. unfold malloc. pose proof (find_dir_spec len) as Hf.
  destruct (find_dir 9 0 len) as [i|]; [|done]. destruct Hf as (Hi & Hl & _).
  pose proof (size_facts i Hi). lia.
Qed.

(** C11. kernel/lib/malloc.c malloc on a heap: a length up to a page gets an object of the
    smallest size that fits, which was not in use, lies apart from every object in use,
    and is in use from now on with all the others, whose memory is untouched; pages are
    taken from free ones only.  It panics only when fewer than two pages of main memory
    are free, and when the length is more than a page. *)
Theorem malloc_spec len s h w : rep s h ->
  match malloc len s w with
  | Ret p s' w' =>
      len <= 4096 /\ w' = w /\
      exists i h', (i < 9)%nat /\ len <= size_of i /\ (forall j, (j < i)%nat -> size_of j < len) /\
        rep s' h' /\ ~ live h i p /\
        (forall j x, live h' j x <-> live h j x \/ (j = i /\ x = p)) /\
        (forall j x, live h j x ->
           (p + size_of i <= x \/ x + size_of j <= p) /\
           forall a, x <= a < x + size_of j -> mem (pages s') a = mem (pages s) a) /\
        takes_pages (pages s) (pages s')
  | Panicked msg _ => (4096 < len /\ msg = "malloc: bad arg"%string) \/ short_of_pages (pages s)
  | _ => False
  end.
Proof.
  intros Hr. destruct (Z.le_gt_cases len 4096) as [Hle | Hgt].
  - pose proof (find_dir_spec len) as Hf. destruct (find_dir 9 0 len) as [i|] eqn:Ed; [|lia].
    destruct Hf as (Hi & Hs & Hleast).
    destruct (malloc_run s h i len w Hr Ed Hi) as [(msg & s' & -> & Hsh) | (p & s' & h' & -> & Ho)];
      [by right|].
    split; [done|]. split; [done|]. pose proof (fun j x => hands_out_apart _ _ _ _ _ _ j x Ho) as Hap.
    destruct Ho as [Hr' Hn Hl Hk Ht].
    exists i, h'. do 6 (split; [done|]). split; [|done]. intros j x Hx. split; [by apply Hap|].
    intros a Ha. apply Hk. by apply (live_not_bookkeeping s h j x).
  - rewrite malloc_too_large by done. by left.
Qed.

(** ** Giving a bucket back *)

Definition drop_bucket (i : nat) (l1 : list bucket) (b : bucket) (l2 : list bucket) (h : heap) : heap :=
  Heap (fun j => if decide (j = i) then l1 ++ l2 else buckets h j) (desc b :: spare h).
(** [d] is a descriptor of the heap. *)
Definition is_desc (h : heap) (d : Z) : Prop :=
  d ∈ spare h \/ exists i b, bucket_in h i b /\ d = desc b.

Lemma bucket_in_drop s h i l1 b l2 j c : rep s h -> (i < 9)%nat -> buckets h i = l1 ++ b :: l2 ->
  bucket_in (drop_bucket i l1 b l2 h) j c <-> bucket_in h j c /\ (j, c) <> (i, b).
Proof.
  intros Hr Hi El. pose proof (rep_nodup _ _ Hr i Hi) as Hd. rewrite El, fmap_app, fmap_cons in Hd.
  apply NoDup_app in Hd as (_ & Hd1 & [Hd2 _]%NoDup_cons).
  unfold bucket_in, drop_bucket. cbn [buckets]. destruct (decide (j = i)) as [-> | Hne].
  - rewrite El. rewrite !elem_of_app, elem_of_cons. split.
    + intros [Hj Hc]. split; [naive_solver|]. intros [= ->]. destruct Hc as [Hc | Hc].
      * apply (Hd1 (desc b)); [by apply list_elem_of_fmap_2|left].
      * by apply Hd2, list_elem_of_fmap_2.
    + intros [[Hj Hc] Hn]. split; [done|]. destruct Hc as [?|[->|?]]; auto. by destruct Hn.
  - split; [|by intros [? _]]. intros Hc. split; [done|congruence].
Qed.
(** The words that hold the links of the chains belong to nothing else. *)
Lemma next_word_apart s h j c d a : rep s h -> bucket_in h j c -> is_desc h d ->
  a = page_field (desc c) \/ a = freeptr_field (desc c) \/ a = counts_field (desc c) \/ a ∈ bfree c ->
  a <> next_field d.
Proof.
  intros Hr Hc Hd Ha E.
  assert (Hin : in_desc d a) by (subst a; unfold in_desc, next_field; lia).
  destruct (decide (a ∈ bfree c)) as [Hf | Hf].
  - apply (bo_sub _ _ _ (rep_bucket _ _ Hr j c Hc)) in Hf.
    pose proof (object_in_page _ _ _ (proj1 Hc) Hf). pose proof (size_facts j (proj1 Hc)).
    apply (desc_not_in_page (pages s) h d a (bpage c)); [by apply (rep_place _ _ Hr)|done|by exists j, c|lia].
  - assert (d = desc c) as ->.
    { apply (desc_apart (pages s) h d (desc c) a); [by apply (rep_place _ _ Hr)| |done|].
      - apply (rep_place _ _ Hr). right. by exists j, c.
      - unfold in_desc, page_field, freeptr_field, counts_field in *. destruct Ha as [?|[?|[?|?]]]; [lia..|done]. }
    unfold next_field, page_field, freeptr_field, counts_field in *. destruct Ha as [?|[?|[?|?]]]; [lia..|done].
Qed.

(** [b] out of its chain and at the head of the free descriptors, its page free. *)
Record drops (s : kmem) (h : heap) (i : nat) (l1 : list bucket) (b : bucket) (s' : kmem) : Prop := {
  dr_high : HIGH_MEMORY (pages s') = HIGH_MEMORY (pages s);
  dr_map : forall q, mem_map (pages s') q = if decide (q = bpage b) then 0 else mem_map (pages s) q;
  dr_chain : forall j, chain s' j = if decide (j = i /\ l1 = []) then mem (pages s) (next_field (desc b)) else chain s j;
  dr_spare : free_bucket_desc s' = desc b;
  dr_next : forall d, is_desc h d -> mem (pages s') (next_field d) =
    if decide (d = desc b) then free_bucket_desc s
    else if decide (last (desc <$> l1) = Some d) then mem (pages s) (next_field (desc b))
    else mem (pages s) (next_field d);
  dr_mem : forall a, (forall d, is_desc h d -> a <> next_field d) -> mem (pages s') a = mem (pages s) a;
}.

Section drop.
Context (s s' : kmem) (h : heap) (i : nat) (l1 : list bucket) (b : bucket) (l2 : list bucket).
Context (Hr : rep s h) (Hi : (i < 9)%nat) (El : buckets h i = l1 ++ b :: l2).
Context (Hs : drops s h i l1 b s').

Lemma drop_chain j : (j < 9)%nat -> links (fun d => mem (pages s') (next_field d)) (chain s' j)
  (desc <$> buckets (drop_bucket i l1 b l2 h) j).
Proof using All.
  intros Hj. pose proof (bucket_in_mid h i l1 b l2 Hi El) as Hb. rewrite (dr_chain _ _ _ _ _ _ Hs).
  unfold drop_bucket. cbn [buckets]. pose proof (rep_chain _ _ Hr j Hj) as Hl.
  assert (Hdesc : forall d, d ∈ desc <$> buckets h j -> is_desc h d).
  { intros d (c & -> & Hc)%list_elem_of_fmap. right. by exists j, c. }
  destruct (decide (j = i)) as [-> | Hne].
  - pose proof (rep_nodup _ _ Hr i Hi) as Hd. rewrite El, fmap_app, fmap_cons in Hl, Hd, Hdesc.
    pose proof (links_remove _ (fun d => mem (pages s') (next_field d)) _ _ _ _ Hd Hl) as H.
    apply NoDup_app in Hd as (_ & Hd1 & [Hd2 _]%NoDup_cons). rewrite fmap_app.
    replace (if decide (i = i /\ l1 = []) then _ else _)
      with (if decide (desc <$> l1 = []) then mem (pages s) (next_field (desc b)) else chain s i)
      by (destruct l1; [by rewrite !decide_True|by rewrite !decide_False by naive_solver]).
    apply H. intros y Hy. rewrite (dr_next _ _ _ _ _ _ Hs) by (apply Hdesc; set_solver).
    rewrite decide_False; [done|]. intros ->. apply elem_of_app in Hy as [Hy|Hy]; [|done].
    apply (Hd1 _ Hy). left.
  - rewrite decide_False by naive_solver. eapply links_ext; [|exact Hl]. intros d Hd.
    rewrite (dr_next _ _ _ _ _ _ Hs) by auto. apply list_elem_of_fmap in Hd as (c & -> & Hc).
    assert (Hap : forall c', bucket_in h i c' -> desc c <> desc c').
    { intros c' Hc' E. by destruct (rep_apart _ _ Hr j c i c' (conj Hj Hc) Hc' (or_introl E)). }
    rewrite !decide_False; [done| |by apply Hap].
    rewrite fmap_last. destruct (last l1) as [c'|] eqn:E; [|done]. intros [= E'].
    apply (Hap c'); [|done]. split; [done|]. rewrite El. apply elem_of_app. left. by apply last_Some_elem_of.
Qed.
Lemma drop_spare : links (fun d => mem (pages s') (next_field d)) (free_bucket_desc s')
  (desc b :: spare h).
Proof using All.
  pose proof (bucket_in_mid h i l1 b l2 Hi El) as Hb.
  assert (Hdb : is_desc h (desc b)) by (right; by exists i, b).
  split; [apply Hs|]. split; [pose proof (desc_place_pos _ _ _ (rep_place _ _ Hr _ Hdb)); lia|].
  rewrite (dr_next _ _ _ _ _ _ Hs), decide_True by done.
  eapply links_ext; [|apply (rep_spare _ _ Hr)]. intros d Hd.
  assert (Hap : forall c, c ∈ l1 ++ b :: l2 -> d <> desc c).
  { intros c Hc ->. rewrite <- El in Hc. by apply (rep_spare_apart _ _ Hr i c (conj Hi Hc)). }
  rewrite (dr_next _ _ _ _ _ _ Hs) by (by left). rewrite !decide_False; [done| |apply Hap; set_solver].
  rewrite fmap_last. destruct (last l1) as [c|] eqn:E; [|done]. intros [= E'].
  apply (Hap c); [|done]. apply elem_of_app. left. by apply last_Some_elem_of.
Qed.
Lemma rep_drop : rep s' (drop_bucket i l1 b l2 h).
Proof using All.
  pose proof (bucket_in_mid h i l1 b l2 Hi El) as Hb.
  pose proof (fun j c => proj1 (bucket_in_drop s h i l1 b l2 j c Hr Hi El)) as Hin.
  assert (Hold : forall d, d ∈ desc b :: spare h \/
    (exists j c, bucket_in (drop_bucket i l1 b l2 h) j c /\ d = desc c) -> is_desc h d).
  { intros d [[-> | ?]%elem_of_cons | (j & c & [Hc _]%Hin & ->)];
      [right; by exists i, b|by left|right; by exists j, c]. }
  split.
  - exact drop_chain.
  - exact drop_spare.
  - intros j c [Hc _]%Hin. eapply bucket_ok_ext; [|apply (rep_bucket _ _ Hr j c Hc)].
    intros a Ha. apply (dr_mem _ _ _ _ _ _ Hs). intros d Hd. by apply (next_word_apart s h j c).
  - intros j Hj. pose proof (rep_nodup _ _ Hr j Hj) as Hd. unfold drop_bucket. cbn [buckets].
    destruct (decide (j = i)) as [-> | ]; [|done]. rewrite El in Hd.
    eapply sublist_NoDup; [exact Hd|]. apply fmap_sublist, sublist_app; [done|]. by constructor.
  - apply NoDup_cons. split; [by apply (rep_spare_apart _ _ Hr i)|apply (rep_spare_nodup _ _ Hr)].
  - intros j c j' c' [Hc _]%Hin [Hc' _]%Hin. by apply (rep_apart _ _ Hr).
  - intros j c [Hc Hn]%Hin [E | Hs']%elem_of_cons; [|by apply (rep_spare_apart _ _ Hr j c Hc)].
    apply Hn. by destruct (rep_apart _ _ Hr j c i b Hc Hb (or_introl E)) as [-> ->].
  - intros d Hd%Hold. destruct (rep_place _ _ Hr d Hd) as (p & k & Hp & Hk & E & Hm & Hn).
    exists p, k. do 3 (split; [done|]). rewrite (dr_map _ _ _ _ _ _ Hs). split.
    + rewrite decide_False; [done|]. intros ->. by apply (Hn i b Hb).
    + intros j c [Hc _]%Hin. by apply (Hn j c).
  - intros j c [Hc Hn]%Hin. rewrite (dr_map _ _ _ _ _ _ Hs), (dr_high _ _ _ _ _ _ Hs), decide_False.
    + by apply (rep_pages _ _ Hr j).
    + intros E. apply Hn. by destruct (rep_apart _ _ Hr j c i b Hc Hb (or_intror E)) as [-> ->].
  - intros p Hp. rewrite (dr_map _ _ _ _ _ _ Hs), (dr_high _ _ _ _ _ _ Hs).
    destruct (decide (p = bpage b)) as [-> | ]; [|by apply (rep_high _ _ Hr)].
    intros _. by apply (rep_pages _ _ Hr i b).
Qed.
End drop.

(** ** free_s *)

Definition page_freed (q : Z) (s : kmem) : kmem := s <| pages ::= fun p => p <| mem_map ::= upd q 0 |> |>.
Lemma give_back_run q s w : 0 <= q -> mem_map (pages s) q = 1 -> page_addr q < HIGH_MEMORY (pages s) ->
  on_pages (free_page (page_addr q)) s w = Ret tt (page_freed q s) w.
Proof.
  intros Hq Hc Hh. unfold on_pages, liftM. rewrite free_page_run.
  rewrite (proj2 (Z.ltb_ge _ _)) by (unfold page_addr; lia).
  rewrite (proj2 (Z.leb_gt _ _)) by done.
  replace ((page_addr q - LOW_MEM) / 4096) with q by (unfold page_addr; zlia).
  cbv zeta. rewrite Hc. by destruct w.
Qed.
(** The descriptor before the one of [b]: the tests of free_s on it come out right. *)
Lemma before_bucket s h i l1 b l2 : rep s h -> (i < 9)%nat -> buckets h i = l1 ++ b :: l2 ->
  match last l1 with
  | Some y => desc y <> 0 /\ mem (pages s) (next_field (desc y)) = desc b
  | None => chain s i = desc b
  end.
Proof.
  intros Hr Hi El. pose proof (rep_chain _ _ Hr i Hi) as Hl. rewrite El, fmap_app, fmap_cons in Hl.
  apply links_app in Hl as (_ & _ & Hl). rewrite fmap_last in Hl.
  destruct (last l1) as [y|] eqn:E; [|done]. split; [|done].
  assert (Hy : y ∈ l1) by (by apply last_Some_elem_of).
  assert (Hd : is_desc h (desc y)).
  { right. exists i, y. split; [|done]. split; [done|]. rewrite El. apply elem_of_app. by left. }
  pose proof (desc_place_pos _ _ _ (rep_place _ _ Hr _ Hd)). lia.
Qed.
(** What release_bucket leaves. *)
Definition released (s : kmem) (i : nat) (l1 : list bucket) (b : bucket) : kmem :=
  let next := mem (pages s) (next_field (desc b)) in
  kput (next_field (desc b)) (free_bucket_desc s)
    (page_freed (bpage b)
      (match last l1 with
       | Some y => kput (next_field (desc y)) next s
       | None => s <| chain ::= fun f j => if (j =? i)%nat then next else f j |>
       end)) <| free_bucket_desc := desc b |>.
Lemma release_run s h i l1 b l2 w : rep s h -> (i < 9)%nat -> buckets h i = l1 ++ b :: l2 ->
  release_bucket i (desc b) (default 0 (last (desc <$> l1))) s w = Ret tt (released s i l1 b) w.
Proof.
  intros Hr Hi El. pose proof (bucket_in_mid h i l1 b l2 Hi El) as Hb.
  pose proof (before_bucket s h i l1 b l2 Hr Hi El) as Hbef.
  pose proof (rep_pages _ _ Hr i b Hb) as (Hp & Hc & Hh).
  pose proof (bo_page _ _ _ (rep_bucket _ _ Hr i b Hb)) as Epg.
  unfold release_bucket, released. rewrite fmap_last, run_get. cbv zeta.
  destruct (last l1) as [y|] eqn:E.
  - change (default 0 (desc <$> Some y)) with (desc y). destruct Hbef as [Hy Ey].
    assert (Et : truth (desc y) = true) by (unfold truth; by rewrite (proj2 (Z.eqb_neq (desc y) 0))).
    rewrite Et, Ey, Z.eqb_refl. cbn [negb]. rewrite run_kload, Et, run_kstore, run_kload, mem_kput, upd_ne.
    2: { apply (next_word_apart s h i b); auto. right. exists i, y. split; [|done]. split; [done|].
         rewrite El. apply elem_of_app. left. by apply last_Some_elem_of. }
    rewrite Epg. erewrite run_ret; [|apply give_back_run; [lia|exact Hc|exact Hh]]. reflexivity.
  - change (default 0 (desc <$> None)) with 0. rewrite Hbef, Z.eqb_refl. change (truth 0) with false. change (negb true) with false. cbv iota.
    rewrite run_kload. change (truth 0) with false. cbv iota. rewrite run_modify, run_kload.
    match goal with |- context [mem (pages ?x) (page_field (desc b))] =>
      change (mem (pages x)) with (mem (pages s)) end. rewrite Epg.
    erewrite run_ret; [|apply give_back_run; [lia|exact Hc|exact Hh]]. reflexivity.
Qed.
Lemma released_drops s h i l1 b l2 : rep s h -> (i < 9)%nat -> buckets h i = l1 ++ b :: l2 ->
  drops s h i l1 b (released s i l1 b).
Proof.
  intros Hr Hi El. pose proof (bucket_in_mid h i l1 b l2 Hi El) as Hb.
  unfold released. split; try (by destruct (last l1)).
  - intros q. destruct (last l1); cbn; unfold upd; destruct (Z.eqb_spec q (bpage b)); by case_decide.
  - intros j. destruct (last l1) as [y|] eqn:E.
    + rewrite decide_False; [done|]. intros [_ ->]. done.
    + apply last_None in E as ->. cbn. destruct (Nat.eqb_spec j i); case_decide; naive_solver.
  - intros d Hd. rewrite fmap_last. assert (En : forall x, next_field d = next_field x <-> d = x)
      by (unfold next_field; lia).
    destruct (last l1) as [y|]; cbn; unfold upd; repeat match goal with
    | |- context [next_field d =? next_field ?x] => destruct (Z.eqb_spec (next_field d) (next_field x))
    end; repeat case_decide; rewrite ?En in *; congruence.
  - intros a Ha. assert (Hdb : is_desc h (desc b)) by (right; by exists i, b).
    destruct (last l1) as [y|] eqn:E; cbn; rewrite !upd_ne; try done; auto.
    apply Ha. right. exists i, y. split; [|done]. split; [done|].
    rewrite El. apply elem_of_app. left. by apply last_Some_elem_of.
Qed.

(** The search of free_s: the bucket of a size that may hold [size] bytes whose page is
    [page]. *)
Lemma search_dirs_spec s h page size : rep s h -> forall n k, (k + n = 9)%nat ->
  (search_dirs n k (mem (pages s)) (chain s) page size = Some None /\
   forall j b, (k <= j)%nat -> bucket_in h j b -> size <= size_of j -> page_addr (bpage b) <> page) \/
  (exists j l1 b l2, (j < 9)%nat /\ buckets h j = l1 ++ b :: l2 /\ size <= size_of j /\
     page_addr (bpage b) = page /\
     search_dirs n k (mem (pages s)) (chain s) page size =
       Some (Some (j, desc b, default 0 (last (desc <$> l1))))).
Proof.
  intros Hr n. induction n as [|n IH]; intros k Hk.
  { left. split; [done|]. intros j b Hj [Hb _]. lia. }
  cbn [search_dirs]. destruct (Z.ltb_spec (size_of k) size) as [Hlt | Hge].
  { destruct (IH (S k) ltac:(lia)) as [[E Hn] | H]; [left|by right]. split; [done|].
    intros j b Hj Hb Hs. destruct (decide (j = k)) as [-> | ]; [lia|apply (Hn j); [lia|done..]]. }
  assert (Hk9 : (k < 9)%nat) by lia.
  destruct (find_page_spec _ page _ 0 _ DESC_FUEL (rep_chain _ _ Hr k Hk9) (dir_length s h k Hr Hk9))
    as [[E Hn] | (r & d1 & d2 & El & Epg & E)]; rewrite E.
  - destruct (IH (S k) ltac:(lia)) as [[E' Hn'] | H]; [left|by right]. split; [done|].
    intros j b Hj Hb Hs. destruct (decide (j = k)) as [-> | ]; [|apply (Hn' j); [lia|done..]].
    rewrite <- (bo_page _ _ _ (rep_bucket _ _ Hr k b Hb)). apply Hn. apply list_elem_of_fmap_2, Hb.
  - right. apply chain_split in El as (b1 & b & b2 & El & <- & -> & _).
    exists k, b1, b, b2. do 3 (split; [done|]). split; [|done].
    by rewrite <- (bo_page _ _ _ (rep_bucket _ _ Hr k b (bucket_in_mid h k b1 b b2 Hk9 El))).
Qed.

Lemma free_s_eq obj size s w : free_s obj size s w =
  match search_dirs 9 0 (mem (pages s)) (chain s) (obj .& 0xfffff000) size with
  | None => OutOfFuel
  | Some None => Panicked "Bad address passed to kernel free_s()" s
  | Some (Some (i, bdesc, prev)) =>
      (put_object obj bdesc ;; c ← kload (counts_field bdesc) ;
       when (refcnt_of c =? 0) (release_bucket i bdesc prev)) s w
  end.
Proof.
  unfold free_s. cbv zeta. rewrite run_get.
  by destruct (search_dirs _ _ _ _ _ _) as [[[[i d] p]|]|].
Qed.
Lemma page_of_address x : 0 <= x < 2 ^ 32 -> x .& 0xfffff000 = x - x mod 4096.
Proof. intros Hx. rewrite Z.land_comm. apply land_fffff000. lia. Qed.
Lemma page_of_object p o : 0 <= p < PAGING_PAGES -> page_addr p <= o < page_addr p + 4096 ->
  o .& 0xfffff000 = page_addr p.
Proof.
  intros Hp Ho. rewrite page_of_address by (unfold page_addr, LOW_MEM, PAGING_PAGES in *; lia).
  unfold page_addr, LOW_MEM, PAGING_PAGES in *. zlia.
Qed.

(** A page without objects in use. *)
Lemma all_free m i b x : bucket_ok m i b -> length (bfree b) = per_page i ->
  x ∈ objects i (bpage b) -> x ∈ bfree b.
Proof.
  intros Hok Hl Hx. apply dec_stable. intros Hn.
  pose proof (NoDup_free_lt i b x m Hok Hx Hn). lia.
Qed.
Lemma some_live m i b : (i < 9)%nat -> bucket_ok m i b -> (length (bfree b) < per_page i)%nat ->
  exists x, x ∈ objects i (bpage b) /\ x ∉ bfree b.
Proof.
  intros Hi Hok Hl. destruct (decide (Exists (fun x => x ∉ bfree b) (objects i (bpage b)))) as [H | H].
  { apply Exists_exists in H as (x & Hx & Hn). by exists x. }
  exfalso. assert (Hs : objects i (bpage b) ⊆ bfree b).
  { intros x Hx. apply dec_stable. intros Hn. apply H, Exists_exists. by exists x. }
  assert (Hle : (length (objects i (bpage b)) <= length (bfree b))%nat).
  2: { rewrite length_objects in Hle. lia. }
  by apply submseteq_length, NoDup_submseteq; [apply NoDup_objects|].
Qed.
Lemma live_drop s h i l1 b l2 j x : rep s h -> (i < 9)%nat -> buckets h i = l1 ++ b :: l2 ->
  length (bfree b) = per_page i ->
  live (drop_bucket i l1 b l2 h) j x <-> live h j x.
Proof.
  intros Hr Hi El Hl. pose proof (bucket_in_mid h i l1 b l2 Hi El) as Hb. split.
  - intros (c & [Hc _]%(bucket_in_drop s h i l1 b l2 j c Hr Hi El) & Hx). by exists c.
  - intros (c & Hc & Hx & Hf). exists c. split; [|done].
    apply (bucket_in_drop s); [done..|]. split; [done|]. intros [= -> ->]. apply Hf.
    by apply (all_free _ i b x (rep_bucket _ _ Hr i b Hb)).
Qed.

(** What free_s leaves when the object [o] of the size [i] was in use. *)
Record takes_back (s : kmem) (h : heap) (i : nat) (o : Z) (s' : kmem) (h' : heap) : Prop := {
  tb_rep : rep s' h';
  tb_live : forall j x, live h' j x <-> live h j x /\ (j, x) <> (i, o);
  tb_kept : forall j x a, live h' j x -> x <= a < x + size_of j -> mem (pages s') a = mem (pages s) a;
  tb_map : forall q, mem_map (pages s') q = mem_map (pages s) q \/
    (page_addr q <= o < page_addr q + 4096 /\ mem_map (pages s') q = 0);
  tb_page : forall q, page_addr q <= o < page_addr q + 4096 ->
    mem_map (pages s') q = 0 <->
    forall j x, live h' j x -> ~ page_addr q <= x < page_addr q + 4096;
}.

Section free.
Context (s : kmem) (h : heap) (i : nat) (l1 : list bucket) (b : bucket) (l2 : list bucket) (o : Z).
Context (Hr : rep s h) (Hi : (i < 9)%nat) (El : buckets h i = l1 ++ b :: l2).
Context (Ho : o ∈ objects i (bpage b)) (Hn : o ∉ bfree b).
Let b1 : bucket := Bucket (desc b) (bpage b) (o :: bfree b).
Let h1 : heap := set_chain i (l1 ++ b1 :: l2) h.

Lemma put_chain : buckets h1 i = l1 ++ b1 :: l2.
Proof using. subst h1. simpl. by rewrite decide_True. Qed.
Lemma put_kept m j x a :
  (forall a, ~ in_desc (desc b) a -> a <> o -> m a = mem (pages s) a) ->
  live h1 j x -> x <= a < x + size_of j -> m a = mem (pages s) a.
Proof using All.
  intros Hm Hx Ha. apply (live_put s h i l1 b l2 o Hr Hi El Ho) in Hx as [Hx Hne].
  pose proof (bucket_in_mid h i l1 b l2 Hi El) as Hb. apply Hm.
  - intros Hd. apply (live_not_bookkeeping s h j x a Hr Hx Ha). left. exists (desc b).
    split; [right; by exists i, b|done].
  - intros ->. assert (Hlo : live h i o) by (by exists b).
    destruct (size_facts i Hi) as (Hsz & _).
    destruct (live_apart s h j x i o Hr Hx Hlo Hne); lia.
Qed.

(** Objects of the page remain in use. *)
Lemma free_not_last m : rep (with_mem m s) h1 ->
  (forall a, ~ in_desc (desc b) a -> a <> o -> m a = mem (pages s) a) ->
  (length (bfree b1) < per_page i)%nat -> takes_back s h i o (with_mem m s) h1.
Proof using All.
  intros Hr1 Hm Hlt. pose proof (bucket_in_mid h1 i l1 b1 l2 Hi put_chain) as Hb1.
  destruct (some_live m i b1 Hi (rep_bucket _ _ Hr1 i b1 Hb1) Hlt) as (x & Hx & Hf).
  pose proof (rep_pages _ _ Hr1 i b1 Hb1) as (_ & Hc & _).
  pose proof (object_in_page _ _ _ Hi Ho). pose proof (object_in_page _ _ _ Hi Hx). simpl in *.
  pose proof (size_facts i Hi). split; [done| | |by left|].
  - by apply (live_put s h i l1 b l2 o).
  - intros j y a Hy Ha. by apply (put_kept m j y).
  - intros q Hq. assert (q = bpage b) as -> by (unfold page_addr in *; lia). split.
    + intros E. simpl in E. lia.
    + intros Hno. exfalso. apply (Hno i x); [by exists b1|]. lia.
Qed.
(** It was the last one: the page goes back. *)
Lemma free_last m : rep (with_mem m s) h1 ->
  (forall a, ~ in_desc (desc b) a -> a <> o -> m a = mem (pages s) a) ->
  length (bfree b1) = per_page i ->
  takes_back s h i o (released (with_mem m s) i l1 b1) (drop_bucket i l1 b1 l2 h1).
Proof using All.
  intros Hr1 Hm Hlen. pose proof (bucket_in_mid h1 i l1 b1 l2 Hi put_chain) as Hb1.
  pose proof (released_drops (with_mem m s) h1 i l1 b1 l2 Hr1 Hi put_chain) as Hd.
  pose proof (rep_drop _ _ _ _ _ _ _ Hr1 Hi put_chain Hd) as Hr2.
  pose proof (fun j x => live_drop _ _ _ _ _ _ j x Hr1 Hi put_chain Hlen) as Hl.
  pose proof (object_in_page _ _ _ Hi Ho) as Hop. pose proof (size_facts i Hi) as (Hsz & _).
  split; [done| | | |].
  - intros j x. rewrite Hl. by apply (live_put s h i l1 b l2 o).
  - intros j x a Hx Ha. rewrite Hl in Hx. rewrite (dr_mem _ _ _ _ _ _ Hd).
    + by apply (put_kept m j x).
    + intros d Hdd ->. apply (live_not_bookkeeping _ _ _ _ _ Hr1 Hx Ha). left. exists d.
      split; [done|unfold in_desc, next_field; lia].
  - intros q. rewrite (dr_map _ _ _ _ _ _ Hd). destruct (decide (q = bpage b1)) as [-> | ]; [|by left].
    right. split; [simpl; lia|done].
  - intros q Hq. assert (q = bpage b1) as -> by (simpl; unfold page_addr in *; lia).
    rewrite (dr_map _ _ _ _ _ _ Hd), decide_True by done. split; [|done]. intros _ j x Hx Hxq.
    destruct Hx as (c & Hc & Hx & _). pose proof (object_in_page _ _ _ (proj1 Hc) Hx).
    pose proof (size_facts j (proj1 Hc)). pose proof (rep_pages _ _ Hr2 j c Hc) as (_ & E & _).
    assert (bpage c = bpage b1) as Eb by (unfold page_addr in *; lia).
    rewrite Eb, (dr_map _ _ _ _ _ _ Hd), decide_True in E by done. done.
Qed.

Lemma free_found w : exists s' h',
  (put_object o (desc b) ;; c ← kload (counts_field (desc b)) ;
   when (refcnt_of c =? 0) (release_bucket i (desc b) (default 0 (last (desc <$> l1))))) s w =
  Ret tt s' w /\ takes_back s h i o s' h'.
Proof using All.
  destruct (put_object_run s h i l1 b l2 o w Hr Hi El Ho Hn) as (m & E & Hr1 & Hm).
  fold b1 in Hr1. fold h1 in Hr1.
  rewrite (run_ret _ _ _ _ _ _ _ E), run_kload, mem_with_mem.
  pose proof (bucket_in_mid h1 i l1 b1 l2 Hi put_chain) as Hb1.
  pose proof (rep_bucket _ _ Hr1 i b1 Hb1) as Hok. pose proof (bfree_length _ _ _ Hok) as Hle.
  pose proof (bo_counts _ _ _ Hok) as Ec. change (desc b1) with (desc b) in Ec.
  rewrite mem_with_mem in Ec. rewrite Ec. pose proof (size_facts i Hi) as (Hsz & _ & Hpp).
  replace (refcnt_of _) with (Z.of_nat (per_page i - length (bfree b1))) by (unfold refcnt_of; zlia).
  destruct (Z.eqb_spec (Z.of_nat (per_page i - length (bfree b1))) 0) as [E0 | E0].
  - exists (released (with_mem m s) i l1 b1), (drop_bucket i l1 b1 l2 h1). split.
    + rewrite run_when_true. apply (release_run _ h1 i l1 b1 l2 w Hr1 Hi put_chain).
    + apply free_last; [done|done|lia].
  - exists (with_mem m s), h1. split; [done|]. apply free_not_last; [done|done|lia].
Qed.
End free.

Lemma free_s_run s h i o size w : rep s h -> live h i o -> size <= size_of i ->
  exists s' h', free_s o size s w = Ret tt s' w /\ takes_back s h i o s' h'.
Proof.
  intros Hr (c & Hc & Hx & Hf) Hs. rewrite free_s_eq.
  pose proof (object_in_page _ _ _ (proj1 Hc) Hx). pose proof (size_facts i (proj1 Hc)).
  rewrite (page_of_object (bpage c)) by (try apply (rep_pages _ _ Hr i c Hc); lia).
  destruct (search_dirs_spec s h (page_addr (bpage c)) size Hr 9 0 eq_refl)
    as [[_ Hn] | (j & l1 & b & l2 & Hj & El & _ & Epg & E)].
  { exfalso. by apply (Hn i c); [lia|..]. }
  rewrite E. pose proof (bucket_in_mid h j l1 b l2 Hj El) as Hb.
  destruct (rep_apart _ _ Hr j b i c Hb Hc) as [-> ->]; [right; unfold page_addr in Epg; lia|].
  by apply free_found with l2.
Qed.

(** The allocator as the kernel is started: no chains, no descriptors. *)
Definition no_heap : heap := Heap (fun _ => []) [].
Lemma rep_boot s : (forall i, chain s i = 0) -> free_bucket_desc s = 0 ->
  (forall p, 0 <= p < PAGING_PAGES -> mem_map (pages s) p = 0 -> page_addr p < HIGH_MEMORY (pages s)) ->
  rep s no_heap.
Proof.
  intros Hc Hf Hh. assert (Hno : forall i b, ~ bucket_in no_heap i b) by (by intros i b [_ []%elem_of_nil]).
  split; simpl; try done; try (intros; exfalso; by eapply Hno).
  - intros. constructor.
  - constructor.
  - intros d [Hd | (i & b & Hb & _)]; [by apply elem_of_nil in Hd|by destruct (Hno i b)].
Qed.

(** C12. lib/malloc.c free_s of an object in use, with its size or less: the object is no
    longer in use, all others are, their memory untouched; its page is given back to
    main memory exactly when it held no other object in use, and no other page is. *)
Theorem free_s_spec s h i o size w : rep s h -> live h i o -> size <= size_of i ->
  exists s' h', free_s o size s w = Ret tt s' w /\ rep s' h' /\
    (forall j x, live h' j x <-> live h j x /\ (j, x) <> (i, o)) /\
    (forall j x a, live h' j x -> x <= a < x + size_of j -> mem (pages s') a = mem (pages s) a) /\
    (forall q, mem_map (pages s') q = mem_map (pages s) q \/
       (page_addr q <= o < page_addr q + 4096 /\ mem_map (pages s') q = 0)) /\
    (forall q, page_addr q <= o < page_addr q + 4096 ->
       mem_map (pages s') q = 0 <->
       forall j x, live h' j x -> ~ page_addr q <= x < page_addr q + 4096).
Proof.
  intros Hr Hl Hs. destruct (free_s_run s h i o size w Hr Hl Hs) as (s' & h' & E & []).
  by exists s', h'.
Qed.

(** lib/malloc.c free_s of an address that is in no page of objects of [size] bytes or
    more: it panics, and nothing has changed. *)
Theorem free_s_bad_address s h obj size w : rep s h -> 0 <= obj < 2 ^ 32 ->
  (forall i b, bucket_in h i b -> size <= size_of i ->
     ~ page_addr (bpage b) <= obj < page_addr (bpage b) + 4096) ->
  free_s obj size s w = Panicked "Bad address passed to kernel free_s()" s.
Proof.
  intros Hr Ho Hn. rewrite free_s_eq, page_of_address by done.
  destruct (search_dirs_spec s h (obj - obj mod 4096) size Hr 9 0 eq_refl)
    as [[-> _] | (j & l1 & b & l2 & Hj & El & Hs & Epg & _)]; [done|].
  exfalso. apply (Hn j b (bucket_in_mid h j l1 b l2 Hj El) Hs). rewrite Epg.
  pose proof (Z.mod_pos_bound obj 4096). lia.
Qed.

(** ** On a machine with 16 MB of which the last 20 pages are free *)

Definition k0 : kmem :=
  Kmem (Mm (fun _ => 0) (fun i => if i <? 3820 then 100 else 0) (16 * 1024 * 1024)) (fun _ => 0) 0.
Definition w0 : world kmem := World [] [].
Lemma k0_rep : rep k0 no_heap.
Proof. apply rep_boot; [done..|]. intros p Hp _. unfold page_addr, PAGING_PAGES, LOW_MEM in *. simpl. lia. Qed.
Lemma k0_not_short : ~ short_of_pages (pages k0).
Proof. intros H. specialize (H 3838 3839 ltac:(done) ltac:(done) eq_refl eq_refl). lia. Qed.

Lemma malloc_spec_witness : exists p s' h', malloc 100 k0 w0 = Ret p s' w0 /\ rep s' h' /\ live h' 3 p.
Proof.
  pose proof (malloc_spec 100 k0 no_heap w0 k0_rep) as H.
  destruct (malloc 100 k0 w0) as [p s' w'| | | |].
  - destruct H as (_ & -> & i & h' & Hi & Hs & Hl & Hr & _ & Hlive & _).
    exists p, s', h'. split; [done|]. split; [done|].
    assert (i = 3%nat) as ->.
    { destruct (Nat.lt_trichotomy i 3) as [Hlt | [|Hgt]]; [|done|].
      - do 3 (destruct i as [|i]; [cbn in Hs; lia|]). lia.
      - specialize (Hl 3%nat Hgt). cbn in Hl. lia. }
    apply Hlive. by right.
  - destruct H as [[H _] | H]; [lia|by destruct k0_not_short].
  - done.
  - done.
  - done.
Defined.
Lemma free_s_spec_witness : exists s h p s' h', live h 3 p /\ free_s p 100 s w0 = Ret tt s' w0 /\
  rep s' h' /\ ~ live h' 3 p.
Proof.
  destruct (malloc_run k0 no_heap 3 100 w0 k0_rep eq_refl ltac:(lia))
    as [(msg & s' & _ & H) | (p & s & h & _ & Ho)]; [by destruct k0_not_short|].
  assert (Hl : live h 3 p) by (apply (ho_live _ _ _ _ _ _ Ho); by right).
  destruct (free_s_spec s h 3 p 100 w0 (ho_rep _ _ _ _ _ _ Ho) Hl ltac:(cbn; lia))
    as (s' & h' & E & Hr & Hlive & _).
  exists s, h, p, s', h'. do 3 (split; [done|]). rewrite (Hlive 3%nat p). by intros [_ []].
Defined.
Lemma free_s_bad_address_witness :
  free_s 0x200010 32 k0 w0 = Panicked "Bad address passed to kernel free_s()" k0.
Proof.
  apply (free_s_bad_address k0 no_heap); [exact k0_rep|lia|].
  by intros i b [_ []%elem_of_nil].
Defined.
