(* ===== verification/Kernel.v ===== *)
(** The data of the file system and of the block devices: the structures of
    [include/linux/fs.h] and [kernel/blk_drv/blk.h], and the state [K] that the
    system calls share.

    A pointer to a buffer head, a request, an inode, a file or a super block is
    an index in the kernel's table of them.  [b_data], the block a buffer head
    points to, is part of the buffer head.  The kernel runs with page 0 mapped, so
    that a store through a null buffer pointer is a store like any other, to
    physical address 0 (the page directory); [null_bh] is the structure found there. *)
From S2P Require Import Prelude Sched Mm.

Definition BLOCK_SIZE : Z := 1024.
Definition BLOCK_SIZE_BITS : Z := 10.
Definition NR_OPEN : nat := 20.
Definition NR_INODE : nat := 32.
Definition NR_FILE : nat := 64.
Definition NR_SUPER : nat := 8.
Definition NR_HASH : nat := 307.
Definition NR_REQUEST : nat := 32.
Definition NR_BLK_DEV : Z := 7.
Definition NAME_LEN : nat := 14.
Definition SUPER_MAGIC : Z := 0x137F.
Definition ROOT_INO : Z := 1.
Definition I_MAP_SLOTS : nat := 8.
Definition Z_MAP_SLOTS : nat := 8.
Definition INODES_PER_BLOCK : Z := 32.
Definition DIR_ENTRIES_PER_BLOCK : Z := 64.
Definition READ : Z := 0.
Definition WRITE : Z := 1.
Definition READA : Z := 2.
Definition WRITEA : Z := 3.

(** * Error numbers and mode bits: [include/errno.h], [include/sys/stat.h],
    [include/fcntl.h] *)
Definition EPERM : Z := 1.
Definition ENOENT : Z := 2.
Definition ESRCH : Z := 3.
Definition EINTR : Z := 4.
Definition EIO : Z := 5.
Definition ENOEXEC : Z := 8.
Definition EBADF : Z := 9.
Definition ECHILD : Z := 10.
Definition EAGAIN : Z := 11.
Definition ENOMEM : Z := 12.
Definition EACCES : Z := 13.
Definition ENOTBLK : Z := 15.
Definition EBUSY : Z := 16.
Definition EEXIST : Z := 17.
Definition EXDEV : Z := 18.
Definition ENODEV : Z := 19.
Definition ENOTDIR : Z := 20.
Definition EISDIR : Z := 21.
Definition EINVAL : Z := 22.
Definition EMFILE : Z := 24.
Definition ENOTTY : Z := 25.
Definition ENOSPC : Z := 28.
Definition ESPIPE : Z := 29.
Definition ERANGE : Z := 34.
Definition ENOSYS : Z := 38.
Definition ENOTEMPTY : Z := 39.
Definition ERROR : Z := 99.

Definition S_IFMT : Z := 61440.      (* 0170000 *)
Definition S_IFREG : Z := 32768.     (* 0100000 *)
Definition S_IFBLK : Z := 24576.     (* 0060000 *)
Definition S_IFDIR : Z := 16384.     (* 0040000 *)
Definition S_IFCHR : Z := 8192.      (* 0020000 *)
Definition S_IFIFO : Z := 4096.      (* 0010000 *)
Definition S_ISUID : Z := 2048.
Definition S_ISGID : Z := 1024.
Definition S_ISVTX : Z := 512.
Definition O_ACCMODE : Z := 3.
Definition O_RDONLY : Z := 0.
Definition O_WRONLY : Z := 1.
Definition O_RDWR : Z := 2.
Definition O_CREAT : Z := 64.        (* 00100 *)
Definition O_EXCL : Z := 128.        (* 00200 *)
Definition O_NOCTTY : Z := 256.      (* 00400 *)
Definition O_TRUNC : Z := 512.       (* 01000 *)
Definition O_APPEND : Z := 1024.     (* 02000 *)
Definition O_NONBLOCK : Z := 2048.   (* 04000 *)

(** include/sys/stat.h:30-30 [S_ISREG] *)
Definition S_ISREG (m : Z) : bool := (m .& S_IFMT) =? S_IFREG.
(** include/sys/stat.h:31-31 [S_ISDIR] *)
Definition S_ISDIR (m : Z) : bool := (m .& S_IFMT) =? S_IFDIR.
(** include/sys/stat.h:32-32 [S_ISCHR] *)
Definition S_ISCHR (m : Z) : bool := (m .& S_IFMT) =? S_IFCHR.
(** include/sys/stat.h:33-33 [S_ISBLK] *)
Definition S_ISBLK (m : Z) : bool := (m .& S_IFMT) =? S_IFBLK.

(** include/linux/fs.h:33-33 [MAJOR] *)
Definition MAJOR (a : Z) : Z := u32 a .>> 8.
(** include/linux/fs.h:34-34 [MINOR] *)
Definition MINOR (a : Z) : Z := a .& 0xff.

(** * Structures *)

(** include/linux/fs.h:70-83 [buffer_head] *)
Record buffer_head : Type := BufferHead {
  b_data : list Z;
  b_blocknr : Z;
  b_dev : Z;
  b_uptodate : Z;
  b_dirt : Z;
  b_count : Z;
  b_lock : Z;
  b_prev : option nat;
  b_next : option nat;
  b_prev_free : option nat;
  b_next_free : option nat;
}.
#[global] Instance eta_buffer_head : Eta buffer_head := fun r =>
  BufferHead (b_data r) (b_blocknr r) (b_dev r) (b_uptodate r) (b_dirt r)
    (b_count r) (b_lock r) (b_prev r) (b_next r) (b_prev_free r) (b_next_free r).

(** include/linux/fs.h:86-94 [d_inode] *)
Record d_inode : Type := DInode {
  di_mode : Z; di_uid : Z; di_size : Z; di_time : Z; di_gid : Z; di_nlinks : Z;
  di_zone : list Z;
}.

(** include/linux/fs.h:96-117 [m_inode] *)
Record m_inode : Type := Inode {
  i_mode : Z; i_uid : Z; i_size : Z; i_mtime : Z; i_gid : Z; i_nlinks : Z;
  i_zone : list Z;
  i_atime : Z; i_ctime : Z;
  i_dev : Z; i_num : Z; i_count : Z;
  i_lock : Z; i_dirt : Z; i_pipe : Z; i_mount : Z; i_seek : Z; i_update : Z;
}.
#[global] Instance eta_m_inode : Eta m_inode := fun r =>
  Inode (i_mode r) (i_uid r) (i_size r) (i_mtime r) (i_gid r) (i_nlinks r)
    (i_zone r) (i_atime r) (i_ctime r) (i_dev r) (i_num r) (i_count r)
    (i_lock r) (i_dirt r) (i_pipe r) (i_mount r) (i_seek r) (i_update r).
Definition zero_inode : m_inode :=
  Inode 0 0 0 0 0 0 (repeat 0 9) 0 0 0 0 0 0 0 0 0 0 0.

(** include/linux/fs.h:120-126 [file] *)
Record file : Type := File {
  f_mode : Z; f_flags : Z; f_count : Z; f_inode : option nat; f_pos : Z;
}.
#[global] Instance eta_file : Eta file := fun r =>
  File (f_mode r) (f_flags r) (f_count r) (f_inode r) (f_pos r).
Definition zero_file : file := File 0 0 0 None 0.

(** include/linux/fs.h:129-149 [super_block] *)
Record super_block : Type := Super {
  s_ninodes : Z; s_nzones : Z; s_imap_blocks : Z; s_zmap_blocks : Z;
  s_firstdatazone : Z; s_log_zone_size : Z; s_max_size : Z; s_magic : Z;
  s_imap : list (option nat); s_zmap : list (option nat);
  s_dev : Z; s_isup : option nat; s_imount : option nat; s_time : Z;
  s_lock : Z; s_rd_only : Z; s_dirt : Z;
}.
#[global] Instance eta_super_block : Eta super_block := fun r =>
  Super (s_ninodes r) (s_nzones r) (s_imap_blocks r) (s_zmap_blocks r)
    (s_firstdatazone r) (s_log_zone_size r) (s_max_size r) (s_magic r)
    (s_imap r) (s_zmap r) (s_dev r) (s_isup r) (s_imount r) (s_time r)
    (s_lock r) (s_rd_only r) (s_dirt r).
Definition zero_super : super_block :=
  Super 0 0 0 0 0 0 0 0 (repeat None 8) (repeat None 8) 0 None None 0 0 0 0.

(** kernel/blk_drv/blk.h:23-33 [request]: [buffer] is the buffer head whose
    block is transferred *)
Record request : Type := Request {
  r_dev : Z;                    (* -1 if no request *)
  r_cmd : Z;
  r_errors : Z;
  r_sector : Z;
  r_nr_sectors : Z;
  r_buffer : nat;
  r_offset : Z;                 (* how far into the block *)
  r_bh : option nat;
  r_next : option nat;
}.
#[global] Instance eta_request : Eta request := fun r =>
  Request (r_dev r) (r_cmd r) (r_errors r) (r_sector r) (r_nr_sectors r)
    (r_buffer r) (r_offset r) (r_bh r) (r_next r).

(** The functions a [request_fn] may point to. *)
Inductive request_fn : Type := do_rd_request_fn | do_fd_request_fn | do_hd_request_fn.

(** kernel/blk_drv/blk.h:45-48 [blk_dev_struct] *)
Record blk_dev_struct : Type := BlkDev {
  bd_request_fn : option request_fn;
  bd_current_request : option nat;
}.
#[global] Instance eta_blk_dev_struct : Eta blk_dev_struct := fun r =>
  BlkDev (bd_request_fn r) (bd_current_request r).

(** * The state *)
Record K : Type := Kernel {
  buffers : list buffer_head;           (* start_buffer[0 .. NR_BUFFERS-1] *)
  null_bh : buffer_head;
  hash_table : list (option nat);
  free_list : option nat;
  requests : list request;
  blk_dev : list blk_dev_struct;
  rd_start : Z; rd_length : Z;
  inode_table : list m_inode;
  last_inode : nat;                     (* get_empty_inode's static *)
  file_table : list file;
  supers : list super_block;
  ROOT_DEV : Z;
  umem : Z -> Z;                        (* the bytes %fs addresses: the user's *)
  k_sched : sched;
  k_mm : mm;
  last_pid : Z;                         (* kernel/fork.c *)
  gdt : list desc_struct;
  task_page : list Z;                   (* the address of the page of each task *)
  tty_pgrp : list Z;                    (* tty_table[i].pgrp *)
  msg : list Z;                         (* kernel/who.c: char msg[24] *)
}.
#[global] Instance eta_K : Eta K := fun r =>
  Kernel (buffers r) (null_bh r) (hash_table r) (free_list r) (requests r)
    (blk_dev r) (rd_start r) (rd_length r) (inode_table r) (last_inode r)
    (file_table r) (supers r) (ROOT_DEV r) (umem r) (k_sched r) (k_mm r) (last_pid r) (gdt r)
    (task_page r) (tty_pgrp r) (msg r).

(** ** Buffers *)
Definition bh_of (k : K) (i : nat) : buffer_head := default (null_bh k) (buffers k !! i).
Definition bh_at (k : K) (p : option nat) : buffer_head :=
  match p with Some i => bh_of k i | None => null_bh k end.
Definition upd_bh (i : nat) (f : buffer_head -> buffer_head) (k : K) : K :=
  k <| buffers ::= alter f i |>.
Definition upd_bh_at (p : option nat) (f : buffer_head -> buffer_head) (k : K) : K :=
  match p with Some i => upd_bh i f k | None => k <| null_bh ::= f |> end.
Definition NR_BUFFERS (k : K) : nat := length (buffers k).

(** ** Requests, inodes, files and super blocks *)
Definition free_request : request := Request (-1) 0 0 0 0 0 0 None None.
Definition req_of (k : K) (i : nat) : request := default free_request (requests k !! i).
Definition upd_req (i : nat) (f : request -> request) (k : K) : K :=
  k <| requests ::= alter f i |>.
Definition dev_of (k : K) (major : nat) : blk_dev_struct :=
  default (BlkDev None None) (blk_dev k !! major).
Definition upd_dev (major : nat) (f : blk_dev_struct -> blk_dev_struct) (k : K) : K :=
  k <| blk_dev ::= alter f major |>.
Definition inode_of (k : K) (i : nat) : m_inode := default zero_inode (inode_table k !! i).
Definition upd_inode (i : nat) (f : m_inode -> m_inode) (k : K) : K :=
  k <| inode_table ::= alter f i |>.
Definition file_of (k : K) (i : nat) : file := default zero_file (file_table k !! i).
Definition upd_file (i : nat) (f : file -> file) (k : K) : K :=
  k <| file_table ::= alter f i |>.
Definition super_of (k : K) (i : nat) : super_block := default zero_super (supers k !! i).
Definition upd_super (i : nat) (f : super_block -> super_block) (k : K) : K :=
  k <| supers ::= alter f i |>.

(** ** The current task *)
Definition cur (k : K) : task_struct := cur_task (k_sched k).
Definition upd_current (f : task_struct -> task_struct) (k : K) : K :=
  k <| k_sched ::= upd_cur f |>.
Definition now (k : K) : Z := CURRENT_TIME (k_sched k).

(** include/linux/kernel.h:21-21 [suser] *)
Definition suser (k : K) : bool := euid (cur k) =? 0.

(** The first slot from [i] on whose task has the number [p]. *)
Fixpoint slot_of_pid (i : nat) (ts : list (option task_struct)) (p : Z) : option nat :=
  match ts with
  | [] => None
  | Some t :: ts' => if pid t =? p then Some i else slot_of_pid (S i) ts' p
  | None :: ts' => slot_of_pid (S i) ts' p
  end.

(** A routine of [mm/memory.c], run inside the kernel state. *)
Definition in_mm {A} (m : M mm A) : M K A :=
  liftM k_mm (fun s k => k <| k_mm := s |>) m.

(** A routine of the scheduler, run inside the kernel state. *)
Definition in_sched {A} (m : M sched A) : M K A :=
  liftM k_sched (fun s k => k <| k_sched := s |>) m.

(** [schedule()] called to give up the processor: when another task is chosen, the
    rest of the system runs until this task is chosen again. *)
Definition resume : M K unit := fun s w =>
  match script w with
  | [] => Asleep s
  | f :: sc => Ret tt (f s) (World sc (log w))
  end.
Definition run_task (i : nat) : M K unit :=
  modify (fun k => k <| k_sched ::= fun s => s <| current := i |> |>).
(** kernel/sched.c:71-110 [schedule] *)
Definition reschedule : M K unit :=
  me ← gets (fun k => current (k_sched k)) ;
  next ← in_sched choose_next ;
  if decide (next = me) then mret tt else run_task next ;; resume ;; run_task me.

(** ** User memory: [include/asm/segment.h] *)

(** include/asm/segment.h:1-7 [get_fs_byte] *)
Definition get_fs_byte (a : Z) : M K Z := gets (fun k => umem k a).
(** include/asm/segment.h:25-28 [put_fs_byte] *)
Definition put_fs_byte (v a : Z) : M K unit := modify (fun k => k <| umem ::= upd a (u8 v) |>).

(** ** Little-endian numbers in bytes *)
Fixpoint le_bytes (n : nat) (x : Z) : list Z :=
  match n with O => [] | S n' => u8 x :: le_bytes n' (x .>> 8) end.
Fixpoint le_value (l : list Z) : Z :=
  match l with [] => 0 | b :: l' => b + 256 * le_value l' end.

(** include/asm/segment.h:17-23 [get_fs_long] *)
Definition get_fs_long (a : Z) : M K Z :=
  gets (fun k => le_value (umem k <$> [a; a + 1; a + 2; a + 3])).
(** include/asm/segment.h:35-38 [put_fs_long] *)
Definition put_fs_long (v a : Z) : M K unit :=
  modify (fun k => k <| umem ::= fun m =>
    fun x => if (a <=? x) && (x <? a + 4) then u8 (v .>> (8 * (x - a))) else m x |>).

(** ** Numbers in a block *)
Definition get_byte (l : list Z) (i : nat) : Z := default 0 (l !! i).
(** [((unsigned short * ) data)[i]] *)
Definition get_word (l : list Z) (i : nat) : Z := le_value (take 2 (drop (2 * i) l)).
(** The bytes [v] stored in [l] at offset [off]. *)
Definition put_at (off : nat) (v : list Z) (l : list Z) : list Z :=
  take off l ++ v ++ drop (off + length v) l.
Definition set_word (i : nat) (v : Z) (l : list Z) : list Z := put_at (2 * i) (le_bytes 2 v) l.

(** ** The bytes of kernel memory

    [mm]'s memory is in words; a byte is cut out of its word. *)
Definition byte_at (m : Z -> Z) (a : Z) : Z :=
  (m (a - a mod 4) .>> (8 * (a mod 4))) .& 0xff.
(** The memory with the bytes [l] at [a] on. *)
Definition put_bytes (a : Z) (l : list Z) (m : Z -> Z) : Z -> Z := fun x =>
  let byte y := if (a <=? y) && (y <? a + Z.of_nat (length l))
                then u8 (nth (Z.to_nat (y - a)) l 0) else byte_at m y in
  if x mod 4 =? 0 then le_value [byte x; byte (x + 1); byte (x + 2); byte (x + 3)] else m x.
Definition read_bytes (a : Z) (n : nat) (m : Z -> Z) : list Z :=
  (fun i => byte_at m (a + Z.of_nat i)) <$> seq 0 n.
Definition kmem_put (a : Z) (l : list Z) (k : K) : K :=
  k <| k_mm ::= fun s => s <| mem ::= put_bytes a l |> |>.

(** ** Lemmas on bytes *)
Lemma le_value_range l : Forall (fun b => 0 <= b < 256) l ->
  0 <= le_value l < 256 ^ Z.of_nat (length l).
Proof.
  induction 1 as [|b l Hb _ IH]; [done|]. cbn [le_value length].
  rewrite Nat2Z.inj_succ, Z.pow_succ_r by lia. lia.
Qed.

(** A number written as [n] bytes and read back. *)
Lemma le_value_bytes n x : le_value (le_bytes n x) = x mod 256 ^ Z.of_nat n.
Proof.
  revert x. induction n as [|n IH]; intros x; [by rewrite Z.mod_1_r|].
  cbn [le_bytes le_value]. rewrite IH, shiftr_div by lia. unfold u8.
  change (2 ^ 8) with 256. rewrite Nat2Z.inj_succ, Z.pow_succ_r by lia.
  rewrite Z.rem_mul_r by lia. done.
Qed.
Lemma length_le_bytes n x : length (le_bytes n x) = n.
Proof. revert x. induction n; intros; simpl; auto. Qed.

Lemma byte_at_range m a : 0 <= byte_at m a < 256.
Proof. unfold byte_at. rewrite land_ff. zlia. Qed.

Lemma le_value_byte b0 b1 b2 b3 i :
  0 <= b0 < 256 -> 0 <= b1 < 256 -> 0 <= b2 < 256 -> 0 <= b3 < 256 -> 0 <= i < 4 ->
  (le_value [b0; b1; b2; b3] .>> (8 * i)) .& 0xff = nth (Z.to_nat i) [b0; b1; b2; b3] 0.
Proof.
  intros. rewrite land_ff, shiftr_div by lia. simpl le_value.
  assert (i = 0 \/ i = 1 \/ i = 2 \/ i = 3) as [-> | [-> | [-> | ->]]] by lia; simpl nth;
    [change (2 ^ (8 * 0)) with 1 | change (2 ^ (8 * 1)) with 256
    | change (2 ^ (8 * 2)) with 65536 | change (2 ^ (8 * 3)) with 16777216]; zlia.
Qed.

Lemma byte_at_put a l m y :
  byte_at (put_bytes a l m) y =
    if (a <=? y) && (y <? a + Z.of_nat (length l))
    then u8 (nth (Z.to_nat (y - a)) l 0) else byte_at m y.
Proof.
  set (byte := fun y => if (a <=? y) && (y <? a + Z.of_nat (length l))
                        then u8 (nth (Z.to_nat (y - a)) l 0) else byte_at m y).
  change (byte_at (put_bytes a l m) y = byte y).
  assert (Hb : forall z, 0 <= byte z < 256).
  { intros z. unfold byte. destruct (_ && _); [apply u8_range | apply byte_at_range]. }
  unfold byte_at at 1, put_bytes. fold byte.
  set (x := y - y mod 4). assert (Hx : x mod 4 = 0) by (unfold x; zlia).
  rewrite Hx, Z.eqb_refl.
  rewrite le_value_byte by (apply Hb || zlia).
  assert (y mod 4 = 0 \/ y mod 4 = 1 \/ y mod 4 = 2 \/ y mod 4 = 3) as Hy by zlia.
  replace y with (x + y mod 4) at 2 by (unfold x; lia).
  destruct Hy as [-> | [-> | [-> | ->]]]; rewrite ?Z.add_0_r; reflexivity.
Qed.

Lemma length_read_bytes a n m : length (read_bytes a n m) = n.
Proof. unfold read_bytes. by rewrite length_fmap, length_seq. Qed.

Lemma read_bytes_ext a n m m' :
  (forall y, a <= y < a + Z.of_nat n -> byte_at m y = byte_at m' y) ->
  read_bytes a n m = read_bytes a n m'.
Proof.
  intros H. apply list_eq. intros i. unfold read_bytes. rewrite !list_lookup_fmap.
  destruct (seq 0 n !! i) as [j|] eqn:E; [|done]. simpl. f_equal.
  apply lookup_seq in E. apply H. lia.
Qed.

(** Bytes written to memory and read back. *)
Lemma read_put_bytes a l m : Forall (fun b => 0 <= b < 256) l ->
  read_bytes a (length l) (put_bytes a l m) = l.
Proof.
  intros Hl. apply list_eq. intros i. unfold read_bytes.
  rewrite list_lookup_fmap. destruct (decide (i < length l)%nat) as [Hi|Hi].
  - rewrite lookup_seq_lt by done. simpl. rewrite byte_at_put.
    rewrite (proj2 (Z.leb_le _ _)), (proj2 (Z.ltb_lt _ _)) by lia. simpl.
    replace (Z.to_nat (a + Z.of_nat i - a)) with i by lia.
    destruct (lookup_lt_is_Some_2 l i Hi) as [b Hb].
    rewrite nth_lookup, Hb. simpl. f_equal. apply u8_small.
    by eapply Forall_lookup_1 in Hl.
  - rewrite lookup_seq_ge by lia. simpl. symmetry. apply lookup_ge_None. lia.
Qed.

(** ** Lemmas on the tables *)
Lemma bh_of_upd k i f j : (i < NR_BUFFERS k)%nat ->
  bh_of (upd_bh i f k) j = if decide (j = i) then f (bh_of k i) else bh_of k j.
Proof.
  intros Hi. unfold bh_of, upd_bh. simpl. destruct (decide (j = i)) as [-> | Hne].
  - rewrite list_lookup_alter_eq.
    destruct (lookup_lt_is_Some_2 (buffers k) i Hi) as [b ->]. done.
  - by rewrite list_lookup_alter_ne.
Qed.
Lemma bh_of_upd_ne k i f j : j <> i -> bh_of (upd_bh i f k) j = bh_of k j.
Proof. intros. unfold bh_of, upd_bh. simpl. by rewrite list_lookup_alter_ne. Qed.
Lemma NR_BUFFERS_upd k i f : NR_BUFFERS (upd_bh i f k) = NR_BUFFERS k.
Proof. unfold NR_BUFFERS, upd_bh. simpl. by rewrite length_alter. Qed.

Lemma req_of_upd k i f j : (i < length (requests k))%nat ->
  req_of (upd_req i f k) j = if decide (j = i) then f (req_of k i) else req_of k j.
Proof.
  intros Hi. unfold req_of, upd_req. simpl. destruct (decide (j = i)) as [-> | Hne].
  - rewrite list_lookup_alter_eq.
    destruct (lookup_lt_is_Some_2 (requests k) i Hi) as [b ->]. done.
  - by rewrite list_lookup_alter_ne.
Qed.
Lemma req_of_upd_ne k i f j : j <> i -> req_of (upd_req i f k) j = req_of k j.
Proof. intros. unfold req_of, upd_req. simpl. by rewrite list_lookup_alter_ne. Qed.
Lemma dev_of_upd k i f j : (i < length (blk_dev k))%nat ->
  dev_of (upd_dev i f k) j = if decide (j = i) then f (dev_of k i) else dev_of k j.
Proof.
  intros Hi. unfold dev_of, upd_dev. simpl. destruct (decide (j = i)) as [-> | Hne].
  - rewrite list_lookup_alter_eq.
    destruct (lookup_lt_is_Some_2 (blk_dev k) i Hi) as [b ->]. done.
  - by rewrite list_lookup_alter_ne.
Qed.

(** ** Lemmas on numbers in a block *)
Lemma length_put_at off v l : (off + length v <= length l)%nat ->
  length (put_at off v l) = length l.
Proof. intros. unfold put_at. rewrite !length_app, length_take, length_drop. lia. Qed.

Lemma take_put_at off v l n : (off + length v <= length l)%nat -> (n <= off)%nat ->
  take n (put_at off v l) = take n l.
Proof.
  intros Hl Hn. unfold put_at. rewrite take_app_le by (rewrite length_take; lia).
  rewrite take_take. f_equal. lia.
Qed.
Lemma put_at_same off v l : (off + length v <= length l)%nat ->
  take (length v) (drop off (put_at off v l)) = v.
Proof.
  intros Hl. unfold put_at. rewrite drop_app_length' by (rewrite length_take; lia).
  by rewrite take_app_length.
Qed.
Lemma put_at_below off v l o n : (off + length v <= length l)%nat -> (o + n <= off)%nat ->
  take n (drop o (put_at off v l)) = take n (drop o l).
Proof.
  intros Hl Hn. unfold put_at. rewrite drop_app_le by (rewrite length_take; lia).
  rewrite take_app_le by (rewrite length_drop, length_take; lia).
  rewrite !take_drop_commute, take_take. do 2 f_equal. lia.
Qed.
Lemma put_at_above off v l o n : (off + length v <= length l)%nat ->
  (off + length v <= o)%nat ->
  take n (drop o (put_at off v l)) = take n (drop o l).
Proof.
  intros Hl Hn. unfold put_at. rewrite app_assoc, drop_app_ge
    by (rewrite length_app, length_take; lia).
  rewrite drop_drop, length_app, length_take. do 2 f_equal. lia.
Qed.

Lemma get_set_word i j v l : (2 * i + 2 <= length l)%nat ->
  get_word (set_word i v l) j = if decide (j = i) then u16 v else get_word l j.
Proof.
  intros Hl. unfold get_word, set_word.
  assert (Hlb : length (le_bytes 2 v) = 2%nat) by apply length_le_bytes.
  destruct (decide (j = i)) as [-> | Hne].
  - rewrite <- Hlb at 1. rewrite put_at_same by lia. apply (le_value_bytes 2 v).
  - destruct (decide (j < i)%nat); [rewrite put_at_below|rewrite put_at_above]; done || lia.
Qed.

(** ** Lemmas on the tasks *)
Lemma task_at_upd s i f j :
  task_at (upd_task i f s) j = if decide (j = i) then f <$> task_at s i else task_at s j.
Proof.
  unfold task_at, upd_task. simpl. destruct (decide (j = i)) as [-> | Hne].
  - rewrite list_lookup_alter_eq. by destruct (task s !! i) as [[t|]|].
  - by rewrite list_lookup_alter_ne.
Qed.
(** There is a current task. *)
Definition running (k : K) : Prop := task_at (k_sched k) (current (k_sched k)) <> None.
Lemma cur_upd_current f k : running k -> cur (upd_current f k) = f (cur k).
Proof.
  unfold running, cur, cur_task, upd_current, upd_cur. simpl. intros Hr.
  rewrite task_at_upd, decide_True by done. by destruct (task_at _ _).
Qed.
Lemma running_upd_current f k : running k -> running (upd_current f k).
Proof.
  unfold running, upd_current, upd_cur. simpl. rewrite task_at_upd, decide_True by done.
  by destruct (task_at _ _).
Qed.
