(* ===== verification/Fork.v ===== *)
(** Creating a process: [kernel/fork.c], with the segment descriptors of
    [include/linux/sched.h] and [include/asm/system.h]. *)
From S2P Require Import Prelude Sched Mm Kernel.

(** * Segment descriptors *)

(** include/linux/sched.h:212-223 [_set_base]: bytes 2, 3, 4 and 7 *)
Definition set_base (d : desc_struct) (base : Z) : desc_struct :=
  Desc ((d_a d .& 0xffff) .| ((base .& 0xffff) .<< 16))
       ((d_b d .& 0x00ffff00) .| ((base .>> 16) .& 0xff) .| (base .& 0xff000000)).
(** include/linux/sched.h:257-269 [_get_base] *)
Definition get_base (d : desc_struct) : Z :=
  ((d_a d .>> 16) .& 0xffff) .| ((d_b d .& 0xff) .<< 16) .| (d_b d .& 0xff000000).
(** include/linux/sched.h:225-236 [_set_limit]: bytes 0, 1 and 6 *)
Definition set_limit (d : desc_struct) (lim : Z) : desc_struct :=
  let limit := u32 (lim - 1) .>> 12 in
  Desc ((d_a d .& 0xffff0000) .| (limit .& 0xffff))
       ((d_b d .& 0xff00ffff) .|
        ((((d_b d .>> 16) .& 0xf0) .| ((limit .>> 16) .& 0xff)) .<< 16)).
(** include/linux/sched.h:273-275 [get_limit]: the [lsl] instruction, which scales
    the limit when the granularity bit is set, plus one *)
Definition get_limit (d : desc_struct) : Z :=
  let limit := (d_a d .& 0xffff) .| (d_b d .& 0xf0000) in
  u32 ((if Z.testbit (d_b d) 23 then (limit .<< 12) .| 0xfff else limit) + 1).
Definition ldt_of (t : task_struct) (i : nat) : desc_struct := default (Desc 0 0) (ldt t !! i).

Definition FIRST_TSS_ENTRY : Z := 4.
Definition FIRST_LDT_ENTRY : Z := 5.
(** include/linux/sched.h:186-186 [_LDT] *)
Definition LDT_SELECTOR (n : Z) : Z := (n .<< 4) + (FIRST_LDT_ENTRY .<< 3).
(** include/asm/system.h:82-96 [_set_tssldt_desc] *)
Definition tssldt_desc (addr type : Z) : desc_struct :=
  Desc (104 .| ((addr .& 0xffff) .<< 16))
       (((addr .>> 16) .& 0xff) .| (type .<< 8) .| (addr .& 0xff000000)).

(** The offsets of [tss] and [ldt] in a [task_struct]. *)
Definition TSS_OFFSET : Z := 744.
Definition LDT_OFFSET : Z := 720.

(** kernel/fork.c:25-38 [verify_area]; a round for each page, at most
    [(size + 4095) / 4096 + 1] of them *)
Definition verify_area (addr size : Z) : M K unit :=
  t ← gets cur ;
  let size := s32 (size + (u32 addr .& 0xfff)) in
  let start := u32 ((u32 addr .& 0xfffff000) + get_base (ldt_of t 2)) in
  for_each (seq 0 (Z.to_nat ((size + 4095) / 4096))) (fun i =>
    in_mm (write_verify (u32 (start + 4096 * Z.of_nat i)))).

(** kernel/fork.c:40-63 [copy_mem]; the new task is slot [nr] *)
Definition copy_mem (nr : nat) : M K Z :=
  t ← gets cur ;
  let code_limit := get_limit (ldt_of t 1) in
  let data_limit := get_limit (ldt_of t 2) in
  let old_code_base := get_base (ldt_of t 1) in
  let old_data_base := get_base (ldt_of t 2) in
  if negb (old_data_base =? old_code_base) then panic "We don't support separate I&D" else
  if data_limit <? code_limit then panic "Bad data_limit" else
  let new_base := u32 (Z.of_nat nr * 0x4000000) in
  modify (fun k => k <| k_sched ::= upd_task nr (fun p =>
    p <| start_code := new_base |>
      <| ldt ::= fun l => alter (fun d => set_base d new_base) 2%nat
                            (alter (fun d => set_base d new_base) 1%nat l) |>) |>) ;;
  r ← in_mm (copy_page_tables old_data_base new_base data_limit) ;
  if truth r then
    printk "free_page_tables: from copy_mem" [] ;;
    in_mm (free_page_tables new_base data_limit) ;;
    mret (- ENOMEM)
  else mret 0.

(** What the system call pushed: the registers of the caller. *)
Record regs : Type := Regs {
  r_ebp : Z; r_edi : Z; r_esi : Z; r_gs : Z; r_ebx : Z; r_ecx : Z; r_edx : Z;
  r_fs : Z; r_es : Z; r_ds : Z; r_eip : Z; r_cs : Z; r_eflags : Z; r_esp : Z; r_ss : Z;
}.

(** kernel/fork.c:86-117 [copy_process]: the new [task_struct] *)
Definition child_of (t : task_struct) (nr : nat) (lastpid jiff page : Z) (r : regs) :
    task_struct :=
  t <| state := TASK_UNINTERRUPTIBLE |> <| pid := lastpid |> <| father := pid t |>
    <| counter := priority t |> <| signal := 0 |> <| alarm := 0 |> <| leader := 0 |>
    <| utime := 0 |> <| stime := 0 |> <| cutime := 0 |> <| cstime := 0 |>
    <| start_time := jiff |>
    <| tss := tss t <| back_link := 0 |> <| esp0 := 4096 + page |> <| ss0 := 0x10 |>
        <| eip := r_eip r |> <| eflags := r_eflags r |> <| eax := 0 |>
        <| ecx := r_ecx r |> <| edx := r_edx r |> <| ebx := r_ebx r |>
        <| esp := r_esp r |> <| ebp := r_ebp r |> <| esi := r_esi r |> <| edi := r_edi r |>
        <| es := r_es r .& 0xffff |> <| cs := r_cs r .& 0xffff |> <| ss := r_ss r .& 0xffff |>
        <| ds := r_ds r .& 0xffff |> <| fs := r_fs r .& 0xffff |> <| gs := r_gs r .& 0xffff |>
        <| tss_ldt := LDT_SELECTOR (Z.of_nat nr) |> <| trace_bitmap := 0x80000000 |> |>.

Definition inc_inode (p : option nat) : K -> K :=
  match p with
  | Some i => upd_inode i (fun n => n <| i_count ::= fun c => u16 (c + 1) |>)
  | None => fun k => k
  end.

(** kernel/fork.c:70-138 [copy_process]; the FPU image is not part of the state *)
Definition copy_process (nr : nat) (r : regs) : M K Z :=
  p ← in_mm get_free_page ;
  if p =? 0 then mret (- EAGAIN) else
  modify (fun k =>
    let t := child_of (cur k) nr (last_pid k) (jiffies (k_sched k)) p r in
    k <| k_sched ::= fun s => s <| task ::= <[nr := Some t]> |> |>
      <| task_page ::= <[nr := p]> |>) ;;
  e ← copy_mem nr ;
  if truth e then
    modify (fun k => k <| k_sched ::= fun s => s <| task ::= <[nr := None]> |> |>) ;;
    in_mm (free_page p) ;;
    mret (- EAGAIN)
  else
    k ← get ;
    for_each (seq 0 NR_OPEN) (fun i =>
      match mjoin (filp (default (cur k) (task_at (k_sched k) nr)) !! i) with
      | Some f => modify (upd_file f (fun f => f <| f_count ::= fun c => u16 (c + 1) |>))
      | None => mret tt
      end) ;;
    t ← gets cur ;
    modify (inc_inode (pwd t)) ;;
    modify (inc_inode (root t)) ;;
    modify (inc_inode (executable t)) ;;
    modify (fun k => k
      <| gdt ::= <[(2 * nr + 4)%nat := tssldt_desc (p + TSS_OFFSET) 0x89]> |>
      <| gdt ::= <[(2 * nr + 5)%nat := tssldt_desc (p + LDT_OFFSET) 0x82]> |>) ;;
    modify (fun k => k <| k_sched ::= upd_task nr (fun p => p <| state := TASK_RUNNING |>) |>) ;;
    gets last_pid.

(** kernel/fork.c:146-147 [find_empty_process]: does a task have the number? *)
Definition pid_used (ts : list (option task_struct)) (p : Z) : bool :=
  existsb (fun o => match o with Some t => pid t =? p | None => false end) ts.
(** kernel/fork.c:145-145 [find_empty_process]: [if ((++last_pid)<0) last_pid=1] *)
Definition next_pid (p : Z) : Z := let p := s32 (p + 1) in if p <? 0 then 1 else p.
(** kernel/fork.c:144-147 [find_empty_process]: the search for a number no task has *)
Fixpoint find_pid (fuel : nat) (ts : list (option task_struct)) (p : Z) : option Z :=
  match fuel with
  | O => None
  | S n => let p := next_pid p in if pid_used ts p then find_pid n ts p else Some p
  end.
(** kernel/fork.c:148-150 [find_empty_process]: the first free slot from [i] on *)
Fixpoint find_slot (i : nat) (ts : list (option task_struct)) : option nat :=
  match ts with
  | [] => None
  | None :: _ => Some i
  | Some _ :: ts' => find_slot (S i) ts'
  end.

(** kernel/fork.c:140-152 [find_empty_process]; one round more than there are tasks
    finds a number *)
Definition find_empty_process : M K Z :=
  k ← get ;
  let ts := task (k_sched k) in
  match find_pid (S (length ts)) ts (last_pid k) with
  | None => out_of_fuel
  | Some p =>
      modify (fun k => k <| last_pid := p |>) ;;
      match find_slot 1 (drop 1 ts) with
      | Some i => mret (Z.of_nat i)
      | None => mret (- EAGAIN)
      end
  end.

(** * Properties *)

(** ** Descriptors

    The masks of the descriptor macros, as runs of ones. *)
Lemma mask_ff : 0xff = Z.ones 8. Proof. done. Qed.
Lemma mask_ffff : 0xffff = Z.ones 16. Proof. done. Qed.
Lemma mask_f0 : 0xf0 = Z.ones 4 .<< 4. Proof. done. Qed.
Lemma mask_f0000 : 0xf0000 = Z.ones 4 .<< 16. Proof. done. Qed.
Lemma mask_ffff00 : 0x00ffff00 = Z.ones 16 .<< 8. Proof. done. Qed.
Lemma mask_ff000000 : 0xff000000 = Z.ones 8 .<< 24. Proof. done. Qed.
Lemma mask_ffff0000 : 0xffff0000 = Z.ones 16 .<< 16. Proof. done. Qed.
Lemma mask_ff00ffff : 0xff00ffff = Z.ones 16 .| Z.ones 8 .<< 24. Proof. done. Qed.

(** Bit [i] of an expression of masks and shifts, [i] being in a known interval. *)
Ltac bit_of i :=
  repeat first
    [ progress rewrite ?Z.lor_spec, ?Z.land_spec
    | match goal with
      | |- context [Z.testbit ?a ?m] => rewrite (Z.testbit_neg_r a m) by lia
      | |- context [Z.testbit (?a .>> ?n) ?m] => rewrite (Z.shiftr_spec a n m) by lia
      | |- context [Z.testbit (?a .<< ?n) ?m] => rewrite (Z.shiftl_spec a n m) by lia
      end ];
  rewrite ?Z.testbit_ones by lia;
  repeat match goal with
  | |- context [?m <? ?n] => first
      [ rewrite (proj2 (Z.ltb_lt m n)) by lia | rewrite (proj2 (Z.ltb_ge m n)) by lia ]
  | |- context [?m <=? ?n] => first
      [ rewrite (proj2 (Z.leb_le m n)) by lia | rewrite (proj2 (Z.leb_gt m n)) by lia ]
  end;
  rewrite ?Z.add_simpl_r, ?Z.sub_simpl_r;
  rewrite ?andb_false_r, ?andb_true_r, ?orb_false_r, ?orb_false_l; cbn [andb orb].

Lemma get_base_set_base d base : 0 <= base < 2 ^ 32 -> get_base (set_base d base) = base.
Proof.
  intros Hb. unfold get_base, set_base; cbn [d_a d_b]. generalize (d_a d), (d_b d). intros a b.
  rewrite mask_ffff, mask_ff, mask_ffff00, mask_ff000000. apply Z.bits_inj'. intros i Hi.
  destruct (decide (i < 32)); [|rewrite (testbit_ge_false base 32) by lia; by bit_of i].
  destruct (decide (i < 16)); [by bit_of i|].
  destruct (decide (i < 24)); bit_of i; try done; f_equal; lia.
Qed.

Lemma get_limit_ext d d' : d_a d' .& 0xffff = d_a d .& 0xffff ->
  d_b d' .& 0xf0000 = d_b d .& 0xf0000 -> Z.testbit (d_b d') 23 = Z.testbit (d_b d) 23 ->
  get_limit d' = get_limit d.
Proof. intros Ha Hb Hg. unfold get_limit. by rewrite Ha, Hb, Hg. Qed.

Lemma get_limit_set_base d base : get_limit (set_base d base) = get_limit d.
Proof.
  unfold set_base.
  apply get_limit_ext; cbn [d_a d_b]; generalize (d_a d), (d_b d); intros a b;
    rewrite ?mask_ffff, ?mask_ff, ?mask_ffff00, ?mask_ff000000, ?mask_f0000.
  - apply Z.bits_inj'. intros i Hi. destruct (decide (i < 16)); by bit_of i.
  - apply Z.bits_inj'. intros i Hi. destruct (decide (i < 16)); [by bit_of i|].
    destruct (decide (i < 20)); by bit_of i.
  - by bit_of 23.
Qed.

Lemma get_base_set_limit d lim : get_base (set_limit d lim) = get_base d.
Proof.
  unfold get_base, set_limit; cbn [d_a d_b]. generalize (d_a d), (d_b d), (u32 (lim - 1) .>> 12).
  intros a b l.
  rewrite mask_ffff, mask_ff, mask_ff000000, mask_f0, mask_ff00ffff, mask_ffff0000.
  apply Z.bits_inj'. intros i Hi.
  destruct (decide (i < 8)); [by bit_of i|]. destruct (decide (i < 16)); [by bit_of i|].
  destruct (decide (i < 24)); [by bit_of i|]. destruct (decide (i < 32)); by bit_of i.
Qed.

(** With 4k pages as the unit ([G] set), a limit is kept page by page. *)
Lemma get_limit_set_limit d lim : Z.testbit (d_b d) 23 = true -> 0 < lim <= 2 ^ 32 ->
  lim mod 4096 = 0 -> get_limit (set_limit d lim) = u32 lim.
Proof.
  intros Hg Hlim Hmod. unfold get_limit, set_limit; cbn [d_a d_b].
  rewrite (u32_small (lim - 1)) by lia. set (l := (lim - 1) .>> 12).
  assert (Hl : l = lim / 4096 - 1).
  { unfold l. rewrite shiftr_div by lia. change (2 ^ 12) with 4096. zlia. }
  assert (Hl20 : 0 <= l < 2 ^ 20) by (rewrite Hl; zlia).
  generalize (d_a d), (d_b d), Hg. intros a b Hgb.
  rewrite mask_ffff, mask_ff, mask_f0, mask_ff00ffff, mask_ffff0000, mask_f0000.
  match goal with |- context [if Z.testbit ?x 23 then _ else _] =>
    assert (Z.testbit x 23 = true) as -> by (bit_of 23; by rewrite Hgb) end.
  match goal with |- u32 (?x .<< 12 .| _ + 1) = _ => assert (x = l) as -> end.
  { apply Z.bits_inj'. intros i Hi. destruct (decide (i < 16)); [by bit_of i|].
    destruct (decide (i < 20)); [bit_of i|bit_of i].
    - f_equal; lia.
    - by rewrite (testbit_ge_false l 20) by lia. }
  rewrite (lor_low_add _ 0xfff 12), shiftl_mul by
    (lia || (rewrite ?shiftl_mul by lia; apply Z.mod_mul; lia)).
  change (2 ^ 12) with 4096. f_equal. rewrite Hl. zlia.
Qed.

(** The descriptor macros are inverse to each other field by field: a base
    written with [set_base] is read back by [get_base] and leaves the limit alone; a
    page-granular limit written with [set_limit] is read back and leaves the base
    alone. *)
Theorem descriptor_roundtrip d base lim :
  0 <= base < 2 ^ 32 -> Z.testbit (d_b d) 23 = true -> 0 < lim <= 2 ^ 32 ->
  lim mod 4096 = 0 ->
  get_base (set_base d base) = base /\ get_limit (set_base d base) = get_limit d /\
  get_limit (set_limit d lim) = u32 lim /\ get_base (set_limit d lim) = get_base d.
Proof.
  intros Hb Hg Hl Hm. split; [by apply get_base_set_base|]. split; [apply get_limit_set_base|].
  split; [by apply get_limit_set_limit|apply get_base_set_limit].
Qed.

Lemma descriptor_roundtrip_witness :
  let d := Desc 0x0000009f 0x00c0fa00 in
  get_base (set_base d 0x4000000) = 0x4000000 /\ get_limit (set_base d 0x4000000) = get_limit d /\
  get_limit (set_limit d 0xa0000) = 0xa0000 /\ get_base (set_limit d 0xa0000) = get_base d.
Proof.
  apply (descriptor_roundtrip (Desc 0x0000009f 0x00c0fa00) 0x4000000 0xa0000);
    [lia|reflexivity|lia|reflexivity].
Defined.

(** ** A number and a slot for a new process *)
Definition PID_MAX : Z := 2147483647.

(** The [i]-th number tried after [p]. *)
Definition pid_after (p : Z) (i : nat) : Z :=
  if p + Z.of_nat i <=? PID_MAX then p + Z.of_nat i else p + Z.of_nat i - PID_MAX.

Lemma next_pid_after p i : 0 <= p <= PID_MAX -> Z.of_nat i < PID_MAX ->
  next_pid (pid_after p i) = pid_after p (S i).
Proof.
  unfold next_pid, pid_after, s32, PID_MAX. intros Hp Hi.
  destruct (Z.leb_spec (p + Z.of_nat i) 2147483647);
    destruct (Z.leb_spec (p + Z.of_nat (S i)) 2147483647); cbv zeta;
    match goal with |- context [?a <? 0] => destruct (Z.ltb_spec a 0) end; zlia.
Qed.
Lemma pid_after_inj p i j : 0 <= p <= PID_MAX -> (0 < i)%nat -> (0 < j)%nat ->
  Z.of_nat i < PID_MAX -> Z.of_nat j < PID_MAX -> pid_after p i = pid_after p j -> i = j.
Proof.
  unfold pid_after, PID_MAX. intros Hp Hi0 Hj0 Hi Hj.
  destruct (Z.leb_spec (p + Z.of_nat i) 2147483647);
    destruct (Z.leb_spec (p + Z.of_nat j) 2147483647); lia.
Qed.
Lemma pid_after_pos p i : 0 <= p <= PID_MAX -> (0 < i)%nat -> Z.of_nat i <= PID_MAX ->
  0 < pid_after p i <= PID_MAX.
Proof.
  unfold pid_after, PID_MAX. intros. destruct (Z.leb_spec (p + Z.of_nat i) 2147483647); lia.
Qed.

(** The search stops at the first unused of the numbers, or has tried them all. *)
Lemma find_pid_spec ts p n : forall i, 0 <= p <= PID_MAX -> Z.of_nat (i + n) < PID_MAX ->
  match find_pid n ts (pid_after p i) with
  | Some q => exists j, (i < j <= i + n)%nat /\ q = pid_after p j /\ pid_used ts q = false
  | None => forall j, (i < j <= i + n)%nat -> pid_used ts (pid_after p j) = true
  end.
Proof.
  induction n as [|n IH]; intros i Hp Hi; cbn [find_pid]; [lia|].
  rewrite next_pid_after by (done || lia).
  destruct (pid_used ts (pid_after p (S i))) eqn:E.
  - specialize (IH (S i) Hp ltac:(lia)).
    destruct (find_pid n ts (pid_after p (S i))) as [q|].
    + destruct IH as (j & Hj & Hq). exists j. split; [lia|done].
    + intros j Hj. destruct (decide (j = S i)) as [-> | ]; [done|]. apply IH. lia.
  - exists (S i). split; [lia|done].
Qed.

Definition pids (ts : list (option task_struct)) : list Z := pid <$> omap id ts.
Lemma pid_used_in ts p : pid_used ts p = true <-> p ∈ pids ts.
Proof.
  unfold pid_used, pids. rewrite existsb_exists, list_elem_of_fmap. split.
  - intros ([t|] & Hin & Ht); [|done]. apply Z.eqb_eq in Ht. exists t. split; [done|].
    apply list_elem_of_omap. exists (Some t). split; [by apply list_elem_of_In|done].
  - intros (t & -> & Hin). apply list_elem_of_omap in Hin as (o & Ho & E). simpl in E. subst o.
    exists (Some t). split; [by apply list_elem_of_In|apply Z.eqb_refl].
Qed.
Lemma length_omap_le {A B} (f : A -> option B) l : (length (omap f l) <= length l)%nat.
Proof.
  unfold omap. induction l as [|x l IH]; [done|]. simpl. destruct (f x); simpl in *; lia.
Qed.

Lemma find_pid_total ts p : 0 <= p <= PID_MAX -> Z.of_nat (S (length ts)) < PID_MAX ->
  exists q, find_pid (S (length ts)) ts p = Some q /\ 0 < q <= PID_MAX /\ q ∉ pids ts.
Proof.
  intros Hp Hlen. pose proof (find_pid_spec ts p (S (length ts)) 0 Hp Hlen) as H.
  replace (pid_after p 0) with p in H
    by (unfold pid_after; destruct (Z.leb_spec (p + Z.of_nat 0) PID_MAX); lia).
  destruct (find_pid (S (length ts)) ts p) as [q|].
  - destruct H as (j & Hj & -> & Hu). exists (pid_after p j). split; [done|].
    split; [apply pid_after_pos; lia|]. rewrite <- pid_used_in, Hu. done.
  - exfalso. set (qs := pid_after p <$> seq 1 (S (length ts))).
    assert (Hnd : NoDup qs).
    { apply NoDup_fmap_2_strong; [|apply NoDup_seq].
      intros i j Hi%elem_of_seq Hj%elem_of_seq. apply pid_after_inj; lia. }
    assert (Hsub : qs ⊆ pids ts).
    { intros q (j & -> & Hj)%list_elem_of_fmap. apply elem_of_seq in Hj.
      apply pid_used_in, H. lia. }
    pose proof (submseteq_length _ _ (NoDup_submseteq _ _ Hnd Hsub)) as Hle.
    unfold qs, pids in Hle. rewrite !length_fmap, length_seq in Hle.
    pose proof (length_omap_le (@id (option task_struct)) ts). lia.
Qed.

Lemma find_slot_spec ts : forall i,
  match find_slot i ts with
  | Some j => (i <= j)%nat /\ ts !! (j - i)%nat = Some None /\
      forall m, (m < j - i)%nat -> exists t, ts !! m = Some (Some t)
  | None => forall m o, ts !! m = Some o -> o <> None
  end.
Proof.
  induction ts as [|[t|] ts IH]; intros i; cbn [find_slot].
  - intros m o Hm. by rewrite lookup_nil in Hm.
  - specialize (IH (S i)). destruct (find_slot (S i) ts) as [j|].
    + destruct IH as (Hj & Hn & Hb). split; [lia|].
      replace (j - i)%nat with (S (j - S i)) by lia. split; [done|].
      intros [|m] Hm; [by exists t|]. apply Hb. lia.
    + intros [|m] o Hm; [by injection Hm as <-|]. by apply (IH m).
  - split; [done|]. rewrite Nat.sub_diag. split; [done|]. lia.
Qed.

(** C33. [find_empty_process] ends: it leaves in [last_pid] a positive number that no
    task has, and returns the lowest free slot above slot 0, or [-EAGAIN] exactly
    when slots 1 to the last are all taken. *)
Theorem find_empty_process_spec k w :
  0 <= last_pid k <= PID_MAX -> Z.of_nat (S (length (task (k_sched k)))) < PID_MAX ->
  exists r p, find_empty_process k w = Ret r (k <| last_pid := p |>) w /\
    0 < p <= PID_MAX /\ (forall i t, task_at (k_sched k) i = Some t -> pid t <> p) /\
    ((r = - EAGAIN /\ forall i, (0 < i < length (task (k_sched k)))%nat ->
        task_at (k_sched k) i <> None) \/
     (exists i, r = Z.of_nat i /\ (0 < i < length (task (k_sched k)))%nat /\
        task_at (k_sched k) i = None /\
        forall j, (0 < j < i)%nat -> task_at (k_sched k) j <> None)).
Proof.
  intros Hp Hlen. unfold find_empty_process. run. set (ts := task (k_sched k)) in *.
  destruct (find_pid_total ts (last_pid k) Hp Hlen) as (q & -> & Hq & Hfree). run.
  assert (Hpid : forall i t, task_at (k_sched k) i = Some t -> pid t <> q).
  { intros i t Ht <-. apply Hfree. unfold pids. apply list_elem_of_fmap. exists t. split; [done|].
    apply list_elem_of_omap. exists (Some t). split; [|done].
    unfold task_at in Ht. fold ts in Ht. destruct (ts !! i) as [o|] eqn:E; [|done].
    simpl in Ht. subst o. by eapply list_elem_of_lookup_2. }
  pose proof (find_slot_spec (drop 1 ts) 1) as Hs.
  destruct (find_slot 1 (drop 1 ts)) as [i|]; run.
  - destruct Hs as (Hi & Hn & Hb). rewrite lookup_drop in Hn.
    replace (1 + (i - 1))%nat with i in Hn by lia.
    exists (Z.of_nat i), q. do 3 (split; [done|]). right. exists i. split; [done|].
    split; [apply lookup_lt_Some in Hn; lia|].
    unfold task_at. fold ts. rewrite Hn. split; [done|].
    intros j Hj. destruct (Hb (j - 1)%nat) as [t Ht]; [lia|]. rewrite lookup_drop in Ht.
    replace (1 + (j - 1))%nat with j in Ht by lia. by rewrite Ht.
  - exists (- EAGAIN), q. do 3 (split; [done|]). left. split; [done|]. intros i Hi.
    destruct (lookup_lt_is_Some_2 ts i) as [o Ho]; [lia|].
    unfold task_at. fold ts. rewrite Ho. simpl. apply (Hs (i - 1)%nat).
    rewrite lookup_drop. by replace (1 + (i - 1))%nat with i by lia.
Qed.

(** A system with tasks 0 and 1 and two free slots, whose last number was the last. *)
Definition fork_sample : K :=
  Kernel [] (BufferHead [] 0 0 0 0 0 0 None None None None) [] None [] [] 0 0 [] 0%nat [] [] 0
    (fun _ => 0)
    (no_sched [] None <| task := [Some (INIT_TASK 0 0);
       Some (INIT_TASK 0 0 <| pid := 1 |> <| uid := 5 |> <| euid := 6 |>); None; None] |>)
    no_mm PID_MAX [] [] [] (repeat 0 24).
Lemma find_empty_process_spec_witness : exists r,
  let k := fork_sample in
  exists p, find_empty_process k (World [] []) = Ret r (k <| last_pid := p |>) (World [] []) /\
    0 < p <= PID_MAX.
Proof.
  edestruct find_empty_process_spec as (r & p & E & Hp & _);
    [| |exists r; cbv zeta; exists p; split; [exact E|exact Hp]].
  - simpl. unfold PID_MAX. lia.
  - simpl. unfold PID_MAX. lia.
Defined.
