(* ===== verification/Strings.v ===== *)
(** The string routines of lib/string.c and the character classes of lib/ctype.c.

    The routines are string instructions; a routine here is a function from the memory
    they run on, in bytes, to the memory they leave.  One that runs until a null byte has
    a bound on its rounds as its first argument; [None] is a bound that was too small. *)
From S2P Require Import Prelude Sched Mm Kernel.

(** ** The routines *)

(** lib/string.c:19-22 [strcpy]: [lodsb; stosb] until a null byte *)
Fixpoint copy_str (fuel : nat) (d s : Z) (m : Z -> Z) : option (Z -> Z) :=
  match fuel with
  | O => None
  | S n => let al := m s in
           let m := upd d al m in
           if al =? 0 then Some m else copy_str n (u32 (d + 1)) (u32 (s + 1)) m
  end.
(** lib/string.c:16-25 [strcpy] *)
Definition strcpy (fuel : nat) (dest src : Z) (m : Z -> Z) : option (Z -> Z) :=
  copy_str fuel dest src m.

(** lib/string.c:129-131 [memset]: [rep stosb] *)
Fixpoint rep_stosb (ecx : nat) (d al : Z) (m : Z -> Z) : Z -> Z :=
  match ecx with O => m | S n => rep_stosb n (u32 (d + 1)) al (upd d al m) end.
(** lib/string.c:127-135 [memset] *)
Definition memset (s c count : Z) (m : Z -> Z) : Z -> Z := rep_stosb (Z.to_nat (u32 count)) s c m.

(** lib/string.c:26-40 [strncpy]; [n] is the count *)
Fixpoint strncpy (n : nat) (d s : Z) (m : Z -> Z) : Z -> Z :=
  match n with
  | O => m
  | S n' => let al := m s in
            let m := upd d al m in
            if al =? 0 then rep_stosb n' (u32 (d + 1)) 0 m
            else strncpy n' (u32 (d + 1)) (u32 (s + 1)) m
  end.

(** lib/string.c:26-40 [strncpy]: the [n] bytes of the copy of [l] *)
Fixpoint strncpy_bytes (n : nat) (l : list Z) : list Z :=
  match n, l with
  | O, _ => []
  | S n', c :: l' => c :: (if c =? 0 then repeat 0 n' else strncpy_bytes n' l')
  | S n', [] => repeat 0 n
  end.
(** lib/string.c:43-46 [strcat]: [repne scasb], one back: the null byte *)
Fixpoint find_end (fuel : nat) (d : Z) (m : Z -> Z) : option Z :=
  match fuel with
  | O => None
  | S n => if m d =? 0 then Some d else find_end n (u32 (d + 1)) m
  end.
(** lib/string.c:41-53 [strcat] *)
Definition strcat (fuel : nat) (dest src : Z) (m : Z -> Z) : option (Z -> Z) :=
  match find_end fuel dest m with
  | None => None
  | Some e => copy_str fuel e src m
  end.
(** lib/string.c:61-68 [strncat]: from the null byte on *)
Fixpoint cat_n (n : nat) (d s : Z) (m : Z -> Z) : Z -> Z :=
  match n with
  | O => upd d 0 m
  | S n' => let al := m s in
            let m := upd d al m in
            if al =? 0 then upd (u32 (d + 1)) 0 m
            else cat_n n' (u32 (d + 1)) (u32 (s + 1)) m
  end.
(** lib/string.c:54-72 [strncat] *)
Definition strncat (fuel : nat) (dest src count : Z) (m : Z -> Z) : option (Z -> Z) :=
  match find_end fuel dest m with
  | None => None
  | Some e => Some (cat_n (Z.to_nat count) e src m)
  end.

(** A byte as the flags of a comparison take it. *)
Definition s8 (x : Z) : Z := (x + 128) mod 256 - 128.
(** lib/string.c:84-86 [strcmp]: [jl] after [al] was compared with the byte of [cs] *)
Definition differ (al c : Z) : Z := if s8 al <? s8 c then 1 else -1.
(** lib/string.c:73-90 [strcmp] *)
Fixpoint strcmp (fuel : nat) (cs ct : Z) (m : Z -> Z) : option Z :=
  match fuel with
  | O => None
  | S n => let al := m ct in
           if negb (al =? m cs) then Some (differ al (m cs))
           else if al =? 0 then Some 0 else strcmp n (u32 (cs + 1)) (u32 (ct + 1)) m
  end.
(** lib/string.c:91-110 [strncmp]; [n] is the count *)
Fixpoint strncmp (n : nat) (cs ct : Z) (m : Z -> Z) : Z :=
  match n with
  | O => 0
  | S n' => let al := m ct in
            if negb (al =? m cs) then differ al (m cs)
            else if al =? 0 then 0 else strncmp n' (u32 (cs + 1)) (u32 (ct + 1)) m
  end.
(** lib/string.c:111-126 [strchr]: the address of the character, or null *)
Fixpoint strchr (fuel : nat) (s c : Z) (m : Z -> Z) : option Z :=
  match fuel with
  | O => None
  | S n => let al := m s in
           if al =? c then Some s else if al =? 0 then Some 0 else strchr n (u32 (s + 1)) c m
  end.

(** ** Character classes *)

(** include/ctype.h:4-4 [_U] *)
Definition _U : Z := 1.
(** include/ctype.h:5-5 [_L] *)
Definition _L : Z := 2.
(** include/ctype.h:6-6 [_D] *)
Definition _D : Z := 4.
(** include/ctype.h:7-7 [_C] *)
Definition _C : Z := 8.
(** include/ctype.h:8-8 [_P] *)
Definition _P : Z := 16.
(** include/ctype.h:9-9 [_S] *)
Definition _S : Z := 32.
(** include/ctype.h:10-10 [_X] *)
Definition _X : Z := 64.
(** include/ctype.h:11-11 [_SP] *)
Definition _SP : Z := 128.
(** lib/ctype.c:10-34 [_ctype] *)
Definition _ctype : list Z :=
  [0] ++
  repeat _C 8 ++
  [_C; _C .| _S; _C .| _S; _C .| _S; _C .| _S; _C .| _S; _C; _C] ++
  repeat _C 8 ++
  repeat _C 8 ++
  [_S .| _SP] ++ repeat _P 7 ++
  repeat _P 8 ++
  repeat _D 8 ++
  [_D; _D] ++ repeat _P 6 ++
  [_P] ++ repeat (_U .| _X) 6 ++ [_U] ++
  repeat _U 8 ++
  repeat _U 8 ++
  repeat _U 3 ++ repeat _P 5 ++
  [_P] ++ repeat (_L .| _X) 6 ++ [_L] ++
  repeat _L 8 ++
  repeat _L 8 ++
  repeat _L 3 ++ repeat _P 4 ++ [_C] ++
  repeat 0 128.

(** [(_ctype+1)[c]] and a mask *)
Definition is_class (mask c : Z) : bool := truth (nth (Z.to_nat (c + 1)) _ctype 0 .& mask).
(** include/ctype.h:16-16 [isalnum] *)
Definition isalnum (c : Z) : bool := is_class (_U .| _L .| _D) c.
(** include/ctype.h:17-17 [isalpha] *)
Definition isalpha (c : Z) : bool := is_class (_U .| _L) c.
(** include/ctype.h:18-18 [iscntrl] *)
Definition iscntrl (c : Z) : bool := is_class _C c.
(** include/ctype.h:19-19 [isdigit] *)
Definition isdigit (c : Z) : bool := is_class _D c.
(** include/ctype.h:20-20 [isgraph] *)
Definition isgraph (c : Z) : bool := is_class (_P .| _U .| _L .| _D) c.
(** include/ctype.h:21-21 [islower] *)
Definition islower (c : Z) : bool := is_class _L c.
(** include/ctype.h:22-22 [isprint] *)
Definition isprint (c : Z) : bool := is_class (_P .| _U .| _L .| _D .| _SP) c.
(** include/ctype.h:23-23 [ispunct] *)
Definition ispunct (c : Z) : bool := is_class _P c.
(** include/ctype.h:24-24 [isspace] *)
Definition isspace (c : Z) : bool := is_class _S c.
(** include/ctype.h:25-25 [isupper] *)
Definition isupper (c : Z) : bool := is_class _U c.
(** include/ctype.h:26-26 [isxdigit] *)
Definition isxdigit (c : Z) : bool := is_class (_D .| _X) c.
(** include/ctype.h:28-28 [isascii] *)
Definition isascii (c : Z) : bool := u32 c <=? 0x7f.
(** include/ctype.h:29-29 [toascii] *)
Definition toascii (c : Z) : Z := u32 c .& 0x7f.
(** include/ctype.h:31-31 [tolower]; [_ctmp] is a char *)
Definition tolower (c : Z) : Z := let ctmp := s8 c in if isupper ctmp then ctmp - (65 - 97) else ctmp.
(** include/ctype.h:32-32 [toupper]; [_ctmp] is a char *)
Definition toupper (c : Z) : Z := let ctmp := s8 c in if islower ctmp then ctmp - (97 - 65) else ctmp.

(** ** Strings in memory *)

(** The string [l] stands at [a]. *)
Record str_at (m : Z -> Z) (a : Z) (l : list Z) : Prop := {
  sa_bytes : Forall (fun b => 0 < b < 256) l;
  sa_range : 0 < a /\ a + Z.of_nat (length l) < 2 ^ 32;
  sa_at : forall i b, l !! i = Some b -> m (a + Z.of_nat i) = b;
  sa_end : m (a + Z.of_nat (length l)) = 0;
}.
Lemma str_at_cons m a b l : str_at m a (b :: l) -> m a = b /\ 0 < b < 256 /\ str_at m (a + 1) l.
Proof.
  intros [Hb Hr Ha He]. apply Forall_cons in Hb as [Hb1 Hb]. cbn [length] in *.
  split; [rewrite <- (Ha 0%nat b eq_refl); f_equal; lia|]. split; [done|]. split; [done|lia| |].
  - intros i c Hi. rewrite <- (Ha (S i) c Hi). f_equal. lia.
  - rewrite <- He. f_equal. lia.
Qed.
Lemma str_at_ext m m' a l : (forall x, a <= x <= a + Z.of_nat (length l) -> m' x = m x) ->
  str_at m a l -> str_at m' a l.
Proof.
  intros H [Hb Hr Ha He]. split; [done|done| |].
  - intros i b Hi. pose proof (lookup_lt_Some _ _ _ Hi). rewrite H by lia. by apply Ha.
  - rewrite H by lia. done.
Qed.

(** The bytes of a string and its end. *)
Definition zstr (l : list Z) : list Z := l ++ [0].
Lemma str_at_zstr m a l i b : str_at m a l -> zstr l !! i = Some b -> m (u32 (a + Z.of_nat i)) = b.
Proof.
  intros [Hb Hr Ha He] Hi. pose proof (lookup_lt_Some _ _ _ Hi) as Hlt. unfold zstr in *.
  rewrite length_app in Hlt. simpl in Hlt. rewrite u32_small by lia.
  apply lookup_app_Some in Hi as [Hi | [Hge Hi]]; [by apply Ha|].
  apply list_lookup_singleton_Some in Hi as [Hi <-]. replace i with (length l) by lia. done.
Qed.
Lemma zstr_bytes m a l : str_at m a l -> Forall (fun b => 0 <= b < 256) (zstr l).
Proof.
  intros H. apply Forall_app. split; [|by constructor].
  eapply Forall_impl; [apply (sa_bytes _ _ _ H)|]. simpl. lia.
Qed.
Lemma length_zstr l : length (zstr l) = S (length l).
Proof. unfold zstr. rewrite length_app. simpl. lia. Qed.
(** A string whose first byte, or whose end, is at [a]. *)
Lemma str_at_nil m a : 0 < a < 2 ^ 32 -> m a = 0 -> str_at m a [].
Proof. intros Ha H0. split; [done|simpl; lia|done|simpl; by rewrite Z.add_0_r]. Qed.
Lemma str_at_build m a b l : m a = b -> 0 < b < 256 -> 0 < a -> str_at m (a + 1) l -> str_at m a (b :: l).
Proof.
  intros Ha Hb Hp [Hl Hr Hat He]. split.
  - by constructor.
  - cbn [length]. lia.
  - intros [|i] c Hi; [injection Hi as <-; by rewrite Z.add_0_r|].
    rewrite <- (Hat i c Hi). f_equal. lia.
  - cbn [length]. rewrite <- He. f_equal. lia.
Qed.

(** ** Copying *)

(** [n] bytes at [a] and [k] at [b] are apart. *)
Definition apart (a n b k : Z) : Prop := a + n <= b \/ b + k <= a.

Lemma copy_str_run l : forall fuel d s m, str_at m s l -> (length l < fuel)%nat ->
  0 < d -> d + Z.of_nat (length l) < 2 ^ 32 ->
  apart d (Z.of_nat (length l) + 1) s (Z.of_nat (length l) + 1) ->
  exists m', copy_str fuel d s m = Some m' /\ str_at m' d l /\
    forall a, ~ d <= a <= d + Z.of_nat (length l) -> m' a = m a.
Proof.
  induction l as [|b l IH]; intros [|fuel] d s m Hs Hf Hd Hr Hap; simpl in Hf; try lia; cbn [copy_str].
  - pose proof (sa_end _ _ _ Hs) as E. simpl in E. rewrite Z.add_0_r in E. rewrite E.
    eexists. split; [reflexivity|]. split.
    + apply str_at_nil; [simpl in Hr; lia|apply upd_eq].
    + intros a Ha. apply upd_ne. simpl in Ha. lia.
  - pose proof (sa_range _ _ _ Hs) as Hsr. cbn [length] in *. unfold apart in Hap.
    pose proof (str_at_cons _ _ _ _ Hs) as (Eb & Hb & Hs'). rewrite Eb.
    rewrite (proj2 (Z.eqb_neq b 0)) by lia. rewrite !u32_small by lia.
    destruct (IH fuel (d + 1) (s + 1) (upd d b m)) as (m' & E & Hd' & Hout); try lia.
    + eapply str_at_ext; [|exact Hs']. intros x Hx. apply upd_ne. lia.
    + unfold apart. lia.
    + exists m'. split; [done|]. split.
      * apply str_at_build; [rewrite Hout by lia; apply upd_eq|done|done|done].
      * intros a Ha. rewrite Hout by lia. apply upd_ne. lia.
Qed.
Lemma find_end_run l : forall fuel d m, str_at m d l -> (length l < fuel)%nat ->
  find_end fuel d m = Some (d + Z.of_nat (length l)).
Proof.
  induction l as [|b l IH]; intros [|fuel] d m Hs Hf; simpl in Hf; try lia; cbn [find_end].
  - pose proof (sa_end _ _ _ Hs) as E. simpl in E. rewrite Z.add_0_r in *. by rewrite E.
  - pose proof (sa_range _ _ _ Hs) as Hsr. cbn [length] in *.
    pose proof (str_at_cons _ _ _ _ Hs) as (-> & Hb & Hs').
    rewrite (proj2 (Z.eqb_neq b 0)), u32_small by lia. rewrite (IH _ _ _ Hs') by lia. f_equal. lia.
Qed.
Lemma str_at_app m a l l' : Forall (fun b => 0 < b < 256) l -> 0 < a ->
  (forall i b, l !! i = Some b -> m (a + Z.of_nat i) = b) ->
  str_at m (a + Z.of_nat (length l)) l' -> str_at m a (l ++ l').
Proof.
  revert a. induction l as [|b l IH]; intros a Hl Ha Hm Hs; [by rewrite Z.add_0_r in Hs|].
  apply Forall_cons in Hl as [Hb Hl]. apply str_at_build; [|done|done|].
  - rewrite <- (Hm 0%nat b eq_refl). f_equal. lia.
  - apply IH; [done|lia| |].
    + intros i c Hi. rewrite <- (Hm (S i) c Hi). f_equal. lia.
    + cbn [length] in Hs. by replace (a + 1 + Z.of_nat (length l)) with (a + Z.of_nat (S (length l))) by lia.
Qed.

(** lib/string.c strcpy and strcat: for a string and a place that do not overlap,
    strcpy leaves the string there, strcat leaves it behind the string that is there;
    no other byte changes, in particular not the string copied. *)
Theorem strcat_appends fuel dest src l l' m : str_at m dest l -> str_at m src l' ->
  (length l + length l' < fuel)%nat -> dest + Z.of_nat (length l + length l') < 2 ^ 32 ->
  apart dest (Z.of_nat (length l + length l') + 1) src (Z.of_nat (length l') + 1) ->
  (exists m', strcat fuel dest src m = Some m' /\ str_at m' dest (l ++ l') /\ str_at m' src l' /\
     forall a, ~ dest + Z.of_nat (length l) <= a <= dest + Z.of_nat (length l + length l') -> m' a = m a) /\
  (exists m', strcpy fuel dest src m = Some m' /\ str_at m' dest l' /\ str_at m' src l' /\
     forall a, ~ dest <= a <= dest + Z.of_nat (length l') -> m' a = m a).
Proof.
  intros Hd Hs Hf Hr Hap. pose proof (sa_range _ _ _ Hd). unfold apart in Hap. split.
  - unfold strcat. rewrite (find_end_run l) by (done || lia).
    destruct (copy_str_run l' fuel (dest + Z.of_nat (length l)) src m Hs) as (m' & E & Hd' & Hout);
      [lia..|unfold apart; lia|].
    exists m'. split; [done|]. split; [|split].
    + apply str_at_app; [apply (sa_bytes _ _ _ Hd)|lia| |done]. intros i b Hi.
      pose proof (lookup_lt_Some _ _ _ Hi). rewrite Hout by lia. by apply (sa_at _ _ _ Hd).
    + eapply str_at_ext; [|exact Hs]. intros x Hx. apply Hout. lia.
    + intros a Ha. apply Hout. lia.
  - unfold strcpy. destruct (copy_str_run l' fuel dest src m Hs) as (m' & E & Hd' & Hout);
      [lia..|unfold apart; lia|].
    exists m'. split; [done|]. split; [done|]. split; [|done].
    eapply str_at_ext; [|exact Hs]. intros x Hx. apply Hout. lia.
Qed.
Definition sample_bytes (a : Z) : Z := nth (Z.to_nat (a - 100)) [104; 105; 0; 0; 0; 0; 0; 0; 33; 0] 0.
Lemma strcat_appends_witness : exists m', strcat 10 100 108 sample_bytes = Some m' /\
  str_at m' 100 [104; 105; 33].
Proof.
  destruct (strcat_appends 10 100 108 [104; 105] [33] sample_bytes) as [(m' & E & H & _) _].
  - split; [repeat constructor; lia|simpl; lia| |done].
    intros [|[|i]] b Hb; [injection Hb as <-; done|injection Hb as <-; done|done].
  - split; [repeat constructor; lia|simpl; lia| |done].
    intros [|i] b Hb; [injection Hb as <-; done|done].
  - simpl. lia.
  - simpl. lia.
  - unfold apart. simpl. lia.
  - by exists m'.
Defined.

(** ** Comparing *)

(** The order of the strings: bytes as signed characters, the shorter one first. *)
Fixpoint str_compare (l l' : list Z) : Z :=
  match l, l' with
  | [], [] => 0
  | [], b :: _ => differ b 0
  | a :: _, [] => differ 0 a
  | a :: l, b :: l' => if a =? b then str_compare l l' else differ b a
  end.
Lemma str_at_head m a l : str_at m a l -> m a = hd 0 l.
Proof.
  destruct l as [|b l]; intros H; [|apply (str_at_cons _ _ _ _ H)].
  pose proof (sa_end _ _ _ H) as E. simpl in E. by rewrite Z.add_0_r in E.
Qed.
Lemma strcmp_run l : forall fuel l' cs ct m, str_at m cs l -> str_at m ct l' ->
  (length l < fuel)%nat -> strcmp fuel cs ct m = Some (str_compare l l').
Proof.
  induction l as [|a l IH]; intros [|fuel] l' cs ct m Hl Hl' Hf; simpl in Hf; try lia;
    cbn [strcmp]; rewrite (str_at_head _ _ _ Hl), (str_at_head _ _ _ Hl'); destruct l' as [|b l'];
    cbn [hd str_compare].
  - done.
  - destruct (str_at_cons _ _ _ _ Hl') as (_ & Hb & _). by rewrite (proj2 (Z.eqb_neq b 0)) by lia.
  - destruct (str_at_cons _ _ _ _ Hl) as (_ & Ha & _). by rewrite (proj2 (Z.eqb_neq 0 a)) by lia.
  - destruct (str_at_cons _ _ _ _ Hl) as (_ & Ha & Hl1), (str_at_cons _ _ _ _ Hl') as (_ & Hb & Hl1').
    rewrite (Z.eqb_sym b a). destruct (Z.eqb_spec a b) as [-> | Hne]; cbn [negb]; [|done].
    pose proof (sa_range _ _ _ Hl). pose proof (sa_range _ _ _ Hl'). cbn [length] in *.
    rewrite (proj2 (Z.eqb_neq b 0)), !u32_small by lia. apply IH; [done|done|lia].
Qed.
Lemma str_compare_eq l : forall l', str_compare l l' = 0 <-> l = l'.
Proof.
  assert (Hd : forall x y, differ x y <> 0) by (intros x y; unfold differ; by case_match).
  induction l as [|a l IH]; intros [|b l']; cbn [str_compare].
  - done.
  - split; [by intros ?%Hd|done].
  - split; [by intros ?%Hd|done].
  - destruct (Z.eqb_spec a b) as [-> | Hne]; [rewrite IH; naive_solver|].
    split; [by intros ?%Hd|congruence].
Qed.

(** lib/string.c strcmp: on two strings it ends and gives 0 exactly when they are the
    same; otherwise the sign of the first two characters that differ, as signed chars,
    the end of a string counting as 0. *)
Theorem strcmp_compares fuel cs ct l l' m : str_at m cs l -> str_at m ct l' -> (length l < fuel)%nat ->
  exists r, strcmp fuel cs ct m = Some r /\ r = str_compare l l' /\ (r = 0 <-> l = l').
Proof.
  intros Hl Hl' Hf. exists (str_compare l l'). split; [by apply strcmp_run|]. split; [done|].
  apply str_compare_eq.
Qed.
Lemma strcmp_compares_witness : strcmp 5 100 108 sample_bytes = Some 1 /\ [104; 105] <> [33].
Proof.
  destruct (strcmp_compares 5 100 108 [104; 105] [33] sample_bytes) as (r & E & -> & _).
  - split; [repeat constructor; lia|simpl; lia| |done].
    intros [|[|i]] b Hb; [injection Hb as <-; done|injection Hb as <-; done|done].
  - split; [repeat constructor; lia|simpl; lia| |done].
    intros [|i] b Hb; [injection Hb as <-; done|done].
  - simpl. lia.
  - split; [exact E|done].
Defined.

Lemma strchr_run l c : forall fuel s m, str_at m s l -> c <> 0 -> (length l < fuel)%nat ->
  match strchr fuel s c m with
  | Some a => (a = 0 /\ c ∉ l) \/
      exists n, a = s + Z.of_nat n /\ l !! n = Some c /\ forall j, (j < n)%nat -> l !! j <> Some c
  | None => False
  end.
Proof.
  induction l as [|b l IH]; intros [|fuel] s m Hs Hc Hf; simpl in Hf; try lia; cbn [strchr];
    rewrite (str_at_head _ _ _ Hs); cbn [hd].
  - rewrite (proj2 (Z.eqb_neq 0 c)) by congruence. left. split; [done|]. apply not_elem_of_nil.
  - pose proof (sa_range _ _ _ Hs). destruct (str_at_cons _ _ _ _ Hs) as (_ & Hb & Hs'). cbn [length] in *.
    destruct (Z.eqb_spec b c) as [-> | Hne].
    { right. exists 0%nat. split; [lia|]. split; [done|]. lia. }
    rewrite (proj2 (Z.eqb_neq b 0)), u32_small by lia.
    specialize (IH fuel (s + 1) m Hs' Hc ltac:(lia)). destruct (strchr fuel (s + 1) c m) as [a|]; [|done].
    destruct IH as [[-> Hn] | (n & -> & Hn & Hlt)].
    + left. split; [done|]. rewrite not_elem_of_cons. split; [congruence|done].
    + right. exists (S n). split; [lia|]. split; [done|]. intros [|j] Hj; [simpl; congruence|apply Hlt; lia].
Qed.

(** strncat stores a null byte behind the one it has copied when the string is shorter
    than the count. *)
Lemma strncat_one_more : exists m', strncat 1 100 200 5 (fun a => if a =? 101 then 7 else 0) = Some m' /\
  m' 101 = 0.
Proof. eexists. split; [reflexivity|]. reflexivity. Qed.

(** ** Copies of a bounded length *)

Lemma rep_stosb_in n : forall d al m, 0 <= d -> d + Z.of_nat n <= 2 ^ 32 ->
  (forall i, (i < n)%nat -> rep_stosb n d al m (d + Z.of_nat i) = al) /\
  forall a, ~ d <= a < d + Z.of_nat n -> rep_stosb n d al m a = m a.
Proof.
  induction n as [|n IH]; intros d al m Hd Hr; [split; [lia|done]|]. cbn [rep_stosb].
  destruct (decide (n = 0)%nat) as [-> | Hn].
  { cbn [rep_stosb]. split.
    - intros i Hi. replace (d + Z.of_nat i) with d by lia. apply upd_eq.
    - intros a Ha. apply upd_ne. lia. }
  rewrite u32_small by lia. destruct (IH (d + 1) al (upd d al m)) as [H1 H2]; [lia..|]. split.
  - intros [|i] Hi; [rewrite H2 by lia; rewrite Z.add_0_r; apply upd_eq|].
    replace (d + Z.of_nat (S i)) with (d + 1 + Z.of_nat i) by lia. apply H1. lia.
  - intros a Ha. rewrite H2 by lia. apply upd_ne. lia.
Qed.
(** The [n] bytes at [a]. *)
Definition bytes_at (m : Z -> Z) (a : Z) (n : nat) : list Z := (fun j => m (a + Z.of_nat j)) <$> seq 0 n.
Lemma bytes_at_S m a n : bytes_at m a (S n) = m a :: bytes_at m (a + 1) n.
Proof.
  unfold bytes_at. cbn [seq fmap list_fmap]. rewrite Z.add_0_r. f_equal.
  rewrite <- fmap_S_seq, <- list_fmap_compose. apply list_fmap_ext. intros i x _. simpl. f_equal. lia.
Qed.
Lemma bytes_at_ext m m' a n : (forall x, a <= x < a + Z.of_nat n -> m' x = m x) ->
  bytes_at m' a n = bytes_at m a n.
Proof.
  intros H. apply list_fmap_ext. intros i x Hx. apply lookup_seq in Hx. apply H. lia.
Qed.
Lemma bytes_at_const m a n c : (forall i, (i < n)%nat -> m (a + Z.of_nat i) = c) -> bytes_at m a n = repeat c n.
Proof.
  revert a. induction n as [|n IH]; intros a H; [done|]. rewrite bytes_at_S. cbn [repeat]. f_equal.
  - rewrite <- (H 0%nat) by lia. f_equal. lia.
  - apply IH. intros i Hi. rewrite <- (H (S i)) by lia. f_equal. lia.
Qed.
Lemma strncpy_run n : forall d s m, 0 <= d -> d + Z.of_nat n < 2 ^ 32 -> 0 <= s -> s + Z.of_nat n < 2 ^ 32 ->
  apart d (Z.of_nat n) s (Z.of_nat n) ->
  bytes_at (strncpy n d s m) d n = strncpy_bytes n (bytes_at m s n) /\
  forall a, ~ d <= a < d + Z.of_nat n -> strncpy n d s m a = m a.
Proof.
  induction n as [|n IH]; intros d s m Hd Hr Hs Hsr Hap; [done|].
  unfold apart in *. rewrite !bytes_at_S. cbn [strncpy strncpy_bytes].
  rewrite !u32_small by lia. destruct (Z.eqb_spec (m s) 0) as [E | E].
  - destruct (rep_stosb_in n (d + 1) 0 (upd d (m s) m)) as [H1 H2]; [lia..|]. split.
    + rewrite H2, upd_eq by lia. by rewrite (bytes_at_const _ (d + 1) n 0).
    + intros a Ha. rewrite H2 by lia. apply upd_ne. lia.
  - destruct (IH (d + 1) (s + 1) (upd d (m s) m)) as [H1 H2]; [lia..|]. split.
    + rewrite H1, H2, upd_eq by lia. do 2 f_equal. apply bytes_at_ext. intros x Hx. apply upd_ne. lia.
    + intros a Ha. rewrite H2 by lia. apply upd_ne. lia.
Qed.

(** ** The classes of characters *)

Definition between (a b c : Z) : bool := (a <=? c) && (c <=? b).
(** What each class is, in ASCII. *)
Definition ascii_classes (c : Z) : Prop :=
  isupper c = between 65 90 c /\ islower c = between 97 122 c /\ isdigit c = between 48 57 c /\
  isalpha c = between 65 90 c || between 97 122 c /\
  isalnum c = between 65 90 c || between 97 122 c || between 48 57 c /\
  isxdigit c = between 48 57 c || between 65 70 c || between 97 102 c /\
  isspace c = between 9 13 c || (c =? 32) /\
  iscntrl c = between 0 31 c || (c =? 127) /\
  isprint c = between 32 126 c /\ isgraph c = between 33 126 c /\
  ispunct c = isgraph c && negb (isalnum c).
#[global] Instance ascii_classes_dec c : Decision (ascii_classes c).
Proof. unfold ascii_classes. apply _. Defined.

Definition ctype_facts (c : Z) : Prop :=
  ((0 <= c -> ascii_classes c) /\ (c = -1 -> isalnum c = false /\ isprint c = false /\ iscntrl c = false)) /\
  tolower c = (if between 65 90 c then c + 32 else c) /\
  toupper c = (if between 97 122 c then c - 32 else c) /\
  (islower c = true -> tolower (toupper c) = c) /\ (isupper c = true -> toupper (tolower c) = c).
#[global] Instance ctype_facts_dec c : Decision (ctype_facts c).
Proof. unfold ctype_facts. apply _. Defined.

(** include/ctype.h with the table of lib/ctype.c: on the 128 characters of ASCII and
    on EOF the macros are the classes of the C standard; tolower and toupper turn one case
    into the other, leave other characters alone and undo each other on letters. *)
Theorem ctype_ascii c : -1 <= c < 128 -> ctype_facts c.
Proof.
  intros Hc.
  assert (H : Forall (fun n => ctype_facts (Z.of_nat n - 1)) (seq 0 129))
    by (apply (bool_decide_unpack _); vm_compute; exact I).
  rewrite Forall_forall in H. specialize (H (Z.to_nat (c + 1))).
  replace (Z.of_nat (Z.to_nat (c + 1)) - 1) with c in H by lia.
  apply H, elem_of_seq. lia.
Qed.
Lemma ctype_ascii_witness : isxdigit 70 = true /\ toupper 103 = 71.
Proof.
  destruct (ctype_ascii 70 ltac:(lia)) as ((H & _) & _).
  destruct (ctype_ascii 103 ltac:(lia)) as (_ & _ & E & _).
  split; [|exact E]. destruct (H ltac:(lia)) as (_ & _ & _ & _ & _ & -> & _). reflexivity.
Defined.
