(* ===== verification/Who.v ===== *)
(** The name of the machine's user, kernel/who.c. *)
From S2P Require Import Prelude Sched Mm Kernel Fork Strings.

(** kernel/who.c:13-20 [sys_iam]: the characters up to the end of the line, at most 30,
    and their number without the end *)
Fixpoint read_name (n : nat) (name : Z) : M K (list Z) :=
  match n with
  | O => mret []
  | S n' =>
      c ← get_fs_byte name ;
      if (c =? 0) || (c =? 10) then mret [c]
      else l ← read_name n' (u32 (name + 1)) ; mret (c :: l)
  end.
(** kernel/who.c:13-20 [sys_iam]: [len] when the loop is left *)
Definition name_len (tmp : list Z) : nat :=
  match last tmp with
  | Some c => if (c =? 0) || (c =? 10) then (length tmp - 1)%nat else length tmp
  | None => 0%nat
  end.
(** kernel/who.c:7-30 [sys_iam] *)
Definition sys_iam (name : Z) : M K Z :=
  tmp ← read_name 30 name ;
  let len := name_len tmp in
  if (24 <=? len)%nat then mret (- EINVAL) else
  modify (fun k => k <| msg ::= fun m => take (S len) tmp ++ drop (S len) m |>) ;;
  mret (Z.of_nat len).

(** kernel/who.c:37-37 [sys_whoami]: the length of the message; there is none when it
    has no end *)
Fixpoint msg_len (m : list Z) : option nat :=
  match m with [] => None | c :: m' => if c =? 0 then Some O else S <$> msg_len m' end.
(** kernel/who.c:41-47 [sys_whoami] *)
Fixpoint put_msg (size : nat) (m : list Z) (name : Z) : M K Z :=
  match size, m with
  | O, _ => mret 0
  | S _, [] => out_of_fuel
  | S n, c :: m' =>
      put_fs_byte c name ;;
      if c =? 0 then mret 0 else i ← put_msg n m' (u32 (name + 1)) ; mret (i + 1)
  end.
(** kernel/who.c:32-48 [sys_whoami] *)
Definition sys_whoami (name size : Z) : M K Z :=
  m ← gets msg ;
  match msg_len m with
  | None => out_of_fuel
  | Some len =>
      if u32 size <? Z.of_nat len then mret (- EINVAL)
      else put_msg (Z.to_nat (Z.min (u32 size) 24)) m name
  end.

(** ** Properties *)

Lemma run_on_get {A} a (f : Z -> M K A) s w :
  (get_fs_byte a ≫= f) s w = f (umem s a) s w.
Proof. by destruct s, w. Qed.
Definition put_user (a v : Z) (s : K) : K := s <| umem ::= upd a (u8 v) |>.
Lemma run_on_put {A} a v (f : unit -> M K A) s w :
  (put_fs_byte v a ≫= f) s w = f tt (put_user a v s) w.
Proof. by destruct w. Qed.

Lemma read_name_run l w : forall n s a, str_at (umem s) a l -> 10 ∉ l -> (length l < n)%nat ->
  read_name n a s w = Ret (l ++ [0]) s w.
Proof.
  induction l as [|c l IH]; intros [|n] s a Hs Hnl Hn; simpl in Hn; try lia; cbn [read_name];
    rewrite run_on_get, (str_at_head _ _ _ Hs); cbn [hd]; [done|].
  destruct (str_at_cons _ _ _ _ Hs) as (_ & Hc & Hs'). pose proof (sa_range _ _ _ Hs).
  apply not_elem_of_cons in Hnl as [Hc10 Hnl]. cbn [length] in *.
  rewrite (proj2 (Z.eqb_neq c 0)), (proj2 (Z.eqb_neq c 10)), u32_small by lia. cbn [orb].
  by rewrite (run_ret _ _ _ _ _ _ _ (IH n s (a + 1) Hs' Hnl ltac:(lia))).
Qed.
Lemma read_name_long l w : forall n s a, str_at (umem s) a l -> 10 ∉ l -> (n <= length l)%nat ->
  read_name n a s w = Ret (take n l) s w.
Proof.
  induction l as [|c l IH]; intros [|n] s a Hs Hnl Hn; simpl in Hn; try lia; try done; cbn [read_name].
  rewrite run_on_get, (str_at_head _ _ _ Hs); cbn [hd].
  destruct (str_at_cons _ _ _ _ Hs) as (_ & Hc & Hs'). pose proof (sa_range _ _ _ Hs).
  apply not_elem_of_cons in Hnl as [Hc10 Hnl]. cbn [length] in *.
  rewrite (proj2 (Z.eqb_neq c 0)), (proj2 (Z.eqb_neq c 10)), u32_small by lia. cbn [orb].
  by rewrite (run_ret _ _ _ _ _ _ _ (IH n s (a + 1) Hs' Hnl ltac:(lia))).
Qed.
Lemma name_len_end l : name_len (l ++ [0]) = length l.
Proof. unfold name_len. rewrite last_snoc, length_app. simpl. lia. Qed.

Lemma sys_iam_run name l s w : str_at (umem s) name l -> 10 ∉ l -> (length l <= 23)%nat ->
  sys_iam name s w = Ret (Z.of_nat (length l)) (s <| msg := zstr l ++ drop (S (length l)) (msg s) |>) w.
Proof.
  intros Hs Hnl Hl. unfold sys_iam.
  rewrite (run_ret _ _ _ _ _ _ _ (read_name_run l w 30 s name Hs Hnl ltac:(lia))). cbv zeta.
  rewrite name_len_end, (proj2 (Nat.leb_gt 24 _)) by lia. rewrite run_modify.
  by rewrite take_ge by (rewrite length_app; simpl; lia).
Qed.
Lemma msg_len_zstr l m : Forall (fun c => c <> 0) l -> msg_len (zstr l ++ m) = Some (length l).
Proof.
  unfold zstr. induction 1 as [|c l Hc _ IH]; [done|]. cbn [app msg_len length].
  by rewrite (proj2 (Z.eqb_neq c 0)), IH by done.
Qed.
Lemma put_msg_run l rest w : forall n a s, Forall (fun c => 0 < c < 256) l -> (length l < n)%nat ->
  0 < a -> a + Z.of_nat (length l) < 2 ^ 32 ->
  exists m, put_msg n (zstr l ++ rest) a s w =
      Ret (Z.of_nat (length l)) (s <| umem := m |>) w /\
    str_at m a l /\ forall x, ~ a <= x <= a + Z.of_nat (length l) -> m x = umem s x.
Proof.
  induction l as [|c l IH]; intros [|n] a s Hl Hn Ha Hr; simpl in Hn; try lia;
    cbn [zstr app put_msg]; rewrite run_on_put.
  - exists (upd a 0 (umem s)). split; [done|]. split.
    + apply str_at_nil; [simpl in Hr; lia|apply upd_eq].
    + intros x Hx. apply upd_ne. simpl in Hx. lia.
  - apply Forall_cons in Hl as [Hc Hl]. cbn [length] in *.
    rewrite (proj2 (Z.eqb_neq c 0)), u32_small by lia.
    destruct (IH n (a + 1) (put_user a c s) Hl ltac:(lia) ltac:(lia) ltac:(lia)) as (m & E & Hs & Hout).
    unfold zstr in E. rewrite (run_ret _ _ _ _ _ _ _ E). exists m. split; [|split].
    + replace (Z.of_nat (S (length l))) with (Z.of_nat (length l) + 1) by lia. done.
    + apply str_at_build; [rewrite Hout by lia; simpl; rewrite upd_eq; by apply u8_small; lia|done|done|done].
    + intros x Hx. rewrite Hout by lia. simpl. apply upd_ne. lia.
Qed.

(** kernel/who.c: a name of at most 23 characters without a newline that sys_iam is
    given is what sys_whoami hands out, into any place that has room for it; a longer
    name and a place that is too small are refused, and nothing changes. *)
Theorem iam_then_whoami name l buf size s w : str_at (umem s) name l -> 10 ∉ l ->
  0 < buf -> buf + Z.of_nat (length l) < 2 ^ 32 -> 0 <= size < 2 ^ 32 ->
  ((24 <= length l)%nat -> sys_iam name s w = Ret (- EINVAL) s w) /\
  ((length l <= 23)%nat -> exists s1, sys_iam name s w = Ret (Z.of_nat (length l)) s1 w /\
     s1 = s <| msg := msg s1 |> /\
     (size < Z.of_nat (length l) -> sys_whoami buf size s1 w = Ret (- EINVAL) s1 w) /\
     (Z.of_nat (length l) < size -> exists m,
        sys_whoami buf size s1 w = Ret (Z.of_nat (length l)) (s1 <| umem := m |>) w /\
        str_at m buf l)).
Proof.
  intros Hs Hnl Hb Hr Hsz. pose proof (sa_bytes _ _ _ Hs) as Hl.
  assert (Hnz : Forall (fun c => c <> 0) l) by (eapply Forall_impl; [exact Hl|]; simpl; lia). split.
  - intros Hlen. unfold sys_iam. destruct (decide (length l < 30)%nat) as [Hlt | Hge].
    + rewrite (run_ret _ _ _ _ _ _ _ (read_name_run l w 30 s name Hs Hnl Hlt)). cbv zeta.
      by rewrite name_len_end, (proj2 (Nat.leb_le 24 _)).
    + rewrite (run_ret _ _ _ _ _ _ _ (read_name_long l w 30 s name Hs Hnl ltac:(lia))). cbv zeta.
      rewrite (proj2 (Nat.leb_le 24 _)); [done|]. unfold name_len.
      destruct (last (take 30 l)) as [c|] eqn:E.
      * assert (Hc : c ∈ l) by (apply last_Some_elem_of in E; rewrite <- (take_drop 30 l); apply elem_of_app; by left).
        rewrite Forall_forall in Hnz. specialize (Hnz c Hc).
        assert (c <> 10) by congruence.
        rewrite (proj2 (Z.eqb_neq c 0)), (proj2 (Z.eqb_neq c 10)) by done. cbn [orb].
        rewrite length_take. lia.
      * apply last_None in E. apply (f_equal length) in E. rewrite length_take in E. change (length []) with 0%nat in E. lia.
  - intros Hlen. eexists. split; [by apply sys_iam_run|]. split; [done|].
    unfold sys_whoami. rewrite !run_gets. cbn [msg]. split; intros Hc.
    + change (msg (s <| msg := ?x |>)) with x. rewrite msg_len_zstr by done.
      by rewrite u32_small, (proj2 (Z.ltb_lt _ _)) by lia.
    + change (msg (s <| msg := ?x |>)) with x. rewrite msg_len_zstr by done.
      rewrite u32_small, (proj2 (Z.ltb_ge _ _)) by lia.
      destruct (put_msg_run l (drop (S (length l)) (msg s)) w (Z.to_nat (Z.min size 24)) buf
        (s <| msg := zstr l ++ drop (S (length l)) (msg s) |>) Hl) as (m & E & Hm & _); [lia..|].
      by exists m.
Qed.

Definition who_sample : K :=
  fork_sample <| umem := fun a => nth (Z.to_nat (a - 100)) [115; 97; 109; 0] 0 |>.
Lemma iam_then_whoami_witness : exists s1 m, sys_iam 100 who_sample (World [] []) = Ret 3 s1 (World [] []) /\
  sys_whoami 200 10 s1 (World [] []) = Ret 3 (s1 <| umem := m |>) (World [] []) /\
  str_at m 200 [115; 97; 109].
Proof.
  destruct (iam_then_whoami 100 [115; 97; 109] 200 10 who_sample (World [] [])) as [_ H].
  - split; [repeat constructor; lia|simpl; lia| |done].
    intros [|[|[|i]]] b Hb; by inversion Hb.
  - rewrite !not_elem_of_cons. repeat split; try lia. apply not_elem_of_nil.
  - lia.
  - simpl. lia.
  - lia.
  - destruct H as (s1 & E & _ & _ & H); [simpl; lia|]. destruct H as (m & E2 & Hm); [simpl; lia|].
    by exists s1, m.
Defined.

(** A name that ends with a newline is stored without an end, in front of what was there:
    after a longer name the answer is neither of the two. *)
Lemma iam_newline :
  match sys_iam 100 (fork_sample <| umem := fun a => nth (Z.to_nat (a - 100)) [97; 10; 0] 0 |>
          <| msg := [115; 97; 109; 0] ++ repeat 0 20 |>) (World [] []) with
  | Ret r s1 _ => r = 1 /\ take 4 (msg s1) = [97; 10; 109; 0]
  | _ => False
  end.
Proof. vm_compute. done. Qed.
