(* ===== verification/Blk.v ===== *)
(** The block devices: the request queues of [kernel/blk_drv/ll_rw_blk.c], the
    end of a request ([kernel/blk_drv/blk.h]) and the RAM disk
    ([kernel/blk_drv/ramdisk.c]).

    The RAM disk serves its queue before [ll_rw_block] returns.  The floppy and
    hard disk drivers are started ([EvStartIo]) and finish from interrupts, which
    are part of the script of the run. *)
From S2P Require Import Prelude Sched Mm Kernel.

(** * Locking a buffer *)

(** fs/buffer.c:40-46 [wait_on_buffer] *)
Definition wait_on_buffer (bh : nat) : M K unit :=
  sleep_while (fun k => truth (b_lock (bh_of k bh))) (WBuffer bh).

(** kernel/blk_drv/ll_rw_blk.c:42-49 [lock_buffer] *)
Definition lock_buffer (bh : nat) : M K unit :=
  sleep_while (fun k => truth (b_lock (bh_of k bh))) (WBuffer bh) ;;
  modify (upd_bh bh (fun b => b <| b_lock := 1 |>)).

(** kernel/blk_drv/ll_rw_blk.c:51-57 [unlock_buffer] *)
Definition unlock_buffer (bh : nat) : M K unit :=
  l ← gets (fun k => b_lock (bh_of k bh)) ;
  when (negb (truth l)) (printk "ll_rw_block.c: buffer not locked" []) ;;
  modify (upd_bh bh (fun b => b <| b_lock := 0 |>)) ;;
  wake_up_q (WBuffer bh).

(** kernel/blk_drv/blk.h:101-107 [unlock_buffer]: the driver's own copy *)
Definition unlock_buffer_drv (bh : nat) : M K unit :=
  l ← gets (fun k => b_lock (bh_of k bh)) ;
  when (negb (truth l)) (printk "free buffer being unlocked" []) ;;
  modify (upd_bh bh (fun b => b <| b_lock := 0 |>)) ;;
  wake_up_q (WBuffer bh).

(** * The elevator *)

(** kernel/blk_drv/blk.h:40-43 [IN_ORDER] *)
Definition IN_ORDER (s1 s2 : request) : bool :=
  (r_cmd s1 <? r_cmd s2) || ((r_cmd s1 =? r_cmd s2) &&
  ((r_dev s1 <? r_dev s2) || ((r_dev s1 =? r_dev s2) &&
  (r_sector s1 <? r_sector s2)))).

(** kernel/blk_drv/ll_rw_blk.c:78-82 [add_request]: the request to insert after *)
Fixpoint insert_point (fuel : nat) (k : K) (tmp : nat) (req : request) : option nat :=
  match fuel with
  | O => None
  | S n =>
      let t := req_of k tmp in
      match r_next t with
      | None => Some tmp
      | Some nx =>
          if (IN_ORDER t req || negb (IN_ORDER t (req_of k nx)))
             && IN_ORDER req (req_of k nx)
          then Some tmp else insert_point n k nx req
      end
  end.

(** * End of a request *)

(** kernel/blk_drv/blk.h:109-125 [end_request]: [CURRENT] is [req] *)
Definition end_request (major : nat) (uptodate : Z) : M K unit :=
  k ← get ;
  match bd_current_request (dev_of k major) with
  | None => panic "CURRENT is NULL"
  | Some req =>
      let bh := r_bh (req_of k req) in
      match bh with
      | Some b =>
          modify (upd_bh b (fun x => x <| b_uptodate := u8 uptodate |>)) ;;
          unlock_buffer_drv b
      | None => mret tt
      end ;;
      when (negb (truth uptodate))
        (printk "I/O error" [] ;;
         k ← get ;
         printk "dev %04x, block %d" [r_dev (req_of k req); b_blocknr (bh_at k bh)]) ;;
      wake_up_q (WRequest req) ;;
      wake_up_q WForRequest ;;
      modify (upd_req req (fun r => r <| r_dev := -1 |>)) ;;
      modify (fun k => upd_dev major
        (fun d => d <| bd_current_request := r_next (req_of k req) |>) k)
  end.

(** * The RAM disk *)

(** kernel/blk_drv/ramdisk.c:28-46 [do_rd_request]: one request; [true] when the
    queue is empty *)
Definition rd_step : M K (option unit) :=
  k ← get ;
  match bd_current_request (dev_of k 1) with
  | None => mret (Some tt)
  | Some req =>
      let r := req_of k req in
      if negb (MAJOR (r_dev r) =? 1) then panic "ramdisk: request list destroyed" else
      if match r_bh r with Some b => negb (truth (b_lock (bh_of k b))) | None => false end
      then panic "ramdisk: block not locked" else
      let addr := u32 (rd_start k + u32 (r_sector r .<< 9)) in
      let len := s32 (u32 (r_nr_sectors r .<< 9)) in
      if negb (MINOR (r_dev r) =? 1) || (u32 (rd_start k + rd_length k) <? u32 (addr + len))
      then end_request 1 0 ;; mret None else
      (if r_cmd r =? WRITE then
         modify (fun k => kmem_put addr (take (Z.to_nat len) (drop (Z.to_nat (r_offset r)) (b_data (bh_of k (r_buffer r))))) k)
       else if r_cmd r =? READ then
         modify (fun k => upd_bh (r_buffer r) (fun b => b <| b_data ::=
           put_at (Z.to_nat (r_offset r)) (read_bytes addr (Z.to_nat len) (mem (k_mm k))) |>) k)
       else panic "unknown ramdisk-command") ;;
      end_request 1 1 ;;
      mret None
  end.

(** kernel/blk_drv/ramdisk.c:23-47 [do_rd_request]: at most [NR_REQUEST]
    requests are queued *)
Definition do_rd_request : M K unit := repeat_until (S NR_REQUEST) rd_step.

(** kernel/blk_drv/ramdisk.c:52-64 [rd_init] *)
Definition rd_init (mem_start length : Z) : M K Z :=
  modify (upd_dev 1 (fun d => d <| bd_request_fn := Some do_rd_request_fn |>)) ;;
  modify (fun k => k <| rd_start := mem_start |> <| rd_length := length |>) ;;
  modify (kmem_put mem_start (repeat 0 (Z.to_nat length))) ;;
  mret length.

(** The call through [request_fn]. *)
Definition call_request_fn (f : request_fn) : M K unit :=
  match f with
  | do_rd_request_fn => do_rd_request
  | do_fd_request_fn => emit (EvStartIo 2)
  | do_hd_request_fn => emit (EvStartIo 3)
  end.

(** * Queueing a request *)

(** kernel/blk_drv/ll_rw_blk.c:64-86 [add_request] *)
Definition add_request (major req : nat) : M K unit :=
  modify (upd_req req (fun r => r <| r_next := None |>)) ;;
  k ← get ;
  match r_bh (req_of k req) with
  | Some b => modify (upd_bh b (fun x => x <| b_dirt := 0 |>))
  | None => mret tt
  end ;;
  k ← get ;
  match bd_current_request (dev_of k major) with
  | None =>
      modify (upd_dev major (fun d => d <| bd_current_request := Some req |>)) ;;
      match bd_request_fn (dev_of k major) with
      | Some f => call_request_fn f
      | None => panic "call of a null request_fn"
      end
  | Some tmp =>
      match insert_point NR_REQUEST k tmp (req_of k req) with
      | None => out_of_fuel
      | Some p =>
          modify (upd_req req (fun r => r <| r_next := r_next (req_of k p) |>)) ;;
          modify (upd_req p (fun r => r <| r_next := Some req |>))
      end
  end.

(** kernel/blk_drv/ll_rw_blk.c:120-122 [make_request]: [while (--req >= request)] *)
Fixpoint find_free_req (n : nat) (rs : list request) : option nat :=
  match n with
  | O => None
  | S i => if r_dev (default free_request (rs !! i)) <? 0 then Some i
           else find_free_req i rs
  end.
(** kernel/blk_drv/ll_rw_blk.c:115-118 [make_request]: where the search starts *)
Definition search_start (rw : Z) : nat :=
  if rw =? READ then NR_REQUEST else (NR_REQUEST * 2 / 3)%nat.

(** kernel/blk_drv/ll_rw_blk.c:88-143 [make_request]: sleeping until a request is
    free is the source's [repeat:] loop *)
Definition make_request (major : nat) (rw : Z) (bh : nat) : M K unit :=
  let rw_ahead := (rw =? READA) || (rw =? WRITEA) in
  k ← get ;
  if rw_ahead && truth (b_lock (bh_of k bh)) then mret tt else
  let rw := if rw_ahead then (if rw =? READA then READ else WRITE) else rw in
  if negb (rw =? READ) && negb (rw =? WRITE)
  then panic "Bad block dev command, must be R/W/RA/WA" else
  lock_buffer bh ;;
  b ← gets (fun k => bh_of k bh) ;
  if ((rw =? WRITE) && negb (truth (b_dirt b))) || ((rw =? READ) && truth (b_uptodate b))
  then unlock_buffer bh else
  k ← get ;
  if rw_ahead && bool_decide (find_free_req (search_start rw) (requests k) = None)
  then unlock_buffer bh else
  req ← sleep_until (fun k => find_free_req (search_start rw) (requests k)) WForRequest ;
  k ← get ;
  let b := bh_of k bh in
  modify (upd_req req (fun _ =>
    Request (b_dev b) rw 0 (u32 (b_blocknr b .<< 1)) 2 bh 0 (Some bh) None)) ;;
  add_request major req.

(** kernel/blk_drv/ll_rw_blk.c:145-155 [ll_rw_block] *)
Definition ll_rw_block (rw : Z) (bh : nat) : M K unit :=
  k ← get ;
  let major := MAJOR (b_dev (bh_of k bh)) in
  match (if NR_BLK_DEV <=? major then None
         else bd_request_fn (dev_of k (Z.to_nat major))) with
  | None => printk "Trying to read nonexistent block-device" []
  | Some _ => make_request (Z.to_nat major) rw bh
  end.

(** kernel/blk_drv/ll_rw_blk.c:157-165 [blk_dev_init] *)
Definition blk_dev_init : M K unit :=
  for_each (seq 0 NR_REQUEST) (fun i =>
    modify (upd_req i (fun r => r <| r_dev := -1 |> <| r_next := None |>))).

(** * The elevator keeps the queue in two ascending runs *)

Lemma IN_ORDER_irrefl r : IN_ORDER r r = false.
Proof. unfold IN_ORDER. rewrite !Z.ltb_irrefl, !andb_false_r. done. Qed.

Definition same_place (r1 r2 : request) : Prop :=
  r_cmd r1 = r_cmd r2 /\ r_dev r1 = r_dev r2 /\ r_sector r1 = r_sector r2.

Lemma IN_ORDER_true r1 r2 : IN_ORDER r1 r2 = true <->
  r_cmd r1 < r_cmd r2 \/ (r_cmd r1 = r_cmd r2 /\
  (r_dev r1 < r_dev r2 \/ (r_dev r1 = r_dev r2 /\ r_sector r1 < r_sector r2))).
Proof.
  unfold IN_ORDER. rewrite !orb_true_iff, !andb_true_iff, !orb_true_iff, !andb_true_iff.
  rewrite !Z.ltb_lt, !Z.eqb_eq. done.
Qed.

Lemma IN_ORDER_total r1 r2 : ~ same_place r1 r2 -> IN_ORDER r1 r2 = false ->
  IN_ORDER r2 r1 = true.
Proof.
  unfold same_place. intros Hne Hf. apply not_true_iff_false in Hf.
  rewrite IN_ORDER_true in *. lia.
Qed.

Section elevator.
Context (f : nat -> request) (req : nat).

(** The list that [add_request] makes of a queue that is not empty. *)
Fixpoint elevator (l : list nat) : list nat :=
  match l with
  | [] => [req]
  | t :: rest =>
      match rest with
      | [] => [t; req]
      | n :: _ =>
          if (IN_ORDER (f t) (f req) || negb (IN_ORDER (f t) (f n)))
             && IN_ORDER (f req) (f n)
          then t :: req :: rest else t :: elevator rest
      end
  end.

Fixpoint ascending (l : list nat) : Prop :=
  match l with
  | [] => True
  | t :: rest =>
      match rest with [] => True | n :: _ => IN_ORDER (f t) (f n) = true end
      /\ ascending rest
  end.
Definition two_runs (l : list nat) : Prop :=
  exists a b, l = a ++ b /\ ascending a /\ ascending b.

Lemma elevator_cons2 t n rest : elevator (t :: n :: rest) =
  if (IN_ORDER (f t) (f req) || negb (IN_ORDER (f t) (f n))) && IN_ORDER (f req) (f n)
  then t :: req :: n :: rest else t :: elevator (n :: rest).
Proof using. done. Qed.

Lemma elevator_perm l : elevator l ≡ₚ req :: l.
Proof using.
  induction l as [|t [|n rest] IH]; [done| simpl; apply perm_swap|].
  rewrite elevator_cons2. destruct (_ && _); [apply perm_swap|]. rewrite IH. apply perm_swap.
Qed.

Lemma elevator_head t l : exists l', elevator (t :: l) = t :: l'.
Proof using. simpl. destruct l; [eauto|]. destruct (_ && _); eauto. Qed.

Context (Hdistinct : forall i, i <> req -> ~ same_place (f i) (f req)).

Lemma not_below n : n <> req -> IN_ORDER (f req) (f n) = false ->
  IN_ORDER (f n) (f req) = true.
Proof using Hdistinct.
  intros Hn. apply IN_ORDER_total. intros (?&?&?). by apply (Hdistinct n).
Qed.

Lemma elevator_after t l : req ∉ t :: l -> ascending (t :: l) ->
  IN_ORDER (f t) (f req) = true -> ascending (elevator (t :: l)).
Proof using Hdistinct.
  revert t. induction l as [|n l IH]; intros t Hni [Htn Hasc] Ht; [done|].
  rewrite elevator_cons2, Ht. cbn [orb andb].
  destruct (IN_ORDER (f req) (f n)) eqn:E; [done|].
  assert (Hn : IN_ORDER (f n) (f req) = true) by (apply not_below; [intros ->; by apply Hni; right; left|done]).
  destruct (elevator_head n l) as (l' & El). split; [by rewrite El|].
  apply IH; [set_solver|done|done].
Qed.

Lemma elevator_below t l : ascending (t :: l) ->
  IN_ORDER (f t) (f req) = false -> IN_ORDER (f req) (f t) = true ->
  elevator (t :: l) = (t :: l) ++ [req].
Proof using.
  revert t. induction l as [|n l IH]; intros t [Htn Hasc] Ht Hr; [done|].
  rewrite elevator_cons2, Ht, Htn. cbn [orb negb andb app]. f_equal.
  assert (IN_ORDER (f req) (f n) = true).
  { rewrite IN_ORDER_true in *. lia. }
  apply IH; [done| |done]. apply not_true_iff_false. rewrite IN_ORDER_true in *. lia.
Qed.

Lemma elevator_two_runs_aux a : forall t b, req ∉ t :: a ++ b ->
  ascending (t :: a) -> ascending b -> two_runs (elevator (t :: a ++ b)).
Proof using Hdistinct.
  induction a as [|n a IH]; intros t b Hni Ha Hb.
  - destruct b as [|n b]; simpl app.
    { exists [t], [req]. done. }
    rewrite elevator_cons2. destruct (IN_ORDER (f t) (f req)) eqn:Et; cbn [orb].
    + destruct (IN_ORDER (f req) (f n)) eqn:En; cbn [andb].
      * exists (t :: req :: n :: b), []. by rewrite app_nil_r.
      * exists [t], (elevator (n :: b)). split; [done|]. split; [done|].
        apply elevator_after; [set_solver|done|].
        apply not_below; [set_solver|done].
    + destruct (IN_ORDER (f t) (f n)) eqn:Etn; cbn [negb andb].
      * assert (Hr : IN_ORDER (f req) (f t) = true).
        { apply IN_ORDER_total; [|done]. apply Hdistinct. set_solver. }
        assert (IN_ORDER (f req) (f n) = true) by (rewrite IN_ORDER_true in *; lia).
        exists (t :: n :: b), [req].
        split; [|by destruct Hb]. rewrite elevator_below; [done|done| |done].
        apply not_true_iff_false. rewrite IN_ORDER_true in *. lia.
      * destruct (IN_ORDER (f req) (f n)) eqn:En.
        -- by exists [t], (req :: n :: b).
        -- exists [t], (elevator (n :: b)). split; [done|]. split; [done|].
           apply elevator_after; [set_solver|done|].
           apply not_below; [set_solver|done].
  - destruct Ha as [Htn Ha]. change ((n :: a) ++ b) with (n :: a ++ b) in *.
    rewrite elevator_cons2, Htn. cbn [negb]. rewrite orb_false_r.
    destruct (IN_ORDER (f t) (f req) && IN_ORDER (f req) (f n)) eqn:E.
    + apply andb_true_iff in E as [E1 E2].
      exists (t :: req :: n :: a), b. done.
    + destruct (IH n b ltac:(set_solver) Ha Hb) as (a1 & b1 & E1 & Ha1 & Hb1).
      destruct (elevator_head n (a ++ b)) as (l' & El). rewrite E1 in El.
      destruct a1 as [|x a1]; simpl in El.
      * exists (t :: b1), []. rewrite app_nil_r, E1. split; [done|].
        split; [|done]. split; [|done]. by rewrite El.
      * injection El as -> _. exists (t :: n :: a1), b1. by rewrite E1.
Qed.

Lemma elevator_two_runs t l : req ∉ t :: l -> two_runs (t :: l) ->
  two_runs (elevator (t :: l)).
Proof using Hdistinct.
  intros Hni (a & b & E & Ha & Hb). destruct a as [|x a]; simpl in E.
  - subst b. apply (elevator_two_runs_aux [] t l); [done|done|]. by destruct Hb.
  - injection E as -> ->. by apply elevator_two_runs_aux.
Qed.
End elevator.

(** ** The linked list *)

(** The requests of a queue, in order: the slots [l] linked from [h]. *)
Fixpoint queued (k : K) (h : option nat) (l : list nat) : Prop :=
  match l with
  | [] => h = None
  | i :: l' => h = Some i /\ (i < length (requests k))%nat /\ queued k (r_next (req_of k i)) l'
  end.

Lemma queued_ext k k' h l : length (requests k') = length (requests k) ->
  (forall i, i ∈ l -> r_next (req_of k' i) = r_next (req_of k i)) ->
  queued k h l -> queued k' h l.
Proof.
  intros Hlen. revert h. induction l as [|i l IH]; intros h Hn Hq; [done|].
  destruct Hq as (-> & Hi & Hq). split; [done|]. split; [lia|].
  rewrite Hn by left. apply IH; [|done]. intros j Hj. apply Hn. by right.
Qed.

Lemma insert_point_elevator k req n : forall t l,
  queued k (Some t) (t :: l) -> (length (t :: l) <= n)%nat ->
  exists p l1 l2, insert_point n k t (req_of k req) = Some p /\
    t :: l = l1 ++ p :: l2 /\ elevator (req_of k) req (t :: l) = l1 ++ p :: req :: l2.
Proof.
  induction n as [|n IH]; intros t l Hq Hlen; [simpl in Hlen; lia|].
  destruct Hq as (_ & Ht & Hq). cbn [insert_point].
  destruct l as [|x l].
  - simpl in Hq. rewrite Hq. by exists t, [], [].
  - pose proof Hq as (Hx & _ & _). rewrite Hx in Hq |- *.
    rewrite elevator_cons2. destruct (_ && _).
    + by exists t, [], (x :: l).
    + destruct (IH x l Hq) as (p & l1 & l2 & E1 & E2 & E3); [simpl in *; lia|].
      rewrite E1. exists p, (t :: l1), l2. rewrite E3, E2. done.
Qed.

Definition set_next (i : nat) (n : option nat) (k : K) : K :=
  upd_req i (fun r => r <| r_next := n |>) k.

Lemma req_of_set_next k i n j : (i < length (requests k))%nat ->
  r_next (req_of (set_next i n k) j) = if decide (j = i) then n else r_next (req_of k j).
Proof. intros Hi. unfold set_next. rewrite req_of_upd by done. by destruct (decide (j = i)). Qed.

Lemma set_next_place k i n j : same_place (req_of (set_next i n k) j) (req_of k j).
Proof.
  unfold set_next, upd_req, req_of; simpl. destruct (decide (j = i)) as [-> | ].
  - rewrite list_lookup_alter_eq. by destruct (requests k !! i).
  - by rewrite list_lookup_alter_ne.
Qed.
Lemma length_set_next k i n : length (requests (set_next i n k)) = length (requests k).
Proof. apply length_alter. Qed.

(** Linking [req] in after [p]. *)
Lemma queued_insert k req p l1 : forall h l2,
  queued k h (l1 ++ p :: l2) -> NoDup (l1 ++ p :: l2) -> req ∉ l1 ++ p :: l2 ->
  (req < length (requests k))%nat ->
  queued (set_next p (Some req) (set_next req (r_next (req_of k p)) k)) h
    (l1 ++ p :: req :: l2).
Proof.
  induction l1 as [|x l1 IH]; intros h l2 Hq Hnd Hni Hr.
  - destruct Hq as (-> & Hp & Hq). cbn [app queued] in *. apply NoDup_cons in Hnd as [Hpl Hnd].
    apply not_elem_of_cons in Hni as [Hrp Hrl].
    split; [done|]. rewrite !length_set_next. split; [done|].
    rewrite req_of_set_next, decide_True by (rewrite ?length_set_next; done).
    split; [done|]. split; [done|].
    rewrite req_of_set_next, decide_False, req_of_set_next, decide_True
      by (rewrite ?length_set_next; done).
    eapply queued_ext; [| |exact Hq]; [by rewrite !length_set_next|].
    intros i Hi. rewrite req_of_set_next by (by rewrite ?length_set_next).
    rewrite req_of_set_next by done.
    rewrite !decide_False; [done|intros ->; done..].
  - destruct Hq as (-> & Hx & Hq). cbn [app queued] in *.
    apply NoDup_cons in Hnd as [Hxl Hnd]. apply not_elem_of_cons in Hni as [Hrx Hni].
    assert (Hp : (p < length (requests k))%nat).
    { clear -Hq. revert Hq. generalize (r_next (req_of k x)).
      induction l1 as [|y l1 IH]; intros h Hq; [by destruct Hq as (_ & ? & _)|].
      destruct Hq as (_ & _ & Hq). by eapply IH. }
    split; [done|]. rewrite !length_set_next. split; [done|].
    rewrite req_of_set_next, decide_False, req_of_set_next, decide_False
      by (rewrite ?length_set_next; done || congruence || set_solver).
    by apply IH.
Qed.

Lemma ascending_ext f g l : (forall i, same_place (g i) (f i)) ->
  ascending f l -> ascending g l.
Proof.
  intros Hfg. induction l as [|t l IH]; [done|]. intros [H1 H2]. split; [|auto].
  destruct l as [|n l]; [done|]. rewrite IN_ORDER_true in *.
  destruct (Hfg t) as (-> & -> & ->), (Hfg n) as (-> & -> & ->). done.
Qed.
Lemma two_runs_ext f g l : (forall i, same_place (g i) (f i)) ->
  two_runs f l -> two_runs g l.
Proof.
  intros Hfg (a & b & -> & Ha & Hb). exists a, b.
  split; [done|]. split; by eapply ascending_ext.
Qed.
Lemma same_place_trans r1 r2 r3 : same_place r1 r2 -> same_place r2 r3 -> same_place r1 r3.
Proof. unfold same_place. intuition congruence. Qed.

(** What [add_request] does before it looks at the queue. *)
Definition ready (req : nat) (k : K) : K :=
  match r_bh (req_of (set_next req None k) req) with
  | Some b => upd_bh b (fun x => x <| b_dirt := 0 |>) (set_next req None k)
  | None => set_next req None k
  end.
Lemma ready_requests req k : requests (ready req k) = requests (set_next req None k).
Proof. unfold ready. by destruct (r_bh _). Qed.
Lemma ready_dev req k i : dev_of (ready req k) i = dev_of k i.
Proof. unfold ready. by destruct (r_bh _). Qed.

Lemma add_request_run major req s w :
  add_request major req s w =
    (k ← get ;
     match bd_current_request (dev_of k major) with
     | None =>
         modify (upd_dev major (fun d => d <| bd_current_request := Some req |>)) ;;
         match bd_request_fn (dev_of k major) with
         | Some f => call_request_fn f
         | None => panic "call of a null request_fn"
         end
     | Some tmp =>
         match insert_point NR_REQUEST k tmp (req_of k req) with
         | None => out_of_fuel
         | Some p => modify (fun k0 => set_next p (Some req)
                       (set_next req (r_next (req_of k p)) k0))
         end
     end) (ready req s) w.
Proof.
  unfold add_request, ready. fold (set_next req None s). run.
  fold (set_next req None s).
  destruct (r_bh (req_of (set_next req None s) req)); run;
    (destruct (bd_current_request _); [|done]); destruct (insert_point _ _ _ _); run; done.
Qed.

(** C20. [add_request] on a device with requests pending: it always returns, the
    request that is being served stays at the head, the queue holds the
    pending requests and the new one, and the elevator's invariant is kept:
    from the head, the requests ascend (reads before writes, then by device and
    sector) except for at most one place where a new sweep starts. *)
Theorem add_request_elevator major req t l s w :
  bd_current_request (dev_of s major) = Some t ->
  queued s (Some t) (t :: l) -> NoDup (t :: l) -> (length (t :: l) <= NR_REQUEST)%nat ->
  (req < length (requests s))%nat -> req ∉ t :: l ->
  (forall i, i <> req -> ~ same_place (req_of s i) (req_of s req)) ->
  two_runs (req_of s) (t :: l) ->
  exists s' l', add_request major req s w = Ret tt s' w /\
    bd_current_request (dev_of s' major) = Some t /\
    queued s' (Some t) (t :: l') /\ t :: l' ≡ₚ req :: t :: l /\
    two_runs (req_of s') (t :: l') /\
    (forall i, same_place (req_of s' i) (req_of s i)).
Proof.
  intros Hcur Hq Hnd Hlen Hr Hni Hdist Htr. rewrite add_request_run. run.
  set (k := ready req s).
  assert (Hreq : forall i, req_of k i = req_of (set_next req None s) i).
  { intros i. unfold req_of. unfold k. by rewrite ready_requests. }
  assert (Hpl : forall i, same_place (req_of k i) (req_of s i)).
  { intros i. rewrite Hreq. apply set_next_place. }
  assert (Hlk : length (requests k) = length (requests s)).
  { unfold k. rewrite ready_requests. apply length_set_next. }
  assert (Hqk : queued k (Some t) (t :: l)).
  { eapply queued_ext; [done| |exact Hq]. intros i Hi. rewrite Hreq.
    rewrite req_of_set_next, decide_False by (done || intros ->; done). done. }
  assert (Hdk : forall i, i <> req -> ~ same_place (req_of k i) (req_of k req)).
  { intros i Hi Hc. apply (Hdist i Hi). destruct (Hpl i) as (?&?&?), (Hpl req) as (?&?&?).
    destruct Hc as (?&?&?). unfold same_place. intuition congruence. }
  unfold k at 1. rewrite ready_dev, Hcur. fold k.
  destruct (insert_point_elevator k req NR_REQUEST t l Hqk Hlen)
    as (p & l1 & l2 & E1 & E2 & E3).
  rewrite E1. run.
  destruct (elevator_head (req_of k) req t l) as (l' & El).
  do 2 eexists. split; [reflexivity|].
  split; [unfold k; by rewrite <- Hcur, <- (ready_dev req s major)|].
  rewrite E2 in Hqk, Hnd, Hni.
  pose proof (queued_insert k req p l1 (Some t) l2 Hqk Hnd Hni ltac:(lia)) as Hq'.
  rewrite <- E3, El in Hq'. split; [exact Hq'|].
  assert (Hpl' : forall i, same_place (req_of (set_next p (Some req)
            (set_next req (r_next (req_of k p)) k)) i) (req_of k i)).
  { intros i. eapply same_place_trans; apply set_next_place. }
  split; [rewrite <- El; apply elevator_perm|].
  split; [|intros i; eapply same_place_trans; [apply Hpl'|apply Hpl]].
  apply (two_runs_ext (req_of k)); [exact Hpl'|]. rewrite <- El.
  rewrite <- E2 in Hni. apply elevator_two_runs; [done|done|].
  by apply (two_runs_ext (req_of s)).
Qed.

(** * The RAM disk is a disk *)

(** The driver is installed and idle; the disk lies inside the address space. *)
Record rd_idle (k : K) : Prop := {
  rd_fn : bd_request_fn (dev_of k 1) = Some do_rd_request_fn;
  rd_cur : bd_current_request (dev_of k 1) = None;
  rd_devs : (1 < length (blk_dev k))%nat;
  rd_space : 0 <= rd_start k /\ 0 <= rd_length k < 2147483648 /\
             rd_start k + rd_length k < 4294967296;
}.

(** Buffer [bh] holds block [blk] of the RAM disk and is not locked. *)
Record rd_buffer (k : K) (bh : nat) (blk : Z) : Prop := {
  rb_bh : (bh < NR_BUFFERS k)%nat;
  rb_dev : b_dev (bh_of k bh) = 0x101;
  rb_blk : b_blocknr (bh_of k bh) = blk;
  rb_lock : b_lock (bh_of k bh) = 0;
  rb_in : 0 <= blk /\ 1024 * (blk + 1) <= rd_length k;
  rb_len : length (b_data (bh_of k bh)) = 1024%nat;
}.

Lemma find_free_req_spec n rs i : find_free_req n rs = Some i ->
  (i < n)%nat /\ r_dev (default free_request (rs !! i)) < 0.
Proof.
  induction n as [|n IH]; [done|]. simpl.
  destruct (Z.ltb_spec (r_dev (default free_request (rs !! n))) 0).
  - intros [= ->]. split; [lia|done].
  - intros E. destruct (IH E). split; [lia|done].
Qed.

(** [k'] is [k] while request [r], the only one of the queue, is served. *)
Record serving (k k' : K) (r bh : nat) (rw : Z) : Prop := {
  sv_cur : bd_current_request (dev_of k' 1) = Some r;
  sv_fn : bd_request_fn (dev_of k' 1) = Some do_rd_request_fn;
  sv_req : req_of k' r = Request (b_dev (bh_of k bh)) rw 0
             (u32 (b_blocknr (bh_of k bh) .<< 1)) 2 bh 0 (Some bh) None;
  sv_bh : forall j, bh_of k' j =
    if decide (j = bh) then bh_of k bh <| b_lock := 1 |> <| b_dirt := 0 |> else bh_of k j;
  sv_lens : NR_BUFFERS k' = NR_BUFFERS k /\ length (requests k') = length (requests k) /\
    length (blk_dev k') = length (blk_dev k);
  sv_reqs : forall j, j <> r -> requests k' !! j = requests k !! j;
  sv_same : rd_start k' = rd_start k /\ rd_length k' = rd_length k /\ k_mm k' = k_mm k;
}.

Lemma ll_rw_serving k w bh blk rw r :
  rd_idle k -> rd_buffer k bh blk ->
  (rw = WRITE /\ truth (b_dirt (bh_of k bh)) = true) \/
  (rw = READ /\ truth (b_uptodate (bh_of k bh)) = false) ->
  find_free_req (search_start rw) (requests k) = Some r -> (r < length (requests k))%nat ->
  exists k', ll_rw_block rw bh k w = do_rd_request k' w /\ serving k k' r bh rw.
Proof.
  intros [Hfn Hcur Hdevs Hsp] [Hb Hdev Hblk Hlock Hin Hlen] Hrw Hfree Hr.
  unfold ll_rw_block. run. rewrite Hdev. change (MAJOR 257) with 1.
  change (NR_BLK_DEV <=? 1) with false.
  cbn iota. change (Z.to_nat 1) with 1%nat. rewrite Hfn. unfold make_request, lock_buffer.
  assert (Ha : (rw =? READA) || (rw =? WRITEA) = false)
    by (destruct Hrw as [[-> _]|[-> _]]; done).
  assert (Hok : negb (rw =? READ) && negb (rw =? WRITE) = false)
    by (destruct Hrw as [[-> _]|[-> _]]; done).
  rewrite Ha, Hok. cbn [andb]. run.
  assert (Hnl : truth (b_lock (bh_of k bh)) = false) by (by rewrite Hlock).
  run_awake Hnl. run.
  set (k1 := upd_bh bh _ k).
  assert (H1 : forall j, bh_of k1 j =
    if decide (j = bh) then bh_of k bh <| b_lock := 1 |> else bh_of k j)
    by (intros j; apply bh_of_upd; done).
  rewrite H1, decide_True by done.
  assert (Hgo : (rw =? WRITE) && negb (truth (b_dirt (bh_of k bh))) ||
                (rw =? READ) && truth (b_uptodate (bh_of k bh)) = false)
    by (destruct Hrw as [[-> ->]|[-> ->]]; done).
  cbn [b_dirt b_uptodate b_dev b_blocknr update_field]. rewrite Hgo. run.
  assert (Hfree1 : find_free_req (search_start rw) (requests k1) = Some r) by exact Hfree.
  run_found Hfree1. run. rewrite H1, decide_True by done.
  cbn [b_dirt b_uptodate b_dev b_blocknr update_field].
  set (rq := Request _ rw 0 _ 2 bh 0 (Some bh) None). set (k2 := upd_req r (fun _ => rq) k1).
  assert (H2 : forall j, req_of k2 j = if decide (j = r) then rq else req_of k1 j)
    by (intros j; apply (req_of_upd k1); done).
  rewrite add_request_run. run. rewrite ready_dev.
  change (dev_of k2 1) with (dev_of k 1). rewrite Hcur. run. rewrite Hfn.
  assert (H3 : r_bh (req_of (set_next r None k2) r) = Some bh).
  { unfold set_next. rewrite req_of_upd, decide_True, H2, decide_True
      by (done || by unfold k2, upd_req; simpl; rewrite length_alter). done. }
  unfold ready. rewrite H3.
  eexists. split; [reflexivity|].
  set (k3 := upd_bh bh _ (set_next r None k2)).
  assert (Hd3 : dev_of k3 = dev_of k) by done.
  split.
  - rewrite dev_of_upd, decide_True by done. done.
  - rewrite dev_of_upd, decide_True by done. simpl. by rewrite Hd3.
  - change (req_of (set_next r None k2) r = rq).
    unfold set_next. rewrite req_of_upd, decide_True, H2, decide_True
      by (done || by unfold k2, upd_req; simpl; rewrite length_alter). done.
  - intros j. change (bh_of k3 j = if decide (j = bh)
      then bh_of k bh <| b_lock := 1 |> <| b_dirt := 0 |> else bh_of k j).
    unfold k3. rewrite bh_of_upd by (unfold NR_BUFFERS; simpl; by rewrite length_alter).
    change (bh_of (set_next r None k2)) with (bh_of k1). rewrite !H1.
    rewrite (decide_True _ _ (eq_refl bh)). by destruct (decide (j = bh)).
  - unfold NR_BUFFERS. simpl. by rewrite !length_alter.
  - intros j Hj. simpl. by rewrite !list_lookup_alter_ne.
  - done.
Qed.

(** [end_request] on a list of one request, in a driver that reports success. *)
Lemma end_request_ok k r bh w : bd_current_request (dev_of k 1) = Some r ->
  r_bh (req_of k r) = Some bh -> r_next (req_of k r) = None ->
  (r < length (requests k))%nat -> (1 < length (blk_dev k))%nat -> (bh < NR_BUFFERS k)%nat ->
  b_lock (bh_of k bh) = 1 ->
  exists lg, end_request 1 1 k w =
    Ret tt (upd_dev 1 (fun d => d <| bd_current_request := None |>)
             (upd_req r (fun q => q <| r_dev := -1 |>)
               (upd_bh bh (fun x => x <| b_lock := 0 |>)
                 (upd_bh bh (fun x => x <| b_uptodate := 1 |>) k))))
      (World (script w) lg).
Proof.
  intros Hcur Hbh Hnx Hr Hd Hb Hlk. unfold end_request. run. rewrite Hcur, Hbh. run.
  unfold unlock_buffer_drv. run. rewrite bh_of_upd, decide_True by done. cbn [b_lock update_field].
  rewrite Hlk. change (truth 1) with true. change (truth 0) with false. cbn [negb]. run.
  eexists. set (km := upd_req r _ _).
  assert (E : r_next (req_of km r) = None).
  { unfold km. rewrite req_of_upd, decide_True by done. exact Hnx. }
  rewrite E. reflexivity.
Qed.

Lemma find_free_req_same n rs rs' :
  (forall i, (r_dev (default free_request (rs' !! i)) <? 0) =
             (r_dev (default free_request (rs !! i)) <? 0)) ->
  find_free_req n rs' = find_free_req n rs.
Proof. intros H. induction n as [|n IH]; [done|]. simpl. by rewrite H, IH. Qed.

Definition rd_addr (k : K) (blk : Z) : Z := rd_start k + 1024 * blk.

(** [k'] is [k] after block [blk] has been written from, or read into, [bh]. *)
Record transferred (k k' : K) (bh : nat) (blk rw : Z) : Prop := {
  tr_bh : forall j, bh_of k' j =
    if decide (j = bh) then
      bh_of k bh <| b_data := if rw =? READ
                              then read_bytes (rd_addr k blk) 1024 (mem (k_mm k))
                              else b_data (bh_of k bh) |>
        <| b_lock := 0 |> <| b_dirt := 0 |> <| b_uptodate := 1 |>
    else bh_of k j;
  tr_mem : mem (k_mm k') =
    if rw =? READ then mem (k_mm k)
    else put_bytes (rd_addr k blk) (b_data (bh_of k bh)) (mem (k_mm k));
  tr_idle : rd_idle k';
  tr_free : forall n, find_free_req n (requests k') = find_free_req n (requests k);
  tr_lens : NR_BUFFERS k' = NR_BUFFERS k /\ length (requests k') = length (requests k) /\
    rd_start k' = rd_start k /\ rd_length k' = rd_length k;
}.

(** The state in which the request is finished. *)
Definition rd_moved (k k' : K) (bh : nat) (blk rw : Z) : K :=
  if rw =? READ
  then upd_bh bh (fun b => b <| b_data ::=
         put_at 0 (read_bytes (rd_addr k blk) 1024 (mem (k_mm k'))) |>) k'
  else kmem_put (rd_addr k blk) (take 1024 (b_data (bh_of k' bh))) k'.
Lemma rd_step_moves k k' r bh blk rw (w : world K) :
  rd_idle k -> rd_buffer k bh blk -> rw = WRITE \/ rw = READ -> serving k k' r bh rw ->
  rd_step k' w = (end_request 1 1 ;; mret None) (rd_moved k k' bh blk rw) w.
Proof.
  intros [Hfn Hcur Hdevs Hsp] [Hb Hdev Hblk Hlock Hin Hlen] Hrw
    [Scur Sfn Sreq Sbh (Sb & Slr & Sld) Sreqs (Ss & Sl & Sm)].
  rewrite Hdev, Hblk in Sreq.
  assert (Hsec : u32 (blk .<< 1) = 2 * blk).
  { rewrite shiftl_mul by lia. change (2 ^ 1) with 2. rewrite u32_small; lia. }
  rewrite Hsec in Sreq.
  assert (Haddr : u32 (rd_start k' + u32 ((2 * blk) .<< 9)) = rd_addr k blk).
  { unfold rd_addr. rewrite shiftl_mul by lia. change (2 ^ 9) with 512.
    rewrite (u32_small (2 * blk * 512)) by lia. rewrite Ss, u32_small by lia. lia. }
  unfold rd_step. run. rewrite Scur, Sreq.
  cbn [r_dev r_bh r_sector r_nr_sectors r_cmd r_buffer r_offset].
  change (MAJOR 257 =? 1) with true. rewrite Sbh, decide_True by done.
  cbn [negb b_lock update_field]. change (truth 1) with true. cbn [negb].
  rewrite Haddr. change (s32 (u32 (2 .<< 9))) with 1024. change (Z.to_nat 1024) with 1024%nat. change (Z.to_nat 0) with 0%nat.
  change (MINOR 257 =? 1) with true. cbn [negb orb].
  rewrite Ss, Sl, !u32_small by (unfold rd_addr; lia).
  rewrite (proj2 (Z.ltb_ge _ _)) by (unfold rd_addr; lia).
  unfold rd_moved. destruct Hrw as [-> | ->]; run; done.
Qed.
Lemma rd_moved_fields k k' r bh blk rw :
  rd_buffer k bh blk -> rw = WRITE \/ rw = READ -> serving k k' r bh rw ->
  let km := rd_moved k k' bh blk rw in
  (bd_current_request (dev_of km 1) = Some r /\ req_of km r = req_of k' r /\
   requests km = requests k' /\ blk_dev km = blk_dev k' /\ NR_BUFFERS km = NR_BUFFERS k' /\
   rd_start km = rd_start k' /\ rd_length km = rd_length k') /\
  mem (k_mm km) = (if rw =? READ then mem (k_mm k) else
    put_bytes (rd_addr k blk) (b_data (bh_of k bh)) (mem (k_mm k))) /\
  forall j, bh_of km j = if decide (j = bh) then
    bh_of k bh <| b_data := if rw =? READ
                            then read_bytes (rd_addr k blk) 1024 (mem (k_mm k))
                            else b_data (bh_of k bh) |>
      <| b_lock := 1 |> <| b_dirt := 0 |> else bh_of k j.
Proof.
  intros [Hb Hdev Hblk Hlock Hin Hlen] Hrw [Scur Sfn Sreq Sbh (Sb & Slr & Sld) Sreqs (Ss & Sl & Sm)] km.
  subst km. unfold rd_moved. destruct Hrw as [-> | ->]; cbn [READ WRITE Z.eqb]; split.
  - by do 6 (split; [done|]).
  - split.
    + simpl. rewrite Sm, Sbh, decide_True by done. simpl.
      by rewrite firstn_all2 by lia.
    + intros j. change (bh_of (kmem_put _ _ k') j) with (bh_of k' j). rewrite Sbh.
      destruct (decide (j = bh)); [|done]. by destruct (bh_of k bh).
  - do 4 (split; [done|]). split; [apply NR_BUFFERS_upd|]. done.
  - split; [simpl; by rewrite Sm|].
    intros j. rewrite bh_of_upd, !Sbh by lia. destruct (decide (j = bh)) as [-> | ]; [|done].
    rewrite decide_True, Sm by done. cbn [b_data update_field].
    unfold put_at. rewrite length_read_bytes, skipn_all2 by lia. by rewrite app_nil_r.
Qed.
Lemma rd_serves k k' r bh blk rw w :
  rd_idle k -> rd_buffer k bh blk -> rw = WRITE \/ rw = READ ->
  (r < length (requests k))%nat -> r_dev (req_of k r) < 0 -> serving k k' r bh rw ->
  exists kf lg, do_rd_request k' w = Ret tt kf (World (script w) lg) /\
    transferred k kf bh blk rw.
Proof.
  intros Hi Hbf Hrw Hr Hneg HS.
  pose proof (rd_step_moves k k' r bh blk rw w Hi Hbf Hrw HS) as Hstep.
  destruct (rd_moved_fields k k' r bh blk rw Hbf Hrw HS) as
    ((Kcur & Kreq & Kreqs & Kdev & Kb & Krs & Krl) & Kmem & Kbh).
  destruct Hi as [Hfn Hcur Hdevs Hsp]. destruct Hbf as [Hb Hdev Hblk Hlock Hin Hlen].
  destruct HS as [Scur Sfn Sreq Sbh (Sb & Slr & Sld) Sreqs (Ss & Sl & Sm)].
  generalize dependent (rd_moved k k' bh blk rw). intros km Hstep Kcur Kreq Kreqs Kdev Kb Krs Krl Kmem Kbh.
  destruct (end_request_ok km r bh w) as (lg & Hend); try done;
    try (rewrite ?Kreq, ?Sreq, ?Kreqs, ?Kdev, ?Kb, ?Kbh, ?decide_True by done; (done || lia)).
  rewrite (run_ret _ _ _ _ _ _ _ Hend) in Hstep. rewrite ret_mret in Hstep.
  assert (Hl : (1 < length (blk_dev km))%nat) by (rewrite Kdev; lia).
  set (kf := upd_dev 1 _ _) in *.
  exists kf, lg. split.
  { unfold do_rd_request. rewrite (repeat_until_again _ _ _ _ _ _ Hstep).
    assert (Hidle : rd_step kf (World (script w) lg) = Ret (Some tt) kf (World (script w) lg)).
    { unfold rd_step. run. unfold kf.
      rewrite dev_of_upd, decide_True by (exact Hl || done). done. }
    exact (repeat_until_done _ _ _ _ _ _ _ Hidle). }
  split.
  - intros j. change (bh_of kf) with (bh_of (upd_bh bh (fun x => x <| b_lock := 0 |>)
      (upd_bh bh (fun x => x <| b_uptodate := 1 |>) km))).
    rewrite !bh_of_upd, !Kbh by (rewrite ?NR_BUFFERS_upd; lia).
    rewrite !(decide_True _ _ (eq_refl bh)). destruct (decide (j = bh)); [|done].
    by destruct (bh_of k bh).
  - exact Kmem.
  - split.
    + unfold kf. rewrite dev_of_upd, decide_True by (exact Hl || done).
      change (bd_request_fn (dev_of km 1) = Some do_rd_request_fn).
      unfold dev_of. rewrite Kdev. exact Sfn.
    + unfold kf. by rewrite dev_of_upd, decide_True by (exact Hl || done).
    + simpl. by rewrite length_alter.
    + simpl. rewrite Krs, Krl, Ss, Sl. done.
  - intros n. apply find_free_req_same. intros i. simpl. rewrite Kreqs.
    destruct (decide (i = r)) as [-> | Hne].
    + rewrite list_lookup_alter_eq. fold (req_of k r).
      destruct (lookup_lt_is_Some_2 (requests k') r ltac:(lia)) as [q ->]. simpl.
      symmetry. by apply Z.ltb_lt.
    + rewrite list_lookup_alter_ne by done. by rewrite Sreqs.
  - unfold NR_BUFFERS. simpl. rewrite !length_alter, Kreqs, Krs, Krl, Ss, Sl, Slr.
    split; [|done]. unfold NR_BUFFERS in *. congruence.
Qed.

Lemma find_free_req_mono n m rs i : (n <= m)%nat -> find_free_req n rs = Some i ->
  exists j, find_free_req m rs = Some j.
Proof.
  intros Hle. induction Hle as [|m Hle IH]; [eauto|]. intros E. destruct (IH E) as (j & Ej).
  simpl. destruct (_ <? 0); eauto.
Qed.

(** One block through the RAM disk. *)
Lemma ll_rw_ramdisk k w bh blk rw r :
  rd_idle k -> rd_buffer k bh blk ->
  (rw = WRITE /\ truth (b_dirt (bh_of k bh)) = true) \/
  (rw = READ /\ truth (b_uptodate (bh_of k bh)) = false) ->
  find_free_req (search_start rw) (requests k) = Some r ->
  length (requests k) = NR_REQUEST ->
  exists k' lg, ll_rw_block rw bh k w = Ret tt k' (World (script w) lg) /\
    transferred k k' bh blk rw.
Proof.
  intros Hidle Hbuf Hrw Hfree Hlen. destruct (find_free_req_spec _ _ _ Hfree) as [Hlt Hneg].
  assert (Hr : (r < length (requests k))%nat).
  { rewrite Hlen. unfold search_start, NR_REQUEST in *. destruct (rw =? READ); simpl in *; lia. }
  destruct (ll_rw_serving k w bh blk rw r Hidle Hbuf Hrw Hfree Hr) as (k' & E & Hs).
  rewrite E. eapply rd_serves; try done. naive_solver.
Qed.

(** C19. The RAM disk is a disk: a dirty buffer written with [ll_rw_block] and then
    the same block read into another buffer gives back exactly the bytes
    written.  Both calls return without sleeping, the written buffer is clean,
    the one read is up to date, both are unlocked, no other buffer is touched
    and the driver is idle again. *)
Theorem rd_read_after_write k w b1 b2 blk r :
  rd_idle k -> rd_buffer k b1 blk -> rd_buffer k b2 blk -> b1 <> b2 ->
  truth (b_dirt (bh_of k b1)) = true -> truth (b_uptodate (bh_of k b2)) = false ->
  Forall (fun b => 0 <= b < 256) (b_data (bh_of k b1)) ->
  length (requests k) = NR_REQUEST ->
  find_free_req (search_start WRITE) (requests k) = Some r ->
  exists k' lg,
    (ll_rw_block WRITE b1 ;; ll_rw_block READ b2) k w = Ret tt k' (World (script w) lg) /\
    b_data (bh_of k' b2) = b_data (bh_of k b1) /\
    b_uptodate (bh_of k' b2) = 1 /\ b_lock (bh_of k' b2) = 0 /\
    b_dirt (bh_of k' b1) = 0 /\ b_lock (bh_of k' b1) = 0 /\
    (forall j, j <> b1 -> j <> b2 -> bh_of k' j = bh_of k j) /\ rd_idle k'.
Proof.
  intros Hidle Hb1 Hb2 Hne Hd Hu Hbytes Hlen Hfree.
  destruct (ll_rw_ramdisk k w b1 blk WRITE r Hidle Hb1 (or_introl (conj eq_refl Hd)) Hfree Hlen)
    as (k1 & lg1 & E1 & [T1 M1 I1 F1 (L1 & L1' & S1 & S1')]).
  destruct (find_free_req_mono (search_start WRITE) (search_start READ) (requests k) r)
    as (r2 & Hfree2); [vm_compute; lia | done |].
  assert (Hb2' : rd_buffer k1 b2 blk).
  { destruct Hb2 as [? ? ? ? ? ?].
    split; rewrite ?T1, ?decide_False by done; rewrite ?L1, ?S1'; done. }
  assert (Hu' : truth (b_uptodate (bh_of k1 b2)) = false).
  { rewrite T1, decide_False by done. done. }
  destruct (ll_rw_ramdisk k1 (World (script w) lg1) b2 blk READ r2 I1 Hb2'
              (or_intror (conj eq_refl Hu'))) as (k2 & lg2 & E2 & [T2 M2 I2 F2 _]);
    [by rewrite F1 | lia |].
  rewrite (run_ret _ _ _ _ _ _ _ E1), E2. do 2 eexists. split; [reflexivity|].
  rewrite !T2, (decide_True _ _ (eq_refl b2)), !decide_False, !T1 by done.
  rewrite (decide_True _ _ (eq_refl b1)), decide_False by done.
  cbn [b_data b_uptodate b_lock b_dirt update_field READ Z.eqb].
  split. { rewrite M1. unfold rd_addr. rewrite S1. change (WRITE =? READ) with false. cbn iota.
           replace 1024%nat with (length (b_data (bh_of k b1))) by apply Hb1.
           by apply read_put_bytes. }
  do 4 (split; [done|]). split; [|exact I2].
  intros j H1 H2. by rewrite T2, decide_False, T1, decide_False by done.
Qed.

(** * The theorems apply *)
Definition sample_buffer (blk dirt uptodate : Z) (data : list Z) : buffer_head :=
  BufferHead data blk 0x101 uptodate dirt 1 0 None None None None.
Definition rd_sample : K :=
  Kernel [sample_buffer 3 1 1 (repeat 65 1024); sample_buffer 3 0 0 (repeat 0 1024)]
    (sample_buffer 0 0 0 []) [] None (repeat free_request NR_REQUEST)
    [BlkDev None None; BlkDev (Some do_rd_request_fn) None]
    0x200000 65536 [] 0 [] [] 0x101 (fun _ => 0) (no_sched [] None) no_mm 0 [] [] [] [].

Lemma rd_read_after_write_witness : exists k' lg,
  (ll_rw_block WRITE 0 ;; ll_rw_block READ 1) rd_sample (World [] []) =
    Ret tt k' (World [] lg) /\ b_data (bh_of k' 1) = repeat 65 1024.
Proof.
  destruct (rd_read_after_write rd_sample (World [] []) 0 1 3 20)
    as (k' & lg & E & Hd & _).
  - split; [done | done | simpl; lia | simpl; lia].
  - split; try reflexivity; [unfold NR_BUFFERS; simpl; lia | split; simpl; lia].
  - split; try reflexivity; [unfold NR_BUFFERS; simpl; lia | split; simpl; lia].
  - done.
  - done.
  - done.
  - apply Forall_forall. intros x Hx. apply (list_elem_of_In (repeat 65 1024) x) in Hx.
    apply repeat_spec in Hx. lia.
  - reflexivity.
  - reflexivity.
  - exists k', lg. split; [exact E | exact Hd].
Defined.

Definition add_sample : K :=
  rd_sample <| blk_dev := [BlkDev None None; BlkDev None None; BlkDev None None;
                           BlkDev (Some do_hd_request_fn) (Some 0%nat)] |>
    <| requests := [Request 0x301 0 0 40 2 0 0 (Some 0%nat) (Some 1%nat);
                    Request 0x301 0 0 80 2 0 0 (Some 0%nat) None;
                    Request 0x301 0 0 60 2 0 0 (Some 0%nat) None] |>.
Lemma add_request_elevator_witness : exists s' l',
  add_request 3 2 add_sample (World [] []) = Ret tt s' (World [] []) /\
  queued s' (Some 0%nat) (0%nat :: l') /\ two_runs (req_of s') (0%nat :: l').
Proof.
  destruct (add_request_elevator 3 2 0 [1%nat] add_sample (World [] []))
    as (s' & l' & E & _ & Hq & _ & Ht & _).
  - reflexivity.
  - simpl. repeat split; lia.
  - repeat constructor; set_solver.
  - simpl. unfold NR_REQUEST. lia.
  - simpl. lia.
  - set_solver.
  - intros [|[|[|i]]] Hi; [| | done |]; intros (? & ? & ?); discriminate.
  - exists [0%nat; 1%nat], []. repeat split.
  - exists s', l'. split; [exact E|]. split; [exact Hq | exact Ht].
Defined.
