(* ===== verification/Hd.v ===== *)
(** The hard disk driver, kernel/blk_drv/hd.c: the definitions.

    The controller behind the ports is not part of the program: [Controller] is what the
    driver sees of it, four operations on a state of its own.  An interrupt of the
    controller is a run of [hd_interrupt], which calls the handler in [do_hd]. *)
From S2P Require Import Prelude Sched Mm Kernel Blk.

(** Ports: a byte in, a byte out, and 256 words of the data port in and out. *)
Class Controller (C : Type) : Type := {
  inb : Z -> C -> Z * C;
  outb : Z -> Z -> C -> C;
  insw : C -> (nat -> Z) * C;
  outsw : list Z -> C -> C;
}.

(** include/linux/hdreg.h:10-10 [HD_DATA] *)
Definition HD_DATA : Z := 0x1f0.
(** include/linux/hdreg.h:11-11 [HD_ERROR] *)
Definition HD_ERROR : Z := 0x1f1.
(** include/linux/hdreg.h:17-17 [HD_STATUS] *)
Definition HD_STATUS : Z := 0x1f7.
(** include/linux/hdreg.h:21-21 [HD_CMD] *)
Definition HD_CMD : Z := 0x3f6.
(** include/linux/hdreg.h:24-24 [ERR_STAT] *)
Definition ERR_STAT : Z := 0x01.
(** include/linux/hdreg.h:27-27 [DRQ_STAT] *)
Definition DRQ_STAT : Z := 0x08.
(** include/linux/hdreg.h:28-28 [SEEK_STAT] *)
Definition SEEK_STAT : Z := 0x10.
(** include/linux/hdreg.h:29-29 [WRERR_STAT] *)
Definition WRERR_STAT : Z := 0x20.
(** include/linux/hdreg.h:30-30 [READY_STAT] *)
Definition READY_STAT : Z := 0x40.
(** include/linux/hdreg.h:31-31 [BUSY_STAT] *)
Definition BUSY_STAT : Z := 0x80.
(** include/linux/hdreg.h:34-34 [WIN_RESTORE] *)
Definition WIN_RESTORE : Z := 0x10.
(** include/linux/hdreg.h:35-35 [WIN_READ] *)
Definition WIN_READ : Z := 0x20.
(** include/linux/hdreg.h:36-36 [WIN_WRITE] *)
Definition WIN_WRITE : Z := 0x30.
(** include/linux/hdreg.h:42-42 [WIN_SPECIFY] *)
Definition WIN_SPECIFY : Z := 0x91.

(** kernel/blk_drv/hd.c:34-34 [MAX_ERRORS] *)
Definition MAX_ERRORS : Z := 7.

(** kernel/blk_drv/hd.c:45-47 [hd_i_struct] *)
Record hd_i_struct : Type := HdInfo {
  h_head : Z; h_sect : Z; h_cyl : Z; h_wpcom : Z; h_lzone : Z; h_ctl : Z;
}.
(** kernel/blk_drv/hd.c:56-59 [hd_struct] *)
Record hd_struct : Type := HdPart { start_sect : Z; nr_sects : Z }.

(** The handlers that [do_hd] may point to. *)
Inductive hd_intr : Type := read_intr_fn | write_intr_fn | recal_intr_fn.

(** kernel/blk_drv/hd.c:39-59 [hd]: the statics of the driver, [do_hd] of blk.h, and what is
    behind the ports *)
Record hd_state (C : Type) : Type := Hd {
  hd_k : K;
  hd_info : list hd_i_struct;
  hd : list hd_struct;
  NR_HD : Z;
  recalibrate : Z;
  reset : Z;
  do_hd : option hd_intr;
  ctl : C;
}.
Arguments Hd {C} _ _ _ _ _ _ _ _.
Arguments hd_k {C} _.
Arguments hd_info {C} _.
Arguments hd {C} _.
Arguments NR_HD {C} _.
Arguments recalibrate {C} _.
Arguments reset {C} _.
Arguments do_hd {C} _.
Arguments ctl {C} _.
#[global] Instance eta_hd C : Eta (hd_state C) := fun s =>
  Hd (hd_k s) (hd_info s) (hd s) (NR_HD s) (recalibrate s) (reset s) (do_hd s) (ctl s).

Definition no_info : hd_i_struct := HdInfo 0 0 0 0 0 0.
Definition info_of (l : list hd_i_struct) (i : Z) : hd_i_struct := nth (Z.to_nat i) l no_info.
Definition part_of (l : list hd_struct) (i : Z) : hd_struct := nth (Z.to_nat i) l (HdPart 0 0).

(** ** Setting up *)

(** kernel/blk_drv/hd.c:84-89 [sys_setup]: the parameters of a drive in the BIOS's table,
    read from the bytes of memory *)
Definition drive_info (m : Z -> Z) (BIOS : Z) : hd_i_struct :=
  let byte i := byte_at m (BIOS + i) in
  let word i := le_value [byte i; byte (i + 1)] in
  HdInfo (byte 2) (byte 14) (word 0) (word 5) (word 12) (byte 8).
(** kernel/blk_drv/hd.c:147-151 [sys_setup]: the four entries of the partition table *)
Definition partition (data : list Z) (i : nat) : hd_struct :=
  let p := (0x1BE + 16 * i)%nat in
  HdPart (s32 (le_value (take 4 (drop (p + 8) data)))) (s32 (le_value (take 4 (drop (p + 12) data)))).
(** kernel/blk_drv/hd.c:142-143 [sys_setup]: the mark at the end of the sector *)
Definition good_mark (data : list Z) : bool :=
  (get_byte data 510 =? 0x55) && (get_byte data 511 =? 0xAA).

Section hd.
Context {C : Type} `{Controller C}.
Implicit Types (s : hd_state C).

Definition in_k {A} (m : M K A) : M (hd_state C) A := liftM hd_k (fun k s => s <| hd_k := k |>) m.
Definition upd_k (f : K -> K) : M (hd_state C) unit := modify (fun s => s <| hd_k ::= f |>).
Definition inb_p (port : Z) : M (hd_state C) Z :=
  r ← gets (fun s => inb port (ctl s)) ;
  modify (fun s => s <| ctl := r.2 |>) ;;
  mret (u8 r.1).
Definition outb_p (value port : Z) : M (hd_state C) unit :=
  modify (fun s => s <| ctl ::= outb (u8 value) port |>).
(** kernel/blk_drv/hd.c:61-62 [port_read]: 256 words *)
Definition port_read : M (hd_state C) (list Z) :=
  r ← gets (fun s => insw (ctl s)) ;
  modify (fun s => s <| ctl := r.2 |>) ;;
  mret ((fun i => u8 (r.1 i)) <$> seq 0 512).
(** kernel/blk_drv/hd.c:64-65 [port_write] *)
Definition port_write (l : list Z) : M (hd_state C) unit := modify (fun s => s <| ctl ::= outsw l |>).

(** ** Talking to the controller *)

(** kernel/blk_drv/hd.c:165-165 [controller_ready]: at most [n] looks at the status *)
Fixpoint wait_ready (n : nat) : M (hd_state C) bool :=
  match n with
  | O => mret false
  | S n' => v ← inb_p HD_STATUS ;
            if truth (v .& 0x80) then wait_ready n' else mret true
  end.
Definition READY_TRIES : nat := Z.to_nat 99999.
(** kernel/blk_drv/hd.c:161-167 [controller_ready] *)
Definition controller_ready : M (hd_state C) bool := wait_ready READY_TRIES.

(** kernel/blk_drv/hd.c:169-178 [win_result]: [true] is 1, an error *)
Definition win_result : M (hd_state C) bool :=
  i ← inb_p HD_STATUS ;
  if (i .& (BUSY_STAT .| READY_STAT .| WRERR_STAT .| SEEK_STAT .| ERR_STAT)) =? (READY_STAT .| SEEK_STAT)
  then mret false
  else when (truth (i .& 1)) (inb_p HD_ERROR ;; mret tt) ;; mret true.

(** kernel/blk_drv/hd.c:180-200 [hd_out] *)
Definition hd_out (drive nsect sect head cyl cmd : Z) (intr_addr : hd_intr) : M (hd_state C) unit :=
  if (1 <? drive) || (15 <? head) then panic "Trying to write bad sector" else
  ready ← controller_ready ;
  if negb (ready : bool) then panic "HD controller not ready" else
  modify (fun s => s <| do_hd := Some intr_addr |>) ;;
  d ← gets (fun s => info_of (hd_info s) drive) ;
  outb_p (h_ctl d) HD_CMD ;;
  outb_p (h_wpcom d .>> 2) (HD_DATA + 1) ;;
  outb_p nsect (HD_DATA + 2) ;;
  outb_p sect (HD_DATA + 3) ;;
  outb_p cyl (HD_DATA + 4) ;;
  outb_p (cyl .>> 8) (HD_DATA + 5) ;;
  outb_p (0xA0 .| (drive .<< 4) .| head) (HD_DATA + 6) ;;
  outb_p cmd (HD_DATA + 7).

(** kernel/blk_drv/hd.c:205-207 [drive_busy]: at most [n] looks *)
Fixpoint wait_drive (n : nat) : M (hd_state C) unit :=
  match n with
  | O => mret tt
  | S n' => v ← inb_p HD_STATUS ;
            if READY_STAT =? (v .& (BUSY_STAT .| READY_STAT)) then mret tt else wait_drive n'
  end.
Definition DRIVE_TRIES : nat := Z.to_nat 10000.
(** kernel/blk_drv/hd.c:201-214 [drive_busy] *)
Definition drive_busy : M (hd_state C) bool :=
  wait_drive DRIVE_TRIES ;;
  i ← inb_p HD_STATUS ;
  if (i .& (BUSY_STAT .| READY_STAT .| SEEK_STAT)) =? (READY_STAT .| SEEK_STAT) then mret false
  else printk "HD controller times out" [] ;; mret true.

(** kernel/blk_drv/hd.c:216-227 [reset_controller] *)
Definition reset_controller : M (hd_state C) unit :=
  outb_p 4 HD_CMD ;;
  d ← gets (fun s => info_of (hd_info s) 0) ;
  outb_p (h_ctl d .& 0x0f) HD_CMD ;;
  busy ← drive_busy ;
  when busy (printk "HD-controller still busy" []) ;;
  i ← inb_p HD_ERROR ;
  when (negb (i =? 1)) (printk "HD-controller reset failed: %02x" [i]).

(** kernel/blk_drv/hd.c:229-234 [reset_hd] *)
Definition reset_hd (nr : Z) : M (hd_state C) unit :=
  reset_controller ;;
  d ← gets (fun s => info_of (hd_info s) nr) ;
  hd_out nr (h_sect d) (h_sect d) (u32 (h_head d - 1)) (h_cyl d) WIN_SPECIFY recal_intr_fn.

(** kernel/blk_drv/hd.c:236-239 [unexpected_hd_interrupt] *)
Definition unexpected_hd_interrupt : M (hd_state C) unit := printk "Unexpected HD interrupt" [].

(** ** Requests *)

Definition CURRENT s : option nat := bd_current_request (dev_of (hd_k s) 3).
(** [CURRENT->errors].  When the queue is empty this is the word at the address 8, of the
    page directory, as the source has it. *)
Definition cur_errors s : Z :=
  match CURRENT s with
  | Some r => r_errors (req_of (hd_k s) r)
  | None => s32 (mem (k_mm (hd_k s)) 8)
  end.
Definition set_errors (e : Z) : M (hd_state C) unit :=
  c ← gets CURRENT ;
  match c with
  | Some r => upd_k (upd_req r (fun q => q <| r_errors := e |>))
  | None => upd_k (fun k => k <| k_mm ::= fun m => m <| mem ::= upd 8 (u32 e) |> |>)
  end.

(** kernel/blk_drv/hd.c:241-247 [bad_rw_intr] *)
Definition bad_rw_intr : M (hd_state C) unit :=
  e ← gets cur_errors ;
  set_errors (s32 (e + 1)) ;;
  when (MAX_ERRORS <=? s32 (e + 1)) (in_k (end_request 3 0)) ;;
  e ← gets cur_errors ;
  when (MAX_ERRORS / 2 <? e) (modify (fun s => s <| reset := 1 |>)).

(** kernel/blk_drv/hd.c:329-330 [do_hd_request]: at most [n] looks *)
Fixpoint wait_drq (n : nat) : M (hd_state C) bool :=
  match n with
  | O => mret false
  | S n' => v ← inb_p HD_STATUS ;
            if truth (v .& DRQ_STAT) then mret true else wait_drq n'
  end.
Definition DRQ_TRIES : nat := Z.to_nat 3000.

(** The half block at [CURRENT->buffer]. *)
Definition half_block (k : K) (r : request) : list Z :=
  take 512 (drop (Z.to_nat (r_offset r)) (b_data (bh_of k (r_buffer r)))).

(** kernel/blk_drv/hd.c:301-313 [do_hd_request]: sector, head and cylinder *)
Definition chs (d : hd_i_struct) (block : Z) : Z * Z * Z :=
  (block mod h_sect d + 1, block / h_sect d mod h_head d, block / h_sect d / h_head d).

(** kernel/blk_drv/hd.c:300-339 [do_hd_request]: from [repeat] to [return] ([Some]) or
    [goto repeat] ([None]); a division by zero ends the task *)
Definition hd_step : M (hd_state C) (option unit) :=
  s ← get ;
  match CURRENT s with
  | None => mret (Some tt)
  | Some i =>
      let r := req_of (hd_k s) i in
      if negb (MAJOR (r_dev r) =? 3) then panic "harddisk: request list destroyed" else
      if match r_bh r with Some b => negb (truth (b_lock (bh_of (hd_k s) b))) | None => false end
      then panic "harddisk: block not locked" else
      let dev := MINOR (r_dev r) in
      let block := r_sector r in
      if (5 * NR_HD s <=? dev) || (u32 (nr_sects (part_of (hd s) dev)) <? u32 (block + 2))
      then in_k (end_request 3 0) ;; mret None else
      let block := u32 (block + start_sect (part_of (hd s) dev)) in
      let drive := dev / 5 in
      let d := info_of (hd_info s) drive in
      if (h_sect d =? 0) || (h_head d =? 0) then exit_task SIGSEGV else
      let '(sec, head, cyl) := chs d block in
      if truth (reset s) then
        modify (fun s => s <| reset := 0 |> <| recalibrate := 1 |>) ;;
        reset_hd drive ;; mret (Some tt)
      else if truth (recalibrate s) then
        modify (fun s => s <| recalibrate := 0 |>) ;;
        hd_out drive (h_sect d) 0 0 0 WIN_RESTORE recal_intr_fn ;; mret (Some tt)
      else if r_cmd r =? WRITE then
        hd_out drive (r_nr_sectors r) sec head cyl WIN_WRITE write_intr_fn ;;
        ok ← wait_drq DRQ_TRIES ;
        if negb (ok : bool) then bad_rw_intr ;; mret None
        else port_write (half_block (hd_k s) r) ;; mret (Some tt)
      else if r_cmd r =? READ then
        hd_out drive (r_nr_sectors r) sec head cyl WIN_READ read_intr_fn ;; mret (Some tt)
      else panic "unknown hd-command"
  end.
(** A round of the loop ends a request or counts one of its at most [MAX_ERRORS]
    errors. *)
Definition HD_FUEL : nat := S (NR_REQUEST * 8).
(** kernel/blk_drv/hd.c:293-340 [do_hd_request] *)
Definition do_hd_request : M (hd_state C) unit := repeat_until HD_FUEL hd_step.

(** kernel/blk_drv/hd.c:257-259 [read_intr]: the request moves on by a sector *)
Definition next_sector (q : request) : request :=
  q <| r_offset ::= fun o => o + 512 |> <| r_sector ::= fun b => u32 (b + 1) |>
    <| r_nr_sectors ::= fun n => u32 (n - 1) |>.
(** kernel/blk_drv/hd.c:249-266 [read_intr]; it is not called with an empty queue *)
Definition read_intr : M (hd_state C) unit :=
  bad ← win_result ;
  if (bad : bool) then bad_rw_intr ;; do_hd_request else
  data ← port_read ;
  s ← get ;
  match CURRENT s with
  | None => out_of_fuel
  | Some i =>
      let r := req_of (hd_k s) i in
      upd_k (upd_bh (r_buffer r) (fun b => b <| b_data ::= put_at (Z.to_nat (r_offset r)) data |>)) ;;
      upd_k (upd_req i (fun q => next_sector (q <| r_errors := 0 |>))) ;;
      n ← gets (fun s => r_nr_sectors (req_of (hd_k s) i)) ;
      if truth n then modify (fun s => s <| do_hd := Some read_intr_fn |>)
      else in_k (end_request 3 1) ;; do_hd_request
  end.
(** kernel/blk_drv/hd.c:268-284 [write_intr]; it is not called with an empty queue *)
Definition write_intr : M (hd_state C) unit :=
  bad ← win_result ;
  if (bad : bool) then bad_rw_intr ;; do_hd_request else
  s ← get ;
  match CURRENT s with
  | None => out_of_fuel
  | Some i =>
      let n := u32 (r_nr_sectors (req_of (hd_k s) i) - 1) in
      if truth n then
        upd_k (upd_req i next_sector) ;;
        modify (fun s => s <| do_hd := Some write_intr_fn |>) ;;
        s ← get ;
        port_write (half_block (hd_k s) (req_of (hd_k s) i))
      else
        upd_k (upd_req i (fun q => q <| r_nr_sectors := n |>)) ;;
        in_k (end_request 3 1) ;; do_hd_request
  end.
(** kernel/blk_drv/hd.c:286-291 [recal_intr] *)
Definition recal_intr : M (hd_state C) unit :=
  bad ← win_result ;
  when bad bad_rw_intr ;;
  do_hd_request.

(** kernel/system_call.s:225-254 [hd_interrupt]: [do_hd] is taken and called *)
Definition hd_interrupt : M (hd_state C) unit :=
  f ← gets do_hd ;
  modify (fun s => s <| do_hd := None |>) ;;
  match f with
  | Some read_intr_fn => read_intr
  | Some write_intr_fn => write_intr
  | Some recal_intr_fn => recal_intr
  | None => unexpected_hd_interrupt
  end.

(** kernel/blk_drv/hd.c:341-347 [hd_init] *)
Definition hd_init : M (hd_state C) unit :=
  upd_k (upd_dev 3 (fun d => d <| bd_request_fn := Some do_hd_request_fn |>)) ;;
  v ← inb_p 0x21 ; outb_p (v .& 0xfb) 0x21 ;;
  v ← inb_p 0xA1 ; outb_p (v .& 0xbf) 0xA1.
End hd.
