(* ===== verification/Disk.v ===== *)
(** The hard disk driver of [Hd]: theorems.

    Nothing is assumed of the controller: whatever it answers, the driver finishes every
    request of its queue, well or not, within a number of interrupts that its errors and
    sectors bound; or it panics since the controller does not get ready. *)
From S2P Require Import Prelude Sched Mm Kernel Blk Hd.

#[local] Arguments READY_TRIES : simpl never.
#[local] Arguments DRIVE_TRIES : simpl never.
#[local] Arguments DRQ_TRIES : simpl never.
#[local] Arguments HD_FUEL : simpl never.

(** ** Sector, head and cylinder *)

(** kernel/blk_drv/hd.c do_hd_request: the sector, head and cylinder of a block of the
    drive are in the drive's ranges, sectors counted from 1, and name the block. *)
Theorem chs_names_block d block : 0 < h_sect d -> 0 < h_head d -> 
  0 <= block < h_cyl d * h_head d * h_sect d ->
  let '(sec, head, cyl) := chs d block in
  1 <= sec <= h_sect d /\ 0 <= head < h_head d /\ 0 <= cyl < h_cyl d /\
  (cyl * h_head d + head) * h_sect d + (sec - 1) = block.
Proof.
  intros Hs Hh Hb. unfold chs. set (q := block / h_sect d).
  pose proof (Z.mod_pos_bound block (h_sect d) Hs). pose proof (Z.mod_pos_bound q (h_head d) Hh).
  pose proof (Z.div_mod block (h_sect d) ltac:(lia)) as E1. fold q in E1.
  pose proof (Z.div_mod q (h_head d) ltac:(lia)) as E2.
  assert (Hq : 0 <= q < h_cyl d * h_head d).
  { split; [apply Z.div_pos; lia|]. apply Z.div_lt_upper_bound; lia. }
  split; [lia|]. split; [lia|]. split.
  - split; [apply Z.div_pos; lia|]. apply Z.div_lt_upper_bound; lia.
  - nia.
Qed.
Definition sample_drive : hd_i_struct := HdInfo 4 17 306 128 0 8.
Lemma chs_names_block_witness : chs sample_drive 100 = (16, 1, 1) /\ (1 * 4 + 1) * 17 + 15 = 100.
Proof.
  split; [reflexivity|].
  apply (chs_names_block sample_drive 100); reflexivity || (split; reflexivity || discriminate).
Defined.

(** ** The queue of the disk *)

(** A buffer that waits for a request is locked. *)
Definition bh_locked (k : K) (i : nat) : Prop := forall b, r_bh (req_of k i) = Some b ->
  (b < NR_BUFFERS k)%nat /\ b_lock (bh_of k b) <> 0.
(** The buffers that wait for the requests [l]. *)
Definition bhs_of (k : K) (l : list nat) : list nat := omap (fun i => r_bh (req_of k i)) l.
(** The requests of the disk, in order. *)
Record linked (k : K) (l : list nat) : Prop := {
  li_queued : queued k (bd_current_request (dev_of k 3)) l;
  li_nodup : NoDup l;
  li_locked : Forall (bh_locked k) l;
  li_bhs : NoDup (bhs_of k l);
  li_len : length (requests k) = NR_REQUEST /\ (3 < length (blk_dev k))%nat;
}.
(** A request that the driver can work on. *)
Record good_req (k : K) (i : nat) : Prop := {
  gq_dev : MAJOR (r_dev (req_of k i)) = 3;
  gq_cmd : r_cmd (req_of k i) = READ \/ r_cmd (req_of k i) = WRITE;
  gq_errors : 0 <= r_errors (req_of k i) < MAX_ERRORS;
  gq_sectors : 0 < r_nr_sectors (req_of k i) < 2 ^ 32;
}.
Definition disk_queue (k : K) (l : list nat) : Prop := linked k l /\ Forall (good_req k) l.
(** What is finished stays finished. *)
Record keeps (k k' : K) : Prop := {
  ke_lock : forall b, b_lock (bh_of k b) = 0 -> b_lock (bh_of k' b) = 0;
  ke_bh : forall j, r_bh (req_of k' j) = r_bh (req_of k j);
  ke_dev : forall j, r_dev (req_of k j) = -1 -> r_dev (req_of k' j) = -1;
}.
Lemma keeps_refl k : keeps k k.
Proof. by split. Qed.
Lemma keeps_trans k1 k2 k3 : keeps k1 k2 -> keeps k2 k3 -> keeps k1 k3.
Proof.
  intros [A1 A2 A3] [B1 B2 B3]. split; [auto| |auto]. intros j. by rewrite B2, A2.
Qed.
(** A request is finished: its slot is free and nobody waits for its buffer. *)
Definition finished (k : K) (i : nat) : Prop :=
  r_dev (req_of k i) = -1 /\ forall b, r_bh (req_of k i) = Some b -> b_lock (bh_of k b) = 0.
Lemma finished_keeps k k' i : keeps k k' -> finished k i -> finished k' i.
Proof.
  intros [A1 A2 A3] [H1 H2]. split; [auto|]. intros b. rewrite A2. auto.
Qed.

(** The end of the first request. *)
Definition ended (up : Z) (i : nat) (k : K) : K :=
  let k1 := match r_bh (req_of k i) with
            | Some b => upd_bh b (fun x => x <| b_lock := 0 |>)
                          (upd_bh b (fun x => x <| b_uptodate := u8 up |>) k)
            | None => k
            end in
  let k2 := upd_req i (fun r => r <| r_dev := -1 |>) k1 in
  upd_dev 3 (fun d => d <| bd_current_request := r_next (req_of k2 i) |>) k2.
Lemma end_request_run up i k w : bd_current_request (dev_of k 3) = Some i ->
  exists w', end_request 3 up k w = Ret tt (ended up i k) w' /\ script w' = script w.
Proof.
  intros Hc. unfold end_request, unlock_buffer_drv, ended. rewrite run_get, Hc.
  destruct (r_bh (req_of k i)) as [b|]; run; destruct (negb (truth up)); run;
    repeat (match goal with |- context [when ?c _] => destruct c end; run);
    eexists; (split; [reflexivity|done]).
Qed.

Lemma ended_req up i k j : (i < length (requests k))%nat ->
  req_of (ended up i k) j = if decide (j = i) then req_of k i <| r_dev := -1 |> else req_of k j.
Proof.
  intros Hi. unfold ended. destruct (r_bh (req_of k i)) as [b|];
    match goal with |- req_of (upd_dev _ _ ?x) _ = _ => change (req_of x j = if decide (j = i)
      then req_of k i <| r_dev := -1 |> else req_of k j) end; rewrite req_of_upd by exact Hi; done.
Qed.
Lemma ended_lock up i k b : (forall c, r_bh (req_of k i) = Some c -> (c < NR_BUFFERS k)%nat) ->
  b_lock (bh_of (ended up i k) b) =
    if decide (r_bh (req_of k i) = Some b) then 0 else b_lock (bh_of k b).
Proof.
  intros Hb. unfold ended. destruct (r_bh (req_of k i)) as [c|].
  - specialize (Hb c eq_refl).
    change (b_lock (bh_of (upd_bh c (fun x => x <| b_lock := 0 |>)
      (upd_bh c (fun x => x <| b_uptodate := u8 up |>) k)) b) =
      if decide (Some c = Some b) then 0 else b_lock (bh_of k b)).
    rewrite bh_of_upd by (rewrite NR_BUFFERS_upd; exact Hb). rewrite bh_of_upd by exact Hb.
    destruct (decide (b = c)) as [-> | Hne].
    { rewrite (decide_True (P := Some c = Some c)) by reflexivity. reflexivity. }
    rewrite bh_of_upd_ne by done. by rewrite decide_False by congruence.
  - by rewrite decide_False.
Qed.
Lemma ended_shape up i k : length (requests (ended up i k)) = length (requests k) /\
  NR_BUFFERS (ended up i k) = NR_BUFFERS k /\ length (blk_dev (ended up i k)) = length (blk_dev k).
Proof.
  unfold ended, upd_dev, upd_req, upd_bh, NR_BUFFERS. destruct (r_bh (req_of k i)); simpl; by rewrite ?length_alter.
Qed.
Lemma ended_current up i k : (3 < length (blk_dev k))%nat -> (i < length (requests k))%nat ->
  bd_current_request (dev_of (ended up i k) 3) = r_next (req_of k i).
Proof.
  intros Hd Hi. transitivity (r_next (req_of (ended up i k) i)).
  - unfold ended. destruct (r_bh (req_of k i)) as [b|]; rewrite dev_of_upd by done;
      by rewrite decide_True by done.
  - rewrite ended_req by done. by rewrite decide_True.
Qed.
Lemma bhs_cons k i l : bhs_of k (i :: l) =
  match r_bh (req_of k i) with Some b => b :: bhs_of k l | None => bhs_of k l end.
Proof. done. Qed.
Lemma bhs_ext k k' l : (forall i, i ∈ l -> r_bh (req_of k' i) = r_bh (req_of k i)) ->
  bhs_of k' l = bhs_of k l.
Proof.
  induction l as [|i l IH]; intros H; [done|]. rewrite !bhs_cons, (H i) by left.
  rewrite IH; [done|]. intros j Hj. apply H. by right.
Qed.
Lemma elem_of_bhs k l i b : i ∈ l -> r_bh (req_of k i) = Some b -> b ∈ bhs_of k l.
Proof. intros Hi Hb. apply list_elem_of_omap. by exists i. Qed.

Lemma linked_end up i k l : linked k (i :: l) ->
  linked (ended up i k) l /\ keeps k (ended up i k) /\ finished (ended up i k) i /\
  forall j, j ∈ l -> req_of (ended up i k) j = req_of k j.
Proof.
  intros [(Hc & Hi & Hq) [Hil Hnd]%NoDup_cons [Hg Hgl]%Forall_cons Hb [Hlen Hdev]].
  destruct (ended_shape up i k) as (S1 & S2 & S3).
  pose proof (fun c E => proj1 (Hg c E)) as Hbn.
  assert (Hreq : forall j, j ∈ l -> req_of (ended up i k) j = req_of k j).
  { intros j Hj. rewrite ended_req by done. rewrite decide_False; [done|]. by intros ->. }
  assert (Hlk : forall b, b_lock (bh_of k b) = 0 -> b_lock (bh_of (ended up i k) b) = 0).
  { intros b E. rewrite ended_lock by done. by case_decide. }
  split; [split|split; [split|split; [split|done]]].
  - rewrite ended_current by done. eapply queued_ext; [exact S1| |exact Hq]. intros j Hj. by rewrite Hreq.
  - done.
  - apply Forall_forall. intros j Hj b. rewrite Forall_forall in Hgl. rewrite Hreq, S2 by done. intros E.
    split; [by apply (Hgl j Hj)|]. rewrite ended_lock by done.
    rewrite decide_False; [by apply (Hgl j Hj)|]. intros E'. rewrite bhs_cons, E' in Hb.
    apply NoDup_cons in Hb as [Hn _]. apply Hn. by apply (elem_of_bhs k l j).
  - rewrite (bhs_ext k) by (intros j Hj; by rewrite Hreq). rewrite bhs_cons in Hb.
    destruct (r_bh (req_of k i)); [by apply NoDup_cons in Hb as [_ ?]|done].
  - by rewrite S1, S3.
  - done.
  - intros j. rewrite ended_req by done. by case_decide; subst.
  - intros j E. rewrite ended_req by done. by case_decide.
  - rewrite ended_req, decide_True by done. done.
  - intros b. rewrite ended_req, decide_True by done. intros E. simpl in E.
    rewrite ended_lock, decide_True by done. done.
Qed.

(** A store to the first request that keeps its place in the queue. *)
Record in_place (q q' : request) : Prop := {
  ip_dev : r_dev q' = r_dev q;
  ip_cmd : r_cmd q' = r_cmd q;
  ip_bh : r_bh q' = r_bh q;
  ip_next : r_next q' = r_next q;
}.
Lemma linked_update f k i l : linked k (i :: l) -> in_place (req_of k i) (f (req_of k i)) ->
  linked (upd_req i f k) (i :: l) /\ keeps k (upd_req i f k) /\
  req_of (upd_req i f k) i = f (req_of k i) /\ forall j, j ∈ l -> req_of (upd_req i f k) j = req_of k j.
Proof.
  intros [Hq Hnd Hg Hb [Hlen Hdev]] [H1 H2 H3 H4].
  assert (Hi : (i < length (requests k))%nat) by apply Hq.
  assert (Hreq : forall j, req_of (upd_req i f k) j = if decide (j = i) then f (req_of k i) else req_of k j)
    by (intros j; by rewrite req_of_upd).
  assert (Hbh : forall j, r_bh (req_of (upd_req i f k) j) = r_bh (req_of k j))
    by (intros j; rewrite Hreq; by case_decide; subst).
  split; [split|split; [split|split]].
  - eapply (queued_ext k); [simpl; by rewrite length_alter| |exact Hq].
    intros j _. rewrite Hreq. by case_decide; subst.
  - done.
  - eapply Forall_impl; [exact Hg|]. intros j Hj b. rewrite Hbh. apply Hj.
  - by rewrite (bhs_ext k) by (intros j _; apply Hbh).
  - simpl. by rewrite length_alter.
  - done.
  - done.
  - intros j. rewrite Hreq. case_decide; subst; [by rewrite H1|done].
  - rewrite Hreq. by rewrite decide_True.
  - intros j Hj. rewrite Hreq. rewrite decide_False; [done|]. intros ->.
    by apply NoDup_cons in Hnd as [? _].
Qed.
(** The data of a buffer changed. *)
Lemma queue_data b f k l : disk_queue k l -> disk_queue (upd_bh b (fun x => x <| b_data ::= f |>) k) l /\
  keeps k (upd_bh b (fun x => x <| b_data ::= f |>) k).
Proof.
  set (k' := upd_bh b _ k). intros [[Hq Hnd Hg Hb [Hlen Hdev]] Hgood].
  assert (Hlk : forall c, b_lock (bh_of k' c) = b_lock (bh_of k c)).
  { intros c. destruct (decide (b < NR_BUFFERS k)%nat) as [Hlt | Hge].
    - unfold k'. rewrite bh_of_upd by done. by case_decide; subst.
    - unfold k', bh_of, upd_bh. simpl. destruct (decide (c = b)) as [-> | ].
      + rewrite list_lookup_alter_eq. unfold NR_BUFFERS in Hge.
        by rewrite (proj2 (lookup_ge_None (buffers k) b)) by lia.
      + by rewrite list_lookup_alter_ne. }
  split; [split; [split|]|split; [|done..]].
  - eapply (queued_ext k); [done|done|exact Hq].
  - done.
  - eapply Forall_impl; [exact Hg|]. intros j Hj c Hc. rewrite Hlk. destruct (Hj c Hc). split; [|done].
    unfold k'. by rewrite NR_BUFFERS_upd.
  - exact Hb.
  - done.
  - eapply Forall_impl; [exact Hgood|]. intros j [G1 G2 G3 G4]. by split.
  - intros c. by rewrite Hlk.
Qed.

(** ** Requests are finished in order *)

(** From the queue [l] of [k] to the queue [l'] of [k']: the requests between are finished. *)
Record progress (k : K) (l : list nat) (k' : K) (l' : list nat) : Prop := {
  pr_queue : disk_queue k' l';
  pr_keeps : keeps k k';
  pr_done : exists d, l = d ++ l' /\ Forall (finished k') d;
}.
Lemma progress_refl k l : disk_queue k l -> progress k l k l.
Proof. intros H. split; [done|apply keeps_refl|]. by exists []. Qed.
Lemma progress_trans k l k1 l1 k2 l2 : progress k l k1 l1 -> progress k1 l1 k2 l2 -> progress k l k2 l2.
Proof.
  intros [A1 A2 (d & -> & A3)] [B1 B2 (d' & -> & B3)]. split; [done|by eapply keeps_trans|].
  exists (d ++ d'). rewrite app_assoc. split; [done|]. apply Forall_app. split; [|done].
  eapply Forall_impl; [exact A3|]. intros j. by apply finished_keeps.
Qed.

(** What is left to do: sectors, and errors that may still be counted.  [rounds] bounds the
    rounds of the loop in [do_hd_request]. *)
Fixpoint weight (k : K) (l : list nat) : Z :=
  match l with
  | [] => 0
  | i :: l' => (r_nr_sectors (req_of k i) * 8 + (7 - r_errors (req_of k i))) * 3 + weight k l'
  end.
Fixpoint rounds (k : K) (l : list nat) : Z :=
  match l with
  | [] => 0
  | i :: l' => 8 - r_errors (req_of k i) + rounds k l'
  end.
Lemma weight_ext k k' l : (forall j, j ∈ l -> req_of k' j = req_of k j) ->
  weight k' l = weight k l /\ rounds k' l = rounds k l.
Proof.
  induction l as [|i l IH]; intros H; [done|]. simpl. rewrite (H i) by left.
  destruct (IH (fun j Hj => H j (list_elem_of_further _ _ _ Hj))) as [-> ->]. done.
Qed.
Lemma weight_nonneg k l : Forall (good_req k) l -> 0 <= weight k l /\ 0 <= rounds k l <= 8 * Z.of_nat (length l).
Proof.
  induction 1 as [|i l Hi Hl IH]; [done|]. cbn [weight rounds length].
  pose proof (gq_errors _ _ Hi). pose proof (gq_sectors _ _ Hi). unfold MAX_ERRORS in *. nia.
Qed.
Lemma queue_length k h l : queued k h l -> NoDup l -> (length l <= length (requests k))%nat.
Proof.
  intros Hq Hd. rewrite <- (length_seq (length (requests k)) 0). apply submseteq_length.
  apply NoDup_submseteq; [done|]. revert h Hq. clear Hd.
  induction l as [|i l IH]; intros h Hq j Hj; [by apply not_elem_of_nil in Hj|].
  destruct Hq as (_ & Hi & Hq). apply elem_of_cons in Hj as [-> | Hj]; [|by eapply IH].
  apply elem_of_seq. lia.
Qed.
Lemma rounds_fuel k l : disk_queue k l -> rounds k l < Z.of_nat HD_FUEL.
Proof.
  intros [[Hq Hd _ _ [Hlen _]] Hg]. pose proof (weight_nonneg k l Hg).
  pose proof (queue_length k _ l Hq Hd). unfold HD_FUEL. lia.
Qed.

(** ** Routines that only talk to the controller *)

Section driver.
Context {C : Type} `{Controller C}.
Implicit Types (s : hd_state C).

Definition not_ready : string := "HD controller not ready".
(** The routine returns in [Q], or panics for a controller that stays busy. *)
Definition hwp {A} (m : M (hd_state C) A) (Q : A -> hd_state C -> Prop) s : Prop :=
  forall w, match m s w with
            | Ret a s' _ => Q a s'
            | Panicked msg _ => msg = not_ready
            | _ => False
            end.
Lemma hwp_bind {A B} (m : M (hd_state C) A) (f : A -> M (hd_state C) B) Q s :
  hwp m (fun a s' => hwp (f a) Q s') s -> hwp (m ≫= f) Q s.
Proof using. intros Hm w. specialize (Hm w). unfold mbind, M_bind. destruct (m s w); try done. apply Hm. Qed.
Lemma hwp_mono {A} (m : M (hd_state C) A) (Q Q' : A -> hd_state C -> Prop) s :
  hwp m Q s -> (forall a s', Q a s' -> Q' a s') -> hwp m Q' s.
Proof using. intros Hm HQ w. specialize (Hm w). destruct (m s w); try done. by apply HQ. Qed.
Lemma hwp_ret {A} (a : A) (Q : A -> hd_state C -> Prop) s : Q a s -> hwp (mret a) Q s.
Proof using. by intros HQ w. Qed.
Lemma hwp_gets {A} (f : hd_state C -> A) (Q : A -> hd_state C -> Prop) s : Q (f s) s -> hwp (gets f) Q s.
Proof using. by intros HQ w. Qed.
Lemma hwp_get (Q : hd_state C -> hd_state C -> Prop) s : Q s s -> hwp get Q s.
Proof using. by intros HQ w. Qed.
Lemma hwp_modify f (Q : unit -> hd_state C -> Prop) s : Q tt (f s) -> hwp (modify f) Q s.
Proof using. by intros HQ w. Qed.
Lemma hwp_printk f l (Q : unit -> hd_state C -> Prop) s : Q tt s -> hwp (printk f l) Q s.
Proof using. by intros HQ w. Qed.
Lemma hwp_panic {A} (Q : A -> hd_state C -> Prop) s : hwp (panic not_ready) Q s.
Proof using. by intros w. Qed.

(** Nothing but the controller's own state changes. *)
Definition quiet {A} (m : M (hd_state C) A) : Prop :=
  forall s, hwp m (fun _ s' => exists c, s' = s <| ctl := c |>) s.
Lemma ctl_same s : exists c, s = s <| ctl := c |>.
Proof using. exists (ctl s). by destruct s. Qed.
Lemma quiet_bind {A B} (m : M (hd_state C) A) (f : A -> M (hd_state C) B) :
  quiet m -> (forall a, quiet (f a)) -> quiet (m ≫= f).
Proof using.
  intros Hm Hf s. apply hwp_bind. eapply hwp_mono; [apply Hm|]. intros a s' [c ->].
  eapply hwp_mono; [apply Hf|]. intros b s' [c' ->]. by exists c'.
Qed.
Lemma quiet_ret {A} (a : A) : quiet (mret a).
Proof using. intros s. apply hwp_ret. apply ctl_same. Qed.
Lemma quiet_gets {A} (f : hd_state C -> A) : quiet (gets f).
Proof using. intros s. apply hwp_gets. apply ctl_same. Qed.
Lemma quiet_printk f l : quiet (printk f l).
Proof using. intros s. apply hwp_printk. apply ctl_same. Qed.
Lemma quiet_panic {A} : quiet (panic (A := A) not_ready).
Proof using. intros s. apply hwp_panic. Qed.
Lemma quiet_when b m : quiet m -> quiet (when b m).
Proof using. intros Hm. destruct b; [done|apply quiet_ret]. Qed.
Lemma quiet_inb_p port : quiet (inb_p port).
Proof using. intros s w. eexists. reflexivity. Qed.
Lemma quiet_outb_p v port : quiet (outb_p v port).
Proof using. intros s w. eexists. reflexivity. Qed.
Lemma quiet_port_read : quiet port_read.
Proof using. intros s w. eexists. reflexivity. Qed.
Lemma quiet_port_write l : quiet (port_write l).
Proof using. intros s w. eexists. reflexivity. Qed.
End driver.

Create HintDb quiet.
#[export] Hint Resolve quiet_bind quiet_ret quiet_gets quiet_printk quiet_panic quiet_when
  quiet_inb_p quiet_outb_p quiet_port_read quiet_port_write : quiet.
#[export] Hint Extern 2 (quiet (if ?b then _ else _)) => destruct b : quiet.
Ltac quiet := auto 30 with quiet.

Section driver.
Context {C : Type} `{Controller C}.
Implicit Types (s : hd_state C).
Lemma quiet_wait_ready n : quiet (wait_ready (C := C) n).
Proof using. induction n as [|n IH]; simpl; quiet. Qed.
Lemma quiet_wait_drive n : quiet (wait_drive (C := C) n).
Proof using. induction n as [|n IH]; simpl; quiet. Qed.
Lemma quiet_wait_drq n : quiet (wait_drq (C := C) n).
Proof using. induction n as [|n IH]; simpl; quiet. Qed.
#[local] Hint Resolve quiet_wait_ready quiet_wait_drive quiet_wait_drq : quiet.
Lemma quiet_win_result : quiet (win_result (C := C)).
Proof using. unfold win_result. quiet. Qed.
Lemma quiet_drive_busy : quiet (drive_busy (C := C)).
Proof using. unfold drive_busy. quiet. Qed.
#[local] Hint Resolve quiet_drive_busy : quiet.
Lemma quiet_reset_controller : quiet (reset_controller (C := C)).
Proof using. unfold reset_controller. quiet. Qed.

(** A command: the handler is set. *)
Definition commanded (f : hd_intr) s s' : Prop := exists c, s' = s <| do_hd := Some f |> <| ctl := c |>.
Lemma hwp_quiet {A} (m : M (hd_state C) A) (Q : A -> hd_state C -> Prop) s : quiet m ->
  (forall a c, Q a (s <| ctl := c |>)) -> hwp m Q s.
Proof using. intros Hm HQ. eapply hwp_mono; [apply Hm|]. intros a s' [c ->]. apply HQ. Qed.
Lemma hwp_hd_out drive nsect sect head cyl cmd f s : drive <= 1 -> head <= 15 ->
  hwp (hd_out drive nsect sect head cyl cmd f) (fun _ => commanded f s) s.
Proof using.
  intros Hd Hh. unfold hd_out. rewrite !(proj2 (Z.ltb_ge _ _)) by lia. cbn [orb].
  apply hwp_bind, hwp_quiet; [apply quiet_wait_ready|]. intros [] c; [|apply hwp_panic].
  cbn [negb]. apply hwp_bind, hwp_modify. apply hwp_quiet; [quiet|]. intros _ c'. by exists c'.
Qed.
Lemma hwp_reset_hd nr s : nr <= 1 -> 1 <= h_head (info_of (hd_info s) nr) <= 16 ->
  hwp (reset_hd nr) (fun _ => commanded recal_intr_fn s) s.
Proof using.
  intros Hn Hh. unfold reset_hd. apply hwp_bind, hwp_quiet; [apply quiet_reset_controller|].
  intros _ c. apply hwp_bind, hwp_gets. eapply hwp_mono.
  - apply hwp_hd_out; [done|]. change (u32 (h_head (info_of (hd_info s) nr) - 1) <= 15).
    rewrite u32_small by lia. lia.
  - intros _ s' [c' ->]. by exists c'.
Qed.

(** ** An error *)

(** What no routine of the driver changes. *)
Definition frame s s' : Prop := hd_info s' = hd_info s /\ NR_HD s' = NR_HD s.
Definition phase0 s : Z := if truth (reset s) then 2 else if truth (recalibrate s) then 1 else 0.
Lemma phase0_range s : 0 <= phase0 s <= 2.
Proof using. unfold phase0. repeat case_match; lia. Qed.
Lemma current_first s i l : disk_queue (hd_k s) (i :: l) -> CURRENT s = Some i.
Proof using. intros [[(Hc & _) _ _ _ _] _]. exact Hc. Qed.
Lemma hwp_end up s i (Q : unit -> hd_state C -> Prop) : CURRENT s = Some i ->
  Q tt (s <| hd_k := ended up i (hd_k s) |>) -> hwp (in_k (end_request 3 up)) Q s.
Proof using.
  intros Hc HQ w. unfold in_k, liftM.
  destruct (end_request_run up i (hd_k s) (World [] (log w)) Hc) as (w' & -> & _). exact HQ.
Qed.
Lemma good_ext k k' l : (forall j, j ∈ l -> req_of k' j = req_of k j) ->
  Forall (good_req k) l -> Forall (good_req k') l.
Proof using.
  intros He Hg. apply Forall_forall. intros j Hj. rewrite Forall_forall in Hg.
  destruct (Hg j Hj). by split; rewrite He.
Qed.
(** The first request is stored to, and ended. *)
Lemma end_progress f up k i l : disk_queue k (i :: l) -> in_place (req_of k i) (f (req_of k i)) ->
  let k' := ended up i (upd_req i f k) in
  progress k (i :: l) k' l /\ weight k' l + 24 <= weight k (i :: l) /\
  rounds k' l + 1 <= rounds k (i :: l).
Proof using.
  intros [Hl [Hg Hgl]%Forall_cons] Hf k'.
  destruct (linked_update f k i l Hl Hf) as (U1 & U2 & U3 & U4).
  destruct (linked_end up i _ l U1) as (E1 & E2 & E3 & E4). fold k' in E1, E2, E3, E4.
  assert (He : forall j, j ∈ l -> req_of k' j = req_of k j) by (intros j Hj; by rewrite E4, U4).
  destruct (weight_ext k k' l He) as [W1 W2]. cbn [weight rounds]. rewrite W1, W2.
  split; [split; [split|by eapply keeps_trans|]|].
  - done.
  - by eapply good_ext.
  - exists [i]. split; [done|]. by apply Forall_singleton.
  - pose proof (gq_errors _ _ Hg). pose proof (gq_sectors _ _ Hg). unfold MAX_ERRORS in *. lia.
Qed.
(** The first request is stored to, and stays. *)
Lemma update_progress f k i l : disk_queue k (i :: l) -> let r := req_of k i in
  in_place r (f r) -> 0 <= r_errors (f r) < MAX_ERRORS -> 0 < r_nr_sectors (f r) < 2 ^ 32 ->
  progress k (i :: l) (upd_req i f k) (i :: l) /\
  weight (upd_req i f k) (i :: l) = weight k (i :: l) -
    ((r_nr_sectors r - r_nr_sectors (f r)) * 8 + (r_errors (f r) - r_errors r)) * 3 /\
  rounds (upd_req i f k) (i :: l) = rounds k (i :: l) - (r_errors (f r) - r_errors r).
Proof using.
  intros [Hl [Hg Hgl]%Forall_cons] r Hf H5 H6.
  destruct (linked_update f k i l Hl Hf) as (U1 & U2 & U3 & U4).
  destruct (weight_ext k (upd_req i f k) l U4) as [W1 W2]. split.
  - split; [split; [done|]|done|by exists []]. apply Forall_cons. split; [|by eapply good_ext].
    destruct Hg, Hf. fold r in gq_dev0, gq_cmd0. split; rewrite U3; fold r; [congruence| |done|done].
    by rewrite ip_cmd0.
  - cbn [weight rounds]. rewrite U3, W1, W2. fold r. lia.
Qed.

Definition after_error s l s' : Prop := exists l', progress (hd_k s) l (hd_k s') l' /\
  weight (hd_k s') l' + 3 <= weight (hd_k s) l /\ rounds (hd_k s') l' + 1 <= rounds (hd_k s) l /\
  frame s s' /\ recalibrate s' = recalibrate s /\ do_hd s' = do_hd s.
Lemma hwp_bad_rw s i l : disk_queue (hd_k s) (i :: l) ->
  hwp bad_rw_intr (fun _ => after_error s (i :: l)) s.
Proof using.
  intros Hq. pose proof (current_first s i l Hq) as Hc. set (r := req_of (hd_k s) i).
  assert (Hr : 0 <= r_errors r < MAX_ERRORS /\ 0 < r_nr_sectors r < 2 ^ 32).
  { destruct Hq as [_ [Hg _]%Forall_cons]. split; apply Hg. }
  unfold bad_rw_intr. apply hwp_bind, hwp_gets.
  assert (Ec : cur_errors s = r_errors r) by (unfold cur_errors; by rewrite Hc). rewrite Ec.
  unfold MAX_ERRORS in *. rewrite s32_small by lia.
  set (f := fun q => q <| r_errors := r_errors r + 1 |>).
  set (s1 := s <| hd_k ::= upd_req i f |>).
  assert (Hlast : forall s2, after_error s (i :: l) s2 ->
    hwp (e ← gets cur_errors ; when (7 / 2 <? e) (modify (fun s => s <| reset := 1 |>)))
      (fun _ => after_error s (i :: l)) s2).
  { intros s2 H2. apply hwp_bind, hwp_gets. destruct (7 / 2 <? cur_errors s2); [|by apply hwp_ret].
    by apply hwp_modify. }
  apply hwp_bind. unfold set_errors. apply hwp_bind, hwp_gets. rewrite Hc. apply hwp_modify.
  apply hwp_bind. change (hwp (when (7 <=? r_errors r + 1) (in_k (end_request 3 0)))
    (fun _ => hwp (e ← gets cur_errors ; when (7 / 2 <? e) (modify (fun s => s <| reset := 1 |>)))
      (fun _ => after_error s (i :: l))) s1).
  assert (Hf : in_place r (f r)) by done.
  destruct (Z.leb_spec 7 (r_errors r + 1)).
  - apply (hwp_end 0 s1 i); [exact Hc|]. apply Hlast. exists l.
    destruct (end_progress f 0 (hd_k s) i l Hq Hf) as (P1 & P2 & P3). split; [exact P1|].
    split; [|by split]. change (weight (ended 0 i (upd_req i f (hd_k s))) l + 3 <= weight (hd_k s) (i :: l)). lia.
  - apply hwp_ret, Hlast. exists (i :: l).
    destruct (update_progress f (hd_k s) i l Hq Hf) as (P1 & P2 & P3).
    { change (0 <= r_errors r + 1 < MAX_ERRORS). unfold MAX_ERRORS. lia. }
    { apply Hr. }
    change (r_nr_sectors (f (req_of (hd_k s) i))) with (r_nr_sectors r) in P2.
    change (r_errors (f (req_of (hd_k s) i))) with (r_errors r + 1) in P2, P3. fold r in P2, P3.
    change (hd_k s1) with (upd_req i f (hd_k s)). split; [exact P1|]. split; [lia|]. split; [lia|]. by split.
Qed.

(** ** A round of the loop *)

(** The parameters that the BIOS gave for the drives that are there. *)
Definition drives s : Prop := 0 <= NR_HD s <= 2 /\ forall d, 0 <= d < NR_HD s ->
  0 < h_sect (info_of (hd_info s) d) /\ 0 < h_head (info_of (hd_info s) d) <= 16.
Lemma drives_frame s s' : frame s s' -> drives s -> drives s'.
Proof using. unfold drives. by intros [-> ->]. Qed.
Lemma frame_trans s1 s2 s3 : frame s1 s2 -> frame s2 s3 -> frame s1 s3.
Proof using. unfold frame. intros [-> ->] [-> ->]. done. Qed.

(** The handler of a command. *)
Definition handler (q : request) : hd_intr := if r_cmd q =? WRITE then write_intr_fn else read_intr_fn.
(** While requests are queued the driver waits for an interrupt, with the handler of the
    first of them or, after a recalibration, [recal_intr]. *)
Definition pending s (l : list nat) : Prop :=
  match l with
  | [] => True
  | i :: _ => reset s = 0 /\ (do_hd s = Some recal_intr_fn \/
      recalibrate s = 0 /\ do_hd s = Some (handler (req_of (hd_k s) i)))
  end.
(** The interrupts that a recalibration still takes. *)
Definition phase s : Z :=
  match do_hd s with
  | Some recal_intr_fn => if truth (recalibrate s) then 2 else 1
  | _ => 0
  end.
Definition mu s (l : list nat) : Z :=
  match l with [] => 0 | _ => weight (hd_k s) l + phase s end.

Definition after_round s l (r : option unit) s' : Prop := exists l',
  progress (hd_k s) l (hd_k s') l' /\ frame s s' /\
  match r with
  | None => weight (hd_k s') l' + phase0 s' <= weight (hd_k s) l + phase0 s /\
            rounds (hd_k s') l' + 1 <= rounds (hd_k s) l
  | Some _ => pending s' l' /\ mu s' l' <= weight (hd_k s) l + phase0 s
  end.
Lemma after_quiet s l i c f : disk_queue (hd_k s) (i :: l) -> reset s = 0 -> recalibrate s = 0 ->
  f = handler (req_of (hd_k s) i) ->
  after_round s (i :: l) (Some tt) (s <| do_hd := Some f |> <| ctl := c |>).
Proof using.
  intros Hq Hr Hc ->. exists (i :: l). split; [by apply progress_refl|]. split; [done|]. split.
  - split; [exact Hr|]. by right.
  - pose proof (phase0_range s). change (weight (hd_k s) (i :: l) + phase (s <| do_hd := Some (handler (req_of (hd_k s) i)) |>)
      <= weight (hd_k s) (i :: l) + phase0 s). unfold phase, handler. simpl. destruct (r_cmd _ =? WRITE); lia.
Qed.
Lemma truth_0 x : truth x = false -> x = 0.
Proof using. unfold truth. intros E. apply negb_false_iff, Z.eqb_eq in E. done. Qed.

Lemma upd_req_id i k : upd_req i (fun q => q) k = k.
Proof using. destruct k. unfold upd_req. simpl. f_equal. by apply list_alter_id. Qed.
(** The first request is ended as it is. *)
Lemma after_end s i l : disk_queue (hd_k s) (i :: l) ->
  after_round s (i :: l) None (s <| hd_k := ended 0 i (hd_k s) |>).
Proof using.
  intros Hq. destruct (end_progress (fun q => q) 0 (hd_k s) i l Hq) as (P1 & P2 & P3); [done|].
  rewrite upd_req_id in *. exists l. split; [exact P1|]. split; [done|]. split; [|exact P3].
  change (weight (ended 0 i (hd_k s)) l + phase0 s <= weight (hd_k s) (i :: l) + phase0 s). lia.
Qed.
(** An error in a write that the controller does not ask data for. *)
Lemma after_error_round s s' l : frame s s' -> hd_k s' = hd_k s ->
  forall s2, after_error s' l s2 -> after_round s l None s2.
Proof using.
  intros Hf Hk s2 (l' & P & W & R & F & _). rewrite Hk in *. exists l'. split; [done|].
  split; [by eapply frame_trans|]. split; [|done].
  pose proof (phase0_range s). pose proof (phase0_range s2). lia.
Qed.

(** From the checks of [do_hd_request] on. *)
Definition hd_command s (i : nat) (drive sec head cyl : Z) : M (hd_state C) (option unit) :=
  let r := req_of (hd_k s) i in
  if truth (reset s) then
    modify (fun s => s <| reset := 0 |> <| recalibrate := 1 |>) ;;
    reset_hd drive ;; mret (Some tt)
  else if truth (recalibrate s) then
    modify (fun s => s <| recalibrate := 0 |>) ;;
    hd_out drive (h_sect (info_of (hd_info s) drive)) 0 0 0 WIN_RESTORE recal_intr_fn ;; mret (Some tt)
  else if r_cmd r =? WRITE then
    hd_out drive (r_nr_sectors r) sec head cyl WIN_WRITE write_intr_fn ;;
    ok ← wait_drq DRQ_TRIES ;
    if negb (ok : bool) then bad_rw_intr ;; mret None
    else port_write (half_block (hd_k s) r) ;; mret (Some tt)
  else if r_cmd r =? READ then
    hd_out drive (r_nr_sectors r) sec head cyl WIN_READ read_intr_fn ;; mret (Some tt)
  else panic "unknown hd-command".
Lemma hwp_hd_command s i l drive sec head cyl : disk_queue (hd_k s) (i :: l) -> 
  drive <= 1 -> 0 < h_head (info_of (hd_info s) drive) <= 16 -> head <= 15 ->
  hwp (hd_command s i drive sec head cyl) (after_round s (i :: l)) s.
Proof using.
  intros Hq Hdr Hh Hhead. unfold hd_command. pose proof (phase0_range s) as Hp0.
  destruct (truth (reset s)) eqn:Er.
  { apply hwp_bind, hwp_modify, hwp_bind. eapply hwp_mono; [apply hwp_reset_hd; [done|simpl; lia]|].
    intros _ s' [c ->]. apply hwp_ret. exists (i :: l). split; [by apply progress_refl|]. split; [done|].
    split; [split; [done|by left]|]. unfold phase0. rewrite Er. done. }
  apply truth_0 in Er. destruct (truth (recalibrate s)) eqn:Ec.
  { apply hwp_bind, hwp_modify, hwp_bind. eapply hwp_mono; [apply hwp_hd_out; [done|lia]|].
    intros _ s' [c ->]. apply hwp_ret. exists (i :: l). split; [by apply progress_refl|]. split; [done|].
    split; [split; [exact Er|by left]|]. unfold phase0. rewrite Er, Ec. done. }
  apply truth_0 in Ec. destruct (r_cmd (req_of (hd_k s) i) =? WRITE) eqn:Ew.
  { apply hwp_bind. eapply hwp_mono; [by apply hwp_hd_out|]. intros _ s' [c ->].
    apply hwp_bind, hwp_quiet; [apply quiet_wait_drq|]. intros [] c'; cbn [negb].
    - apply hwp_bind, hwp_quiet; [apply quiet_port_write|]. intros _ c2. apply hwp_ret.
      apply (after_quiet s l i c2 write_intr_fn); [done..|]. unfold handler. by rewrite Ew.
    - apply hwp_bind. match goal with |- hwp _ _ ?x => set (s3 := x) end.
      eapply hwp_mono; [exact (hwp_bad_rw s3 i l Hq)|]. intros a2 s2 H2. apply hwp_ret.
      by eapply (after_error_round s s3). }
  replace (r_cmd (req_of (hd_k s) i) =? READ) with true.
  2:{ destruct Hq as [_ [Hg _]%Forall_cons]. apply Z.eqb_neq in Ew. destruct (gq_cmd _ _ Hg) as [-> | ?]; [done|].
      contradiction. }
  apply hwp_bind. eapply hwp_mono; [by apply hwp_hd_out|]. intros _ s' [c ->]. apply hwp_ret.
  apply after_quiet; [done..|]. unfold handler. by rewrite Ew.
Qed.

Lemma hwp_hd_step s l : disk_queue (hd_k s) l -> drives s -> hwp hd_step (after_round s l) s.
Proof using.
  intros Hq [Hn Hd]. unfold hd_step. apply hwp_bind, hwp_get. destruct l as [|i l].
  { pose proof Hq as [[Hc _ _ _ _] _]. unfold CURRENT. simpl in Hc. rewrite Hc. apply hwp_ret.
    exists []. split; [by apply progress_refl|]. split; [done|]. split; [done|].
    pose proof (phase0_range s). simpl. lia. }
  rewrite (current_first s i l Hq). cbv zeta.
  pose proof Hq as [[_ _ [Hlk _]%Forall_cons _ _] [Hg _]%Forall_cons].
  rewrite (gq_dev _ _ Hg), Z.eqb_refl. cbn [negb].
  replace (match r_bh (req_of (hd_k s) i) with
           | Some b => negb (truth (b_lock (bh_of (hd_k s) b)))
           | None => false
           end) with false.
  2:{ destruct (r_bh (req_of (hd_k s) i)) as [b|] eqn:E; [|done]. destruct (Hlk b E) as [_ Hb].
      unfold truth. by rewrite (proj2 (Z.eqb_neq _ _) Hb). }
  destruct ((5 * NR_HD s <=? MINOR (r_dev (req_of (hd_k s) i))) || _) eqn:E.
  { apply hwp_bind, (hwp_end 0 s i); [by apply (current_first s i l)|]. apply hwp_ret. by apply after_end. }
  apply orb_false_iff in E as [E _]. apply Z.leb_gt in E. 
  assert (Hm : 0 <= MINOR (r_dev (req_of (hd_k s) i))) by (unfold MINOR; rewrite land_ff; zlia).
  set (drive := MINOR (r_dev (req_of (hd_k s) i)) / 5).
  assert (Hdr : 0 <= drive < NR_HD s) by (unfold drive; zlia).
  destruct (Hd drive Hdr) as [Hs Hh].
  rewrite !(proj2 (Z.eqb_neq _ _)) by lia. cbn [orb].
  unfold chs. apply hwp_hd_command; [done|lia|done|].
  match goal with |- ?x mod ?y <= _ => pose proof (Z.mod_pos_bound x y) end. lia.
Qed.

(** ** The loop of [do_hd_request], and the interrupts *)

Definition settled s l (n : Z) s' : Prop := exists l',
  progress (hd_k s) l (hd_k s') l' /\ frame s s' /\ pending s' l' /\ mu s' l' <= n.
Lemma settled_trans s l n s1 l1 s2 : progress (hd_k s) l (hd_k s1) l1 -> frame s s1 ->
  settled s1 l1 n s2 -> settled s l n s2.
Proof using.
  intros Hp Hf (l' & P & F & E & N). exists l'. split; [by eapply progress_trans|].
  split; [by eapply frame_trans|]. done.
Qed.
Lemma settled_le s l n n' s' : n <= n' -> settled s l n s' -> settled s l n' s'.
Proof using. intros Hn (l' & P & F & E & N). exists l'. split; [done|]. split; [done|]. split; [done|]. lia. Qed.

Lemma hwp_hd_loop n : forall s l, disk_queue (hd_k s) l -> drives s -> rounds (hd_k s) l < Z.of_nat n ->
  hwp (repeat_until n hd_step) (fun _ => settled s l (weight (hd_k s) l + phase0 s)) s.
Proof using.
  induction n as [|n IH]; intros s l Hq Hd Hr.
  { pose proof (weight_nonneg (hd_k s) l (proj2 Hq)). lia. }
  cbn [repeat_until]. apply hwp_bind. eapply hwp_mono; [by apply hwp_hd_step|].
  intros [[]|] s1 (l1 & P & F & H1).
  - apply hwp_ret. destruct H1 as [H1 H2]. by exists l1.
  - destruct H1 as [H1 H2]. eapply hwp_mono.
    + apply (IH s1 l1); [apply P|by eapply drives_frame|lia].
    + intros a s2 H3. eapply settled_le; [exact H1|]. by eapply settled_trans.
Qed.
Lemma hwp_do_hd_request s l : disk_queue (hd_k s) l -> drives s ->
  hwp do_hd_request (fun _ => settled s l (weight (hd_k s) l + phase0 s)) s.
Proof using. intros Hq Hd. apply hwp_hd_loop; [done|done|]. by apply rounds_fuel. Qed.
(** The queue is taken up again. *)
Lemma hwp_resume s l n s1 l1 : progress (hd_k s) l (hd_k s1) l1 -> frame s s1 -> drives s ->
  weight (hd_k s1) l1 + phase0 s1 <= n -> hwp do_hd_request (fun _ => settled s l n) s1.
Proof using.
  intros Hp Hf Hd Hn. eapply hwp_mono; [apply hwp_do_hd_request; [apply Hp|by eapply drives_frame]|].
  intros a s2 H2. eapply settled_le; [exact Hn|]. by eapply settled_trans.
Qed.
Lemma hwp_error_resume s i l s1 : disk_queue (hd_k s) (i :: l) -> drives s -> frame s s1 ->
  hd_k s1 = hd_k s ->
  hwp (bad_rw_intr ;; do_hd_request) (fun _ => settled s (i :: l) (weight (hd_k s) (i :: l) - 1)) s1.
Proof using.
  intros Hq Hd Hf Hk. rewrite <- Hk in Hq. apply hwp_bind.
  eapply hwp_mono; [exact (hwp_bad_rw s1 i l Hq)|]. intros a s2 (l2 & P & W & _ & F & _).
  rewrite Hk in P, W. apply (hwp_resume s _ _ s2 l2); [done|by eapply frame_trans|done|].
  pose proof (phase0_range s2). lia.
Qed.
(** A sector is done, and more are left. *)
Lemma sector_more s s1 i l f k : progress (hd_k s) (i :: l) k (i :: l) ->
  weight k (i :: l) = weight (hd_k s) (i :: l) -> let r := req_of k i in
  in_place r (f r) -> 0 <= r_errors (f r) < MAX_ERRORS -> r_nr_sectors (f r) = r_nr_sectors r - 1 ->
  r_nr_sectors (f r) <> 0 ->
  frame s s1 -> reset s1 = 0 -> recalibrate s1 = 0 -> do_hd s1 = Some (handler r) ->
  hd_k s1 = upd_req i f k -> settled s (i :: l) (weight (hd_k s) (i :: l) - 1) s1.
Proof using.
  intros Hp Hw r Hip He Hn Hn0 Hf Hr Hc Hh Hk. pose proof (pr_queue _ _ _ _ Hp) as Hq.
  pose proof Hq as [Hl [Hg _]%Forall_cons]. pose proof (gq_sectors _ _ Hg) as Hs. 
  pose proof (gq_errors _ _ Hg) as Hse. fold r in Hs, Hse. unfold MAX_ERRORS in *.
  destruct (update_progress f k i l Hq Hip He ltac:(fold r; lia)) as (P & W & _). fold r in W.
  destruct (linked_update f k i l Hl Hip) as (_ & _ & Hreq & _). fold r in Hreq.
  exists (i :: l). rewrite Hk. split; [by eapply progress_trans|]. split; [done|]. split.
  - split; [done|]. right. split; [done|]. rewrite Hk, Hreq, Hh. unfold handler. by rewrite (ip_cmd _ _ Hip).
  - unfold mu. rewrite Hk, W, Hw. unfold phase. rewrite Hh. unfold handler. destruct (r_cmd r =? WRITE); lia.
Qed.
(** The last sector is done. *)
Lemma sector_last s s1 i l f k : progress (hd_k s) (i :: l) k (i :: l) ->
  weight k (i :: l) = weight (hd_k s) (i :: l) -> in_place (req_of k i) (f (req_of k i)) ->
  drives s -> frame s s1 -> hd_k s1 = upd_req i f k ->
  hwp (in_k (end_request 3 1) ;; do_hd_request)
    (fun _ => settled s (i :: l) (weight (hd_k s) (i :: l) - 1)) s1.
Proof using.
  intros Hp Hw Hip Hd Hf Hk. pose proof (pr_queue _ _ _ _ Hp) as Hq.
  destruct (linked_update f k i l (proj1 Hq) Hip) as (Hl & _).
  apply hwp_bind, (hwp_end 1 s1 i); [unfold CURRENT; rewrite Hk; apply Hl|]. rewrite Hk.
  destruct (end_progress f 1 k i l Hq Hip) as (P & W & _).
  eapply (hwp_resume s); [eapply progress_trans; [exact Hp|exact P]|exact Hf|done|].
  match goal with |- context [phase0 ?x] => pose proof (phase0_range x) end. rewrite Hw in W.
  change (hd_k (s1 <| hd_k := ended 1 i (upd_req i f k) |>)) with (ended 1 i (upd_req i f k)). lia.
Qed.

Lemma hwp_read_intr s i l : disk_queue (hd_k s) (i :: l) -> drives s -> reset s = 0 ->
  recalibrate s = 0 -> handler (req_of (hd_k s) i) = read_intr_fn ->
  hwp read_intr (fun _ => settled s (i :: l) (weight (hd_k s) (i :: l) - 1)) s.
Proof using.
  intros Hq Hd Hr Hc Hh. unfold read_intr. apply hwp_bind, hwp_quiet; [apply quiet_win_result|].
  intros [] c; [by apply hwp_error_resume|].
  apply hwp_bind, hwp_quiet; [apply quiet_port_read|]. intros data c'.
  match goal with |- hwp _ _ ?x => set (s1 := x) end. apply hwp_bind, hwp_get.
  replace (CURRENT s1) with (Some i) by (symmetry; by apply (current_first s i l)). cbv zeta.
  pose proof Hq as [_ [Hg _]%Forall_cons]. pose proof (gq_sectors _ _ Hg) as Hs.
  set (r := req_of (hd_k s) i). fold r in Hs, Hh. change (req_of (hd_k s1) i) with r.
  destruct (queue_data (r_buffer r) (put_at (Z.to_nat (r_offset r)) data) (hd_k s) _ Hq) as [Q K].
  set (k := upd_bh (r_buffer r) (fun b => b <| b_data ::= put_at (Z.to_nat (r_offset r)) data |>) (hd_k s)) in *.
  assert (P : progress (hd_k s) (i :: l) k (i :: l)) by (split; [done|done|by exists []]).
  destruct (weight_ext (hd_k s) k (i :: l)) as [W _]; [done|].
  apply hwp_bind, hwp_modify, hwp_bind, hwp_modify, hwp_bind, hwp_gets.
  set (f := fun q => next_sector (q <| r_errors := 0 |>)).
  assert (Hf : r_nr_sectors (f r) = r_nr_sectors r - 1).
  { change (u32 (r_nr_sectors r - 1) = r_nr_sectors r - 1). apply u32_small. lia. }
  match goal with |- hwp _ _ ?x => set (s2 := x) end.
  assert (Hn : r_nr_sectors (req_of (hd_k s2) i) = r_nr_sectors r - 1).
  { rewrite <- Hf. destruct (linked_update f k i l (proj1 Q)) as (_ & _ & E & _); [done|].
    change (hd_k s2) with (upd_req i f k). by rewrite E. }
  rewrite Hn. unfold truth. destruct (Z.eqb_spec (r_nr_sectors r - 1) 0) as [E | E]; cbn [negb].
  - by apply (sector_last s s2 i l f k).
  - apply hwp_modify. apply (sector_more s _ i l f k); try done.
    + fold r. change (r_nr_sectors (f r) <> 0). lia.
    + change (Some read_intr_fn = Some (handler r)). by rewrite Hh.
Qed.
Lemma hwp_write_intr s i l : disk_queue (hd_k s) (i :: l) -> drives s -> reset s = 0 ->
  recalibrate s = 0 -> handler (req_of (hd_k s) i) = write_intr_fn ->
  hwp write_intr (fun _ => settled s (i :: l) (weight (hd_k s) (i :: l) - 1)) s.
Proof using.
  intros Hq Hd Hr Hc Hh. unfold write_intr. apply hwp_bind, hwp_quiet; [apply quiet_win_result|].
  intros [] c; [by apply hwp_error_resume|]. apply hwp_bind, hwp_get.
  match goal with |- hwp _ _ ?x => set (s1 := x) end.
  replace (CURRENT s1) with (Some i) by (symmetry; by apply (current_first s i l)). cbv zeta.
  pose proof Hq as [_ [Hg _]%Forall_cons]. pose proof (gq_sectors _ _ Hg) as Hs.
  set (r := req_of (hd_k s) i). fold r in Hs, Hh. change (req_of (hd_k s1) i) with r.
  assert (P : progress (hd_k s) (i :: l) (hd_k s) (i :: l)) by by apply progress_refl.
  assert (E : u32 (r_nr_sectors r - 1) = r_nr_sectors r - 1) by (apply u32_small; lia).
  rewrite E. unfold truth. destruct (Z.eqb_spec (r_nr_sectors r - 1) 0) as [E0 | E0]; cbn [negb].
  - apply hwp_bind, hwp_modify.
    by apply (sector_last s _ i l (fun q => q <| r_nr_sectors := r_nr_sectors r - 1 |>) (hd_k s)).
  - apply hwp_bind, hwp_modify, hwp_bind, hwp_modify, hwp_bind, hwp_get.
    apply hwp_quiet; [apply quiet_port_write|]. intros a c'.
    apply (sector_more s _ i l next_sector (hd_k s)); try done.
    + apply (gq_errors _ _ Hg).
    + fold r. change (u32 (r_nr_sectors r - 1) <> 0). lia.
    + change (Some write_intr_fn = Some (handler r)). by rewrite Hh.
Qed.
Lemma hwp_recal_intr s i l : disk_queue (hd_k s) (i :: l) -> drives s -> reset s = 0 ->
  hwp recal_intr (fun _ => settled s (i :: l)
    (weight (hd_k s) (i :: l) + if truth (recalibrate s) then 1 else 0)) s.
Proof using.
  intros Hq Hd Hr. unfold recal_intr. apply hwp_bind, hwp_quiet; [apply quiet_win_result|].
  intros [] c; unfold when.
  - eapply hwp_mono; [apply (hwp_error_resume s i l); done|]. intros a s2 H2. refine (settled_le s _ _ _ s2 _ H2).
    destruct (truth _); lia.
  - apply hwp_bind, hwp_ret. eapply hwp_resume; [by apply progress_refl|done|done|].
    unfold phase0. simpl. rewrite Hr. simpl. destruct (truth _); lia.
Qed.

(** An interrupt of the disk brings the queue nearer to its end. *)
Lemma hwp_hd_interrupt s i l : disk_queue (hd_k s) (i :: l) -> drives s -> pending s (i :: l) ->
  hwp hd_interrupt (fun _ => settled s (i :: l) (mu s (i :: l) - 1)) s.
Proof using.
  intros Hq Hd [Hr Hp]. unfold hd_interrupt. apply hwp_bind, hwp_gets, hwp_bind, hwp_modify.
  match goal with |- hwp _ _ ?x => set (s1 := x) end.
  unfold mu, phase. destruct Hp as [-> | [Hc ->]].
  - eapply hwp_mono; [apply (hwp_recal_intr s1 i l); done|]. intros a s2 H2. refine (settled_le s _ _ _ s2 _ H2).
    change (recalibrate s1) with (recalibrate s). change (hd_k s1) with (hd_k s). destruct (truth _); lia.
  - destruct (handler (req_of (hd_k s) i)) eqn:E.
    + eapply hwp_mono; [apply (hwp_read_intr s1 i l); done|]. intros a s2 H2. refine (settled_le s _ _ _ s2 _ H2).
      change (hd_k s1) with (hd_k s). lia.
    + eapply hwp_mono; [apply (hwp_write_intr s1 i l); done|]. intros a s2 H2. refine (settled_le s _ _ _ s2 _ H2).
      change (hd_k s1) with (hd_k s). lia.
    + unfold handler in E. by destruct (_ =? _) in E.
Qed.

(** At most [n] interrupts, while requests are queued. *)
Fixpoint interrupts (n : nat) : M (hd_state C) unit :=
  match n with
  | O => mret tt
  | S n' => c ← gets CURRENT ;
            match c with
            | Some _ => hd_interrupt ;; interrupts n'
            | None => mret tt
            end
  end.
Definition all_done s (l : list nat) s' : Prop :=
  disk_queue (hd_k s') [] /\ keeps (hd_k s) (hd_k s') /\ Forall (finished (hd_k s')) l.
Lemma hwp_interrupts n : forall s l, disk_queue (hd_k s) l -> drives s -> pending s l ->
  mu s l <= Z.of_nat n -> hwp (interrupts n) (fun _ => all_done s l) s.
Proof using.
  assert (Hnil : forall s, disk_queue (hd_k s) [] -> all_done s [] s)
    by (intros s Hq; split; [done|split; [apply keeps_refl|done]]).
  induction n as [|n IH]; intros s l Hq Hd Hp Hn.
  - apply hwp_ret. destruct l as [|i l]; [by apply Hnil|]. exfalso.
    pose proof Hq as [_ Hg]. pose proof Hg as [Hi Hgl]%Forall_cons. pose proof (weight_nonneg _ _ Hgl).
    pose proof (gq_sectors _ _ Hi). pose proof (gq_errors _ _ Hi). unfold MAX_ERRORS in *.
    assert (0 <= phase s) by (unfold phase; repeat case_match; lia). unfold mu in Hn. cbn [weight] in Hn. lia.
  - cbn [interrupts]. apply hwp_bind, hwp_gets. destruct l as [|i l].
    { pose proof Hq as [[Hc ? ? ? ?] ?]. unfold CURRENT. simpl in Hc. rewrite Hc. apply hwp_ret.
      apply Hnil. done. }
    rewrite (current_first s i l Hq). apply hwp_bind.
    eapply hwp_mono; [by apply (hwp_hd_interrupt s i l)|]. intros a s1 (l1 & P & F & Hp1 & N).
    eapply hwp_mono; [apply (IH s1 l1); [apply P|by eapply drives_frame|done|lia]|].
    intros b s2 (Q & K & Fin). split; [done|]. split; [eapply keeps_trans; [apply P|done]|].
    destruct P as [_ _ (d & -> & Hfd)]. apply Forall_app. split; [|done].
    eapply Forall_impl; [exact Hfd|]. intros j. by apply finished_keeps.
Qed.

(** C17. kernel/blk_drv/hd.c do_hd_request, read_intr, write_intr, recal_intr, bad_rw_intr: once
    started, with any controller, the driver finishes every request of its queue within a
    number of interrupts that is bounded by its sectors: each slot is free again, its buffer
    unlocked, and the queue empty; or it panics since the controller stays busy. *)
Theorem hd_requests_finish s l (w : world (hd_state C)) : disk_queue (hd_k s) l -> drives s ->
  match (do_hd_request ;; interrupts (Z.to_nat (weight (hd_k s) l + 2))) s w with
  | Ret _ s' _ => CURRENT s' = None /\ Forall (finished (hd_k s')) l
  | Panicked msg _ => msg = "HD controller not ready"%string
  | _ => False
  end.
Proof using.
  intros Hq Hd. set (n := Z.to_nat _).
  assert (Hw : hwp (do_hd_request ;; interrupts n) (fun _ => all_done s l) s).
  { apply hwp_bind. eapply hwp_mono; [by apply hwp_do_hd_request|]. intros a s1 (l1 & P & F & Hp & N).
    pose proof (phase0_range s). pose proof (weight_nonneg _ _ (proj2 Hq)).
    eapply hwp_mono; [apply (hwp_interrupts n s1 l1); [apply P|by eapply drives_frame|done|lia]|].
    intros b s2 (Q & K & Fin). split; [done|]. split; [eapply keeps_trans; [apply P|done]|].
    destruct P as [_ _ (d & -> & Hfd)]. apply Forall_app. split; [|done].
    eapply Forall_impl; [exact Hfd|]. intros j. by apply finished_keeps. }
  specialize (Hw w). destruct ((do_hd_request ≫= fun _ => interrupts n) s w) as [a s' w'|msg s'|c s'|s'|]; try done.
  destruct Hw as ([[Hc _ _ _ _] _] & _ & Hf). split; [exact Hc|exact Hf].
Qed.
End driver.

(** A controller that is always ready and whose sectors are numbered from 1 in the order in
    which they are read. *)
#[local] Instance counting_controller : Controller Z := {
  inb _ c := (0x58, c);
  outb _ _ c := c;
  insw c := (fun _ => c + 1, c + 1);
  outsw _ c := c;
}.
Definition locked_buffer : buffer_head := sample_buffer 7 0 0 (repeat 0 1024) <| b_lock := 1 |>.
Definition disk_sample : hd_state Z := Hd
  (rd_sample <| blk_dev := [BlkDev None None; BlkDev None None; BlkDev None None;
                            BlkDev (Some do_hd_request_fn) (Some 1%nat)] |>
     <| buffers := [locked_buffer; locked_buffer] |>
     <| requests := [Request 0x301 READ 0 14 2 1 0 (Some 1%nat) None;
                     Request 0x301 READ 6 10 2 0 0 (Some 0%nat) (Some 0%nat)] ++
                    repeat free_request 30 |>)
  [HdInfo 4 17 306 128 0 8; no_info] ([HdPart 0 20808; HdPart 1 1000] ++ repeat (HdPart 0 0) 8)
  1 0 1 None 0.
Lemma hd_requests_finish_witness :
  match (do_hd_request ;; interrupts (Z.to_nat (weight (hd_k disk_sample) [1; 0]%nat + 2)))
          disk_sample (World [] []) with
  | Ret _ s' _ => CURRENT s' = None /\ Forall (finished (hd_k s')) [1; 0]%nat
  | Panicked msg _ => msg = "HD controller not ready"%string
  | _ => False
  end.
Proof.
  apply hd_requests_finish.
  - split; [split|].
    + simpl. repeat split; lia.
    + apply (bool_decide_unpack _). vm_compute. exact I.
    + constructor; [|constructor; [|constructor]]; intros b Hb; simpl in Hb; injection Hb as <-;
        (split; [vm_compute; lia|done]).
    + apply (bool_decide_unpack _). vm_compute. exact I.
    + split; [reflexivity|simpl; lia].
    + constructor; [|constructor; [|constructor]]; (split; [done|by left|done|done]).
  - split; [simpl; lia|]. intros d Hd. assert (d = 0) as -> by (simpl in Hd; lia). simpl. lia.
Defined.
(** The reset, the recalibration and the reads, run: sector after sector. *)
Example disk_sample_run :
  match (do_hd_request ;; interrupts 20) disk_sample (World [] []) with
  | Ret _ s' _ => (fun i => b_data (bh_of (hd_k s') i)) <$> [0; 1]%nat =
      [repeat 1 512 ++ repeat 2 512; repeat 3 512 ++ repeat 4 512]
  | _ => False
  end.
Proof. vm_compute. reflexivity. Qed.
