(* ===== verification/Floppy.v ===== *)
(** The floppy driver, kernel/blk_drv/floppy.c with include/linux/fdreg.h.

    What is behind the ports is a [Controller], as for the hard disk.  The driver runs from
    interrupts ([floppy_interrupt]) and from the timers that it sets ([timer_call]): a timer
    of [Sched] names its function by a number.  [do_fd_request] and the routines it calls
    call each other; they are defined over the inner call, [again], and tied by fuel: a
    call from within only resets the controller ([do_fd_depth]). *)
From S2P Require Import Prelude Sched Mm Kernel Blk Hd.

(** include/linux/fdreg.h:16-16 [FD_STATUS] *)
Definition FD_STATUS : Z := 0x3f4.
(** include/linux/fdreg.h:17-17 [FD_DATA] *)
Definition FD_DATA : Z := 0x3f5.
(** include/linux/fdreg.h:18-18 [FD_DOR] *)
Definition FD_DOR : Z := 0x3f2.
(** include/linux/fdreg.h:19-19 [FD_DIR] *)
Definition FD_DIR : Z := 0x3f7.
(** include/linux/fdreg.h:20-20 [FD_DCR] *)
Definition FD_DCR : Z := 0x3f7.
(** include/linux/fdreg.h:24-24 [STATUS_BUSY] *)
Definition STATUS_BUSY : Z := 0x10.
(** include/linux/fdreg.h:26-26 [STATUS_DIR] *)
Definition STATUS_DIR : Z := 0x40.
(** include/linux/fdreg.h:27-27 [STATUS_READY] *)
Definition STATUS_READY : Z := 0x80.
(** include/linux/fdreg.h:60-60 [FD_RECALIBRATE] *)
Definition FD_RECALIBRATE : Z := 0x07.
(** include/linux/fdreg.h:61-61 [FD_SEEK] *)
Definition FD_SEEK : Z := 0x0F.
(** include/linux/fdreg.h:62-62 [FD_READ] *)
Definition FD_READ : Z := 0xE6.
(** include/linux/fdreg.h:63-63 [FD_WRITE] *)
Definition FD_WRITE : Z := 0xC5.
(** include/linux/fdreg.h:64-64 [FD_SENSEI] *)
Definition FD_SENSEI : Z := 0x08.
(** include/linux/fdreg.h:65-65 [FD_SPECIFY] *)
Definition FD_SPECIFY : Z := 0x03.
(** include/linux/fdreg.h:68-68 [DMA_READ] *)
Definition DMA_READ : Z := 0x46.
(** include/linux/fdreg.h:69-69 [DMA_WRITE] *)
Definition DMA_WRITE : Z := 0x4A.
(** kernel/blk_drv/floppy.c:60-60 [MAX_ERRORS] *)
Definition FD_MAX_ERRORS : Z := 8.
(** kernel/blk_drv/floppy.c:65-65 [MAX_REPLIES] *)
Definition MAX_REPLIES : nat := 7.

(** kernel/blk_drv/floppy.c:82-85 [floppy_struct] *)
Record floppy_struct : Type := FloppyType {
  f_size : Z; f_sect : Z; f_head : Z; f_track : Z; f_stretch : Z;
  f_gap : Z; f_rate : Z; f_spec1 : Z;
}.
(** kernel/blk_drv/floppy.c:85-94 [floppy_type] *)
Definition floppy_type : list floppy_struct := [
  FloppyType 0 0 0 0 0 0x00 0x00 0x00;
  FloppyType 720 9 2 40 0 0x2A 0x02 0xDF;
  FloppyType 2400 15 2 80 0 0x1B 0x00 0xDF;
  FloppyType 720 9 2 40 1 0x2A 0x02 0xDF;
  FloppyType 1440 9 2 80 0 0x2A 0x02 0xDF;
  FloppyType 720 9 2 40 1 0x23 0x01 0xDF;
  FloppyType 1440 9 2 80 0 0x23 0x01 0xDF;
  FloppyType 2880 18 2 80 0 0x1B 0x00 0xCF ].

(** The handlers that [do_floppy] may point to, and the functions of the driver's timers. *)
Inductive fd_intr : Type := rw_interrupt_fn | seek_interrupt_fn | recal_interrupt_fn | reset_interrupt_fn.
Definition transfer_fn : Z := 1.
Definition floppy_on_interrupt_fn : Z := 2.

(** kernel/blk_drv/floppy.c:44-121 [recalibrate]: the statics of the driver, [do_floppy] of
    blk.h, the bounce buffer and what is behind the ports; [selected] and the queue of those
    who wait for it are with the motors in [Sched] *)
Record fd_state (C : Type) : Type := Fd {
  fd_k : K;
  recalibrate : Z; reset : Z; seek : Z;
  reply_buffer : list Z;
  cur_spec1 : Z; cur_rate : Z;
  floppy : nat;                         (* the index in [floppy_type] *)
  current_drive : Z; sector : Z; head : Z; track : Z; seek_track : Z; current_track : Z;
  command : Z;
  do_floppy : option fd_intr;
  tmp_floppy_area : list Z;
  ctl : C;
}.
Arguments Fd {C} _ _ _ _ _ _ _ _ _ _ _ _ _ _ _ _ _ _.
Arguments fd_k {C} _.
Arguments recalibrate {C} _.
Arguments reset {C} _.
Arguments seek {C} _.
Arguments reply_buffer {C} _.
Arguments cur_spec1 {C} _.
Arguments cur_rate {C} _.
Arguments floppy {C} _.
Arguments current_drive {C} _.
Arguments sector {C} _.
Arguments head {C} _.
Arguments track {C} _.
Arguments seek_track {C} _.
Arguments current_track {C} _.
Arguments command {C} _.
Arguments do_floppy {C} _.
Arguments tmp_floppy_area {C} _.
Arguments ctl {C} _.
#[global] Instance eta_fd C : Eta (fd_state C) := fun s =>
  Fd (fd_k s) (recalibrate s) (reset s) (seek s) (reply_buffer s) (cur_spec1 s) (cur_rate s)
    (floppy s) (current_drive s) (sector s) (head s) (track s) (seek_track s) (current_track s)
    (command s) (do_floppy s) (tmp_floppy_area s) (ctl s).

Section floppy.
Context {C : Type} `{Controller C}.
Implicit Types (s : fd_state C).
(** Where the block of a buffer and [tmp_floppy_area] are in memory, and what the kernel's
    memory holds behind the table of the types, which a device number may ask for. *)
Context (buffer_addr : nat -> Z) (tmp_addr : Z) (beyond : nat -> floppy_struct).
#[local] Abbreviation D := (M (fd_state C)).

Definition in_k {A} (m : M K A) : D A := liftM fd_k (fun k s => s <| fd_k := k |>) m.
Definition inb_p (port : Z) : D Z :=
  r ← gets (fun s => inb port (ctl s)) ;
  modify (fun s => s <| ctl := r.2 |>) ;;
  mret (u8 r.1).
Definition outb_p (value port : Z) : D unit := modify (fun s => s <| ctl ::= outb (u8 value) port |>).
Definition fd_sched s : sched := k_sched (fd_k s).
Definition type_of s : floppy_struct :=
  match floppy_type !! floppy s with Some t => t | None => beyond (floppy s) end.
Definition reply s (i : nat) : Z := nth i (reply_buffer s) 0.
Definition CURRENT s : option nat := bd_current_request (dev_of (fd_k s) 2).

(** ** Selecting a drive *)

(** kernel/blk_drv/floppy.c:125-131 [floppy_deselect] *)
Definition floppy_deselect (nr : Z) : D unit :=
  s ← get ;
  when (negb (nr =? current_DOR (fd_sched s) .& 3)) (printk "floppy_deselect: drive not selected" []) ;;
  in_k (in_sched (modify (fun c => c <| selected := 0 |>))) ;;
  wake_up_q WFloppySelect.

(** kernel/sched.c:200-206 [floppy_on], where the other tasks work on the driver's state too;
    every round but the last has slept *)
Definition floppy_on (nr : nat) : D unit := fun s w =>
  repeat_until (S (length (script w)))
    (t ← in_k (in_sched (ticks_to_floppy_on nr)) ;
     if truth t then sleep_on_q (WMotor nr) ;; mret None else mret (Some tt)) s w.
(** include/linux/fdreg.h:11-11 [floppy_off] *)
Definition floppy_off (nr : nat) : D unit := in_k (in_sched (Sched.floppy_off nr)).

(** kernel/blk_drv/floppy.c:139-153 [floppy_change]: a round has slept when another is
    needed *)
Definition floppy_change (nr : nat) : D Z := fun s w =>
  repeat_until (S (length (script w)))
    (floppy_on nr ;;
     let wrong s := negb (current_DOR (fd_sched s) .& 3 =? Z.of_nat nr) in
     sleep_while (fun s => wrong s && truth (selected (fd_sched s))) WFloppySelect ;;
     s ← get ;
     if wrong s then mret None else
     v ← inb_p FD_DIR ;
     floppy_off nr ;;
     mret (Some (if truth (v .& 0x80) then 1 else 0))) s w.

(** ** The controller *)

Definition cur_buffer s : option request :=
  match CURRENT s with Some i => Some (req_of (fd_k s) i) | None => None end.
Definition addr_of (r : request) : Z := buffer_addr (r_buffer r) + r_offset r.
Definition block_of s (r : request) : list Z :=
  take 1024 (drop (Z.to_nat (r_offset r)) (b_data (bh_of (fd_k s) (r_buffer r)))).
(** kernel/blk_drv/floppy.c:160-192 [setup_DMA]; there is a current request *)
Definition setup_DMA : D unit :=
  s ← get ;
  match cur_buffer s with
  | None => out_of_fuel
  | Some r =>
      let addr := addr_of r in
      let high := 0x100000 <=? addr in
      when (high && (command s =? FD_WRITE)) (modify (fun s => s <| tmp_floppy_area := block_of s r |>)) ;;
      let addr := if high then tmp_addr else addr in
      outb_p (4 .| 2) 10 ;;
      let mode := if command s =? FD_READ then DMA_READ else DMA_WRITE in
      outb_p mode 12 ;; outb_p mode 11 ;;
      outb_p addr 4 ;;
      outb_p (addr .>> 8) 4 ;;
      outb_p (addr .>> 16) 0x81 ;;
      outb_p 0xff 5 ;;
      outb_p 3 5 ;;
      outb_p (0 .| 2) 10
  end.

(** kernel/blk_drv/floppy.c:201-207 [output_byte]: at most [n] looks at the status *)
Fixpoint send_byte (n : nat) (byte : Z) : D bool :=
  match n with
  | O => mret false
  | S n' =>
      v ← inb_p FD_STATUS ;
      if v .& (STATUS_READY .| STATUS_DIR) =? STATUS_READY
      then outb_p byte FD_DATA ;; mret true else send_byte n' byte
  end.
Definition FD_TRIES : nat := Z.to_nat 10000.
(** kernel/blk_drv/floppy.c:194-210 [output_byte] *)
Definition output_byte (byte : Z) : D unit :=
  s ← get ;
  if truth (reset s) then mret tt else
  ok ← send_byte FD_TRIES byte ;
  when (negb ok) (modify (fun s => s <| reset := 1 |>) ;; printk "Unable to send byte to FDC" []).

(** kernel/blk_drv/floppy.c:218-227 [result]: the answer of [i] bytes so far; [None] when it
    is too long or does not come *)
Fixpoint get_result (n : nat) (i : nat) : D (option nat) :=
  match n with
  | O => mret None
  | S n' =>
      v ← inb_p FD_STATUS ;
      let status := v .& (STATUS_DIR .| STATUS_READY .| STATUS_BUSY) in
      if status =? STATUS_READY then mret (Some i) else
      if status =? (STATUS_DIR .| STATUS_READY .| STATUS_BUSY) then
        if (MAX_REPLIES <=? i)%nat then mret None else
        b ← inb_p FD_DATA ;
        modify (fun s => s <| reply_buffer ::= <[i := b]> |>) ;;
        get_result n' (S i)
      else get_result n' i
  end.
(** kernel/blk_drv/floppy.c:212-231 [result] *)
Definition result : D Z :=
  s ← get ;
  if truth (reset s) then mret (-1) else
  r ← get_result FD_TRIES 0 ;
  match r with
  | Some i => mret (Z.of_nat i)
  | None =>
      modify (fun s => s <| reset := 1 |>) ;; printk "Getstatus times out" [] ;; mret (-1)
  end.

(** kernel/blk_drv/blk.h:109-125 [end_request], with [DEVICE_OFF] of a floppy *)
Definition fd_end_request (uptodate : Z) : D unit :=
  s ← get ;
  match cur_buffer s with
  | Some r => floppy_off (Z.to_nat (r_dev r .& 3))
  | None => mret tt
  end ;;
  in_k (end_request 2 uptodate).

(** [CURRENT->errors]; with an empty queue the word at address 8, as for the hard disk. *)
Definition cur_errors s : Z :=
  match cur_buffer s with Some r => r_errors r | None => s32 (mem (k_mm (fd_k s)) 8) end.
Definition set_errors (e : Z) : D unit :=
  c ← gets CURRENT ;
  in_k (modify (fun k => match c with
    | Some r => upd_req r (fun q => q <| r_errors := e |>) k
    | None => k <| k_mm ::= fun m => m <| mem ::= upd 8 (u32 e) |> |>
    end)).
(** kernel/blk_drv/floppy.c:233-244 [bad_flp_intr] *)
Definition bad_flp_intr : D unit :=
  e ← gets cur_errors ;
  set_errors (s32 (e + 1)) ;;
  s ← get ;
  when (FD_MAX_ERRORS <? cur_errors s) (floppy_deselect (current_drive s) ;; fd_end_request 0) ;;
  e ← gets cur_errors ;
  if FD_MAX_ERRORS / 2 <? e then modify (fun s => s <| reset := 1 |>)
  else modify (fun s => s <| recalibrate := 1 |>).

(** ** The routines that call each other *)
Section again.
Context (again : D unit).

(** kernel/blk_drv/floppy.c:269-284 [setup_rw_floppy] *)
Definition setup_rw_floppy_ : D unit :=
  setup_DMA ;;
  modify (fun s => s <| do_floppy := Some rw_interrupt_fn |>) ;;
  s ← get ;
  for_each [command s; (head s .<< 2) .| current_drive s; track s; head s; sector s; 2;
            f_sect (type_of s); f_gap (type_of s); 0xFF] output_byte ;;
  s ← get ;
  when (truth (reset s)) again.

(** kernel/blk_drv/floppy.c:309-338 [transfer] *)
Definition transfer_ : D unit :=
  s ← get ;
  when (negb (cur_spec1 s =? f_spec1 (type_of s)))
    (modify (fun s => s <| cur_spec1 := f_spec1 (type_of s) |>) ;;
     output_byte FD_SPECIFY ;; output_byte (f_spec1 (type_of s)) ;; output_byte 6) ;;
  s ← get ;
  when (negb (cur_rate s =? f_rate (type_of s)))
    (modify (fun s => s <| cur_rate := f_rate (type_of s) |>) ;; outb_p (f_rate (type_of s)) FD_DCR) ;;
  s ← get ;
  if truth (reset s) then again else
  if negb (truth (seek s)) then setup_rw_floppy_ else
  modify (fun s => s <| do_floppy := Some seek_interrupt_fn |>) ;;
  (if truth (seek_track s) then
     output_byte FD_SEEK ;; output_byte ((head s .<< 2) .| current_drive s) ;; output_byte (seek_track s)
   else output_byte FD_RECALIBRATE ;; output_byte ((head s .<< 2) .| current_drive s)) ;;
  s ← get ;
  when (truth (reset s)) again.

(** kernel/blk_drv/floppy.c:362-371 [recalibrate_floppy] *)
Definition recalibrate_floppy_ : D unit :=
  modify (fun s => s <| recalibrate := 0 |> <| current_track := 0 |>
                     <| do_floppy := Some recal_interrupt_fn |>) ;;
  s ← get ;
  output_byte FD_RECALIBRATE ;;
  output_byte ((head s .<< 2) .| current_drive s) ;;
  s ← get ;
  when (truth (reset s)) again.

(** kernel/sched.c:240-271 [add_timer]: a function that is due is called at once *)
Definition fd_add_timer (jif : Z) (fn : Z) (f : D unit) : D unit :=
  if jif <=? 0 then f else in_k (in_sched (add_timer jif (Some fn))).

(** kernel/blk_drv/floppy.c:404-415 [floppy_on_interrupt] *)
Definition floppy_on_interrupt_ : D unit :=
  in_k (in_sched (modify (fun c => c <| selected := 1 |>))) ;;
  s ← get ;
  if negb (current_drive s =? current_DOR (fd_sched s) .& 3) then
    in_k (in_sched (modify (fun c => c <| current_DOR ::= fun d => (d .& 0xFC) .| current_drive s |>))) ;;
    s ← get ;
    outb_p (current_DOR (fd_sched s)) FD_DOR ;;
    fd_add_timer 2 transfer_fn transfer_
  else transfer_.

(** kernel/blk_drv/floppy.c:386-402 [reset_floppy] *)
Definition reset_floppy : D unit :=
  modify (fun s => s <| reset := 0 |> <| cur_spec1 := -1 |> <| cur_rate := -1 |> <| recalibrate := 1 |>) ;;
  printk "Reset-floppy called" [] ;;
  modify (fun s => s <| do_floppy := Some reset_interrupt_fn |>) ;;
  s ← get ;
  outb_p (current_DOR (fd_sched s) .& Z.lnot 0x04) FD_DOR ;;
  outb_p (current_DOR (fd_sched s)) FD_DOR.

(** kernel/blk_drv/floppy.c:440-447 [do_fd_request]: sector (from 1), head and track of a
    block, and the track to seek *)
Definition place (t : floppy_struct) (block : Z) : Z * Z * Z * Z :=
  let sector := u8 (block mod f_sect t) in
  let block := block / f_sect t in
  let head := u8 (block mod f_head t) in
  let track := u8 (block / f_head t) in
  (u8 (sector + 1), head, track, u8 (track .<< f_stretch t)).

(** kernel/blk_drv/floppy.c:430-454 [do_fd_request]: from [repeat] to the end ([Some]) or
    [goto repeat] ([None]); a division by zero ends the task *)
Definition fd_step : D (option unit) :=
  s ← get ;
  match cur_buffer s with
  | None => mret (Some tt)
  | Some r =>
      if negb (MAJOR (r_dev r) =? 2) then panic "floppy: request list destroyed" else
      if match r_bh r with Some b => negb (truth (b_lock (bh_of (fd_k s) b))) | None => false end
      then panic "floppy: block not locked" else
      let drive := r_dev r .& 3 in
      modify (fun s => s <| floppy := Z.to_nat (MINOR (r_dev r) .>> 2) |>
        <| seek ::= fun x => if current_drive s =? drive then x else 1 |>
        <| current_drive := drive |>) ;;
      s ← get ;
      let t := type_of s in
      if f_size t <? u32 (r_sector r + 2) then fd_end_request 0 ;; mret None else
      if (f_sect t =? 0) || (f_head t =? 0) then exit_task SIGSEGV else
      let '(sec, hd, tr, sk) := place t (r_sector r) in
      modify (fun s => s <| sector := sec |> <| head := hd |> <| track := tr |> <| seek_track := sk |>
        <| seek ::= fun x => if sk =? current_track s then x else 1 |>) ;;
      (if r_cmd r =? READ then modify (fun s => s <| command := FD_READ |>)
       else if r_cmd r =? WRITE then modify (fun s => s <| command := FD_WRITE |>)
       else panic "do_fd_request: unknown command") ;;
      t ← in_k (in_sched (ticks_to_floppy_on (Z.to_nat drive))) ;
      fd_add_timer t floppy_on_interrupt_fn floppy_on_interrupt_ ;;
      mret (Some tt)
  end.
(** A round of the loop ends a request of the table. *)
Definition FD_FUEL : nat := S NR_REQUEST.
(** kernel/blk_drv/floppy.c:417-455 [do_fd_request] *)
Definition do_fd_body : D unit :=
  modify (fun s => s <| seek := 0 |>) ;;
  s ← get ;
  if truth (reset s) then reset_floppy else
  if truth (recalibrate s) then recalibrate_floppy_ else
  repeat_until FD_FUEL fd_step.
End again.

Fixpoint do_fd (n : nat) : D unit :=
  match n with O => out_of_fuel | S n' => do_fd_body (do_fd n') end.
(** kernel/blk_drv/floppy.c:417-455 [do_fd_request] *)
Definition do_fd_request : D unit := do_fd 2.
(** kernel/blk_drv/floppy.c:269-284 [setup_rw_floppy] *)
Definition setup_rw_floppy : D unit := setup_rw_floppy_ do_fd_request.
(** kernel/blk_drv/floppy.c:309-338 [transfer] *)
Definition transfer : D unit := transfer_ do_fd_request.
(** kernel/blk_drv/floppy.c:404-415 [floppy_on_interrupt] *)
Definition floppy_on_interrupt : D unit := floppy_on_interrupt_ do_fd_request.

(** ** Interrupts *)

(** kernel/blk_drv/floppy.c:250-267 [rw_interrupt]; a good answer comes for a request *)
Definition rw_interrupt : D unit :=
  n ← result ;
  s ← get ;
  if negb (n =? 7) || truth (reply s 0 .& 0xf8) || truth (reply s 1 .& 0xbf) || truth (reply s 2 .& 0x73)
  then
    (if truth (reply s 1 .& 0x02) then
       printk "Drive %d is write protected" [current_drive s] ;;
       floppy_deselect (current_drive s) ;;
       fd_end_request 0
     else bad_flp_intr) ;;
    do_fd_request
  else
    match cur_buffer s with
    | None => out_of_fuel
    | Some r =>
        when ((command s =? FD_READ) && (0x100000 <=? addr_of r))
          (in_k (modify (upd_bh (r_buffer r) (fun b =>
             b <| b_data ::= put_at (Z.to_nat (r_offset r)) (tmp_floppy_area s) |>)))) ;;
        floppy_deselect (current_drive s) ;;
        fd_end_request 1 ;;
        do_fd_request
    end.

(** kernel/blk_drv/floppy.c:291-302 [seek_interrupt] *)
Definition seek_interrupt : D unit :=
  output_byte FD_SENSEI ;;
  n ← result ;
  s ← get ;
  if negb (n =? 2) || negb (reply s 0 .& 0xF8 =? 0x20) || negb (reply s 1 =? seek_track s)
  then bad_flp_intr ;; do_fd_request
  else modify (fun s => s <| current_track := reply s 1 |>) ;; setup_rw_floppy.

(** kernel/blk_drv/floppy.c:343-351 [recal_interrupt] *)
Definition recal_interrupt : D unit :=
  output_byte FD_SENSEI ;;
  n ← result ;
  s ← get ;
  (if negb (n =? 2) || (reply s 0 .& 0xE0 =? 0x60) then modify (fun s => s <| reset := 1 |>)
   else modify (fun s => s <| recalibrate := 0 |>)) ;;
  do_fd_request.

(** kernel/blk_drv/floppy.c:353-360 [unexpected_floppy_interrupt] *)
Definition unexpected_floppy_interrupt : D unit :=
  output_byte FD_SENSEI ;;
  n ← result ;
  s ← get ;
  if negb (n =? 2) || (reply s 0 .& 0xE0 =? 0x60) then modify (fun s => s <| reset := 1 |>)
  else modify (fun s => s <| recalibrate := 1 |>).

(** kernel/blk_drv/floppy.c:373-381 [reset_interrupt] *)
Definition reset_interrupt : D unit :=
  output_byte FD_SENSEI ;;
  result ;;
  output_byte FD_SPECIFY ;;
  s ← get ;
  output_byte (cur_spec1 s) ;;
  output_byte 6 ;;
  do_fd_request.

(** kernel/system_call.s:256-282 [floppy_interrupt]: [do_floppy] is taken and called *)
Definition floppy_interrupt : D unit :=
  f ← gets do_floppy ;
  modify (fun s => s <| do_floppy := None |>) ;;
  match f with
  | Some rw_interrupt_fn => rw_interrupt
  | Some seek_interrupt_fn => seek_interrupt
  | Some recal_interrupt_fn => recal_interrupt
  | Some reset_interrupt_fn => reset_interrupt
  | None => unexpected_floppy_interrupt
  end.
(** The function of a timer of the driver. *)
Definition timer_call (fn : Z) : D unit :=
  if fn =? transfer_fn then transfer else
  if fn =? floppy_on_interrupt_fn then floppy_on_interrupt else mret tt.

(** kernel/blk_drv/floppy.c:457-462 [floppy_init]; the trap gate is not part of the state *)
Definition floppy_init : D unit :=
  in_k (modify (upd_dev 2 (fun d => d <| bd_request_fn := Some do_fd_request_fn |>))) ;;
  v ← inb_p 0x21 ; outb_p (v .& Z.lnot 0x40) 0x21.
End floppy.
