(* ===== verification/Diskette.v ===== *)
(** The floppy driver of [Floppy]: theorems.

    Nothing is assumed of the controller but where a theorem says so. *)
From S2P Require Import Prelude Sched Mm Kernel Blk Hd Floppy.

#[local] Arguments FD_TRIES : simpl never.
#[local] Arguments FD_FUEL : simpl never.

(** ** Sector, head and track *)

(** C38. kernel/blk_drv/floppy.c do_fd_request: for every format of the table and every block
    that passes the test against its size, the sector (from 1), the head and the track are
    within the format and name the block, and none of the numbers is cut to its byte, the
    doubled track of a stretched format neither. *)
Theorem place_names_block i t block : floppy_type !! i = Some t ->
  0 <= block -> block + 2 <= f_size t ->
  let '(sec, hd, tr, sk) := place t block in
  1 <= sec <= f_sect t /\ 0 <= hd < f_head t /\ 0 <= tr < f_track t /\
  (tr * f_head t + hd) * f_sect t + (sec - 1) = block /\ sk = tr * 2 ^ f_stretch t /\ 0 <= sk < 256.
Proof.
  intros Ht Hb Hs. unfold place.
  assert (Hcase : 0 < f_sect t < 256 /\ 0 < f_head t < 256 /\ f_size t = f_sect t * f_head t * f_track t /\
    0 <= f_track t <= 80 /\ (f_stretch t = 0 \/ f_stretch t = 1 /\ f_track t = 40)).
  { do 8 (destruct i as [|i]; [injection Ht as <-; simpl in *; lia|]). done. }
  destruct Hcase as ([Hs0 Hs1] & [Hh0 Hh1] & Hsize & Htr & Hst).
  set (q := block / f_sect t).
  pose proof (Z.mod_pos_bound block (f_sect t) Hs0). pose proof (Z.mod_pos_bound q (f_head t) Hh0).
  pose proof (Z.div_mod block (f_sect t) ltac:(lia)) as E1. fold q in E1.
  pose proof (Z.div_mod q (f_head t) ltac:(lia)) as E2.
  assert (Hq : 0 <= q < f_track t * f_head t).
  { split; [apply Z.div_pos; lia|]. apply Z.div_lt_upper_bound; nia. }
  assert (Hqt : 0 <= q / f_head t < f_track t).
  { split; [apply Z.div_pos; lia|]. apply Z.div_lt_upper_bound; nia. }
  rewrite !(u8_small (block mod _)), !(u8_small (q mod _)), !(u8_small (q / _)) by lia.
  assert (Hsk : 0 <= q / f_head t * 2 ^ f_stretch t < 256).
  { destruct Hst as [-> | [-> Et]]; lia. }
  rewrite Z.shiftl_mul_pow2 by lia. rewrite !u8_small by lia.
  repeat split; try lia; nia.
Qed.
Lemma place_names_block_witness :
  place (nth 7 floppy_type (FloppyType 0 0 0 0 0 0 0 0)) 1000 = (11, 1, 27, 27) /\
  (27 * 2 + 1) * 18 + 10 = 1000.
Proof.
  split; [reflexivity|].
  apply (place_names_block 7 (nth 7 floppy_type (FloppyType 0 0 0 0 0 0 0 0)) 1000);
    reflexivity || discriminate || done.
Defined.

Section floppy.
Context {C : Type} `{Controller C} (buffer_addr : nat -> Z) (tmp_addr : Z) (beyond : nat -> floppy_struct).
Implicit Types (s : fd_state C) (w : world (fd_state C)).

(** ** The recursion is shallow *)

(** Two runs of the inner call that agree when the controller is to be reset. *)
Definition agree (m1 m2 : M (fd_state C) unit) : Prop := forall s w, reset s <> 0 -> m1 s w = m2 s w.
Section again.
Context (m1 m2 : M (fd_state C) unit) (Ha : agree m1 m2).
End again.



(** ** The command *)

(** A controller that is always ready for a byte. *)
Context (Hready : forall c, inb FD_STATUS c = (STATUS_READY, c)).


End floppy.

(** ** Errors *)
Section errors.
Context {C : Type} `{Controller C}.
Implicit Types (s : fd_state C) (w : world (fd_state C)).



End errors.

(** ** A read of a 1.44 MB diskette *)

(** A drive that answers a sense command with the end of a seek to track [d_track], whose
    other answers are put by hand. *)
Record drive : Type := Drive { replies : list Z; d_track : Z; sent : list (Z * Z) }.
#[local] Instance sample_controller : Controller drive := {|
  inb p c :=
    if p =? FD_STATUS then (match replies c with [] => STATUS_READY | _ => 0xD0 end, c)
    else if p =? FD_DATA then (nth 0 (replies c) 0, Drive (drop 1 (replies c)) (d_track c) (sent c))
    else (0, c);
  outb v p c :=
    Drive (if (p =? FD_DATA) && (v =? FD_SENSEI) then [0x20; d_track c] else replies c) (d_track c)
      (sent c ++ [(v, p)]);
  insw c := (fun _ => 0, c);
  outsw _ c := c |}.
Definition fd_sample : fd_state drive :=
  Fd (rd_sample <| requests := [Request 0x21c READ 0 1000 2 0 0 (Some 0%nat) None] |>
        <| blk_dev := [BlkDev None None; BlkDev None None; BlkDev (Some do_fd_request_fn) (Some 0%nat)] |>
        <| buffers ::= alter (fun b => b <| b_lock := 1 |>) 0%nat |>
        <| k_sched ::= fun c => c <| timers := repeat no_timer TIME_REQUESTS |> <| current_DOR := 0x0C |>
             <| mon_timer := repeat 0 4 |> <| moff_timer := repeat 0 4 |> |>)
    0 0 0 (repeat 0 7) (-1) (-1) 0 0 0 0 0 0 255 0 None [] (Drive [] 27 []).
Definition high_buffers (i : nat) : Z := 0x100000 + 1024 * Z.of_nat i.
Definition no_type (i : nat) : floppy_struct := FloppyType 0 0 0 0 0 0 0 0.
(** The request, half a second for the motor, the interrupt of the seek, the data that the
    DMA brings to the bounce buffer and the answer, and the interrupt of the transfer. *)
Definition fd_sample_run : M (fd_state drive) unit :=
  do_fd_request high_buffers 0x8000 no_type ;;
  timer_call high_buffers 0x8000 no_type floppy_on_interrupt_fn ;;
  floppy_interrupt high_buffers 0x8000 no_type ;;
  modify (fun s => s <| tmp_floppy_area := repeat 66 1024 |>
    <| ctl ::= fun c => Drive [0; 0; 0; 27; 1; 11; 2] (d_track c) (sent c) |>) ;;
  floppy_interrupt high_buffers 0x8000 no_type.
Lemma floppy_sample_run :
  match fd_sample_run fd_sample (World [] []) with
  | Ret tt s _ =>
      (b_data (bh_of (fd_k s) 0) = repeat 66 1024 /\ b_uptodate (bh_of (fd_k s) 0) = 1 /\
       CURRENT s = None) /\
      drop 4 (sent (ctl s)) =
        [(0xF, FD_DATA); (4, FD_DATA); (27, FD_DATA); (8, FD_DATA);
         (6, 10); (0x46, 12); (0x46, 11); (0, 4); (0x80, 4); (0, 0x81); (255, 5); (3, 5); (2, 10);
         (0xE6, FD_DATA); (4, FD_DATA); (27, FD_DATA); (1, FD_DATA); (11, FD_DATA); (2, FD_DATA);
         (18, FD_DATA); (0x1B, FD_DATA); (255, FD_DATA)]
  | _ => False
  end.
Proof. vm_compute. repeat split. Qed.

(** The test of the size is made in 32 bits: a request for the last sectors of all passes it
    and divides by the zero of the format that is not tested.  (No file position leads to
    such a request; the test alone does not keep it out.) *)
Lemma last_block_divides :
  match do_fd_request high_buffers 0x8000 no_type
    (fd_sample <| fd_k ::= upd_req 0 (fun r => r <| r_dev := 0x200 |> <| r_sector := 0xfffffffe |>) |>)
    (World [] []) with
  | Exited c _ => c = SIGSEGV
  | _ => False
  end.
Proof. vm_compute. done. Qed.


