(* ===== verification/Buffer.v ===== *)
(** The buffer cache: [fs/buffer.c].

    [sync_inodes] belongs to [fs/inode.c], which is built on the cache; it is a
    class here, and [Inode.v] ties the knot. *)
From S2P Require Import Prelude Sched Mm Kernel Blk.

(** What the cache needs of the inode table: [sync_inodes] of [fs/inode.c]. *)
Class SyncInodes : Type := sync_inodes : M K unit.

(** The [i]-th buffer, from [start_buffer] on. *)
Definition all_buffers : M K (list nat) := gets (fun k => seq 0 (NR_BUFFERS k)).

(** [repeat:] where every round but the last has slept, or has seen a buffer
    written that another task has dirtied meanwhile. *)
Definition repeat_awake {A} (body : M K (option A)) : M K A :=
  fun s w => repeat_until (2 + 2 * length (script w)) body s w.

(** * Hashing *)

(** fs/buffer.c:135-135 [_hashfn] *)
Definition hashfn (dev block : Z) : nat := Z.to_nat (u32 (dev .^ block) mod 307).
(** fs/buffer.c:136-136 [hash] *)
Definition hash (k : K) (dev block : Z) : option nat := mjoin (hash_table k !! hashfn dev block).
Definition set_hash (dev block : Z) (p : option nat) (k : K) : K :=
  k <| hash_table ::= <[hashfn dev block := p]> |>.

(** fs/buffer.c:140-156 [remove_from_queues] *)
Definition remove_from_queues (bh : nat) : M K unit :=
  b ← gets (fun k => bh_of k bh) ;
  when (bool_decide (b_next b <> None))
    (modify (upd_bh_at (b_next b) (fun x => x <| b_prev := b_prev b |>))) ;;
  b ← gets (fun k => bh_of k bh) ;
  when (bool_decide (b_prev b <> None))
    (modify (upd_bh_at (b_prev b) (fun x => x <| b_next := b_next b |>))) ;;
  k ← get ;
  let b := bh_of k bh in
  when (bool_decide (hash k (b_dev b) (b_blocknr b) = Some bh))
    (modify (set_hash (b_dev b) (b_blocknr b) (b_next b))) ;;
  if bool_decide (b_prev_free b = None) || bool_decide (b_next_free b = None)
  then panic "Free block list corrupted" else
  modify (upd_bh_at (b_prev_free b) (fun x => x <| b_next_free := b_next_free b |>)) ;;
  b ← gets (fun k => bh_of k bh) ;
  modify (upd_bh_at (b_next_free b) (fun x => x <| b_prev_free := b_prev_free b |>)) ;;
  k ← get ;
  when (bool_decide (free_list k = Some bh))
    (modify (fun k => k <| free_list := b_next_free (bh_of k bh) |>)).

(** fs/buffer.c:158-173 [insert_into_queues]: the last store goes through
    [b_next] even when it is null *)
Definition insert_into_queues (bh : nat) : M K unit :=
  modify (fun k => upd_bh bh (fun x => x <| b_next_free := free_list k |>) k) ;;
  modify (fun k =>
    upd_bh bh (fun x => x <| b_prev_free := b_prev_free (bh_at k (free_list k)) |>) k) ;;
  modify (fun k => upd_bh_at (b_prev_free (bh_at k (free_list k)))
                     (fun x => x <| b_next_free := Some bh |>) k) ;;
  modify (fun k => upd_bh_at (free_list k) (fun x => x <| b_prev_free := Some bh |>) k) ;;
  modify (upd_bh bh (fun x => x <| b_prev := None |> <| b_next := None |>)) ;;
  b ← gets (fun k => bh_of k bh) ;
  if negb (truth (b_dev b)) then mret tt else
  modify (fun k => upd_bh bh (fun x => x <| b_next := hash k (b_dev b) (b_blocknr b) |>) k) ;;
  modify (set_hash (b_dev b) (b_blocknr b) (Some bh)) ;;
  modify (fun k => upd_bh_at (b_next (bh_of k bh)) (fun x => x <| b_prev := Some bh |>) k).

(** fs/buffer.c:180-183 [find_buffer]: the loop along [b_next]; [None] when the
    chain is longer than there are buffers *)
Fixpoint find_chain (fuel : nat) (k : K) (dev block : Z) (tmp : option nat) :
    option (option nat) :=
  match tmp with
  | None => Some None
  | Some t =>
      match fuel with
      | O => None
      | S n =>
          if (b_dev (bh_of k t) =? dev) && (b_blocknr (bh_of k t) =? u32 block) then Some (Some t)
          else find_chain n k dev block (b_next (bh_of k t))
      end
  end.

(** fs/buffer.c:176-184 [find_buffer] *)
Definition find_buffer (dev block : Z) : M K (option nat) :=
  k ← get ;
  match find_chain (NR_BUFFERS k) k dev block (hash k dev block) with
  | Some r => mret r
  | None => out_of_fuel
  end.

(** fs/buffer.c:193-206 [get_hash_table] *)
Definition get_hash_table (dev block : Z) : M K (option nat) :=
  repeat_awake (
    r ← find_buffer dev block ;
    match r with
    | None => mret (Some None)
    | Some bh =>
        modify (upd_bh bh (fun b => b <| b_count ::= fun c => u8 (c + 1) |>)) ;;
        wait_on_buffer bh ;;
        b ← gets (fun k => bh_of k bh) ;
        if (b_dev b =? dev) && (b_blocknr b =? u32 block) then mret (Some (Some bh)) else
        modify (upd_bh bh (fun b => b <| b_count ::= fun c => u8 (c - 1) |>)) ;;
        mret None
    end).

(** * Writing back *)

(** fs/buffer.c:70-77 [sync_dev]: one pass over the buffers of a device *)
Definition sync_pass (dev : Z) : M K unit :=
  bs ← all_buffers ;
  for_each bs (fun bh =>
    b ← gets (fun k => bh_of k bh) ;
    if negb (b_dev b =? dev) then mret tt else
    wait_on_buffer bh ;;
    b ← gets (fun k => bh_of k bh) ;
    when ((b_dev b =? dev) && truth (b_dirt b)) (ll_rw_block WRITE bh)).

(** fs/buffer.c:91-104 [invalidate_buffers] *)
Definition invalidate_buffers (dev : Z) : M K unit :=
  bs ← all_buffers ;
  for_each bs (fun bh =>
    b ← gets (fun k => bh_of k bh) ;
    if negb (b_dev b =? dev) then mret tt else
    wait_on_buffer bh ;;
    b ← gets (fun k => bh_of k bh) ;
    when (b_dev b =? dev)
      (modify (upd_bh bh (fun b => b <| b_dirt := 0 |> <| b_uptodate := 0 |>)))).

(** fs/buffer.c:215-215 [BADNESS] *)
Definition BADNESS (b : buffer_head) : Z := (b_dirt b .<< 1) + b_lock b.

(** fs/buffer.c:223-233 [getblk]: the scan of the free list for the best unused
    buffer; [best] is [bh] *)
Fixpoint scan_free_list (fuel : nat) (k : K) (tmp : option nat) (best : option nat) :
    option (option nat) :=
  match fuel with
  | O => None
  | S n =>
      let t := bh_at k tmp in
      let go best :=
        if bool_decide (b_next_free t = free_list k) then Some best
        else scan_free_list n k (b_next_free t) best in
      if truth (b_count t) then go best
      else if match best with
              | None => true
              | Some b => BADNESS t <? BADNESS (bh_of k b)
              end
      then if BADNESS t =? 0 then Some tmp else go tmp
      else go best
  end.

(** fs/buffer.c:263-271 [brelse] *)
Definition brelse (buf : option nat) : M K unit :=
  match buf with
  | None => mret tt
  | Some bh =>
      wait_on_buffer bh ;;
      c ← gets (fun k => b_count (bh_of k bh)) ;
      modify (upd_bh bh (fun b => b <| b_count := u8 (c - 1) |>)) ;;
      if negb (truth c) then panic "Trying to free free buffer" else
      wake_up_q WBufferWait
  end.

Section cache.
Context `{SyncInodes}.

(** fs/buffer.c:49-62 [sys_sync] *)
Definition sys_sync : M K Z :=
  sync_inodes ;;
  bs ← all_buffers ;
  for_each bs (fun bh =>
    wait_on_buffer bh ;;
    d ← gets (fun k => b_dirt (bh_of k bh)) ;
    when (truth d) (ll_rw_block WRITE bh)) ;;
  mret 0.

(** fs/buffer.c:65-88 [sync_dev] *)
Definition sync_dev (dev : Z) : M K Z :=
  sync_pass dev ;; sync_inodes ;; sync_pass dev ;; mret 0.

(** fs/buffer.c:241-246 [getblk]: [while (bh->b_dirt)]; [false] is
    [goto repeat] *)
Definition clean (bh : nat) : M K bool :=
  repeat_awake (
    b ← gets (fun k => bh_of k bh) ;
    if negb (truth (b_dirt b)) then mret (Some true) else
    sync_dev (b_dev b) ;;
    wait_on_buffer bh ;;
    c ← gets (fun k => b_count (bh_of k bh)) ;
    if truth c then mret (Some false) else mret None).

(** fs/buffer.c:216-261 [getblk] *)
Definition getblk (dev block : Z) : M K nat :=
  repeat_awake (
    r ← get_hash_table dev block ;
    match r with
    | Some bh => mret (Some bh)
    | None =>
        k ← get ;
        match scan_free_list (NR_BUFFERS k) k (free_list k) None with
        | None => out_of_fuel
        | Some None => sleep_on_q WBufferWait ;; mret None
        | Some (Some bh) =>
            wait_on_buffer bh ;;
            c ← gets (fun k => b_count (bh_of k bh)) ;
            if truth c then mret None else
            ok ← clean bh ;
            if negb ok then mret None else
            other ← find_buffer dev block ;
            match other with
            | Some _ => mret None
            | None =>
                modify (upd_bh bh (fun b =>
                  b <| b_count := 1 |> <| b_dirt := 0 |> <| b_uptodate := 0 |>)) ;;
                remove_from_queues bh ;;
                modify (upd_bh bh (fun b =>
                  b <| b_dev := u16 dev |> <| b_blocknr := u32 block |>)) ;;
                insert_into_queues bh ;;
                mret (Some bh)
            end
        end
    end).

(** fs/buffer.c:277-291 [bread] *)
Definition bread (dev block : Z) : M K (option nat) :=
  bh ← getblk dev block ;
  u ← gets (fun k => b_uptodate (bh_of k bh)) ;
  if truth u then mret (Some bh) else
  ll_rw_block READ bh ;;
  wait_on_buffer bh ;;
  u ← gets (fun k => b_uptodate (bh_of k bh)) ;
  if truth u then mret (Some bh) else
  brelse (Some bh) ;; mret None.

(** fs/buffer.c:312-318 [bread_page]: the first loop *)
Fixpoint get_blocks (dev : Z) (b : list Z) : M K (list (option nat)) :=
  match b with
  | [] => mret []
  | x :: b' =>
      p ← (if truth x then
             bh ← getblk dev x ;
             u ← gets (fun k => b_uptodate (bh_of k bh)) ;
             when (negb (truth u)) (ll_rw_block READ bh) ;;
             mret (Some bh)
           else mret None) ;
      ps ← get_blocks dev b' ;
      mret (p :: ps)
  end.

(** fs/buffer.c:307-326 [bread_page] *)
Definition bread_page (address dev : Z) (b : list Z) : M K unit :=
  bhs ← get_blocks dev b ;
  for_each (imap (fun i p => (i, p)) bhs) (fun ip =>
    match ip.2 with
    | None => mret tt
    | Some bh =>
        wait_on_buffer bh ;;
        x ← gets (fun k => bh_of k bh) ;
        when (truth (b_uptodate x))
          (modify (kmem_put (address + BLOCK_SIZE * Z.of_nat ip.1) (b_data x))) ;;
        brelse (Some bh)
    end).

(** fs/buffer.c:344-351 [breada]: the blocks to read ahead; what is handed to
    [ll_rw_block] is [bh], the first block's buffer *)
Fixpoint read_ahead (dev : Z) (bh : nat) (args : list Z) : M K unit :=
  match args with
  | [] => mret tt
  | first :: args' =>
      if first <? 0 then mret tt else
      tmp ← getblk dev first ;
      u ← gets (fun k => b_uptodate (bh_of k tmp)) ;
      when (negb (truth u)) (ll_rw_block READA bh) ;;
      modify (upd_bh tmp (fun b => b <| b_count ::= fun c => u8 (c - 1) |>)) ;;
      read_ahead dev bh args'
  end.

(** fs/buffer.c:334-358 [breada] *)
Definition breada (dev first : Z) (args : list Z) : M K (option nat) :=
  bh ← getblk dev first ;
  u ← gets (fun k => b_uptodate (bh_of k bh)) ;
  when (negb (truth u)) (ll_rw_block READ bh) ;;
  read_ahead dev bh args ;;
  wait_on_buffer bh ;;
  u ← gets (fun k => b_uptodate (bh_of k bh)) ;
  if truth u then mret (Some bh) else
  brelse (Some bh) ;; mret None.
End cache.

(** * Initialisation *)

(** The size of a [struct buffer_head] on the i386. *)
Definition SIZEOF_BH : Z := 36.

(** fs/buffer.c:371-387 [buffer_init]: the addresses of the blocks, in the order of
    the buffer heads that get them *)
Fixpoint block_addrs (fuel : nat) (start b n : Z) : list Z :=
  match fuel with
  | O => []
  | S f =>
      let b := b - BLOCK_SIZE in
      if start + SIZEOF_BH * (n + 1) <=? b
      then b :: block_addrs f start (if b =? 0x100000 then 0xA0000 else b) (n + 1)
      else []
  end.

(** fs/buffer.c:361-394 [buffer_init]: [start] is the address of [end], where the
    kernel's image ends *)
Definition buffer_init (start buffer_end : Z) : M K unit :=
  let b := if buffer_end =? 1 .<< 20 then 640 * 1024 else buffer_end in
  modify (fun k =>
    let addrs := block_addrs (Z.to_nat b) start b 0 in
    let n := length addrs in
    let link i := if decide (i = n) then 0%nat else i in
    k <| buffers := imap (fun i a =>
           BufferHead (read_bytes a 1024 (mem (k_mm k))) 0 0 0 0 0 0 None None
             (Some (if decide (i = 0%nat) then pred n else pred i)) (Some (link (S i)))) addrs |>
      <| free_list := Some 0%nat |>
      <| hash_table := replicate NR_HASH None |>).
