(* ===== verification/Bitmap.v ===== *)
(** The inode and zone bitmaps: [fs/bitmap.c], with the access to the table of
    super blocks of [fs/super.c] it rests on, and [fs/truncate.c]. *)
From S2P Require Import Prelude Sched Mm Kernel Blk Buffer.

(** * Super blocks: locking and lookup *)

(** fs/super.c:31-38 [lock_super] *)
Definition lock_super (sb : nat) : M K unit :=
  sleep_while (fun k => truth (s_lock (super_of k sb))) (WSuper sb) ;;
  modify (upd_super sb (fun s => s <| s_lock := 1 |>)).

(** fs/super.c:40-46 [free_super] *)
Definition free_super (sb : nat) : M K unit :=
  modify (upd_super sb (fun s => s <| s_lock := 0 |>)) ;;
  wake_up_q (WSuper sb).

(** fs/super.c:48-54 [wait_on_super] *)
Definition wait_on_super (sb : nat) : M K unit :=
  sleep_while (fun k => truth (s_lock (super_of k sb))) (WSuper sb).

(** fs/super.c:63-71 [get_super]: the first super block of [dev] from slot [i] on *)
Fixpoint find_super (n : nat) (i : nat) (k : K) (dev : Z) : option nat :=
  match n with
  | O => None
  | S n' => if s_dev (super_of k i) =? dev then Some i else find_super n' (S i) k dev
  end.

(** fs/super.c:57-73 [get_super] *)
Definition get_super (dev : Z) : M K (option nat) :=
  if dev =? 0 then mret None else
  repeat_awake (
    k ← get ;
    match find_super NR_SUPER 0 k dev with
    | None => mret (Some None)
    | Some s =>
        wait_on_super s ;;
        d ← gets (fun k => s_dev (super_of k s)) ;
        if d =? dev then mret (Some (Some s)) else mret None
    end).

(** * Bits of a block *)

(** fs/bitmap.c:22-26 [set_bit]: the block with bit [nr] set; the macro's value
    is the old bit *)
Definition set_bit (nr : nat) (data : list Z) : list Z :=
  alter (fun b => Z.setbit b (Z.of_nat (nr mod 8))) (nr / 8)%nat data.
(** fs/bitmap.c:29-33 [clear_bit]: the macro's value is the old bit, negated *)
Definition clear_bit (nr : nat) (data : list Z) : list Z :=
  alter (fun b => Z.clearbit b (Z.of_nat (nr mod 8))) (nr / 8)%nat data.
(** fs/bitmap.c:22-26 [set_bit]: the old bit *)
Definition test_bit (nr : nat) (data : list Z) : bool :=
  Z.testbit (get_byte data (nr / 8)) (Z.of_nat (nr mod 8)).

(** fs/bitmap.c:40-41 [find_first_zero]: [bsfl], the lowest bit set of a doubleword,
    [None] (ZF) when it is zero *)
Fixpoint bsf (n : nat) (i : nat) (x : Z) : option nat :=
  match n with
  | O => None
  | S n' => if Z.testbit x (Z.of_nat i) then Some i else bsf n' (S i) x
  end.

(** fs/bitmap.c:37-48 [find_first_zero]: the loop, a doubleword a round; [ecx]
    counts the bits passed *)
Fixpoint scan_zero (rounds : nat) (ecx : nat) (data : list Z) : nat :=
  match rounds with
  | O => ecx
  | S n =>
      let eax := Z.lxor (le_value (take 4 data)) 0xffffffff in
      match bsf 32 0 eax with
      | Some edx => (ecx + edx)%nat
      | None => scan_zero n (ecx + 32) (drop 4 data)
      end
  end.

(** fs/bitmap.c:35-49 [find_first_zero]: 8192 bits are 256 doublewords *)
Definition find_first_zero (data : list Z) : nat := scan_zero 256 0 data.

(** * Zones *)

(** A bitmap buffer, which must be there: the code follows the pointer. *)
Definition map_bh (maps : list (option nat)) (i : nat) : option nat := mjoin (maps !! i).

(** fs/bitmap.c:52-78 [free_block] *)
Definition free_block (dev block : Z) : M K unit :=
  sb ← get_super dev ;
  match sb with
  | None => panic "trying to free block on nonexistent device"
  | Some sb =>
      s ← gets (fun k => super_of k sb) ;
      if (block <? s_firstdatazone s) || (s_nzones s <=? block)
      then panic "trying to free block not in datazone" else
      bh ← get_hash_table dev block ;
      go ← match bh with
           | None => mret true
           | Some b =>
               x ← gets (fun k => bh_of k b) ;
               if negb (b_count x =? 1) then
                 printk "trying to free block (%04x:%d), count=%d" [dev; block; b_count x] ;;
                 mret false
               else
                 modify (upd_bh b (fun x => x <| b_dirt := 0 |> <| b_uptodate := 0 |>)) ;;
                 brelse (Some b) ;;
                 mret true
           end ;
      if negb go then mret tt else
      s ← gets (fun k => super_of k sb) ;
      let nr := block - (s_firstdatazone s - 1) in
      let bit := Z.to_nat (nr .& 8191) in
      let z := map_bh (s_zmap s) (Z.to_nat (Z.quot nr 8192)) in
      old ← gets (fun k => test_bit bit (b_data (bh_at k z))) ;
      modify (upd_bh_at z (fun x => x <| b_data ::= clear_bit bit |>)) ;;
      if negb old then
        printk "block (%04x:%d) " [dev; nr + s_firstdatazone s - 1] ;;
        panic "free_block: bit already cleared"
      else
        modify (upd_bh_at z (fun x => x <| b_dirt := 1 |>))
  end.

(** fs/bitmap.c:88-94 [new_block]: the first map block with a zero bit *)
Fixpoint find_zero_map (k : K) (i : nat) (maps : list (option nat)) :
    option (nat * nat * nat) :=
  match maps with
  | [] => None
  | m :: maps' =>
      match m with
      | None => find_zero_map k (S i) maps'
      | Some bh =>
          let j := find_first_zero (b_data (bh_of k bh)) in
          if Z.of_nat j <? 8192 then Some (i, bh, j) else find_zero_map k (S i) maps'
      end
  end.

Section bitmap.
Context `{SyncInodes}.

(** fs/bitmap.c:80-110 [new_block] *)
Definition new_block (dev : Z) : M K Z :=
  sb ← get_super dev ;
  match sb with
  | None => panic "trying to get new block from nonexistant device"
  | Some sb =>
      k ← get ;
      let s := super_of k sb in
      match find_zero_map k 0 (take 8 (s_zmap s)) with
      | None => mret 0
      | Some (i, bh, j) =>
          let old := test_bit j (b_data (bh_of k bh)) in
          modify (upd_bh bh (fun x => x <| b_data ::= set_bit j |>)) ;;
          if (old : bool) then panic "new_block: bit already set" else
          modify (upd_bh bh (fun x => x <| b_dirt := 1 |>)) ;;
          let j := Z.of_nat j + Z.of_nat i * 8192 + s_firstdatazone s - 1 in
          if s_nzones s <=? j then mret 0 else
          bh ← getblk dev j ;
          c ← gets (fun k => b_count (bh_of k bh)) ;
          if negb (c =? 1) then panic "new block: count is != 1" else
          modify (upd_bh bh (fun x => x <| b_data := replicate 1024 0 |>
                                        <| b_uptodate := 1 |> <| b_dirt := 1 |>)) ;;
          brelse (Some bh) ;;
          mret j
      end
  end.
End bitmap.

(** * Inodes *)

(** fs/bitmap.c:113-140 [free_inode] *)
Definition free_inode (inode : option nat) : M K unit :=
  match inode with
  | None => mret tt
  | Some i =>
      n ← gets (fun k => inode_of k i) ;
      if i_dev n =? 0 then modify (upd_inode i (fun _ => zero_inode)) else
      if 1 <? i_count n then
        printk "trying to free inode with count=%d" [i_count n] ;; panic "free_inode"
      else if truth (i_nlinks n) then panic "trying to free inode with links" else
      sb ← get_super (i_dev n) ;
      match sb with
      | None => panic "trying to free inode on nonexistent device"
      | Some sb =>
          k ← get ;
          let n := inode_of k i in
          let s := super_of k sb in
          if (i_num n <? 1) || (s_ninodes s <? i_num n)
          then panic "trying to free inode 0 or nonexistant inode" else
          match map_bh (s_imap s) (Z.to_nat (i_num n .>> 13)) with
          | None => panic "nonexistent imap in superblock"
          | Some bh =>
              let bit := Z.to_nat (i_num n .& 8191) in
              let old := test_bit bit (b_data (bh_of k bh)) in
              modify (upd_bh bh (fun x => x <| b_data ::= clear_bit bit |>)) ;;
              when (negb old) (printk "free_inode: bit already cleared." []) ;;
              modify (upd_bh bh (fun x => x <| b_dirt := 1 |>)) ;;
              modify (upd_inode i (fun _ => zero_inode))
          end
      end
  end.

(** * Truncation *)
Section truncate.
Context `{SyncInodes}.

(** fs/truncate.c:11-27 [free_ind]; the loop reads each entry when it gets to it *)
Definition free_ind (dev block : Z) : M K unit :=
  if block =? 0 then mret tt else
  bh ← bread dev block ;
  match bh with
  | None => mret tt
  | Some b =>
      for_each (seq 0 512) (fun i =>
        p ← gets (fun k => get_word (b_data (bh_of k b)) i) ;
        when (truth p) (free_block dev p)) ;;
      brelse bh
  end ;;
  free_block dev block.

(** fs/truncate.c:29-45 [free_dind] *)
Definition free_dind (dev block : Z) : M K unit :=
  if block =? 0 then mret tt else
  bh ← bread dev block ;
  match bh with
  | None => mret tt
  | Some b =>
      for_each (seq 0 512) (fun i =>
        p ← gets (fun k => get_word (b_data (bh_of k b)) i) ;
        when (truth p) (free_ind dev p)) ;;
      brelse bh
  end ;;
  free_block dev block.

Definition zone (k : K) (i : nat) (z : nat) : Z := get_byte (i_zone (inode_of k i)) z.
Definition set_zone (i z : nat) (v : Z) : K -> K :=
  upd_inode i (fun n => n <| i_zone ::= <[z := u16 v]> |>).

(** fs/truncate.c:47-64 [truncate] *)
Definition truncate (inode : nat) : M K unit :=
  mode ← gets (fun k => i_mode (inode_of k inode)) ;
  if negb (S_ISREG mode || S_ISDIR mode) then mret tt else
  for_each (seq 0 7) (fun i =>
    k ← get ;
    when (truth (zone k inode i))
      (free_block (i_dev (inode_of k inode)) (zone k inode i) ;;
       modify (set_zone inode i 0))) ;;
  k ← get ;
  free_ind (i_dev (inode_of k inode)) (zone k inode 7) ;;
  k ← get ;
  free_dind (i_dev (inode_of k inode)) (zone k inode 8) ;;
  modify (fun k => set_zone inode 7 0 (set_zone inode 8 0 k)) ;;
  modify (fun k => upd_inode inode (fun n =>
    n <| i_size := 0 |> <| i_dirt := 1 |> <| i_ctime := now k |> <| i_mtime := now k |>) k).
End truncate.

(** * Properties *)

Definition bytes_ok (l : list Z) : Prop := Forall (fun b => 0 <= b < 256) l.

(** ** The search for a zero bit *)
Lemma bsf_spec n x : forall i,
  match bsf n i x with
  | Some j => (i <= j < i + n)%nat /\ Z.testbit x (Z.of_nat j) = true /\
      forall m, (i <= m < j)%nat -> Z.testbit x (Z.of_nat m) = false
  | None => forall m, (i <= m < i + n)%nat -> Z.testbit x (Z.of_nat m) = false
  end.
Proof.
  induction n as [|n IH]; intros i; cbn [bsf]; [lia|].
  destruct (Z.testbit x (Z.of_nat i)) eqn:E.
  - split; [lia|]. split; [done|]. lia.
  - specialize (IH (S i)). destruct (bsf n (S i) x) as [j|].
    + destruct IH as (Hj & Ht & Hm). split; [lia|]. split; [done|].
      intros m Hm'. destruct (decide (m = i)) as [-> | ]; [done|]. apply Hm. lia.
    + intros m Hm. destruct (decide (m = i)) as [-> | ]; [done|]. apply IH. lia.
Qed.

(** The bits of a little-endian number are the bits of its bytes. *)
Lemma testbit_le_value l : bytes_ok l -> forall j,
  Z.testbit (le_value l) (Z.of_nat j) = test_bit j l.
Proof.
  induction 1 as [|b l Hb Hl IH]; intros j; unfold test_bit, get_byte.
  { rewrite lookup_nil. simpl. by rewrite !Z.bits_0. }
  cbn [le_value]. replace (b + 256 * le_value l) with ((le_value l .<< 8) .| b).
  2:{ rewrite (lor_low_add _ b 8), shiftl_mul by
        (lia || (rewrite ?shiftl_mul by lia; apply Z.mod_mul; lia)). lia. }
  rewrite Z.lor_spec, Z.shiftl_spec by lia. destruct (decide (j < 8)%nat).
  - rewrite Nat.div_small, Nat.mod_small by lia. cbn [lookup list_lookup].
    rewrite Z.testbit_neg_r by lia. done.
  - rewrite (testbit_ge_false b 8), orb_false_r by lia.
    replace (Z.of_nat j - 8) with (Z.of_nat (j - 8)) by lia. rewrite IH.
    unfold test_bit, get_byte. replace j with (j - 8 + 1 * 8)%nat at 3 4 by lia.
    rewrite Nat.div_add, Nat.Div0.mod_add by lia. by rewrite Nat.add_comm.
Qed.

Lemma test_bit_take j n data : (j < 8 * n)%nat -> test_bit j (take n data) = test_bit j data.
Proof.
  intros Hj. unfold test_bit, get_byte. rewrite lookup_take_lt; [done|].
  apply Nat.Div0.div_lt_upper_bound. lia.
Qed.
Lemma test_bit_drop j data : test_bit j (drop 4 data) = test_bit (32 + j) data.
Proof.
  unfold test_bit, get_byte. rewrite lookup_drop.
  replace (32 + j)%nat with (j + 4 * 8)%nat by lia.
  rewrite Nat.div_add, Nat.Div0.mod_add by lia. by rewrite Nat.add_comm.
Qed.

Lemma scan_zero_spec rounds : forall ecx data, bytes_ok data ->
  let r := scan_zero rounds ecx data in
  (ecx <= r <= ecx + 32 * rounds)%nat /\
  (forall j, (ecx + j < r)%nat -> test_bit j data = true) /\
  ((r < ecx + 32 * rounds)%nat -> test_bit (r - ecx) data = false).
Proof.
  induction rounds as [|n IH]; intros ecx data Hd; cbn [scan_zero].
  { cbv zeta. repeat split; lia. }
  cbv zeta. set (v := le_value (take 4 data)).
  assert (Hbit : forall j, (j < 32)%nat ->
    Z.testbit (Z.lxor v 0xffffffff) (Z.of_nat j) = negb (test_bit j data)).
  { intros j Hj. rewrite Z.lxor_spec. change 0xffffffff with (Z.ones 32).
    rewrite Z.ones_spec_low by lia. rewrite xorb_true_r. f_equal.
    unfold v. rewrite testbit_le_value by (by apply Forall_take). apply test_bit_take. lia. }
  pose proof (bsf_spec 32 (Z.lxor v 0xffffffff) 0) as Hb.
  destruct (bsf 32 0 _) as [e|].
  - destruct Hb as (He & Ht & Hm). split; [lia|]. split.
    + intros j Hj. specialize (Hm j ltac:(lia)). rewrite Hbit in Hm by lia.
      by apply negb_false_iff.
    + intros _. rewrite Hbit in Ht by lia. apply negb_true_iff in Ht.
      by replace (ecx + e - ecx)%nat with e by lia.
  - destruct (IH (ecx + 32)%nat (drop 4 data)) as (H1 & H2 & H3); [by apply Forall_drop|].
    set (r := scan_zero n (ecx + 32) (drop 4 data)) in *. split; [lia|]. split.
    + intros j Hj. destruct (decide (j < 32)%nat).
      * specialize (Hb j ltac:(lia)). rewrite Hbit in Hb by lia. by apply negb_false_iff.
      * replace j with (32 + (j - 32))%nat by lia. rewrite <- test_bit_drop. apply H2. lia.
    + intros Hr. replace (r - ecx)%nat with (32 + (r - (ecx + 32)))%nat by lia.
      rewrite <- test_bit_drop. apply H3. lia.
Qed.

(** [find_first_zero] returns the least zero bit of the 8192 bits of a block, and
    8192 exactly when they are all set. *)
Theorem find_first_zero_least data : bytes_ok data ->
  let n := find_first_zero data in
  Z.of_nat n <= 8192 /\ (forall j, (j < n)%nat -> test_bit j data = true) /\
  (Z.of_nat n < 8192 -> test_bit n data = false).
Proof.
  intros Hd n. destruct (scan_zero_spec 256 0 data Hd) as (H1 & H2 & H3).
  fold (find_first_zero data) in H1, H2, H3. fold n in H1, H2, H3.
  split; [lia|]. split; [done|].
  intros Hn. specialize (H3 ltac:(lia)). by rewrite Nat.sub_0_r in H3.
Qed.

(** ** Setting and clearing a bit *)
Lemma test_bit_alter f n j data : (n / 8 < length data)%nat ->
  test_bit j (alter f (n / 8)%nat data) =
    if decide (j / 8 = n / 8)%nat then Z.testbit (f (get_byte data (n / 8))) (Z.of_nat (j mod 8))
    else test_bit j data.
Proof.
  intros Hn. unfold test_bit, get_byte. destruct (decide (j / 8 = n / 8)%nat) as [E|E].
  - rewrite E, list_lookup_alter_eq.
    by destruct (lookup_lt_is_Some_2 data (n / 8) Hn) as [b ->].
  - by rewrite list_lookup_alter_ne.
Qed.
Lemma same_bit (n j : nat) : (j / 8 = n / 8)%nat -> (j mod 8 = n mod 8)%nat -> j = n.
Proof.
  intros Hd Hm. pose proof (Nat.div_mod_eq j 8). pose proof (Nat.div_mod_eq n 8). lia.
Qed.

(** A bit that [new_block] or [new_inode] sets in a bitmap is that bit and no
    other, and [free_block] and [free_inode] undo it exactly: clearing a bit that was
    clear before it was set gives the old block back. *)
Theorem bitmap_set_clear n data : bytes_ok data -> (n / 8 < length data)%nat ->
  (forall j, test_bit j (set_bit n data) = if decide (j = n) then true else test_bit j data) /\
  (forall j, test_bit j (clear_bit n data) = if decide (j = n) then false else test_bit j data) /\
  (test_bit n data = false -> clear_bit n (set_bit n data) = data).
Proof.
  intros Hd Hn. split; [|split].
  - intros j. unfold set_bit. rewrite test_bit_alter by done.
    destruct (decide (j / 8 = n / 8)%nat) as [E|E].
    + unfold test_bit. destruct (decide (j = n)) as [-> | Hne].
      * by rewrite Z.setbit_eq by lia.
      * rewrite Z.setbit_neq; [by rewrite E|lia|]. intros Hm. apply Hne.
        apply same_bit; [done|]. lia.
    + destruct (decide (j = n)) as [-> | Hne]; done.
  - intros j. unfold clear_bit. rewrite test_bit_alter by done.
    destruct (decide (j / 8 = n / 8)%nat) as [E|E].
    + unfold test_bit. destruct (decide (j = n)) as [-> | Hne].
      * by rewrite Z.clearbit_eq by lia.
      * rewrite Z.clearbit_neq; [by rewrite E|]. intros Hm. apply Hne.
        apply same_bit; [done|]. lia.
    + destruct (decide (j = n)) as [-> | Hne]; done.
  - intros Hz. unfold clear_bit, set_bit. apply list_eq. intros i.
    destruct (decide (i = n / 8)%nat) as [-> | Hne].
    2:{ by rewrite !list_lookup_alter_ne. }
    rewrite !list_lookup_alter_eq. unfold test_bit, get_byte in Hz.
    destruct (data !! (n / 8)%nat) as [b|] eqn:Eb; [|done]. simpl in *. f_equal.
    apply Z.bits_inj'. intros m Hm. destruct (decide (m = Z.of_nat (n mod 8))) as [-> | ].
    + by rewrite Z.clearbit_eq by lia.
    + rewrite Z.clearbit_neq, Z.setbit_neq by (done || lia). done.
Qed.

Lemma find_first_zero_least_witness :
  bytes_ok (replicate 100 255 ++ [7] ++ replicate 923 0) /\
  test_bit (find_first_zero (replicate 100 255 ++ [7] ++ replicate 923 0))
    (replicate 100 255 ++ [7] ++ replicate 923 0) = false.
Proof.
  assert (H : bytes_ok (replicate 100 255 ++ [7] ++ replicate 923 0)).
  { apply Forall_app. split; [apply Forall_replicate; lia|].
    apply Forall_app. split; [by repeat constructor|apply Forall_replicate; lia]. }
  split; [done|].
  destruct (find_first_zero_least _ H) as (_ & _ & Hz). apply Hz.
  vm_compute. reflexivity.
Defined.
Lemma bitmap_set_clear_witness :
  test_bit 9 (set_bit 9 [1; 4]) = true /\ clear_bit 9 (set_bit 9 [1; 4]) = [1; 4].
Proof.
  destruct (bitmap_set_clear 9 [1; 4]) as (H1 & _ & H3).
  - by repeat constructor.
  - simpl. lia.
  - split; [exact (H1 9%nat)|]. by apply H3.
Defined.
