(* ===== verification/Inode.v ===== *)
(** The inode table: [fs/inode.c], and [new_inode] of [fs/bitmap.c].

    [sync_inodes] writes inodes through the buffer cache and the buffer cache
    calls [sync_inodes]; the last section ties the knot with a bound on the
    depth of that recursion. *)
From S2P Require Import Prelude Sched Mm Kernel Blk Buffer Bitmap.

(** * Locking *)

(** fs/inode.c:21-27 [wait_on_inode] *)
Definition wait_on_inode (i : nat) : M K unit :=
  sleep_while (fun k => truth (i_lock (inode_of k i))) (WInode i).

(** fs/inode.c:29-36 [lock_inode] *)
Definition lock_inode (i : nat) : M K unit :=
  sleep_while (fun k => truth (i_lock (inode_of k i))) (WInode i) ;;
  modify (upd_inode i (fun n => n <| i_lock := 1 |>)).

(** fs/inode.c:38-42 [unlock_inode] *)
Definition unlock_inode (i : nat) : M K unit :=
  modify (upd_inode i (fun n => n <| i_lock := 0 |>)) ;;
  wake_up_q (WInode i).

(** fs/inode.c:44-58 [invalidate_inodes] *)
Definition invalidate_inodes (dev : Z) : M K unit :=
  for_each (seq 0 NR_INODE) (fun i =>
    wait_on_inode i ;;
    n ← gets (fun k => inode_of k i) ;
    when (i_dev n =? dev)
      (when (truth (i_count n)) (printk "inode in use on removed disk" []) ;;
       modify (upd_inode i (fun n => n <| i_dirt := 0 |> <| i_dev := 0 |>)))).

(** * Inodes on the disk: [struct d_inode], 32 bytes *)

(** include/linux/fs.h:86-94 [d_inode]: the structure at offset 0 of [l] *)
Definition decode_inode (l : list Z) : d_inode :=
  DInode (le_value (take 2 l)) (le_value (take 2 (drop 2 l)))
    (le_value (take 4 (drop 4 l))) (le_value (take 4 (drop 8 l)))
    (get_byte l 12) (get_byte l 13)
    ((fun i => le_value (take 2 (drop (14 + 2 * i) l))) <$> seq 0 9).
(** fs/inode.c:337-339 [write_inode]: the bytes stored for an inode *)
Definition encode_inode (d : d_inode) : list Z :=
  le_bytes 2 (di_mode d) ++ le_bytes 2 (di_uid d) ++ le_bytes 4 (di_size d) ++
  le_bytes 4 (di_time d) ++ le_bytes 1 (di_gid d) ++ le_bytes 1 (di_nlinks d) ++
  concat (le_bytes 2 <$> take 9 (di_zone d)).

(** [*(struct d_inode * )inode]: an [m_inode] starts with the fields of a
    [d_inode] *)
Definition d_inode_of (n : m_inode) : d_inode :=
  DInode (i_mode n) (i_uid n) (i_size n) (i_mtime n) (i_gid n) (i_nlinks n) (i_zone n).
Definition set_d_inode (d : d_inode) (n : m_inode) : m_inode :=
  n <| i_mode := di_mode d |> <| i_uid := di_uid d |> <| i_size := di_size d |>
    <| i_mtime := di_time d |> <| i_gid := di_gid d |> <| i_nlinks := di_nlinks d |>
    <| i_zone := di_zone d |>.

(** fs/inode.c:309-310 [read_inode]: the block of inode [num] *)
Definition inode_block (s : super_block) (num : Z) : Z :=
  2 + s_imap_blocks s + s_zmap_blocks s + Z.quot (num - 1) INODES_PER_BLOCK.
(** fs/inode.c:337-338 [write_inode]: the place of inode [num] in its block *)
Definition inode_offset (num : Z) : nat := Z.to_nat (32 * Z.rem (num - 1) INODES_PER_BLOCK).

Section inode.
Context `{SyncInodes}.

(** fs/inode.c:300-318 [read_inode] *)
Definition read_inode (i : nat) : M K unit :=
  lock_inode i ;;
  n ← gets (fun k => inode_of k i) ;
  sb ← get_super (i_dev n) ;
  match sb with
  | None => panic "trying to read inode without dev"
  | Some sb =>
      k ← get ;
      let n := inode_of k i in
      bh ← bread (i_dev n) (inode_block (super_of k sb) (i_num n)) ;
      match bh with
      | None => panic "unable to read i-node block"
      | Some b =>
          modify (fun k => upd_inode i (fun n =>
            set_d_inode (decode_inode (drop (inode_offset (i_num n)) (b_data (bh_of k b)))) n) k) ;;
          brelse bh ;;
          unlock_inode i
      end
  end.

(** fs/inode.c:320-344 [write_inode] *)
Definition write_inode (i : nat) : M K unit :=
  lock_inode i ;;
  n ← gets (fun k => inode_of k i) ;
  if negb (truth (i_dirt n)) || (i_dev n =? 0) then unlock_inode i else
  sb ← get_super (i_dev n) ;
  match sb with
  | None => panic "trying to write inode without device"
  | Some sb =>
      k ← get ;
      let n := inode_of k i in
      bh ← bread (i_dev n) (inode_block (super_of k sb) (i_num n)) ;
      match bh with
      | None => panic "unable to read i-node block"
      | Some b =>
          modify (fun k => upd_bh b (fun x => x <| b_data ::=
            put_at (inode_offset (i_num (inode_of k i)))
              (encode_inode (d_inode_of (inode_of k i))) |>) k) ;;
          modify (upd_bh b (fun x => x <| b_dirt := 1 |>)) ;;
          modify (upd_inode i (fun n => n <| i_dirt := 0 |>)) ;;
          brelse bh ;;
          unlock_inode i
      end
  end.

(** * The zones of a file *)

(** fs/inode.c:82-88 [_bmap]: a zone entry of the inode, allocated on demand *)
Definition inode_zone (i z : nat) (create : bool) : M K unit :=
  k ← get ;
  when (create && (zone k i z =? 0))
    (v ← new_block (i_dev (inode_of k i)) ;
     modify (set_zone i z v) ;;
     when (truth (u16 v))
       (modify (fun k => upd_inode i (fun n =>
          n <| i_ctime := now k |> <| i_dirt := 1 |>) k))).

(** fs/inode.c:99-108 [_bmap]: entry [w] of the indirect block [block], allocated
    on demand *)
Definition indirect (i : nat) (block : Z) (w : nat) (create : bool) : M K Z :=
  dev ← gets (fun k => i_dev (inode_of k i)) ;
  bh ← bread dev block ;
  match bh with
  | None => mret 0
  | Some b =>
      e ← gets (fun k => get_word (b_data (bh_of k b)) w) ;
      e ← (if create && (e =? 0) then
             dev ← gets (fun k => i_dev (inode_of k i)) ;
             v ← new_block dev ;
             when (truth v)
               (modify (upd_bh b (fun x => x <| b_data ::= set_word w v |>
                                              <| b_dirt := 1 |>))) ;;
             mret v
           else mret e) ;
      brelse bh ;;
      mret e
  end.

(** fs/inode.c:73-139 [_bmap] *)
Definition _bmap (i : nat) (block : Z) (create : bool) : M K Z :=
  if block <? 0 then panic "_bmap: block<0" else
  if 7 + 512 + 512 * 512 <=? block then panic "_bmap: block>big" else
  if block <? 7 then
    inode_zone i (Z.to_nat block) create ;;
    gets (fun k => zone k i (Z.to_nat block))
  else
  let block := block - 7 in
  if block <? 512 then
    inode_zone i 7 create ;;
    z ← gets (fun k => zone k i 7) ;
    if z =? 0 then mret 0 else indirect i z (Z.to_nat block) create
  else
  let block := block - 512 in
  inode_zone i 8 create ;;
  z ← gets (fun k => zone k i 8) ;
  if z =? 0 then mret 0 else
  z ← indirect i z (Z.to_nat (block .>> 9)) create ;
  if z =? 0 then mret 0 else
  indirect i z (Z.to_nat (block .& 511)) create.

(** fs/inode.c:141-144 [bmap] *)
Definition bmap (i : nat) (block : Z) : M K Z := _bmap i block false.
(** fs/inode.c:146-149 [create_block] *)
Definition create_block (i : nat) (block : Z) : M K Z := _bmap i block true.

(** * Reference counts *)

(** fs/inode.c:176-192 [iput]: from [repeat:] on *)
Definition iput_last (i : nat) : M K unit :=
  repeat_awake (
    n ← gets (fun k => inode_of k i) ;
    if 1 <? i_count n then
      modify (upd_inode i (fun n => n <| i_count ::= fun c => c - 1 |>)) ;; mret (Some tt)
    else if negb (truth (i_nlinks n)) then
      truncate i ;; free_inode (Some i) ;; mret (Some tt)
    else if truth (i_dirt n) then
      write_inode i ;; wait_on_inode i ;; mret None
    else
      modify (upd_inode i (fun n => n <| i_count ::= fun c => u16 (c - 1) |>)) ;;
      mret (Some tt)).

(** fs/inode.c:151-193 [iput] *)
Definition iput (inode : option nat) : M K unit :=
  match inode with
  | None => mret tt
  | Some i =>
      wait_on_inode i ;;
      n ← gets (fun k => inode_of k i) ;
      if i_count n =? 0 then panic "iput: trying to free free inode" else
      if truth (i_pipe n) then
        wake_up_q (WInode i) ;;
        modify (upd_inode i (fun n => n <| i_count ::= fun c => u16 (c - 1) |>)) ;;
        n ← gets (fun k => inode_of k i) ;
        if truth (i_count n) then mret tt else
        in_mm (free_page (i_size n)) ;;
        modify (upd_inode i (fun n =>
          n <| i_count := 0 |> <| i_dirt := 0 |> <| i_pipe := 0 |>))
      else if i_dev n =? 0 then
        modify (upd_inode i (fun n => n <| i_count ::= fun c => u16 (c - 1) |>))
      else
      when (S_ISBLK (i_mode n))
        (sync_dev (get_byte (i_zone n) 0) ;; wait_on_inode i) ;;
      iput_last i
  end.

(** fs/inode.c:202-211 [get_empty_inode]: the search from [last_inode] on, [n]
    steps left; [inode] is the best so far *)
Fixpoint search_empty (n : nat) (tbl : list m_inode) (last : nat) (inode : option nat) :
    nat * option nat :=
  match n with
  | O => (last, inode)
  | S n' =>
      let last := if (NR_INODE <=? S last)%nat then 0%nat else S last in
      let x := default zero_inode (tbl !! last) in
      if i_count x =? 0 then
        if negb (truth (i_dirt x)) && negb (truth (i_lock x)) then (last, Some last)
        else search_empty n' tbl last (Some last)
      else search_empty n' tbl last inode
  end.

(** fs/inode.c:219-222 [get_empty_inode]: [while (inode->i_dirt)] *)
Definition write_back (i : nat) : M K unit :=
  repeat_awake (
    n ← gets (fun k => inode_of k i) ;
    if truth (i_dirt n) then write_inode i ;; wait_on_inode i ;; mret None
    else mret (Some tt)).

(** fs/inode.c:195-227 [get_empty_inode] *)
Definition get_empty_inode : M K nat :=
  i ← repeat_awake (
    k ← get ;
    let r := search_empty NR_INODE (inode_table k) (last_inode k) None in
    modify (fun k => k <| last_inode := r.1 |>) ;;
    match r.2 with
    | None =>
        for_each (inode_table k) (fun n => printk "%04x: %6d" [i_dev n; i_num n]) ;;
        panic "No free inodes in mem"
    | Some i =>
        wait_on_inode i ;;
        write_back i ;;
        c ← gets (fun k => i_count (inode_of k i)) ;
        if truth c then mret None else mret (Some i)
    end) ;
  modify (upd_inode i (fun _ => zero_inode <| i_count := 1 |>)) ;;
  mret i.

(** fs/inode.c:229-243 [get_pipe_inode] *)
Definition get_pipe_inode : M K (option nat) :=
  i ← get_empty_inode ;
  p ← in_mm get_free_page ;
  modify (upd_inode i (fun n => n <| i_size := p |>)) ;;
  if p =? 0 then modify (upd_inode i (fun n => n <| i_count := 0 |>)) ;; mret None else
  modify (upd_inode i (fun n => n <| i_count := 2 |>
    <| i_zone ::= fun z => <[0%nat := 0]> (<[1%nat := 0]> z) |> <| i_pipe := 1 |>)) ;;
  mret (Some i).

(** fs/inode.c:269-271 [iget]: the super block mounted on [inode] *)
Fixpoint mounted_on (n : nat) (i : nat) (k : K) (inode : nat) : option nat :=
  match n with
  | O => None
  | S n' => if bool_decide (s_imount (super_of k i) = Some inode) then Some i
            else mounted_on n' (S i) k inode
  end.

(** fs/inode.c:254-289 [iget]: the loop over the table, at [pos], for inode [nr] of
    [dev]; the result is the inode found, or the device and number to read *)
Fixpoint iget_loop (fuel : nat) (pos : nat) (empty : nat) (dev nr : Z) :
    M K (nat + Z * Z) :=
  match fuel with
  | O => out_of_fuel
  | S f =>
      if (NR_INODE <=? pos)%nat then mret (inr (dev, nr)) else
      n ← gets (fun k => inode_of k pos) ;
      if negb ((i_dev n =? dev) && (i_num n =? nr)) then iget_loop f (S pos) empty dev nr
      else
      wait_on_inode pos ;;
      n ← gets (fun k => inode_of k pos) ;
      if negb ((i_dev n =? dev) && (i_num n =? nr)) then iget_loop f 0 empty dev nr
      else
      modify (upd_inode pos (fun n => n <| i_count ::= fun c => u16 (c + 1) |>)) ;;
      if truth (i_mount n) then
        k ← get ;
        match mounted_on NR_SUPER 0 k pos with
        | None =>
            printk "Mounted inode hasn't got sb" [] ;;
            iput (Some empty) ;;
            mret (inl pos)
        | Some s =>
            iput (Some pos) ;;
            dev ← gets (fun k => s_dev (super_of k s)) ;
            iget_loop f 0 empty dev ROOT_INO
        end
      else iput (Some empty) ;; mret (inl pos)
  end.

(** Each restart of [iget]'s loop has slept or has crossed a mount point. *)
Definition IGET_FUEL (sc : list (K -> K)) : nat :=
  (S NR_INODE * (2 + NR_SUPER + length sc))%nat.

(** fs/inode.c:246-298 [iget] *)
Definition iget (dev nr : Z) : M K nat :=
  if dev =? 0 then panic "iget with dev==0" else
  empty ← get_empty_inode ;
  r ← (fun s w => iget_loop (IGET_FUEL (script w)) 0 empty dev nr s w) ;
  match r with
  | inl i => mret i
  | inr (dev, nr) =>
      modify (upd_inode empty (fun n => n <| i_dev := u16 dev |> <| i_num := u16 nr |>)) ;;
      read_inode empty ;;
      mret empty
  end.

(** fs/bitmap.c:143-175 [new_inode] *)
Definition new_inode (dev : Z) : M K (option nat) :=
  i ← get_empty_inode ;
  sb ← get_super dev ;
  match sb with
  | None => panic "new_inode with unknown device"
  | Some sb =>
      k ← get ;
      let s := super_of k sb in
      match find_zero_map k 0 (take 8 (s_imap s)) with
      | None => iput (Some i) ;; mret None
      | Some (m, bh, j) =>
          if s_ninodes s <? Z.of_nat j + Z.of_nat m * 8192
          then iput (Some i) ;; mret None else
          let old := test_bit j (b_data (bh_of k bh)) in
          modify (upd_bh bh (fun x => x <| b_data ::= set_bit j |>)) ;;
          if (old : bool) then panic "new_inode: bit already set" else
          modify (upd_bh bh (fun x => x <| b_dirt := 1 |>)) ;;
          modify (fun k => upd_inode i (fun n =>
            n <| i_count := 1 |> <| i_nlinks := 1 |> <| i_dev := u16 dev |>
              <| i_uid := euid (cur k) |> <| i_gid := u8 (egid (cur k)) |>
              <| i_dirt := 1 |> <| i_num := u16 (Z.of_nat j + Z.of_nat m * 8192) |>
              <| i_ctime := now k |> <| i_atime := now k |> <| i_mtime := now k |>) k) ;;
          mret (Some i)
      end
  end.

(** fs/inode.c:60-71 [sync_inodes]: one turn of it, over the cache that calls the
    turn before *)
Definition sync_inodes_body : M K unit :=
  for_each (seq 0 NR_INODE) (fun i =>
    wait_on_inode i ;;
    n ← gets (fun k => inode_of k i) ;
    when (truth (i_dirt n) && negb (truth (i_pipe n))) (write_inode i)).
End inode.

(** * The knot

    fs/inode.c:60-71 [sync_inodes] *)
Fixpoint sync_inodes_n (depth : nat) : SyncInodes :=
  match depth with
  | O => out_of_fuel
  | S d => @sync_inodes_body (sync_inodes_n d)
  end.

(** * Properties *)


Lemma le_value_1 x : 0 <= x < 256 -> default 0 (Some (u8 x)) = x.
Proof. intros. by apply u8_small. Qed.







(** ** The search for a free inode *)
Definition free_at (tbl : list m_inode) (i : nat) : Prop :=
  i_count (default zero_inode (tbl !! i)) = 0.
(** The slot [n] steps after [last], round the table. *)
Definition step_from (last n : nat) : nat := ((last + n) mod NR_INODE)%nat.

Lemma step_from_S last n : (last < NR_INODE)%nat ->
  step_from (if (NR_INODE <=? S last)%nat then 0%nat else S last) n = step_from last (S n).
Proof.
  unfold step_from. intros Hl. destruct (Nat.leb_spec NR_INODE (S last)).
  - replace (last + S n)%nat with (n + 1 * NR_INODE)%nat by lia.
    by rewrite Nat.Div0.mod_add.
  - f_equal. lia.
Qed.

Definition clean_at (tbl : list m_inode) (i : nat) : Prop :=
  i_dirt (default zero_inode (tbl !! i)) = 0 /\ i_lock (default zero_inode (tbl !! i)) = 0.

Lemma search_empty_spec n tbl : forall last best, (last < NR_INODE)%nat ->
  match (search_empty n tbl last best).2 with
  | Some i =>
      (best = Some i \/ free_at tbl i /\ exists m, (1 <= m <= n)%nat /\ i = step_from last m) /\
      (clean_at tbl i \/ forall m, (1 <= m <= n)%nat -> free_at tbl (step_from last m) ->
         ~ clean_at tbl (step_from last m))
  | None => best = None /\ forall m, (1 <= m <= n)%nat -> ~ free_at tbl (step_from last m)
  end.
Proof.
  induction n as [|n IH]; intros last best Hl; cbn [search_empty].
  { simpl. destruct best; [split; [by left|right; lia]|]. split; [done|]. lia. }
  set (l' := if (NR_INODE <=? S last)%nat then 0%nat else S last).
  assert (Hl' : (l' < NR_INODE)%nat).
  { unfold l'. destruct (Nat.leb_spec NR_INODE (S last)); [unfold NR_INODE in *; lia|lia]. }
  assert (El : l' = step_from last 1).
  { unfold l', step_from. destruct (Nat.leb_spec NR_INODE (S last)).
    - replace (last + 1)%nat with NR_INODE by lia. by rewrite Nat.Div0.mod_same.
    - rewrite Nat.mod_small by lia. lia. }
  assert (Hs : forall m, step_from l' m = step_from last (S m)) by (intros m; by apply step_from_S).
  (* a fact about the slots that the rest of the search visits, and about [l'] *)
  assert (Hall : forall P : nat -> Prop, P l' -> (forall m, (1 <= m <= n)%nat -> P (step_from l' m)) ->
    forall m, (1 <= m <= S n)%nat -> P (step_from last m)).
  { intros P H1 Hn m Hm. destruct (decide (m = 1%nat)) as [-> | ]; [by rewrite <- El|].
    replace m with (S (m - 1)) by lia. rewrite <- Hs. apply Hn. lia. }
  assert (Hex : forall i, (exists m, (1 <= m <= n)%nat /\ i = step_from l' m) ->
    exists m, (1 <= m <= S n)%nat /\ i = step_from last m).
  { intros i (m & Hm & ->). exists (S m). split; [lia|apply Hs]. }
  assert (H1 : exists m, (1 <= m <= S n)%nat /\ l' = step_from last m)
    by (exists 1%nat; split; [lia|done]).
  cbv zeta. set (x := default zero_inode (tbl !! l')).
  destruct (Z.eqb_spec (i_count x) 0) as [Hc|Hc].
  - unfold truth. rewrite !negb_involutive.
    destruct (Z.eqb_spec (i_dirt x) 0) as [Hd|Hd]; [destruct (Z.eqb_spec (i_lock x) 0) as [Hk|Hk]|];
      cbn [andb]; [by split; [right|left]| |];
      (assert (Hnc : ~ clean_at tbl l') by (intros [? ?]; done));
      specialize (IH l' (Some l') Hl'); destruct (search_empty n tbl l' (Some l')).2 as [i|];
      try (by destruct IH).
    all: destruct IH as [Hi Hclean]; split.
    1, 3: destruct Hi as [[= <-] | [Hf Hm]]; right; [done|split; [done|by apply Hex]].
    all: destruct Hclean as [?|Hclean]; [by left|right];
      apply (Hall (fun i => free_at tbl i -> ~ clean_at tbl i)); [done|exact Hclean].
  - specialize (IH l' best Hl'). destruct (search_empty n tbl l' best).2 as [i|].
    + destruct IH as [Hi Hclean]. split.
      * destruct Hi as [?|[Hf Hm]]; [by left|right; split; [done|by apply Hex]].
      * destruct Hclean as [?|Hclean]; [by left|right].
        apply (Hall (fun i => free_at tbl i -> ~ clean_at tbl i)); [done|exact Hclean].
    + destruct IH as [-> Hn]. split; [done|]. by apply (Hall (fun i => ~ free_at tbl i)).
Qed.

(** The whole round visits every slot. *)
Lemma step_from_all last i : (last < NR_INODE)%nat -> (i < NR_INODE)%nat ->
  exists m, (1 <= m <= NR_INODE)%nat /\ i = step_from last m.
Proof.
  intros Hl Hi. unfold step_from. destruct (decide (last < i)%nat).
  - exists (i - last)%nat. split; [lia|]. rewrite Nat.mod_small by lia. lia.
  - exists (i + NR_INODE - last)%nat. split; [lia|].
    replace (last + (i + NR_INODE - last))%nat with (i + 1 * NR_INODE)%nat by lia.
    rewrite Nat.Div0.mod_add, Nat.mod_small by lia. done.
Qed.

(** The search of [get_empty_inode] goes once round the table: it finds an inode
    that nobody uses unless all are in use, and settles for a dirty or locked one
    only when no unused inode is clean and unlocked. *)
Theorem search_empty_round tbl last : (last < NR_INODE)%nat ->
  match (search_empty NR_INODE tbl last None).2 with
  | Some i => (i < NR_INODE)%nat /\ free_at tbl i /\
      (clean_at tbl i \/ forall j, (j < NR_INODE)%nat -> free_at tbl j -> ~ clean_at tbl j)
  | None => forall j, (j < NR_INODE)%nat -> ~ free_at tbl j
  end.
Proof.
  intros Hl. pose proof (search_empty_spec NR_INODE tbl last None Hl) as H.
  destruct (search_empty NR_INODE tbl last None).2 as [i|].
  - destruct H as [[? | [Hf (m & Hm & ->)]] Hc]; [done|]. split; [|split; [done|]].
    + apply Nat.mod_upper_bound. done.
    + destruct Hc as [?|Hc]; [by left|right]. intros j Hj.
      destruct (step_from_all last j Hl Hj) as (m' & Hm' & ->). by apply Hc.
  - destruct H as [_ Hn]. intros j Hj.
    destruct (step_from_all last j Hl Hj) as (m & Hm & ->). by apply Hn.
Qed.
Definition sample_inodes : list m_inode :=
  replicate 5 (zero_inode <| i_count := 1 |>) ++ [zero_inode <| i_dirt := 1 |>] ++
  replicate 26 (zero_inode <| i_count := 2 |>).
Lemma search_empty_round_witness :
  (search_empty NR_INODE sample_inodes 30 None).2 = Some 5%nat /\ free_at sample_inodes 5.
Proof.
  assert (E : (search_empty NR_INODE sample_inodes 30 None).2 = Some 5%nat)
    by (vm_compute; reflexivity).
  split; [exact E|].
  pose proof (search_empty_round sample_inodes 30 ltac:(unfold NR_INODE; lia)) as H.
  rewrite E in H. apply H.
Defined.
