(* ===== verification/Fault.v ===== *)
(** Demand loading: do_no_page of mm/memory.c, and what it gives a page beyond the
    program. *)
From S2P Require Import Prelude Sched Mm Tables Kernel Fork Buffer Bitmap Inode.

#[local] Arguments page_addr : simpl never.

Section do_no_page.
Context `{SyncInodes}.

(** mm/memory.c:402-403 [do_no_page]: the blocks of the page *)
Fixpoint page_blocks (n : nat) (inode : nat) (block : Z) : M K (list Z) :=
  match n with
  | O => mret []
  | S n' =>
      b ← bmap inode block ;
      l ← page_blocks n' inode (block + 1) ;
      mret (b :: l)
  end.

(** mm/memory.c:381-417 [do_no_page] *)
Definition do_no_page (error_code address : Z) : M K unit :=
  let address := address .& 0xfffff000 in
  t ← gets cur ;
  let tmp := u32 (address - start_code t) in
  match executable t with
  | None => in_mm (get_empty_page address)
  | Some inode =>
      if end_data t <=? tmp then in_mm (get_empty_page address) else
      k ← get ;
      r ← in_mm (share_page (fun i => i_count (inode_of k i)) (task (k_sched k))
                   (current (k_sched k)) t tmp) ;
      if truth r then mret tt else
      page ← in_mm get_free_page ;
      if negb (truth page) then in_mm oom else
      nr ← page_blocks 4 inode (1 + tmp / BLOCK_SIZE) ;
      dev ← gets (fun k => i_dev (inode_of k inode)) ;
      bread_page page dev nr ;;
      t ← gets cur ;
      let i := s32 (tmp + 4096 - end_data t) in
      when (0 <? i) (modify (kmem_put (page + 4096 - i) (repeat 0 (Z.to_nat i)))) ;;
      r ← in_mm (put_page page address) ;
      if truth r then mret tt else
      in_mm (free_page page) ;;
      in_mm oom
  end.
End do_no_page.

(** ** A page beyond the program *)

(** Fewer than two pages of main memory are free. *)
Definition few_pages (s : mm) : Prop := forall p q, 0 <= p < PAGING_PAGES ->
  0 <= q < PAGING_PAGES -> mem_map s p = 0 -> mem_map s q = 0 -> p = q.

(** What the fault leaves: the page of [va] is mapped to a page of zeros. *)
Record blank_page (s : mm) (va : Z) (s' : mm) : Prop := {
  bp_wf : wf_mm s';
  bp_page : exists p, 0 <= p < PAGING_PAGES /\ mem_map s p = 0 /\
    translate s' va = Some (page_addr p) /\
    forall x, 0 <= x < 4096 -> mem s' (page_addr p + x) = 0;
  bp_other : forall va', is_va va' -> va' / 4096 <> va / 4096 -> translate s' va' = translate s va';
}.
Lemma get_empty_page_run s w va : wf_mm s -> is_va va -> va mod 4096 = 0 -> user_page (va / 4096) ->
  (exists s', get_empty_page va s w = Exited SIGSEGV s' /\ few_pages s) \/
  (exists s' w', get_empty_page va s w = Ret tt s' w' /\ blank_page s va s').
Proof.
  intros Hwf Hva Hal Hu. unfold get_empty_page.
  destruct (get_free_page_cases s w) as [[E Hn] | (p & E & Hp & H0 & Hmax)];
    rewrite (run_ret _ _ _ _ _ _ _ E).
  { left. eexists. split; [reflexivity|]. intros a b Ha Hb Ea. by destruct (Hn a Ha). }
  rewrite truth_page by lia. rewrite run_assoc.
  destruct (take_page_new s p Hwf Hp H0) as (Hm & Hc & Hr & _ & Hnt).
  pose proof (take_page_wf s p Hwf Hp H0) as Hwf1.
  destruct (put_page_run p va (take_page p s) w Hwf1 Hva Hu Hm ltac:(lia) Hr Hnt)
    as (r & s2 & w2 & E2 & Hz & Hnz).
  rewrite (run_ret _ _ _ _ _ _ _ E2), run_mret. unfold truth.
  destruct (Z.eqb_spec r 0) as [-> | Hne]; cbn [negb].
  - left. destruct (Hz eq_refl) as (-> & _ & Hn).
    assert (Ef : free_page (page_addr p) (take_page p s) w2 =
      Ret tt (take_page p s <| mem_map ::= upd p 0 |>) w2).
    { rewrite free_page_run. rewrite (proj2 (Z.ltb_ge _ _)) by (unfold page_addr; lia).
      rewrite (proj2 (Z.leb_gt _ _)) by apply Hm.
      replace ((page_addr p - LOW_MEM) / 4096) with p by (unfold page_addr; zlia).
      cbv zeta. by rewrite Hc. }
    rewrite (run_ret _ _ _ _ _ _ _ Ef). eexists. split; [reflexivity|].
    assert (Hone : forall a, 0 <= a < PAGING_PAGES -> mem_map s a = 0 -> a = p).
    { intros a Ha Ea. destruct (decide (a = p)) as [|Hne]; [done|]. exfalso. apply (Hn a Ha).
      rewrite take_page_map. by destruct (Z.eqb_spec a p). }
    intros a b Ha Hb Ea Eb. by rewrite (Hone a), (Hone b).
  - right. destruct (Hnz Hne) as (_ & Hwf2 & Ht & Ho & Hx). do 2 eexists. split; [reflexivity|].
    split; [done| |].
    + exists p. split; [done|]. split; [done|]. split; [by rewrite Ht, Hal, Z.add_0_r|].
      intros x Hxx. rewrite Hx by done. apply take_page_inside. lia.
    + intros va' Hva' Hne'. rewrite Ho by done. unfold translate.
      by rewrite take_page_vmap by (done || by apply va_page).
Qed.

(** C14. mm/memory.c do_no_page for an address beyond the data of the program, or of a task
    without one: the page of the address is mapped to a free page filled with zeros, all
    other addresses translate as before, and the invariant of the address spaces is
    kept; the task is ended only when fewer than two pages of main memory are free. *)
Theorem do_no_page_blank `{SyncInodes} k w ec va : wf_mm (k_mm k) -> is_va va -> user_page (va / 4096) ->
  executable (cur k) = None \/ end_data (cur k) <= u32 (va - va mod 4096 - start_code (cur k)) ->
  (exists k', do_no_page ec va k w = Exited SIGSEGV k' /\ few_pages (k_mm k)) \/
  (exists s w', do_no_page ec va k w = Ret tt (k <| k_mm := s |>) w' /\
     wf_mm s /\
     (exists p, 0 <= p < PAGING_PAGES /\ mem_map (k_mm k) p = 0 /\
        translate s va = Some (page_addr p + va mod 4096) /\
        forall x, 0 <= x < 4096 -> mem s (page_addr p + x) = 0) /\
     (forall va', is_va va' -> va' / 4096 <> va / 4096 -> translate s va' = translate (k_mm k) va')).
Proof.
  intros Hwf Hva Hu Hb. unfold is_va in Hva. set (va0 := va - va mod 4096).
  assert (E0 : va .& 0xfffff000 = va0) by (rewrite Z.land_comm; apply land_fffff000; lia).
  assert (Ev : va0 / 4096 = va / 4096) by (unfold va0; zlia).
  assert (Er : do_no_page ec va k w = in_mm (get_empty_page va0) k w).
  { unfold do_no_page. rewrite E0. rewrite run_gets. fold va0 in Hb.
    destruct (executable (cur k)) as [i|]; [|done]. destruct Hb as [|Hb]; [done|].
    by rewrite (proj2 (Z.leb_le _ _) Hb). }
  rewrite Er. unfold in_mm, liftM.
  destruct (get_empty_page_run (k_mm k) (World [] (log w)) va0) as [(s & E & Hf) | (s & w' & E & [Hwf' Hp Ho])];
    [done|unfold is_va; zlia|unfold va0; zlia|by rewrite Ev|..]; rewrite E.
  - left. by eexists.
  - right. do 2 eexists. split; [reflexivity|]. split; [done|]. rewrite Ev in Ho. split; [|done].
    destruct Hp as (p & Hp & H0 & Ht & Hx). exists p. do 2 (split; [done|]). split; [|done].
    unfold translate in *. rewrite Ev in Ht. destruct (vmap s (va / 4096)) as [e|]; [|done].
    injection Ht as Ht. f_equal. unfold va0 in Ht. zlia.
Qed.
Definition fault_sample : K := fork_sample <| k_mm := sample_mm |>.
Lemma do_no_page_blank_witness : exists s w' p,
  do_no_page (H := mret tt) 0 0x8000123 fault_sample (World [] []) =
    Ret tt (fault_sample <| k_mm := s |>) w' /\
  translate s 0x8000123 = Some (page_addr p + 0x123).
Proof.
  destruct (do_no_page_blank (H := mret tt) fault_sample (World [] []) 0 0x8000123 sample_mm_wf)
    as [(k' & _ & Hf) | (s & w' & E & _ & (p & _ & _ & Ht & _) & _)].
  - done.
  - done.
  - by left.
  - specialize (Hf 400 401 ltac:(done) ltac:(done) eq_refl eq_refl). lia.
  - exists s, w', p. split; [exact E|exact Ht].
Defined.
