(* ===== verification/Cache.v ===== *)
(** The invariant of the buffer cache and its preservation.

    Every buffer head is in the ring of the free list; a buffer head with a device
    is in the chain of the hash table its device and block select, and nowhere
    else; no block is cached twice. *)
From S2P Require Import Prelude Links Sched Mm Kernel Blk Buffer Bitmap Inode.

(** The link fields as functions. *)
Definition nxF (k : K) (i : nat) : option nat := b_next_free (bh_of k i).
Definition pvF (k : K) (i : nat) : option nat := b_prev_free (bh_of k i).
Definition nxH (k : K) (i : nat) : option nat := b_next (bh_of k i).
Definition pvH (k : K) (i : nat) : option nat := b_prev (bh_of k i).
Definition dev (k : K) (i : nat) : Z := b_dev (bh_of k i).
Definition blk (k : K) (i : nat) : Z := b_blocknr (bh_of k i).
Definition bucket (k : K) (i : nat) : nat := hashfn (dev k i) (blk k i).

(** The free list is the ring [R] of all buffers. *)
Definition ring_ok (k : K) (R : list nat) : Prop :=
  R ≡ₚ seq 0 (NR_BUFFERS k) /\ ring (nxF k) (pvF k) R /\ free_list k = head R.

(** The hash table: the chains [C], of every buffer but [out]. *)
Record chains_ok (k : K) (C : nat -> list nat) (out : option nat) : Prop := {
  ch_len : length (hash_table k) = NR_HASH;
  ch_head : forall h, (h < NR_HASH)%nat -> hash_table k !! h = Some (head (C h));
  ch_links : forall h, dchain (nxH k) (pvH k) None (C h);
  ch_nodup : forall h, NoDup (C h);
  ch_sound : forall h x, x ∈ C h ->
    (x < NR_BUFFERS k)%nat /\ dev k x <> 0 /\ bucket k x = h /\ Some x <> out;
  ch_complete : forall x, (x < NR_BUFFERS k)%nat -> dev k x <> 0 -> Some x <> out ->
    x ∈ C (bucket k x);
  ch_off : forall x, (x < NR_BUFFERS k)%nat -> dev k x = 0 -> Some x <> out ->
    nxH k x = None /\ pvH k x = None;
}.

Record cache_ok (k : K) : Prop := {
  co_many : (2 <= NR_BUFFERS k)%nat;
  co_ring : exists R, ring_ok k R;
  co_chains : exists C, chains_ok k C None;
  co_unique : forall x y, (x < NR_BUFFERS k)%nat -> (y < NR_BUFFERS k)%nat ->
    dev k x <> 0 -> dev k x = dev k y -> blk k x = blk k y -> x = y;
}.

Lemma hashfn_lt d b : (hashfn d b < NR_HASH)%nat.
Proof.
  unfold hashfn, NR_HASH. pose proof (Z.mod_pos_bound (u32 (d .^ b)) 307). lia.
Qed.

(** ** The fields after an update *)
Lemma field_upd {A} (g : buffer_head -> A) k i f j : (i < NR_BUFFERS k)%nat ->
  g (bh_of (upd_bh i f k) j) = if decide (j = i) then g (f (bh_of k i)) else g (bh_of k j).
Proof. intros Hi. rewrite bh_of_upd by done. by destruct (decide (j = i)). Qed.

(** A store that does not touch a field of the links. *)
Lemma field_keep {A} (g : buffer_head -> A) k i f j : (forall b, g (f b) = g b) ->
  g (bh_of (upd_bh i f k) j) = g (bh_of k j).
Proof.
  intros Hf. unfold bh_of, upd_bh; simpl. destruct (decide (j = i)) as [-> | ].
  - rewrite list_lookup_alter_eq. by destruct (buffers k !! i); simpl.
  - by rewrite list_lookup_alter_ne.
Qed.

(** Two states that agree on everything the invariant speaks of. *)
Record same_links (k k' : K) : Prop := {
  sl_n : NR_BUFFERS k' = NR_BUFFERS k;
  sl_free : free_list k' = free_list k;
  sl_hash : hash_table k' = hash_table k;
  sl_nxF : forall i, nxF k' i = nxF k i;
  sl_pvF : forall i, pvF k' i = pvF k i;
  sl_nxH : forall i, nxH k' i = nxH k i;
  sl_pvH : forall i, pvH k' i = pvH k i;
  sl_dev : forall i, dev k' i = dev k i;
  sl_blk : forall i, blk k' i = blk k i;
}.

Lemma ring_pointwise nf pf nf' pf' l : (forall i, nf' i = nf i) -> (forall i, pf' i = pf i) ->
  ring nf pf l -> ring nf' pf' l.
Proof. intros Hn Hp. destruct l; [done|]. apply path_ext; auto. Qed.

Lemma same_links_ok k k' : same_links k k' -> cache_ok k -> cache_ok k'.
Proof.
  intros [Hn Hf Hh H1 H2 H3 H4 H5 H6] [Hm [R (HR & Hring & Hhd)] [C [L1 L2 L3 L4 L5 L6 L7]] Hu].
  split.
  - by rewrite Hn.
  - exists R. split; [by rewrite Hn|]. split; [|congruence].
    revert Hring. by apply ring_pointwise.
  - assert (Hb : forall x, bucket k' x = bucket k x)
      by (intros x; unfold bucket; by rewrite H5, H6).
    exists C. split.
    + by rewrite Hh.
    + by rewrite Hh.
    + intros h. apply (dchain_ext (nxH k) (pvH k)); auto.
    + done.
    + intros h x Hx. rewrite Hn, H5, Hb. by apply L5.
    + intros x. rewrite Hn, H5, Hb. apply L6.
    + intros x. rewrite Hn, H5, H3, H4. apply L7.
  - intros x y. rewrite Hn, !H5, !H6. apply Hu.
Qed.

Lemma cache_ok_upd_bh i f k :
  (forall b, b_next_free (f b) = b_next_free b /\ b_prev_free (f b) = b_prev_free b /\
     b_next (f b) = b_next b /\ b_prev (f b) = b_prev b /\ b_dev (f b) = b_dev b /\
     b_blocknr (f b) = b_blocknr b) ->
  cache_ok k -> cache_ok (upd_bh i f k).
Proof.
  intros Hf. apply same_links_ok.
  split; [apply NR_BUFFERS_upd | done | done |..]; intros j;
    unfold nxF, pvF, nxH, pvH, dev, blk; apply field_keep; apply Hf.
Qed.

(** * Taking a buffer out: [remove_from_queues] *)

Definition set_next_bh (i : nat) (v : option nat) := upd_bh i (fun x => x <| b_next := v |>).
Definition set_prev_bh (i : nat) (v : option nat) := upd_bh i (fun x => x <| b_prev := v |>).
Definition set_nextf (i : nat) (v : option nat) := upd_bh i (fun x => x <| b_next_free := v |>).
Definition set_prevf (i : nat) (v : option nat) := upd_bh i (fun x => x <| b_prev_free := v |>).

(** What a buffer head holds besides its links; the two queue operations leave it
    alone, and the other tables. *)
Definition core (b : buffer_head) : buffer_head :=
  b <| b_prev := None |> <| b_next := None |> <| b_prev_free := None |>
    <| b_next_free := None |>.
Definition aside (k : K) : list m_inode * list super_block * Z * (Z -> Z) :=
  (inode_table k, supers k, ROOT_DEV k, umem k).
Definition same_rest (k k' : K) : Prop :=
  aside k' = aside k /\ forall i, core (bh_of k' i) = core (bh_of k i).

Lemma core_upd_at p f k i : (forall b, core (f b) = core b) ->
  core (bh_of (upd_bh_at p f k) i) = core (bh_of k i).
Proof.
  intros Hf. destruct p as [j|]; [by apply field_keep|]. unfold bh_of. simpl.
  destruct (buffers k !! i); [done|apply Hf].
Qed.
Lemma same_rest_trans k1 k2 k3 : same_rest k1 k2 -> same_rest k2 k3 -> same_rest k1 k3.
Proof. intros [H1 H2] [H3 H4]. split; [congruence|]. intros i. by rewrite H4, H2. Qed.

(** Out of its hash chain ... *)
Definition unlink1 (bh : nat) (k : K) : K :=
  match nxH k bh with Some n => set_prev_bh n (pvH k bh) k | None => k end.
Definition unlink2 (bh : nat) (k : K) : K :=
  match pvH k bh with Some p => set_next_bh p (nxH k bh) k | None => k end.
Definition unlink3 (bh : nat) (k : K) : K :=
  if decide (hash k (dev k bh) (blk k bh) = Some bh)
  then set_hash (dev k bh) (blk k bh) (nxH k bh) k else k.
Definition unhash (bh : nat) (k : K) : K := unlink3 bh (unlink2 bh (unlink1 bh k)).
(** ... and out of the free list, between [p] and [q]. *)
Definition unring (bh p q : nat) (k : K) : K :=
  let k2 := set_prevf q (Some p) (set_nextf p (Some q) k) in
  if decide (free_list k = Some bh) then k2 <| free_list := nxF k2 bh |> else k2.

Lemma remove_run bh k w p q :
  let ku := unhash bh k in
  pvF ku bh = Some p -> nxF ku bh = Some q -> p <> bh -> (p < NR_BUFFERS ku)%nat ->
  remove_from_queues bh k w = Ret tt (unring bh p q ku) w.
Proof.
  intros ku Hp Hq Hpb Hpn. unfold remove_from_queues. run.
  assert (E1 : forall (m : M K unit),
    (when (bool_decide (nxH k bh <> None))
       (modify (upd_bh_at (nxH k bh) (fun x => x <| b_prev := pvH k bh |>))) ;; m) k w =
    m (unlink1 bh k) w).
  { intros m. unfold unlink1. destruct (nxH k bh); [|done].
    rewrite bool_decide_true by done. run. done. }
  unfold nxH, pvH in E1. rewrite E1. clear E1. run.
  set (k1 := unlink1 bh k) in *.
  assert (E2 : forall (m : M K unit),
    (when (bool_decide (pvH k1 bh <> None))
       (modify (upd_bh_at (pvH k1 bh) (fun x => x <| b_next := nxH k1 bh |>))) ;; m) k1 w =
    m (unlink2 bh k1) w).
  { intros m. unfold unlink2. destruct (pvH k1 bh); [|done].
    rewrite bool_decide_true by done. run. done. }
  unfold nxH, pvH in E2. rewrite E2. clear E2. run.
  set (k2 := unlink2 bh k1) in *.
  change (unlink3 bh k2) with ku in *.
  assert (E3 : forall (m : M K unit),
    (when (bool_decide (hash k2 (dev k2 bh) (blk k2 bh) = Some bh))
       (modify (set_hash (dev k2 bh) (blk k2 bh) (nxH k2 bh))) ;; m) k2 w = m ku w).
  { intros m. unfold ku, unhash. fold k1 k2. unfold unlink3.
    destruct (decide (hash k2 (dev k2 bh) (blk k2 bh) = Some bh)).
    - rewrite bool_decide_true by done. run. done.
    - rewrite bool_decide_false by done. run. done. }
  unfold dev, blk, nxH in E3.
  assert (Hb : bh_of k2 bh = bh_of ku bh).
  { unfold ku, unhash. fold k1 k2. unfold unlink3. by destruct (decide _). }
  rewrite E3, Hb. clear E3. unfold pvF, nxF in Hp, Hq. rewrite Hp, Hq.
  rewrite !bool_decide_false by done. cbn [orb]. run. cbn [upd_bh_at].
  rewrite bh_of_upd_ne by done. rewrite Hp, Hq. cbn [upd_bh_at].
  unfold unring. fold (set_nextf p (Some q) ku). fold (set_prevf q (Some p) (set_nextf p (Some q) ku)).
  change (free_list (set_prevf q (Some p) (set_nextf p (Some q) ku))) with (free_list ku).
  destruct (decide (free_list ku = Some bh)).
  - rewrite bool_decide_true by done. run. done.
  - rewrite bool_decide_false by done. run. done.
Qed.

(** ** What unlinking does to the fields *)
Section unhash.
Context (k : K) (C : nat -> list nat) (bh : nat).
Context (HC : chains_ok k C None) (Hbh : (bh < NR_BUFFERS k)%nat).

Lemma chain_lt h x : x ∈ C h -> (x < NR_BUFFERS k)%nat.
Proof using HC. intros Hx. by apply (ch_sound _ _ _ HC h x). Qed.

Lemma nxH_in n : nxH k bh = Some n -> n ∈ C (bucket k bh) /\ bh ∈ C (bucket k bh) /\
  dev k bh <> 0.
Proof using HC Hbh.
  intros Hn. destruct (decide (dev k bh = 0)) as [E|E].
  - destruct (ch_off _ _ _ HC bh Hbh E) as [? _]; [done|]. congruence.
  - pose proof (ch_complete _ _ _ HC bh Hbh E ltac:(done)) as Hin.
    split; [|done]. by apply (dchain_next_in _ _ _ _ _ _ (ch_links _ _ _ HC _) Hin).
Qed.
Lemma pvH_in p : pvH k bh = Some p -> p ∈ C (bucket k bh) /\ bh ∈ C (bucket k bh) /\
  dev k bh <> 0.
Proof using HC Hbh.
  intros Hp. destruct (decide (dev k bh = 0)) as [E|E].
  - destruct (ch_off _ _ _ HC bh Hbh E) as [_ ?]; [done|]. congruence.
  - pose proof (ch_complete _ _ _ HC bh Hbh E ltac:(done)) as Hin.
    split; [|done].
    by destruct (dchain_prev_in _ _ _ _ _ _ (ch_links _ _ _ HC _) Hin Hp) as [?|?].
Qed.

(** Neighbours in a chain are other buffers. *)
Lemma dchain_irrefl l prev : dchain (nxH k) (pvH k) prev l -> NoDup l ->
  bh ∈ l -> prev <> Some bh -> nxH k bh <> Some bh /\ pvH k bh <> Some bh.
Proof using HC Hbh.
  revert prev. induction l as [|x l IH]; intros prev Hc Hnd Hin Hp; [set_solver|].
  destruct Hc as (H1 & H2 & Hc). apply NoDup_cons in Hnd as [Hx Hnd].
  destruct (decide (bh = x)) as [-> | Hne].
  - rewrite H1, H2. split; [|done]. intros E. apply Hx. destruct l; [done|].
    injection E as ->. set_solver.
  - apply (IH (Some x)); [done|done|set_solver|congruence].
Qed.
Lemma nxH_ne : nxH k bh <> Some bh.
Proof using HC Hbh.
  intros E. destruct (nxH_in bh E) as (Hin & _ & _).
  destruct (dchain_irrefl _ _ (ch_links _ _ _ HC _) (ch_nodup _ _ _ HC _) Hin); done.
Qed.
Lemma pvH_ne : pvH k bh <> Some bh.
Proof using HC Hbh.
  intros E. destruct (pvH_in bh E) as (Hin & _ & _).
  destruct (dchain_irrefl _ _ (ch_links _ _ _ HC _) (ch_nodup _ _ _ HC _) Hin); done.
Qed.

Local Ltac keep := apply field_keep; done.

Lemma unlink1_fields :
  NR_BUFFERS (unlink1 bh k) = NR_BUFFERS k /\ free_list (unlink1 bh k) = free_list k /\
  hash_table (unlink1 bh k) = hash_table k /\
  (forall i, nxF (unlink1 bh k) i = nxF k i) /\ (forall i, pvF (unlink1 bh k) i = pvF k i) /\
  (forall i, nxH (unlink1 bh k) i = nxH k i) /\
  (forall i, pvH (unlink1 bh k) i = unlink_prev (nxH k) (pvH k) bh i) /\
  (forall i, dev (unlink1 bh k) i = dev k i) /\ (forall i, blk (unlink1 bh k) i = blk k i).
Proof using HC Hbh.
  unfold unlink1, unlink_prev. destruct (nxH k bh) as [n|] eqn:En; [|done].
  destruct (nxH_in n En) as (Hin & _ & _). pose proof (chain_lt _ _ Hin).
  split; [apply NR_BUFFERS_upd|]. do 2 (split; [done|]).
  do 3 (split; [intros i; keep|]). split; [|split; intros i; keep].
  intros i. unfold pvH at 1, set_prev_bh. rewrite field_upd by done. done.
Qed.

Lemma unhash_fields :
  NR_BUFFERS (unhash bh k) = NR_BUFFERS k /\ free_list (unhash bh k) = free_list k /\
  (forall i, nxF (unhash bh k) i = nxF k i) /\ (forall i, pvF (unhash bh k) i = pvF k i) /\
  (forall i, nxH (unhash bh k) i = unlink_next (nxH k) (pvH k) bh i) /\
  (forall i, pvH (unhash bh k) i = unlink_prev (nxH k) (pvH k) bh i) /\
  (forall i, dev (unhash bh k) i = dev k i) /\ (forall i, blk (unhash bh k) i = blk k i) /\
  hash_table (unhash bh k) =
    if decide (hash k (dev k bh) (blk k bh) = Some bh)
    then <[hashfn (dev k bh) (blk k bh) := nxH k bh]> (hash_table k) else hash_table k.
Proof using HC Hbh.
  destruct unlink1_fields as (F1 & F2 & F3 & F4 & F5 & F6 & F7 & F8 & F9).
  set (k1 := unlink1 bh k) in *.
  assert (Hpv1 : pvH k1 bh = pvH k bh).
  { rewrite F7. unfold unlink_prev. destruct (nxH k bh) as [n|] eqn:En; [|done].
    apply fupd_ne. intros Heq. rewrite <- Heq in En. by apply nxH_ne. }
  assert (G : NR_BUFFERS (unlink2 bh k1) = NR_BUFFERS k /\
    free_list (unlink2 bh k1) = free_list k /\
    hash_table (unlink2 bh k1) = hash_table k /\
    (forall i, nxF (unlink2 bh k1) i = nxF k i) /\
    (forall i, pvF (unlink2 bh k1) i = pvF k i) /\
    (forall i, nxH (unlink2 bh k1) i = unlink_next (nxH k) (pvH k) bh i) /\
    (forall i, pvH (unlink2 bh k1) i = unlink_prev (nxH k) (pvH k) bh i) /\
    (forall i, dev (unlink2 bh k1) i = dev k i) /\
    (forall i, blk (unlink2 bh k1) i = blk k i)).
  { unfold unlink2, unlink_next. rewrite Hpv1.
    destruct (pvH k bh) as [p|] eqn:Ep; [|done].
    destruct (pvH_in p Ep) as (Hin & _ & _). pose proof (chain_lt _ _ Hin).
    assert (Keep : forall {A} (g : buffer_head -> A),
      (forall b v, g (b <| b_next := v |>) = g b) ->
      forall i, g (bh_of (set_next_bh p (nxH k1 bh) k1) i) = g (bh_of k1 i)).
    { intros A g Hg i. apply field_keep. auto. }
    split; [unfold set_next_bh; by rewrite NR_BUFFERS_upd|]. do 2 (split; [done|]).
    split; [intros i; rewrite <- F4; apply (Keep _ b_next_free); done|].
    split; [intros i; rewrite <- F5; apply (Keep _ b_prev_free); done|].
    split; [|split; [intros i; rewrite <- F7; apply (Keep _ b_prev); done|]].
    - intros i. unfold nxH at 1, set_next_bh. rewrite field_upd by lia. simpl.
      unfold fupd. rewrite <- !F6. done.
    - split; [intros i; rewrite <- F8; apply (Keep _ b_dev); done|].
      intros i; rewrite <- F9; apply (Keep _ b_blocknr); done. }
  destruct G as (G1 & G2 & G3 & G4 & G5 & G6 & G7 & G8 & G9).
  unfold unhash. fold k1. set (k2 := unlink2 bh k1) in *. unfold unlink3.
  assert (Hh : hash k2 (dev k2 bh) (blk k2 bh) = hash k (dev k bh) (blk k bh)).
  { unfold hash. by rewrite G3, G8, G9. }
  rewrite Hh, G8, G9.
  assert (Hnx : nxH k2 bh = nxH k bh).
  { rewrite G6. unfold unlink_next. destruct (pvH k bh) eqn:Ep; [|done].
    apply fupd_ne. intros Heq. rewrite <- Heq in Ep. by apply pvH_ne. }
  rewrite Hnx.
  destruct (decide (hash k (dev k bh) (blk k bh) = Some bh));
    do 8 (split; [done|]); [|done]. simpl. by rewrite G3.
Qed.
End unhash.

(** ** The invariant with one buffer taken out *)
Record cache_out (bh : nat) (k : K) : Prop := {
  ko_in : (bh < NR_BUFFERS k)%nat;
  ko_ring : exists R, R <> [] /\ bh :: R ≡ₚ seq 0 (NR_BUFFERS k) /\
    ring (nxF k) (pvF k) R /\ free_list k = head R;
  ko_chains : exists C, chains_ok k C (Some bh);
  ko_unique : forall x y, (x < NR_BUFFERS k)%nat -> (y < NR_BUFFERS k)%nat ->
    x <> bh -> y <> bh ->
    dev k x <> 0 -> dev k x = dev k y -> blk k x = blk k y -> x = y;
}.

Lemma head_in {A} (l : list A) x : head l = Some x -> x ∈ l.
Proof. destruct l; [done|]. intros [= ->]. set_solver. Qed.

Lemma hash_head k C out d b : chains_ok k C out -> hash k d b = head (C (hashfn d b)).
Proof. intros HC. unfold hash. by rewrite (ch_head _ _ _ HC) by apply hashfn_lt. Qed.

Lemma unhash_off k C bh : chains_ok k C None -> (bh < NR_BUFFERS k)%nat -> dev k bh = 0 ->
  chains_ok (unhash bh k) C (Some bh).
Proof.
  intros HC Hbh E.
  destruct (unhash_fields _ _ _ HC Hbh) as (U1 & U2 & U3 & U4 & U5 & U6 & U7 & U8 & U9).
  destruct (ch_off _ _ _ HC bh Hbh E) as [Hn Hp]; [done|].
  unfold unlink_next in U5. rewrite Hp in U5. unfold unlink_prev in U6. rewrite Hn in U6.
  rewrite decide_False in U9.
  2:{ rewrite (hash_head _ _ _ _ _ HC). intros Hh%head_in.
      by apply (ch_sound _ _ _ HC) in Hh as (_ & ? & _). }
  assert (Hbk : forall x, bucket (unhash bh k) x = bucket k x)
    by (intros x; unfold bucket; by rewrite U7, U8).
  destruct HC as [L1 L2 L3 L4 L5 L6 L7]. split.
  - by rewrite U9.
  - by rewrite U9.
  - intros h. apply (dchain_ext (nxH k) (pvH k)); auto.
  - done.
  - intros h x Hx. rewrite U1, U7, Hbk. destruct (L5 h x Hx) as (? & ? & ? & _).
    repeat split; [done..|]. congruence.
  - intros x. rewrite U1, U7, Hbk. intros. by apply L6.
  - intros x. rewrite U1, U7, U5, U6. intros. by apply L7.
Qed.

Lemma unhash_on k C bh a c : chains_ok k C None -> (bh < NR_BUFFERS k)%nat ->
  dev k bh <> 0 -> C (bucket k bh) = a ++ bh :: c ->
  chains_ok (unhash bh k) (fun h => if decide (h = bucket k bh) then a ++ c else C h)
    (Some bh).
Proof.
  intros HC Hbh Hd E.
  destruct (unhash_fields _ _ _ HC Hbh) as (U1 & U2 & U3 & U4 & U5 & U6 & U7 & U8 & U9).
  assert (Hbk : forall x, bucket (unhash bh k) x = bucket k x)
    by (intros x; unfold bucket; by rewrite U7, U8).
  destruct HC as [L1 L2 L3 L4 L5 L6 L7].
  pose proof (L4 (bucket k bh)) as Hnd. pose proof (L3 (bucket k bh)) as Hch.
  rewrite E in Hnd, Hch.
  destruct (dchain_remove _ _ a None bh c Hch Hnd) as (D1 & D2 & D3 & D4); [done|].
  assert (Hbin : forall x, x ∈ a ++ c -> x ∈ C (bucket k bh) /\ x <> bh).
  { intros x Hx. rewrite E. split; [set_solver|]. intros ->.
    apply NoDup_app in Hnd as (_ & Ha & Hc). apply NoDup_cons in Hc as [Hc _]. set_solver. }
  assert (Hhd : hash k (dev k bh) (blk k bh) = head (a ++ bh :: c)).
  { unfold hash. rewrite L2 by apply hashfn_lt. simpl. by rewrite <- E. }
  rewrite Hhd in U9.
  assert (Hother : forall h x, h <> bucket k bh -> x ∈ C h ->
    nxH (unhash bh k) x = nxH k x /\ pvH (unhash bh k) x = pvH k x).
  { intros h x Hh Hx. rewrite U5, U6. apply D2; [|done]. intros [Hx' _]%Hbin.
    apply L5 in Hx as (_ & _ & <- & _). apply L5 in Hx' as (_ & _ & ? & _). congruence. }
  split.
  - rewrite U9. by destruct (decide _); rewrite ?length_insert.
  - intros h Hh. rewrite U9. fold (bucket k bh). destruct a as [|z a].
    + rewrite decide_True by done. destruct (decide (h = bucket k bh)) as [-> | Hne].
      * rewrite list_lookup_insert_eq by (by rewrite L1). f_equal. by apply D4.
      * rewrite list_lookup_insert_ne by done. by apply L2.
    + rewrite decide_False.
      2:{ simpl. intros [= ->]. simpl in Hnd. apply NoDup_cons in Hnd as [Hz _]. set_solver. }
      rewrite L2 by done. destruct (decide (h = bucket k bh)) as [-> | Hne]; [|done].
      rewrite E. by rewrite D3.
  - intros h. destruct (decide (h = bucket k bh)) as [-> | Hne].
    + revert D1. apply dchain_ext; intros x _; [apply U5 | apply U6].
    + generalize (L3 h). apply dchain_ext; intros x Hx; by apply (Hother h).
  - intros h. destruct (decide (h = bucket k bh)); [|apply L4]. rewrite <- (Permutation_middle a c bh) in Hnd.
    by apply NoDup_cons in Hnd as [_ ?].
  - intros h x Hx. rewrite U1, U7, Hbk. destruct (decide (h = bucket k bh)) as [-> | Hne].
    + destruct (Hbin x Hx) as [Hx' ?]. destruct (L5 _ x Hx') as (? & ? & ? & _).
      repeat split; [done..|]. congruence.
    + destruct (L5 _ x Hx) as (? & ? & ? & _). repeat split; [done..|]. congruence.
  - intros x. rewrite U1, U7, Hbk. intros Hx Hdx Hne.
    pose proof (L6 x Hx Hdx ltac:(done)) as Hin.
    destruct (decide (bucket k x = bucket k bh)) as [Hb|]; [|done].
    rewrite Hb, E in Hin. set_solver.
  - intros x. rewrite U1, U7, U5, U6. intros Hx Hdx Hne.
    destruct (L7 x Hx Hdx ltac:(done)) as [L8 L9].
    destruct (D2 x) as [-> ->]; [|done..]. intros [Hin _]%Hbin.
    by apply L5 in Hin as (_ & ? & _).
Qed.

Lemma unring_fields bh p q k : (p < NR_BUFFERS k)%nat -> (q < NR_BUFFERS k)%nat -> p <> bh ->
  nxF k bh = Some q ->
  NR_BUFFERS (unring bh p q k) = NR_BUFFERS k /\
  hash_table (unring bh p q k) = hash_table k /\
  (forall i, nxF (unring bh p q k) i = fupd p (Some q) (nxF k) i) /\
  (forall i, pvF (unring bh p q k) i = fupd q (Some p) (pvF k) i) /\
  (forall i, nxH (unring bh p q k) i = nxH k i) /\
  (forall i, pvH (unring bh p q k) i = pvH k i) /\
  (forall i, dev (unring bh p q k) i = dev k i) /\
  (forall i, blk (unring bh p q k) i = blk k i) /\
  free_list (unring bh p q k) =
    if decide (free_list k = Some bh) then Some q else free_list k.
Proof.
  intros Hp Hq Hpb Hn.
  set (k2 := set_prevf q (Some p) (set_nextf p (Some q) k)).
  assert (G : NR_BUFFERS k2 = NR_BUFFERS k /\ hash_table k2 = hash_table k /\
    (forall i, nxF k2 i = fupd p (Some q) (nxF k) i) /\
    (forall i, pvF k2 i = fupd q (Some p) (pvF k) i) /\
    (forall i, nxH k2 i = nxH k i) /\ (forall i, pvH k2 i = pvH k i) /\
    (forall i, dev k2 i = dev k i) /\ (forall i, blk k2 i = blk k i) /\
    free_list k2 = free_list k).
  { unfold k2, set_prevf, set_nextf, nxF, pvF, nxH, pvH, dev, blk.
    split; [by rewrite !NR_BUFFERS_upd|]. split; [done|].
    split; [intros i; rewrite (field_keep b_next_free) by done;
            by rewrite (field_upd b_next_free)|].
    split; [intros i; rewrite (field_upd b_prev_free) by (by rewrite NR_BUFFERS_upd);
            unfold fupd; by rewrite (field_keep b_prev_free) by done|].
    split; [intros i; by rewrite !(field_keep b_next) by done|].
    split; [intros i; by rewrite !(field_keep b_prev) by done|].
    split; [intros i; by rewrite !(field_keep b_dev) by done|].
    split; [intros i; by rewrite !(field_keep b_blocknr) by done|]. done. }
  destruct G as (G1 & G2 & G3 & G4 & G5 & G6 & G7 & G8 & G9).
  unfold unring. fold k2. destruct (decide (free_list k = Some bh)).
  - do 8 (split; [done|]). cbn. rewrite G3. by rewrite fupd_ne.
  - by do 8 (split; [done|]).
Qed.

(** The free list without the buffer. *)
Lemma unring_ring bh k R : ring_ok k R -> (2 <= NR_BUFFERS k)%nat -> (bh < NR_BUFFERS k)%nat ->
  exists p q R', pvF k bh = Some p /\ nxF k bh = Some q /\ p <> bh /\
    (p < NR_BUFFERS k)%nat /\ (q < NR_BUFFERS k)%nat /\
    R' <> [] /\ bh :: R' ≡ₚ R /\
    ring (fupd p (Some q) (nxF k)) (fupd q (Some p) (pvF k)) R' /\
    (if decide (free_list k = Some bh) then Some q else free_list k) = head R'.
Proof.
  intros (HR & Hring & Hhd) Hmany Hbh.
  assert (Hin : bh ∈ R) by (rewrite HR, elem_of_seq; lia).
  assert (Hnd : NoDup R) by (rewrite HR; apply NoDup_seq).
  assert (Hlen : length R = NR_BUFFERS k) by (by rewrite HR, length_seq).
  assert (Hlt : forall x, x ∈ R -> (x < NR_BUFFERS k)%nat)
    by (intros x; rewrite HR, elem_of_seq; lia).
  destruct (ring_next _ _ _ _ Hring Hin) as (q & Hq & Hqin).
  destruct (ring_prev _ _ _ _ Hring Hin) as (p & Hp & Hpin).
  apply list_elem_of_split in Hin as (a & b & E). rewrite E in Hring.
  apply ring_rotate in Hring. cbn [app] in Hring.
  assert (Hperm : bh :: b ++ a ≡ₚ R).
  { rewrite E. rewrite (Permutation_app_comm b a). apply Permutation_middle. }
  assert (Hnd' : NoDup (bh :: b ++ a)) by (by rewrite Hperm).
  assert (Hne : b ++ a <> []).
  { intros E'. rewrite <- Hperm, E' in Hlen. simpl in Hlen. lia. }
  destruct (ring_remove _ _ _ _ p q Hring Hnd' Hne Hp Hq) as (Hr & Hp' & Hq').
  apply NoDup_cons in Hnd' as [Hbn _].
  exists p, q, (if decide (a = []) then b else a ++ b).
  split; [done|]. split; [done|]. split; [by intros ->|].
  split; [by apply Hlt|]. split; [by apply Hlt|].
  destruct (decide (a = [])) as [-> | Ha].
  - rewrite app_nil_r in *. do 3 (split; [done|]).
    rewrite decide_True by (by rewrite Hhd, E).
    destruct b as [|y b]; [done|]. simpl in Hring. destruct Hring as [[Hy _] _].
    by rewrite Hq in Hy.
  - split; [by destruct a|]. split; [rewrite E; apply Permutation_middle|].
    split; [by apply ring_rotate|].
    destruct a as [|z a]; [done|]. rewrite Hhd, E. simpl. rewrite decide_False; [done|].
    intros [= ->]. set_solver.
Qed.

Lemma unhash_rest bh k : same_rest k (unhash bh k).
Proof.
  assert (H1 : same_rest k (unlink1 bh k)).
  { unfold unlink1. destruct (nxH k bh); [|done]. split; [done|]. intros i. by apply field_keep. }
  assert (H2 : same_rest (unlink1 bh k) (unlink2 bh (unlink1 bh k))).
  { unfold unlink2. destruct (pvH _ bh); [|done]. split; [done|]. intros i. by apply field_keep. }
  apply (same_rest_trans _ _ _ H1). apply (same_rest_trans _ _ _ H2).
  unfold unhash, unlink3. by destruct (decide _).
Qed.
Lemma unring_rest bh p q k : same_rest k (unring bh p q k).
Proof.
  unfold unring. assert (H : same_rest k (set_prevf q (Some p) (set_nextf p (Some q) k))).
  { split; [done|]. intros i. unfold set_prevf, set_nextf. by rewrite !field_keep. }
  by destruct (decide _).
Qed.

(** [remove_from_queues]: the buffer is out of its chain and of the free list, and
    nothing else of any buffer head has changed. *)
Lemma remove_ok bh k w : cache_ok k -> (bh < NR_BUFFERS k)%nat ->
  exists k', remove_from_queues bh k w = Ret tt k' w /\ cache_out bh k' /\
    NR_BUFFERS k' = NR_BUFFERS k /\ same_rest k k'.
Proof.
  intros [Hmany [R HR] [C HC] Huniq] Hbh.
  destruct (unhash_fields _ _ _ HC Hbh) as (U1 & U2 & U3 & U4 & _ & _ & U7 & U8 & _).
  assert (HRu : ring_ok (unhash bh k) R).
  { destruct HR as (? & ? & ?). split; [by rewrite U1|]. split; [|congruence].
    by apply (ring_pointwise (nxF k) (pvF k)). }
  assert (HCu : exists C', chains_ok (unhash bh k) C' (Some bh)).
  { destruct (decide (dev k bh = 0)) as [E|E].
    - exists C. by apply unhash_off.
    - pose proof (ch_complete _ _ _ HC bh Hbh E ltac:(done)) as Hin.
      apply list_elem_of_split in Hin as (a & c & Ec). eexists. by apply unhash_on. }
  destruct HCu as [C' HC'].
  set (ku := unhash bh k) in *. rewrite <- U1 in Hmany, Hbh.
  destruct (unring_ring bh ku R HRu Hmany Hbh)
    as (p & q & R' & Hp & Hq & Hpb & Hpn & Hqn & Hne & Hperm & Hring & Hhd).
  destruct (unring_fields bh p q ku Hpn Hqn Hpb Hq)
    as (G1 & G2 & G3 & G4 & G5 & G6 & G7 & G8 & G9).
  exists (unring bh p q ku).
  split; [by apply remove_run|].
  split; [|split; [congruence|]].
  2:{ apply (same_rest_trans _ _ _ (unhash_rest bh k)). apply unring_rest. }
  split.
  - congruence.
  - exists R'. split; [done|]. split; [rewrite G1, Hperm; apply HRu|].
    split; [|congruence]. revert Hring. by apply ring_pointwise.
  - exists C'. assert (Hbk : forall x, bucket (unring bh p q ku) x = bucket ku x)
      by (intros x; unfold bucket; by rewrite G7, G8).
    destruct HC' as [L1 L2 L3 L4 L5 L6 L7]. split.
    + by rewrite G2.
    + by rewrite G2.
    + intros h. apply (dchain_ext (nxH ku) (pvH ku)); auto.
    + done.
    + intros h x Hx. rewrite G1, G7, Hbk. by apply L5.
    + intros x. rewrite G1, G7, Hbk. apply L6.
    + intros x. rewrite G1, G7, G5, G6. apply L7.
  - intros x y. rewrite G1, U1, !G7, !G8, !U7, !U8. intros ? ? _ _. by apply Huniq.
Qed.

(** * Putting a buffer back: [insert_into_queues] *)

Definition enring (bh h p : nat) (k : K) : K :=
  upd_bh bh (fun x => x <| b_prev := None |> <| b_next := None |>)
    (set_prevf h (Some bh) (set_nextf p (Some bh)
      (set_prevf bh (Some p) (set_nextf bh (Some h) k)))).
Definition enhash (bh : nat) (k : K) : K :=
  if decide (dev k bh = 0) then k else
  let n := hash k (dev k bh) (blk k bh) in
  upd_bh_at n (fun x => x <| b_prev := Some bh |>)
    (set_hash (dev k bh) (blk k bh) (Some bh) (set_next_bh bh n k)).

Lemma insert_run bh h p k w : (bh < NR_BUFFERS k)%nat -> free_list k = Some h ->
  pvF k h = Some p -> h <> bh -> p <> bh ->
  insert_into_queues bh k w = Ret tt (enhash bh (enring bh h p k)) w.
Proof.
  intros Hbh Hf Hp Hh Hpb. unfold insert_into_queues. run. rewrite Hf.
  fold (set_nextf bh (Some h) k).
  assert (E1 : b_prev_free (bh_at (set_nextf bh (Some h) k)
                 (free_list (set_nextf bh (Some h) k))) = Some p).
  { change (free_list (set_nextf bh (Some h) k)) with (free_list k). rewrite Hf.
    cbn [bh_at]. unfold set_nextf. rewrite bh_of_upd_ne by done. exact Hp. }
  rewrite E1. fold (set_prevf bh (Some p) (set_nextf bh (Some h) k)).
  set (k2 := set_prevf bh (Some p) (set_nextf bh (Some h) k)).
  assert (E2 : b_prev_free (bh_at k2 (free_list k2)) = Some p).
  { change (free_list k2) with (free_list k). rewrite Hf. cbn [bh_at].
    unfold k2, set_prevf, set_nextf. rewrite !bh_of_upd_ne by done. exact Hp. }
  rewrite E2. cbn [upd_bh_at]. fold (set_nextf p (Some bh) k2).
  change (free_list (set_nextf p (Some bh) k2)) with (free_list k). rewrite Hf. cbn [upd_bh_at].
  fold (set_prevf h (Some bh) (set_nextf p (Some bh) k2)).
  change (upd_bh bh (fun x => x <| b_prev := None |> <| b_next := None |>)
    (set_prevf h (Some bh) (set_nextf p (Some bh) k2))) with (enring bh h p k).
  set (k5 := enring bh h p k).
  assert (Hbh5 : (bh < NR_BUFFERS k5)%nat).
  { unfold k5, enring, set_prevf, set_nextf. by rewrite !NR_BUFFERS_upd. }
  unfold enhash, truth. rewrite negb_involutive. fold (dev k5 bh). fold (blk k5 bh).
  destruct (decide (dev k5 bh = 0)) as [E|E].
  - rewrite (proj2 (Z.eqb_eq _ _)) by done. run. done.
  - rewrite (proj2 (Z.eqb_neq _ _)) by done. run. cbv zeta.
    fold (set_next_bh bh (hash k5 (dev k5 bh) (blk k5 bh)) k5).
    set (n := hash k5 (dev k5 bh) (blk k5 bh)).
    set (k7 := set_hash (dev k5 bh) (blk k5 bh) (Some bh) (set_next_bh bh n k5)).
    assert (En : b_next (bh_of k7 bh) = n).
    { change (bh_of k7 bh) with (bh_of (set_next_bh bh n k5) bh). unfold set_next_bh.
      rewrite (field_upd b_next) by done. by rewrite decide_True. }
    by rewrite En.
Qed.

Lemma enring_fields bh h p k : (bh < NR_BUFFERS k)%nat -> (h < NR_BUFFERS k)%nat ->
  (p < NR_BUFFERS k)%nat -> h <> bh -> p <> bh ->
  let k' := enring bh h p k in
  NR_BUFFERS k' = NR_BUFFERS k /\ hash_table k' = hash_table k /\
  free_list k' = free_list k /\
  (forall i, nxF k' i = fupd p (Some bh) (fupd bh (Some h) (nxF k)) i) /\
  (forall i, pvF k' i = fupd h (Some bh) (fupd bh (Some p) (pvF k)) i) /\
  (forall i, nxH k' i = fupd bh None (nxH k) i) /\
  (forall i, pvH k' i = fupd bh None (pvH k) i) /\
  (forall i, dev k' i = dev k i) /\ (forall i, blk k' i = blk k i).
Proof.
  intros Hbh Hh Hp Hhb Hpb k'. subst k'. unfold enring, set_prevf, set_nextf, fupd.
  unfold nxF, pvF, nxH, pvH, dev, blk.
  split; [by rewrite !NR_BUFFERS_upd|]. do 2 (split; [done|]).
  split. { intros i. rewrite !(field_keep b_next_free _ bh) by done.
    rewrite (field_keep b_next_free _ h) by done.
    rewrite (field_upd b_next_free) by (by rewrite !NR_BUFFERS_upd).
    rewrite (field_keep b_next_free _ bh) by done. by rewrite (field_upd b_next_free). }
  split. { intros i. rewrite (field_keep b_prev_free _ bh) by done.
    rewrite (field_upd b_prev_free) by (by rewrite !NR_BUFFERS_upd).
    rewrite (field_keep b_prev_free _ p) by done.
    rewrite (field_upd b_prev_free) by (by rewrite NR_BUFFERS_upd).
    by rewrite (field_keep b_prev_free) by done. }
  split. { intros i. rewrite (field_upd b_next) by (by rewrite !NR_BUFFERS_upd).
    by rewrite !(field_keep b_next) by done. }
  split. { intros i. rewrite (field_upd b_prev) by (by rewrite !NR_BUFFERS_upd).
    by rewrite !(field_keep b_prev) by done. }
  split; intros i; [by rewrite !(field_keep b_dev) by done|].
  by rewrite !(field_keep b_blocknr) by done.
Qed.

Lemma enhash_fields bh k : (bh < NR_BUFFERS k)%nat -> dev k bh <> 0 ->
  (forall n, hash k (dev k bh) (blk k bh) = Some n -> (n < NR_BUFFERS k)%nat) ->
  let k' := enhash bh k in
  let n := hash k (dev k bh) (blk k bh) in
  NR_BUFFERS k' = NR_BUFFERS k /\ free_list k' = free_list k /\
  hash_table k' = <[bucket k bh := Some bh]> (hash_table k) /\
  (forall i, nxF k' i = nxF k i) /\ (forall i, pvF k' i = pvF k i) /\
  (forall i, nxH k' i = fupd bh n (nxH k) i) /\
  (n = None -> forall i, (i < NR_BUFFERS k)%nat -> pvH k' i = pvH k i) /\
  (forall m, n = Some m -> forall i, pvH k' i = fupd m (Some bh) (pvH k) i) /\
  (forall i, dev k' i = dev k i) /\ (forall i, blk k' i = blk k i).
Proof.
  intros Hbh Hd Hn k' n. unfold k', enhash. rewrite decide_False by done. cbv zeta. fold n.
  set (k1 := set_hash (dev k bh) (blk k bh) (Some bh) (set_next_bh bh n k)).
  assert (B : forall i, bh_of k1 i =
    bh_of (upd_bh bh (fun x => x <| b_next := n |>) k) i) by done.
  assert (Hk1 : NR_BUFFERS k1 = NR_BUFFERS k) by apply (NR_BUFFERS_upd k bh).
  unfold nxF, pvF, nxH, pvH, dev, blk, fupd. fold n in Hn.
  destruct n as [m|] eqn:En; cbn [upd_bh_at].
  - split; [by rewrite NR_BUFFERS_upd|]. do 2 (split; [done|]).
    split; [intros i; by rewrite (field_keep b_next_free), B, (field_keep b_next_free) by done|].
    split; [intros i; by rewrite (field_keep b_prev_free), B, (field_keep b_prev_free) by done|].
    split; [intros i; by rewrite (field_keep b_next), B, (field_upd b_next) by done|].
    split; [done|].
    split.
    { intros m' [= <-] i. rewrite (field_upd b_prev) by (rewrite Hk1; by apply Hn).
      by rewrite !B, !(field_keep b_prev) by done. }
    split; intros i; [by rewrite (field_keep b_dev), B, (field_keep b_dev) by done|].
    by rewrite (field_keep b_blocknr), B, (field_keep b_blocknr) by done.
  - set (k2 := k1 <| null_bh ::= fun x => x <| b_prev := Some bh |> |>).
    assert (B' : forall {A} (g : buffer_head -> A),
      (forall b v, g (b <| b_prev := v |>) = g b) ->
      forall i, g (bh_of k2 i) = g (bh_of k1 i)).
    { intros A g Hg i. unfold bh_of. change (buffers k2) with (buffers k1).
      destruct (buffers k1 !! i); [done|]. apply Hg. }
    split; [done|]. do 2 (split; [done|]).
    split; [intros i; by rewrite (B' _ b_next_free), B, (field_keep b_next_free) by done|].
    split; [intros i; by rewrite (B' _ b_prev_free), B, (field_keep b_prev_free) by done|].
    split; [intros i; by rewrite (B' _ b_next), B, (field_upd b_next) by done|].
    split.
    { intros _ i Hi. rewrite <- Hk1 in Hi.
      assert (E : bh_of k2 i = bh_of k1 i).
      { unfold bh_of. change (buffers k2) with (buffers k1).
        by destruct (lookup_lt_is_Some_2 (buffers k1) i Hi) as [b ->]. }
      by rewrite E, B, (field_keep b_prev) by done. }
    split; [done|].
    split; intros i; [by rewrite (B' _ b_dev), B, (field_keep b_dev) by done|].
    by rewrite (B' _ b_blocknr), B, (field_keep b_blocknr) by done.
Qed.

(** The chains with the buffer back at the head of its own. *)
Lemma enhash_off bh k C : chains_ok k C (Some bh) -> dev k bh = 0 ->
  nxH k bh = None -> pvH k bh = None -> chains_ok (enhash bh k) C None.
Proof.
  intros [L1 L2 L3 L4 L5 L6 L7] E Hnx Hpv. unfold enhash. rewrite decide_True by done.
  split; [done..| | |].
  - intros h x Hx. by destruct (L5 h x Hx) as (? & ? & ? & _).
  - intros x Hx Hd _. apply L6; [done..|]. congruence.
  - intros x Hx Hd _. destruct (decide (x = bh)) as [-> | ]; [done|].
    apply L7; [done..|]. congruence.
Qed.
(** The links of the others, the first of the buffer's own chain apart, are untouched. *)
Lemma enhash_links bh k C : chains_ok k C (Some bh) -> (bh < NR_BUFFERS k)%nat -> dev k bh <> 0 ->
  pvH k bh = None ->
  let k' := enhash bh k in let c := C (bucket k bh) in
  (forall x, x <> bh -> nxH k' x = nxH k x) /\ nxH k' bh = head c /\
  (forall x, (x < NR_BUFFERS k)%nat -> head c <> Some x -> pvH k' x = pvH k x) /\
  (forall m, head c = Some m -> pvH k' m = Some bh).
Proof.
  intros HC Hbh E Hpv k' c.
  assert (Hhd : hash k (dev k bh) (blk k bh) = head c) by (apply (hash_head _ _ _ _ _ HC)).
  destruct (enhash_fields bh k Hbh E) as (_ & _ & _ & _ & _ & G6 & G7 & G8 & _).
  { intros n. rewrite Hhd. intros Hin%head_in. by apply (ch_sound _ _ _ HC) in Hin as [? _]. }
  rewrite Hhd in G6, G7, G8. split; [intros x Hx; by rewrite G6, fupd_ne|].
  split; [by rewrite G6, fupd_eq|]. split.
  - intros x Hx Hne. destruct (head c) as [m|]; [|by apply G7].
    rewrite (G8 m) by done. apply fupd_ne. congruence.
  - intros m Hm. by rewrite (G8 m), fupd_eq.
Qed.
Lemma enhash_chains bh k C : chains_ok k C (Some bh) -> (bh < NR_BUFFERS k)%nat ->
  nxH k bh = None -> pvH k bh = None ->
  exists C', chains_ok (enhash bh k) C' None.
Proof.
  intros HC Hbh Hnx Hpv. destruct (decide (dev k bh = 0)) as [E|E].
  { exists C. by apply enhash_off. }
  destruct (enhash_links bh k C HC Hbh E Hpv) as (Hn & Hnb & Hp & Hm).
  destruct (enhash_fields bh k Hbh E) as (G1 & _ & G3 & _ & _ & _ & _ & _ & G9 & G10).
  { intros n. rewrite (hash_head _ _ _ _ _ HC). intros Hin%head_in.
    by apply (ch_sound _ _ _ HC) in Hin as [? _]. }
  assert (Hbk : forall x, bucket (enhash bh k) x = bucket k x)
    by (intros x; unfold bucket; by rewrite G9, G10).
  exists (fun h => if decide (h = bucket k bh) then bh :: C h else C h).
  destruct HC as [L1 L2 L3 L4 L5 L6 L7].
  assert (Hnew : forall h, bh ∉ C h) by (intros h Hin; by apply L5 in Hin as (_ & _ & _ & ?)).
  assert (Hne : forall h x, x ∈ C h -> x <> bh) by (intros h x Hx ->; by apply (Hnew h)).
  split.
  - by rewrite G3, length_insert.
  - intros h Hh. rewrite G3. destruct (decide (h = bucket k bh)) as [-> | Hh'].
    + by rewrite list_lookup_insert_eq by (by rewrite L1).
    + rewrite list_lookup_insert_ne by done. by apply L2.
  - intros h. destruct (decide (h = bucket k bh)) as [-> | Hh].
    + apply (dchain_push (nxH k) (pvH k)); [done..| | | |done].
      * rewrite Hp; [done..|]. intros Hin%head_in. by apply (Hnew (bucket k bh)).
      * intros x Hx. apply Hn. by apply (Hne (bucket k bh)).
      * intros x Hx. apply Hp. by apply L5 in Hx as [? _].
    + generalize (L3 h). apply dchain_ext; intros x Hx; [apply Hn; by apply (Hne h)|].
      apply Hp; [by apply L5 in Hx as [? _]|]. intros Hin%head_in.
      apply L5 in Hin as (_ & _ & ? & _). apply L5 in Hx as (_ & _ & ? & _). congruence.
  - intros h. destruct (decide (h = bucket k bh)); [|apply L4].
    apply NoDup_cons. split; [apply Hnew | apply L4].
  - intros h x Hx. rewrite G1, G9, Hbk.
    assert (x = bh /\ h = bucket k bh \/ x ∈ C h) as [[-> ->] | Hx'].
    { destruct (decide (h = bucket k bh)); [|by right].
      apply elem_of_cons in Hx as [-> | ?]; [by left|by right]. }
    + done.
    + by destruct (L5 h x Hx') as (? & ? & ? & _).
  - intros x. rewrite G1, G9, Hbk. intros Hx Hd _.
    destruct (decide (x = bh)) as [-> | Hx'].
    + rewrite decide_True by done. left.
    + assert (x ∈ C (bucket k x)) by (apply L6; [done..|congruence]).
      destruct (decide _); [by right|done].
  - intros x. rewrite G1, G9. intros Hx Hd _.
    assert (x <> bh) by (intros ->; done).
    destruct (L7 x Hx Hd) as [H1 H2]; [congruence|].
    rewrite Hn, Hp; try done. intros Hin%head_in. by apply L5 in Hin as (_ & ? & _).
Qed.

Lemma enhash_keep bh k C : chains_ok k C (Some bh) -> (bh < NR_BUFFERS k)%nat ->
  NR_BUFFERS (enhash bh k) = NR_BUFFERS k /\ free_list (enhash bh k) = free_list k /\
  (forall i, nxF (enhash bh k) i = nxF k i) /\ (forall i, pvF (enhash bh k) i = pvF k i) /\
  (forall i, dev (enhash bh k) i = dev k i) /\ (forall i, blk (enhash bh k) i = blk k i).
Proof.
  intros HC Hbh. destruct (decide (dev k bh = 0)) as [E|E].
  - unfold enhash. by rewrite decide_True.
  - destruct (enhash_fields bh k Hbh E) as (G1 & G2 & _ & G4 & G5 & _ & _ & _ & G9 & G10); [|done].
    intros n. rewrite (hash_head _ _ _ _ _ HC). intros Hin%head_in. by apply (ch_sound _ _ _ HC) in Hin as [? _].
Qed.

Lemma enring_rest bh h p k : same_rest k (enring bh h p k).
Proof.
  split; [done|]. intros i. unfold enring, set_prevf, set_nextf. by rewrite !field_keep.
Qed.
Lemma enhash_rest bh k : same_rest k (enhash bh k).
Proof.
  unfold enhash. destruct (decide _); [done|]. split.
  - by destruct (hash k _ _).
  - intros i. rewrite core_upd_at by done.
    transitivity (core (bh_of (set_next_bh bh (hash k (dev k bh) (blk k bh)) k) i)); [done|].
    by apply field_keep.
Qed.

(** [insert_into_queues]: the invariant again, if no other buffer holds the block. *)
Lemma insert_ok bh k w : cache_out bh k ->
  (forall x, (x < NR_BUFFERS k)%nat -> x <> bh -> dev k bh <> 0 ->
     dev k x = dev k bh -> blk k x <> blk k bh) ->
  exists k', insert_into_queues bh k w = Ret tt k' w /\ cache_ok k' /\
    NR_BUFFERS k' = NR_BUFFERS k /\ same_rest k k'.
Proof.
  intros [Hbh (R & HRne & Hperm & Hring & Hhd) [C HC] Huniq] Hnew.
  destruct R as [|h l]; [done|]. simpl in Hhd.
  assert (Hnd : NoDup (bh :: h :: l)) by (rewrite Hperm; apply NoDup_seq).
  assert (Hlt : forall x, x ∈ bh :: h :: l -> (x < NR_BUFFERS k)%nat)
    by (intros x; rewrite Hperm, elem_of_seq; lia).
  assert (Hlen : length (bh :: h :: l) = NR_BUFFERS k) by (by rewrite Hperm, length_seq).
  apply NoDup_cons in Hnd as [Hbn Hnd].
  destruct (ring_prev _ _ _ h Hring ltac:(left)) as (p & Hp & Hpin).
  destruct (ring_insert _ _ _ _ bh p Hring Hnd Hbn Hp) as [Hring' _].
  assert (Hhb : h <> bh) by set_solver. assert (Hpb : p <> bh) by (intros ->; done).
  destruct (enring_fields bh h p k) as (G1 & G2 & G3 & G4 & G5 & G6 & G7 & G8 & G9);
    [done|apply Hlt; set_solver|apply Hlt; set_solver|done..|].
  set (k5 := enring bh h p k) in *.
  assert (Hbk : forall x, bucket k5 x = bucket k x)
    by (intros x; unfold bucket; by rewrite G8, G9).
  assert (HC5 : chains_ok k5 C (Some bh)).
  { destruct HC as [L1 L2 L3 L4 L5 L6 L7].
    assert (Hne : forall h x, x ∈ C h -> x <> bh) by (intros ? x Hx ->; by apply L5 in Hx as (_ & _ & _ & ?)).
    split; [by rewrite G2|by rewrite G2| |done| | |].
    - intros z. generalize (L3 z). apply dchain_ext; intros x Hx;
        [rewrite G6|rewrite G7]; apply fupd_ne; by apply (Hne z).
    - intros z x Hx. rewrite G1, G8, Hbk. by apply L5.
    - intros x. rewrite G1, G8, Hbk. apply L6.
    - intros x. rewrite G1, G8, G6, G7. intros Hx Hd Hxb.
      rewrite !fupd_ne by congruence. by apply L7. }
  rewrite <- G1 in Hbh.
  destruct (enhash_keep bh k5 C HC5 Hbh) as (N1 & N2 & N3 & N4 & N5 & N6).
  exists (enhash bh k5). rewrite G1 in Hbh. split; [by apply insert_run|].
  split; [|split; [congruence|]].
  2:{ apply (same_rest_trans _ _ _ (enring_rest bh h p k)). apply enhash_rest. }
  split.
  - rewrite N1, G1, <- Hlen. simpl. lia.
  - exists (h :: l ++ [bh]). split; [|split].
    + rewrite N1, G1, <- Hperm. symmetry. apply (Permutation_cons_append (h :: l)).
    + revert Hring'. apply ring_pointwise; intros i; [by rewrite N3|by rewrite N4].
    + by rewrite N2, G3.
  - apply (enhash_chains bh k5 C); [done|by rewrite G1|by rewrite G6, fupd_eq|by rewrite G7, fupd_eq].
  - intros x y. rewrite N1, G1, !N5, !N6, !G8, !G9. intros Hx Hy Hd Ed Eb.
    destruct (decide (x = bh)) as [-> | Hxb]; destruct (decide (y = bh)) as [-> | Hyb]; try done.
    + by destruct (Hnew y Hy Hyb Hd ltac:(done)).
    + destruct (Hnew x Hx Hxb); [congruence|done|done].
    + by apply Huniq.
Qed.

(** * Finding a buffer *)

Lemma find_chain_spec k d b l : forall prev fuel, dchain (nxH k) (pvH k) prev l ->
  (length l <= fuel)%nat ->
  exists r, find_chain fuel k d b (head l) = Some r /\
    match r with
    | Some x => x ∈ l /\ dev k x = d /\ blk k x = u32 b
    | None => forall x, x ∈ l -> ~ (dev k x = d /\ blk k x = u32 b)
    end.
Proof.
  induction l as [|y l IH]; intros prev fuel Hc Hf.
  { exists None. split; [by destruct fuel|]. set_solver. }
  destruct Hc as (_ & Hn & Hc). simpl in Hf. destruct fuel as [|fuel]; [lia|].
  cbn [head find_chain]. fold (dev k y). fold (blk k y).
  destruct (Z.eqb_spec (dev k y) d) as [E1|E1]; [destruct (Z.eqb_spec (blk k y) (u32 b)) as [E2|E2]|];
    cbn [andb].
  - exists (Some y). split; [done|]. split; [left|done].
  - fold (nxH k y). rewrite Hn. destruct (IH (Some y) fuel Hc) as (r & -> & Hr); [lia|].
    exists r. split; [done|]. destruct r as [x|].
    + split; [right|]; tauto.
    + intros x [-> | Hx]%elem_of_cons; [tauto|by apply Hr].
  - fold (nxH k y). rewrite Hn. destruct (IH (Some y) fuel Hc) as (r & -> & Hr); [lia|].
    exists r. split; [done|]. destruct r as [x|].
    + split; [right|]; tauto.
    + intros x [-> | Hx]%elem_of_cons; [tauto|by apply Hr].
Qed.

Lemma hashfn_u32 d b : hashfn d (u32 b) = hashfn d b.
Proof.
  unfold hashfn. do 2 f_equal. unfold u32. change 4294967296 with (2 ^ 32).
  apply Z.bits_inj'. intros i Hi. destruct (decide (i < 32)).
  - rewrite !Z.mod_pow2_bits_low, !Z.lxor_spec, Z.mod_pow2_bits_low by lia. done.
  - rewrite !Z.mod_pow2_bits_high by lia. done.
Qed.

(** [d], [b] is in no buffer. *)
Definition absent (d b : Z) (k : K) : Prop :=
  forall x, (x < NR_BUFFERS k)%nat -> ~ (dev k x = d /\ blk k x = u32 b).

Lemma find_buffer_ok d b k w : cache_ok k ->
  exists r, find_buffer d b k w = Ret r k w /\
    match r with
    | Some x => (x < NR_BUFFERS k)%nat /\ dev k x = d /\ blk k x = u32 b
    | None => d <> 0 -> absent d b k
    end.
Proof.
  intros [_ _ [C HC] _]. unfold find_buffer. run.
  rewrite (hash_head _ _ _ _ _ HC). rewrite <- hashfn_u32.
  destruct (find_chain_spec k d b (C (hashfn d (u32 b))) None (NR_BUFFERS k)) as (r & -> & Hr).
  { apply HC. }
  { rewrite <- (length_seq (NR_BUFFERS k) 0). apply submseteq_length, NoDup_submseteq.
    - apply (ch_nodup _ _ _ HC).
    - intros x Hx. apply elem_of_seq. apply (ch_sound _ _ _ HC) in Hx. lia. }
  exists r. split; [done|]. destruct r as [x|].
  - destruct Hr as (Hx & ? & ?). split; [|done]. by apply (ch_sound _ _ _ HC) in Hx as [? _].
  - intros Hd x Hx [E1 E2]. apply (Hr x); [|done].
    replace (hashfn d (u32 b)) with (bucket k x) by (unfold bucket; by rewrite E1, E2).
    apply (ch_complete _ _ _ HC); [done|congruence|done].
Qed.

(** [find_buffer] is exact: in a cache in its invariant the walk along the hash
    chain ends, changes nothing, and finds a buffer if and only if that buffer holds
    the block. *)
Theorem find_buffer_exact d b k w : cache_ok k -> d <> 0 ->
  exists r, find_buffer d b k w = Ret r k w /\
    forall x, r = Some x <-> (x < NR_BUFFERS k)%nat /\ dev k x = d /\ blk k x = u32 b.
Proof.
  intros Hk Hd. destruct (find_buffer_ok d b k w Hk) as (r & E & Hr). exists r.
  split; [done|]. intros x. destruct r as [y|]; split.
  - by intros [= <-].
  - intros (Hx & Ed & Eb). f_equal. destruct Hr as (Hy & Ey & Eby).
    apply (co_unique k Hk); congruence.
  - done.
  - intros (Hx & ?). by destruct (Hr Hd x Hx).
Qed.
