(* ===== verification/Getblk.v ===== *)
(** The buffer cache under its invariant: every routine that [getblk] calls, down to
    the RAM disk driver and the inode table, keeps it, and [getblk] returns the
    buffer it was asked for. *)
From S2P Require Import Prelude Links Sched Mm Kernel Blk Buffer Bitmap Inode Cache.

(** The types that the source gives: device and zone numbers are [unsigned short], data and
    user memory are bytes. *)
Definition is_byte (x : Z) : Prop := 0 <= x < 256.
Definition is_word (x : Z) : Prop := 0 <= x < 65536.
Definition inode_typed (n : m_inode) : Prop := is_word (i_dev n) /\ Forall is_word (i_zone n).
Record typed (k : K) : Prop := {
  ty_inode : forall i, inode_typed (inode_of k i);
  ty_super : forall i, is_word (s_dev (super_of k i));
  ty_root : is_word (ROOT_DEV k);
  ty_data : forall b, Forall is_byte (b_data (bh_of k b));
  ty_null : Forall is_byte (b_data (null_bh k));
  ty_user : forall a, is_byte (umem k a);
}.
(** The same as a test, but for the user's memory. *)
Definition below (n : Z) (l : list Z) : bool := forallb (fun x => (0 <=? x) && (x <? n)) l.
Definition typed_test (k : K) : bool :=
  forallb (fun n => below 65536 (i_dev n :: i_zone n)) (inode_table k) &&
  below 65536 (ROOT_DEV k :: (s_dev <$> supers k)) &&
  forallb (fun b => below 256 (b_data b)) (null_bh k :: buffers k).
Lemma below_spec n l : below n l = true -> Forall (fun x => 0 <= x < n) l.
Proof.
  unfold below. intros H. apply Forall_forall. intros x Hx. apply list_elem_of_In in Hx.
  rewrite forallb_forall in H. specialize (H x Hx). lia.
Qed.
Lemma forallb_default {A} (f : A -> bool) d l i : f d = true -> forallb f l = true ->
  f (default d (l !! i)) = true.
Proof.
  intros Hd Hl. destruct (l !! i) as [x|] eqn:E; [|done]. rewrite forallb_forall in Hl.
  apply Hl, list_elem_of_In. by eapply list_elem_of_lookup_2.
Qed.
Lemma typed_check k : typed_test k = true -> (forall a, is_byte (umem k a)) -> typed k.
Proof.
  intros [[Hi [Hr Hs]%below_spec%Forall_cons]%andb_true_iff [Hn Hb]%andb_true_iff]%andb_true_iff Hu.
  split; try done.
  - intros i. apply Forall_cons, below_spec.
    by apply (forallb_default (fun n => below 65536 (i_dev n :: i_zone n)) zero_inode).
  - intros i. unfold super_of. destruct (supers k !! i) as [s|] eqn:E; [|done].
    rewrite Forall_forall in Hs. apply Hs, list_elem_of_fmap. exists s. split; [done|].
    by eapply list_elem_of_lookup_2.
  - intros b. apply below_spec. by apply (forallb_default (fun b => below 256 (b_data b)) (null_bh k)).
  - by apply below_spec.
Qed.
(** The invariant: the cache, of [nb] buffers, is well formed, and values are in their
    types. *)
Definition kernel_ok (nb : nat) (k : K) : Prop := cache_ok k /\ NR_BUFFERS k = nb /\ typed k.

(** ** Stores that keep it *)
Lemma cache_ok_eq k k' : buffers k' = buffers k -> null_bh k' = null_bh k ->
  hash_table k' = hash_table k -> free_list k' = free_list k -> cache_ok k -> cache_ok k'.
Proof.
  intros Hb Hn Hh Hf. apply same_links_ok.
  split; [unfold NR_BUFFERS; by rewrite Hb | done | done |..]; intros i;
    unfold nxF, pvF, nxH, pvH, dev, blk, bh_of; by rewrite Hb, Hn.
Qed.

Lemma keep_bufs nb k k' : buffers k' = buffers k -> null_bh k' = null_bh k ->
  hash_table k' = hash_table k -> free_list k' = free_list k ->
  inode_table k' = inode_table k -> supers k' = supers k -> ROOT_DEV k' = ROOT_DEV k ->
  umem k' = umem k -> kernel_ok nb k -> kernel_ok nb k'.
Proof.
  intros Hb Hnl ? ? Hi Hs Hr Hu (? & Hn & [T1 T2 T3 T4 T5 T6]). split; [by apply (cache_ok_eq k)|].
  split; [by unfold NR_BUFFERS in *; rewrite Hb|].
  split; unfold inode_of, super_of, bh_of; rewrite ?Hi, ?Hs, ?Hr, ?Hb, ?Hnl, ?Hu; done.
Qed.

Definition keeps_links (f : buffer_head -> buffer_head) : Prop := forall b,
  b_next_free (f b) = b_next_free b /\ b_prev_free (f b) = b_prev_free b /\
  b_next (f b) = b_next b /\ b_prev (f b) = b_prev b /\ b_dev (f b) = b_dev b /\
  b_blocknr (f b) = b_blocknr b.
Definition keeps_bytes (f : buffer_head -> buffer_head) : Prop := forall b,
  Forall is_byte (b_data b) -> Forall is_byte (b_data (f b)).

Lemma typed_bh i f k : keeps_bytes f -> typed k -> typed (upd_bh i f k).
Proof.
  intros Hf [T1 T2 T3 T4 T5 T6]. split; try done. intros b. unfold bh_of, upd_bh in *. simpl.
  specialize (T4 b). destruct (decide (b = i)) as [-> | ]; [|by rewrite list_lookup_alter_ne].
  rewrite list_lookup_alter_eq. destruct (buffers k !! i); [by apply Hf|done].
Qed.
Lemma keep_bh nb i f k : keeps_links f -> keeps_bytes f -> kernel_ok nb k -> kernel_ok nb (upd_bh i f k).
Proof.
  intros ? ? (? & ? & ?). split; [by apply cache_ok_upd_bh|]. rewrite NR_BUFFERS_upd.
  split; [done|]. by apply typed_bh.
Qed.

Lemma keep_bh_at nb p f k :
  keeps_links f -> keeps_bytes f -> kernel_ok nb k -> kernel_ok nb (upd_bh_at p f k).
Proof.
  intros Hf Hb. destruct p as [i|]; [by apply keep_bh|]. intros (Hk & Hn & [T1 T2 T3 T4 T5 T6]).
  split; [|split; [done|split; try done]].
  2:{ intros b. specialize (T4 b). unfold bh_of in *. simpl. destruct (buffers k !! b); [done|by apply Hb]. }
  2:{ by apply Hb. }
  revert Hk. apply same_links_ok.
  split; try reflexivity; intros i; unfold nxF, pvF, nxH, pvH, dev, blk, bh_of; simpl;
    destruct (buffers k !! i); try done; apply Hf.
Qed.

Lemma keep_inode nb i f k : (forall n, inode_typed n -> inode_typed (f n)) ->
  kernel_ok nb k -> kernel_ok nb (upd_inode i f k).
Proof.
  intros Hf (? & ? & [Hi T2 T3 T4 T5 T6]). split; [by apply (cache_ok_eq k)|]. split; [done|].
  split; try done. intros j. specialize (Hi j).
  unfold inode_of, upd_inode in *. simpl. destruct (decide (j = i)) as [-> | ].
  - rewrite list_lookup_alter_eq. destruct (inode_table k !! i); simpl in *; [by apply Hf|done].
  - by rewrite list_lookup_alter_ne.
Qed.
Lemma keep_super nb i f k : (forall s, is_word (s_dev s) -> is_word (s_dev (f s))) ->
  kernel_ok nb k -> kernel_ok nb (upd_super i f k).
Proof.
  intros Hf (? & ? & [T1 Hs T3 T4 T5 T6]). split; [by apply (cache_ok_eq k)|]. split; [done|].
  split; try done. intros j. specialize (Hs j).
  unfold super_of, upd_super in *. simpl. destruct (decide (j = i)) as [-> | ].
  - rewrite list_lookup_alter_eq. destruct (supers k !! i); simpl in *; [by apply Hf|done].
  - by rewrite list_lookup_alter_ne.
Qed.
Lemma keep_umem nb g k : (forall m, (forall a, is_byte (m a)) -> forall a, is_byte (g m a)) ->
  kernel_ok nb k -> kernel_ok nb (k <| umem ::= g |>).
Proof.
  intros Hg (? & ? & [T1 T2 T3 T4 T5 T6]). split; [by apply (cache_ok_eq k)|]. split; [done|].
  split; try done. by apply Hg.
Qed.
Lemma keep_umem_const nb m k : (forall a, is_byte (m a)) -> kernel_ok nb k ->
  kernel_ok nb (k <| umem := m |>).
Proof. intros Hm. by apply (keep_umem nb (fun _ => m)). Qed.
(** Bytes *)
Lemma bytes_le n v : Forall is_byte (le_bytes n v).
Proof. revert v. induction n as [|n IH]; intros v; [done|]. constructor; [apply u8_range|apply IH]. Qed.
Lemma bytes_app l l' : Forall is_byte l -> Forall is_byte l' -> Forall is_byte (l ++ l').
Proof. intros. apply Forall_app. by split. Qed.
Lemma bytes_put_at off v l : Forall is_byte v -> Forall is_byte l -> Forall is_byte (put_at off v l).
Proof. intros Hv Hl. unfold put_at. apply bytes_app; [by apply Forall_take|]. apply bytes_app; [done|by apply Forall_drop]. Qed.
Lemma bytes_repeat n : Forall is_byte (repeat 0 n).
Proof. induction n; constructor; done. Qed.
Lemma byte_u8 x : is_byte (u8 x).
Proof. apply u8_range. Qed.
Lemma word_u16 x : is_word (u16 x).
Proof. apply u16_range. Qed.
Lemma bytes_read a n m : Forall is_byte (read_bytes a n m).
Proof.
  apply Forall_forall. intros x (i & -> & _)%list_elem_of_fmap. unfold byte_at. rewrite land_ff.
  apply Z.mod_pos_bound. lia.
Qed.
Lemma bytes_encode d : Forall is_byte (encode_inode d).
Proof.
  unfold encode_inode. repeat (apply bytes_app; [apply bytes_le|]).
  induction (take 9 (di_zone d)) as [|z l IH]; [done|]. apply bytes_app; [apply bytes_le|exact IH].
Qed.
Lemma words_insert i x l : is_word x -> Forall is_word l -> Forall is_word (<[i := x]> l).
Proof. intros. by apply Forall_insert. Qed.
Lemma word_0 : is_word 0.
Proof. done. Qed.
Lemma words_repeat n : Forall is_word (repeat 0 n).
Proof. induction n; constructor; done. Qed.
Lemma typed_zero : inode_typed zero_inode.
Proof. split; [done|]. by repeat constructor. Qed.
Lemma words_zero : Forall is_word (i_zone zero_inode).
Proof. by repeat constructor. Qed.
Create HintDb typed discriminated.
#[export] Hint Constants Opaque : typed.
#[export] Hint Resolve words_repeat Forall_cons_2 Forall_nil_2 typed_zero words_insert word_0 words_zero bytes_encode bytes_read bytes_le bytes_app bytes_put_at bytes_repeat byte_u8 word_u16 Forall_take Forall_drop : typed.

(** A store of values of the right type. *)
Ltac typed := first
  [ done | by intros []
  | intros ? ?; simpl; solve [auto 8 with typed]
  | intros ? [? ?]; split; simpl; solve [auto 8 with typed] ].
Ltac keep :=
  cbn beta;
  first
    [ apply keep_bh; [done|typed|assumption]
    | apply keep_bh_at; [done|typed|assumption]
    | apply keep_inode; [typed|assumption]
    | apply keep_super; [typed|assumption]
    | eapply keep_bufs; [..|eassumption]; reflexivity ].

Lemma preserves_repeat_awake {A} (I : K -> Prop) (body : M K (option A)) :
  preserves I body -> preserves I (repeat_awake body).
Proof.
  intros Hb. unfold repeat_awake.
  apply (preserves_world I (fun w => repeat_until (2 + 2 * length (script w)) body)).
  intros w. by apply preserves_repeat_until.
Qed.

Ltac kpreserve :=
  preserve keep; try (apply preserves_repeat_awake; kpreserve).

#[local] Abbreviation kok m := (forall nb, preserves (kernel_ok nb) m).

(** ** The block devices *)
Lemma kok_wait_on_buffer bh : kok (wait_on_buffer bh).
Proof. intros nb. unfold wait_on_buffer. kpreserve. Qed.
Lemma kok_lock_buffer bh : kok (lock_buffer bh).
Proof. intros nb. unfold lock_buffer. kpreserve. Qed.
Lemma kok_unlock_buffer bh : kok (unlock_buffer bh).
Proof. intros nb. unfold unlock_buffer. kpreserve. Qed.
Lemma kok_unlock_buffer_drv bh : kok (unlock_buffer_drv bh).
Proof. intros nb. unfold unlock_buffer_drv. kpreserve. Qed.
#[export] Hint Resolve kok_wait_on_buffer kok_lock_buffer kok_unlock_buffer
  kok_unlock_buffer_drv : preserves.

Lemma kok_end_request major u : kok (end_request major u).
Proof. intros nb. unfold end_request. kpreserve. Qed.
#[export] Hint Resolve kok_end_request : preserves.
Lemma kok_rd_step : kok rd_step.
Proof. intros nb. unfold rd_step. kpreserve. Qed.
#[export] Hint Resolve kok_rd_step : preserves.
Lemma kok_do_rd_request : kok do_rd_request.
Proof. intros nb. unfold do_rd_request. kpreserve. Qed.
#[export] Hint Resolve kok_do_rd_request : preserves.
Lemma kok_call_request_fn f : kok (call_request_fn f).
Proof. intros nb. destruct f; simpl; kpreserve. Qed.
#[export] Hint Resolve kok_call_request_fn : preserves.
Lemma kok_add_request major req : kok (add_request major req).
Proof. intros nb. unfold add_request. kpreserve. Qed.
#[export] Hint Resolve kok_add_request : preserves.
Lemma kok_make_request major rw bh : kok (make_request major rw bh).
Proof. intros nb. unfold make_request. kpreserve. Qed.
#[export] Hint Resolve kok_make_request : preserves.
Lemma kok_ll_rw_block rw bh : kok (ll_rw_block rw bh).
Proof. intros nb. unfold ll_rw_block. kpreserve. Qed.
#[export] Hint Resolve kok_ll_rw_block : preserves.

(** ** The cache and the inode table *)
Lemma kok_find_buffer d b : kok (find_buffer d b).
Proof. intros nb. unfold find_buffer. kpreserve. Qed.
#[export] Hint Resolve kok_find_buffer : preserves.
Lemma kok_get_hash_table d b : kok (get_hash_table d b).
Proof. intros nb. unfold get_hash_table. kpreserve. Qed.
Lemma kok_brelse p : kok (brelse p).
Proof. intros nb. unfold brelse. kpreserve. Qed.
Lemma kok_sync_pass d : kok (sync_pass d).
Proof. intros nb. unfold sync_pass, all_buffers. kpreserve. Qed.
Lemma kok_invalidate_buffers d : kok (invalidate_buffers d).
Proof. intros nb. unfold invalidate_buffers, all_buffers. kpreserve. Qed.
Lemma kok_get_super d : kok (get_super d).
Proof. intros nb. unfold get_super, wait_on_super. kpreserve. Qed.
Lemma kok_lock_inode i : kok (lock_inode i).
Proof. intros nb. unfold lock_inode. kpreserve. Qed.
Lemma kok_unlock_inode i : kok (unlock_inode i).
Proof. intros nb. unfold unlock_inode. kpreserve. Qed.
Lemma kok_wait_on_inode i : kok (wait_on_inode i).
Proof. intros nb. unfold wait_on_inode. kpreserve. Qed.
#[export] Hint Resolve kok_get_hash_table kok_brelse kok_sync_pass kok_get_super
  kok_lock_inode kok_unlock_inode kok_wait_on_inode : preserves.

(** ** Loops that end with a result *)
Lemma wlp_repeat_until {A} (I : K -> Prop) (Q : A -> K -> Prop) (body : M K (option A)) :
  (forall s w, I s -> ok_script I w ->
     wlpx I body (fun r s' w' => (I s' /\ ok_script I w') /\
       match r with Some a => Q a s' | None => True end) s w) ->
  forall n s w, I s -> ok_script I w ->
    wlpx I (repeat_until n body) (fun a s' w' => (I s' /\ ok_script I w') /\ Q a s') s w.
Proof.
  intros Hb n. induction n as [|n IH]; intros s w Hs Hw; [done|]. cbn [repeat_until].
  apply wlp_bind. eapply wlp_mono; [by apply Hb|]. intros [a|] s' w' [[Hs' Hw'] HQ].
  - by apply wlp_ret.
  - by apply IH.
Qed.

Lemma wlp_repeat_awake {A} (I : K -> Prop) (Q : A -> K -> Prop) (body : M K (option A)) :
  (forall s w, I s -> ok_script I w ->
     wlpx I body (fun r s' w' => (I s' /\ ok_script I w') /\
       match r with Some a => Q a s' | None => True end) s w) ->
  forall s w, I s -> ok_script I w ->
    wlpx I (repeat_awake body) (fun a s' w' => (I s' /\ ok_script I w') /\ Q a s') s w.
Proof. intros Hb s w. unfold repeat_awake. by apply wlp_repeat_until. Qed.

Lemma wlp_preserves {A} (I : K -> Prop) (m : M K A) s w :
  preserves I m -> I s -> ok_script I w -> wlpx I m (fun _ s' w' => I s' /\ ok_script I w') s w.
Proof. intros Hm. by apply Hm. Qed.

Lemma wlp_gets_bind {A B} E (f : K -> A) (g : A -> M K B) Q s w :
  wlpx E (g (f s)) Q s w -> wlpx E (gets f ≫= g) Q s w.
Proof. done. Qed.
Lemma wlp_get_bind {B} E (g : K -> M K B) Q s w : wlpx E (g s) Q s w -> wlpx E (get ≫= g) Q s w.
Proof. done. Qed.
Lemma wlp_modify_bind {B} E f (g : unit -> M K B) Q s w :
  wlpx E (g tt) Q (f s) w -> wlpx E (modify f ≫= g) Q s w.
Proof. done. Qed.
Lemma wlp_ret_bind {A B} E (m : M K A) (g : A -> M K B) Q s w a s' w' :
  m s w = Ret a s' w' -> wlpx E (g a) Q s' w' -> wlpx E (m ≫= g) Q s w.
Proof. intros Er. unfold wlpx. by rewrite (run_ret _ _ _ _ _ _ _ Er). Qed.
(** A call that keeps the invariant, inside a routine with a postcondition. *)
Lemma wlp_call {A B} (I : K -> Prop) (m : M K A) (g : A -> M K B) Q s w :
  preserves I m -> I s -> ok_script I w ->
  (forall a s' w', I s' -> ok_script I w' -> wlpx I (g a) Q s' w') -> wlpx I (m ≫= g) Q s w.
Proof.
  intros Hm Hs Hw Hg. apply wlp_bind. eapply wlp_mono; [by apply Hm|].
  intros a s' w' [??]. by apply Hg.
Qed.

(** ** The buffer asked for *)
Definition holds (nb : nat) (d b : Z) (bh : nat) (k : K) : Prop :=
  (bh < nb)%nat /\ dev k bh = d /\ blk k bh = u32 b.

Lemma get_hash_table_holds nb d b s w : kernel_ok nb s -> ok_script (kernel_ok nb) w ->
  wlpx (kernel_ok nb) (get_hash_table d b) (fun r s' w' => (kernel_ok nb s' /\ ok_script (kernel_ok nb) w') /\
    match r with Some bh => holds nb d b bh s' | None => True end) s w.
Proof.
  apply wlp_repeat_awake. clear s w. intros s w Hs Hw.
  destruct (find_buffer_ok d b s w (proj1 Hs)) as (r & E & Hr).
  apply (wlp_ret_bind _ _ _ _ _ _ _ _ _ E). destruct r as [bh|]; [|by apply wlp_ret].
  destruct Hr as (Hbh & _). rewrite (proj1 (proj2 Hs)) in Hbh.
  apply wlp_modify_bind.
  apply (wlp_call (kernel_ok nb)); [apply kok_wait_on_buffer | keep | done |].
  clear s w Hs Hw E. intros _ s w Hs Hw. apply wlp_gets_bind.
  destruct (Z.eqb_spec (b_dev (bh_of s bh)) d); [|apply wlp_modify_bind, wlp_ret; split; [split; [keep|done]|done]].
  destruct (Z.eqb_spec (b_blocknr (bh_of s bh)) (u32 b)); cbn [andb];
    [|apply wlp_modify_bind, wlp_ret; split; [split; [keep|done]|done]].
  by apply wlp_ret.
Qed.

(** ** The scan of the free list *)
Lemma scan_in k R fuel : forall x best r, ring (nxF k) (pvF k) R -> x ∈ R ->
  (forall y, best = Some y -> y ∈ R) ->
  scan_free_list fuel k (Some x) best = Some r -> forall y, r = Some y -> y ∈ R.
Proof.
  induction fuel as [|n IH]; intros x best r HR Hx Hbest; [done|].
  cbn [scan_free_list bh_at].
  destruct (ring_next _ _ _ _ HR Hx) as (y & Hy & Hyin). unfold nxF in Hy. rewrite Hy.
  assert (Go : forall best' r, (forall y, best' = Some y -> y ∈ R) ->
    (if bool_decide (Some y = free_list k) then Some best'
     else scan_free_list n k (Some y) best') = Some r -> forall z, r = Some z -> z ∈ R).
  { intros best' r' Hb'. destruct (bool_decide _).
    - by intros [= <-].
    - by apply IH. }
  assert (Hsx : forall z, Some x = Some z -> z ∈ R) by (by intros z [= <-]).
  destruct (truth _); [by apply Go|].
  destruct (match best with Some _ => _ | None => _ end); [|by apply Go].
  destruct (_ =? 0); [by intros [= <-]|by apply Go].
Qed.

Lemma scan_lt nb k fuel r : kernel_ok nb k ->
  scan_free_list fuel k (free_list k) None = Some (Some r) -> (r < nb)%nat.
Proof.
  intros ([Hm [R (HR & Hring & Hhd)] _ _] & Hn & _) Hs.
  destruct R as [|h l]; [done|]. simpl in Hhd. rewrite Hhd in Hs.
  assert (Hin : r ∈ h :: l).
  { apply (scan_in k (h :: l) fuel h None (Some r)); by try left. }
  rewrite HR, elem_of_seq in Hin. lia.
Qed.

(** ** Giving a buffer a new block *)
Lemma typed_rest k k' : same_rest k k' -> NR_BUFFERS k' = NR_BUFFERS k -> typed k -> typed k'.
Proof.
  intros [He Hc] Hn [T1 T2 T3 T4 T5 T6]. injection He as Ei Es Er Eu.
  assert (Hd : forall b, b_data (bh_of k' b) = b_data (bh_of k b))
    by (intros b; exact (f_equal b_data (Hc b))).
  split; unfold inode_of, super_of; rewrite ?Ei, ?Es, ?Er, ?Eu; try done.
  - intros b. by rewrite Hd.
  - specialize (Hd (NR_BUFFERS k)). unfold bh_of, NR_BUFFERS in *.
    rewrite !(proj2 (lookup_ge_None _ _)) in Hd by lia. simpl in Hd. by rewrite Hd.
Qed.
Lemma core_dev k k' i : same_rest k k' -> dev k' i = dev k i.
Proof. intros [_ H]. exact (f_equal b_dev (H i)). Qed.
Lemma core_blk k k' i : same_rest k k' -> blk k' i = blk k i.
Proof. intros [_ H]. exact (f_equal b_blocknr (H i)). Qed.

Lemma cache_out_upd bh f k :
  (forall b, b_next_free (f b) = b_next_free b /\ b_prev_free (f b) = b_prev_free b /\
     b_next (f b) = b_next b /\ b_prev (f b) = b_prev b) ->
  cache_out bh k -> cache_out bh (upd_bh bh f k).
Proof.
  intros Hf [Hbh (R & HRne & Hperm & Hring & Hhd) [C HC] Hu].
  assert (Hk : forall i, nxF (upd_bh bh f k) i = nxF k i /\ pvF (upd_bh bh f k) i = pvF k i /\
    nxH (upd_bh bh f k) i = nxH k i /\ pvH (upd_bh bh f k) i = pvH k i).
  { intros i. unfold nxF, pvF, nxH, pvH. repeat split; apply field_keep; apply Hf. }
  assert (Hne : forall i, i <> bh -> dev (upd_bh bh f k) i = dev k i /\
    blk (upd_bh bh f k) i = blk k i).
  { intros i Hi. unfold dev, blk. by rewrite bh_of_upd_ne. }
  split.
  - by rewrite NR_BUFFERS_upd.
  - exists R. rewrite NR_BUFFERS_upd. do 2 (split; [done|]). split; [|done].
    revert Hring. apply ring_pointwise; intros i; apply Hk.
  - exists C. destruct HC as [L1 L2 L3 L4 L5 L6 L7]. split; [done|done| |done| | |].
    + intros h. apply (dchain_ext (nxH k) (pvH k)); [intros; apply Hk..|done].
    + intros h x Hx. destruct (L5 h x Hx) as (? & ? & ? & ?).
      rewrite NR_BUFFERS_upd. unfold bucket. destruct (Hne x) as [-> ->]; [congruence|].
      by repeat split.
    + intros x. rewrite NR_BUFFERS_upd. intros Hx. unfold bucket. intros Hd Hxb.
      destruct (Hne x) as [E1 E2]; [congruence|]. rewrite E1, E2 in *. by apply L6.
    + intros x. rewrite NR_BUFFERS_upd. intros Hx Hd Hxb.
      destruct (Hne x) as [E1 E2]; [congruence|]. rewrite E1 in *.
      destruct (Hk x) as (_ & _ & -> & ->). by apply L7.
  - intros x y. rewrite NR_BUFFERS_upd. intros Hx Hy Hxb Hyb.
    destruct (Hne x Hxb) as [-> ->]. destruct (Hne y Hyb) as [-> ->]. by apply Hu.
Qed.

Section getblk.
Context {sync : SyncInodes} (nb : nat).
Context (Hsync : preserves (kernel_ok nb) sync_inodes).

Lemma kok_sync_dev d : preserves (kernel_ok nb) (sync_dev d).
Proof using Hsync. unfold sync_dev. kpreserve; exact Hsync. Qed.
Lemma kok_clean bh : preserves (kernel_ok nb) (clean bh).
Proof using Hsync.
  unfold clean. apply preserves_repeat_awake.
  preserve ltac:(keep); apply kok_sync_dev.
Qed.

(** The last part of [getblk]: the buffer changes its block. *)
Lemma retarget_ok bh d b s w : kernel_ok nb s -> (bh < nb)%nat -> 0 <= d < 65536 ->
  (d <> 0 -> absent d b s) ->
  exists s',
    (modify (upd_bh bh (fun b =>
       b <| b_count := 1 |> <| b_dirt := 0 |> <| b_uptodate := 0 |>)) ;;
     remove_from_queues bh ;;
     modify (upd_bh bh (fun x => x <| b_dev := u16 d |> <| b_blocknr := u32 b |>)) ;;
     insert_into_queues bh ;;
     mret (Some bh)) s w = Ret (Some bh) s' w /\
    kernel_ok nb s' /\ holds nb d b bh s' /\
    b_count (bh_of s' bh) = 1 /\ b_dirt (bh_of s' bh) = 0 /\ b_uptodate (bh_of s' bh) = 0.
Proof using.
  intros Hs Hbh Hd Habs. run.
  set (s1 := upd_bh bh _ s).
  assert (Hs1 : kernel_ok nb s1) by (unfold s1; keep).
  pose proof Hs1 as (Hc1 & Hn1 & Hi1).
  destruct (remove_ok bh s1 w Hc1) as (s2 & E2 & Hout & Hn2 & Hr2); [by rewrite Hn1|].
  rewrite (run_ret _ _ _ _ _ _ _ E2). run. rewrite (u16_small d) by lia.
  set (f := fun x : buffer_head => x <| b_dev := d |> <| b_blocknr := u32 b |>).
  change (upd_bh bh _ s2) with (upd_bh bh f s2).
  assert (Hout3 : cache_out bh (upd_bh bh f s2)) by (by apply cache_out_upd).
  assert (Hdev : forall x, dev (upd_bh bh f s2) x = if decide (x = bh) then d else dev s x).
  { intros x. unfold dev. rewrite (field_upd b_dev) by congruence.
    destruct (decide (x = bh)); [done|].
    change (dev s2 x = dev s x). rewrite (core_dev s1) by done. by apply field_keep. }
  assert (Hblk : forall x, blk (upd_bh bh f s2) x = if decide (x = bh) then u32 b else blk s x).
  { intros x. unfold blk. rewrite (field_upd b_blocknr) by congruence.
    destruct (decide (x = bh)); [done|].
    change (blk s2 x = blk s x). rewrite (core_blk s1) by done. by apply field_keep. }
  destruct (insert_ok bh (upd_bh bh f s2) w Hout3) as (s4 & E4 & Hc4 & Hn4 & Hr4).
  { intros x Hx Hxb. rewrite !Hdev, !Hblk. destruct (decide (bh = bh)); [|done].
    destruct (decide (x = bh)); [done|]. intros Hd0 Ed Eb.
    apply (Habs Hd0 x); [|done].
    rewrite NR_BUFFERS_upd, Hn2 in Hx. unfold s1 in Hx. by rewrite NR_BUFFERS_upd in Hx. }
  rewrite (run_ret _ _ _ _ _ _ _ E4). exists s4. split; [done|].
  assert (Hcore : core (bh_of s4 bh) = core (f (bh_of s1 bh))).
  { destruct Hr4 as [_ ->]. rewrite bh_of_upd, decide_True by (done || congruence).
    change (f (core (bh_of s2 bh)) = f (core (bh_of s1 bh))).
    by rewrite (proj2 Hr2). }
  unfold s1 in Hcore. rewrite bh_of_upd, decide_True in Hcore by (done || by rewrite (proj1 (proj2 Hs))).
  split; [|split].
  - split; [done|]. split; [rewrite Hn4, NR_BUFFERS_upd; congruence|].
    apply (typed_rest (upd_bh bh f s2) s4); [done|done|]. apply typed_bh; [by intros []|].
    by apply (typed_rest s1 s2).
  - split; [done|]. split; [exact (f_equal b_dev Hcore)|exact (f_equal b_blocknr Hcore)].
  - split; [exact (f_equal b_count Hcore)|].
    split; [exact (f_equal b_dirt Hcore)|exact (f_equal b_uptodate Hcore)].
Qed.

Lemma getblk_holds d b s w : 0 <= d < 65536 -> kernel_ok nb s -> ok_script (kernel_ok nb) w ->
  wlpx (kernel_ok nb) (getblk d b) (fun bh s' w' => (kernel_ok nb s' /\ ok_script (kernel_ok nb) w') /\
    holds nb d b bh s') s w.
Proof using Hsync.
  intros Hd. apply wlp_repeat_awake. clear s w. intros s w Hs Hw.
  apply wlp_bind. eapply wlp_mono; [by apply get_hash_table_holds|].
  clear s w Hs Hw. intros [bh|] s w [[Hs Hw] Hh]; [by apply wlp_ret|].
  apply wlp_get_bind.
  destruct (scan_free_list _ _ _ _) as [[bh|]|] eqn:Escan; [| |done].
  - assert (Hbh : (bh < nb)%nat) by (by eapply scan_lt).
    apply (wlp_call (kernel_ok nb)); [apply kok_wait_on_buffer|done|done|].
    clear s w Hs Hw Hh Escan. intros _ s w Hs Hw. apply wlp_gets_bind.
    destruct (truth (b_count (bh_of s bh))); [by apply wlp_ret|].
    apply (wlp_call (kernel_ok nb)); [apply kok_clean|done|done|].
    clear s w Hs Hw. intros ok s w Hs Hw. destruct ok; [|by apply wlp_ret].
    cbn [negb].
    destruct (find_buffer_ok d b s w (proj1 Hs)) as (r & E & Hr).
    apply (wlp_ret_bind _ _ _ _ _ _ _ _ _ E). destruct r as [x|]; [by apply wlp_ret|].
    destruct (retarget_ok bh d b s w Hs Hbh Hd Hr) as (s' & E' & Hs' & Hh' & _).
    unfold wlpx. by rewrite E'.
  - apply (wlp_call (kernel_ok nb)); [apply preserves_sleep_on_q|done|done|].
    clear s w Hs Hw Hh Escan. intros _ s w Hs Hw. by apply wlp_ret.
Qed.

Lemma kok_bread d b : is_word d -> preserves (kernel_ok nb) (bread d b).
Proof using Hsync.
  intros Hd. unfold bread. apply preserves_bind; [|intros bh; kpreserve].
  intros s w Hs Hw. eapply wlp_mono; [by apply getblk_holds|]. by intros ? ? ? [? _].
Qed.

Lemma preserves_gets_bind {A B} (I : K -> Prop) (f : K -> A) (g : A -> M K B) :
  (forall s, I s -> preserves I (g (f s))) -> preserves I (gets f ≫= g).
Proof using. intros Hg s w Hs Hw. apply wlp_gets_bind. by apply Hg. Qed.
Lemma preserves_get_bind {B} (I : K -> Prop) (g : K -> M K B) :
  (forall s, I s -> preserves I (g s)) -> preserves I (get ≫= g).
Proof using. intros Hg s w Hs Hw. apply wlp_get_bind. by apply Hg. Qed.

Lemma kok_write_inode i : preserves (kernel_ok nb) (write_inode i).
Proof using Hsync.
  unfold write_inode. apply preserves_bind; [apply kok_lock_inode|intros _].
  apply preserves_bind; [kpreserve|intros n].
  destruct (_ || _); [kpreserve|].
  apply preserves_bind; [kpreserve|intros [sb|]]; [|kpreserve].
  apply preserves_get_bind. intros s Hs. cbv zeta.
  apply preserves_bind; [apply kok_bread; apply Hs|intros [bh|]]; kpreserve.
Qed.

Lemma kok_sync_inodes_body : preserves (kernel_ok nb) sync_inodes_body.
Proof using Hsync.
  unfold sync_inodes_body. kpreserve. apply kok_write_inode.
Qed.
End getblk.

(** The whole recursion of [sync_inodes] and [getblk]. *)
Lemma kok_sync_inodes_n depth nb : preserves (kernel_ok nb) (sync_inodes_n depth).
Proof.
  induction depth as [|d IH]; [apply preserves_out_of_fuel|]. simpl.
  by apply kok_sync_inodes_body.
Qed.

(** ** The scan finds the best unused buffer *)
Definition best_in (k : K) (l : list nat) (best : option nat) : Prop :=
  match best with
  | None => forall z, z ∈ l -> b_count (bh_of k z) <> 0
  | Some y => y ∈ l /\ b_count (bh_of k y) = 0 /\
      forall z, z ∈ l -> b_count (bh_of k z) = 0 -> BADNESS (bh_of k y) <= BADNESS (bh_of k z)
  end.

Lemma ring_step nf pf pre x post : ring nf pf (pre ++ x :: post) -> NoDup (pre ++ x :: post) ->
  match post with
  | [] => nf x = head (pre ++ [x])
  | y :: _ => nf x = Some y /\ Some y <> head (pre ++ x :: post)
  end.
Proof.
  intros Hr Hnd. pose proof (ring_rotate nf pf pre (x :: post) Hr) as Hr'. cbn [app] in Hr'.
  destruct post as [|y post].
  - destruct pre as [|z pre]; simpl in Hr' |- *; tauto.
  - split; [simpl in Hr'; tauto|]. intros Hhd. symmetry in Hhd.
    destruct pre as [|z pre]; simpl in Hhd; injection Hhd as ->.
    + apply NoDup_cons in Hnd as [Hn _]. set_solver.
    + simpl in Hnd. apply NoDup_cons in Hnd as [Hn _]. set_solver.
Qed.

Lemma best_in_snoc_used k l x best : b_count (bh_of k x) <> 0 ->
  best_in k l best -> best_in k (l ++ [x]) best.
Proof.
  intros Hx. destruct best as [y|]; simpl.
  - intros (Hy & Hc & Hb). split; [set_solver|]. split; [done|].
    intros z [Hz | ->%list_elem_of_singleton]%elem_of_app Hcz; [by apply Hb|done].
  - intros Hl z [Hz | ->%list_elem_of_singleton]%elem_of_app; [by apply Hl|done].
Qed.

Lemma scan_spec k R : ring (nxF k) (pvF k) R -> NoDup R -> free_list k = head R ->
  (forall z, z ∈ R -> 0 <= BADNESS (bh_of k z)) ->
  forall post pre x best fuel, R = pre ++ x :: post -> (S (length post) <= fuel)%nat ->
    best_in k pre best ->
    exists r, scan_free_list fuel k (Some x) best = Some r /\ best_in k R r.
Proof.
  intros HR Hnd Hfl Hpos. induction post as [|y post IH]; intros pre x best fuel E Hfuel Hbest;
    (destruct fuel as [|fuel]; [simpl in Hfuel; lia|]); cbn [scan_free_list bh_at];
    pose proof (ring_step _ _ pre x _ (eq_ind _ _ HR _ E) (eq_ind _ _ Hnd _ E)) as Hstep;
    cbv beta iota in Hstep; unfold nxF in Hstep.
  all: assert (Hgo : forall best', best_in k (pre ++ [x]) best' ->
    exists r, (if bool_decide (b_next_free (bh_of k x) = free_list k) then Some best'
      else scan_free_list fuel k (b_next_free (bh_of k x)) best') = Some r /\ best_in k R r).
  { intros best' Hb'. rewrite Hstep, Hfl, E, bool_decide_true by done.
    exists best'. by rewrite E in *. }
  2:{ intros best' Hb'. destruct Hstep as [Hn Hne]. rewrite Hn, Hfl, E, bool_decide_false by done.
    rewrite <- E. apply (IH (pre ++ [x])); [by rewrite <- app_assoc|simpl in Hfuel; lia|done]. }
  all: assert (HxR : x ∈ R) by (rewrite E; set_solver).
  all: unfold truth; destruct (Z.eqb_spec (b_count (bh_of k x)) 0) as [Hc|Hc]; cbn [negb];
    [|by apply Hgo, best_in_snoc_used].
  all: destruct (match best with Some b => BADNESS (bh_of k x) <? BADNESS (bh_of k b)
                               | None => true end) eqn:Ebest.
  all: try (destruct (Z.eqb_spec (BADNESS (bh_of k x)) 0) as [E0|E0];
    [exists (Some x); split; [done|]; split; [done|]; split; [done|];
     intros z Hz _; rewrite E0; by apply Hpos|]).
  all: apply Hgo.
  all: destruct best as [b|]; try done; try (apply Z.ltb_lt in Ebest); try (apply Z.ltb_ge in Ebest).
  all: simpl in Hbest |- *.
  all: try destruct Hbest as (Hb1 & Hb2 & Hb3).
  all: split; [set_solver|]; split; [done|].
  all: intros z [Hz | ->%list_elem_of_singleton]%elem_of_app Hcz; try lia.
  all: try (specialize (Hb3 z Hz Hcz); lia).
  all: by destruct (Hbest z Hz).
Qed.

(** No buffer's badness is negative. *)
Definition badness_pos (k : K) : Prop :=
  forall z, (z < NR_BUFFERS k)%nat -> 0 <= b_dirt (bh_of k z) /\ 0 <= b_lock (bh_of k z).

Lemma BADNESS_eq b : BADNESS b = 2 * b_dirt b + b_lock b.
Proof. unfold BADNESS. rewrite shiftl_mul by lia. lia. Qed.

Lemma scan_best k : cache_ok k -> badness_pos k ->
  exists r, scan_free_list (NR_BUFFERS k) k (free_list k) None = Some r /\
    best_in k (seq 0 (NR_BUFFERS k)) r.
Proof.
  intros [Hm [R (HR & Hring & Hhd)] _ _] Hpos.
  assert (Hnd : NoDup R) by (rewrite HR; apply NoDup_seq).
  assert (Hlen : length R = NR_BUFFERS k) by (by rewrite HR, length_seq).
  assert (Hin : forall z, z ∈ R <-> z ∈ seq 0 (NR_BUFFERS k)) by (intros z; by rewrite HR).
  destruct R as [|h l]; [done|].
  destruct (scan_spec k (h :: l) Hring Hnd Hhd) with (post := l) (pre := @nil nat) (x := h)
    (best := @None nat) (fuel := NR_BUFFERS k) as (r & E & Hr).
  - intros z Hz. rewrite BADNESS_eq. destruct (Hpos z); [|lia].
    apply Hin, elem_of_seq in Hz. lia.
  - done.
  - rewrite <- Hlen. simpl. lia.
  - intros z Hz. set_solver.
  - exists r. simpl in Hhd. rewrite Hhd. split; [done|].
    destruct r as [y|]; simpl in *.
    + destruct Hr as (Hy & Hc & Hb). split; [by apply Hin|]. split; [done|].
      intros z Hz. apply Hb. by apply Hin.
    + intros z Hz. apply Hr. by apply Hin.
Qed.

(** * Properties *)

(** C4. In a cache in its invariant, and whatever the other tasks do meanwhile within
    it, [getblk] can only return a buffer head of the table that holds the very
    device and block it was asked for; the free list, the hash chains and the
    uniqueness of cached blocks survive, through the write-backs, the elevator, the
    RAM disk and the inode table that it may go through. *)
Theorem getblk_gets_block depth nb d b k w :
  0 < d < 65536 -> kernel_ok nb k -> ok_script (kernel_ok nb) w ->
  wlp (@getblk (sync_inodes_n depth) d b) (fun bh k' w' =>
    kernel_ok nb k' /\ (bh < nb)%nat /\ b_dev (bh_of k' bh) = d /\
    b_blocknr (bh_of k' bh) = u32 b) k w.
Proof.
  intros Hd Hk Hw. apply (wlpx_wlp (kernel_ok nb)). eapply wlp_mono.
  - apply (@getblk_holds (sync_inodes_n depth) nb); [apply kok_sync_inodes_n|lia|done|done].
  - intros bh k' w' [[Hk' _] Hh]. by split.
Qed.

(** [sys_sync], the pass over all dirty buffers and inodes, keeps the cache in its
    invariant. *)
Theorem sys_sync_keeps_cache depth nb k w :
  kernel_ok nb k -> ok_script (kernel_ok nb) w ->
  wlp (@sys_sync (sync_inodes_n depth)) (fun _ k' w' => kernel_ok nb k') k w.
Proof.
  intros Hk Hw. apply (wlpx_wlp (kernel_ok nb)).
  eapply wlp_mono with (Q := fun _ k' w' => kernel_ok nb k' /\ _).
  - assert (Hp : preserves (kernel_ok nb) (@sys_sync (sync_inodes_n depth))); [|by apply Hp].
    unfold sys_sync, all_buffers, sync_inodes.
    apply preserves_bind; [apply kok_sync_inodes_n|intros _]. kpreserve.
  - by intros _ k' w' [? _].
Qed.

(** C25. The scan of the free list ends, and picks an unused buffer of the least
    [BADNESS] of all, or none exactly when every buffer is in use. *)
Theorem scan_free_list_best k : cache_ok k -> badness_pos k ->
  exists r, scan_free_list (NR_BUFFERS k) k (free_list k) None = Some r /\
    match r with
    | None => forall z, (z < NR_BUFFERS k)%nat -> b_count (bh_of k z) <> 0
    | Some y => (y < NR_BUFFERS k)%nat /\ b_count (bh_of k y) = 0 /\
        forall z, (z < NR_BUFFERS k)%nat -> b_count (bh_of k z) = 0 ->
          BADNESS (bh_of k y) <= BADNESS (bh_of k z)
    end.
Proof.
  intros Hk Hpos. destruct (scan_best k Hk Hpos) as (r & E & Hr). exists r. split; [done|].
  destruct r as [y|]; simpl in Hr.
  - destruct Hr as (Hy & Hc & Hb). apply elem_of_seq in Hy. split; [lia|]. split; [done|].
    intros z Hz. apply Hb, elem_of_seq. lia.
  - intros z Hz. apply Hr, elem_of_seq. lia.
Qed.

(** A cache hit: when an unlocked buffer holds the block, [getblk] returns that
    buffer at once, with one more reference, and changes nothing else. *)
Theorem getblk_hit {sync : SyncInodes} bh k w :
  cache_ok k -> (bh < NR_BUFFERS k)%nat -> b_dev (bh_of k bh) <> 0 ->
  0 <= b_blocknr (bh_of k bh) < 4294967296 -> b_lock (bh_of k bh) = 0 ->
  getblk (b_dev (bh_of k bh)) (b_blocknr (bh_of k bh)) k w =
    Ret bh (upd_bh bh (fun b => b <| b_count ::= fun c => u8 (c + 1) |>) k) w.
Proof.
  intros Hk Hbh Hd Hb Hl.
  set (d := b_dev (bh_of k bh)) in *. set (b := b_blocknr (bh_of k bh)) in *.
  destruct (find_buffer_ok d b k w Hk) as (r & E & Hr).
  assert (r = Some bh) as ->.
  { destruct r as [x|].
    - destruct Hr as (Hx & Ed & Eb). f_equal. rewrite u32_small in Eb by done.
      apply (co_unique k Hk); [done|done|by rewrite Ed|by rewrite Ed|by rewrite Eb].
    - exfalso. apply (Hr Hd bh Hbh). split; [done|]. by rewrite u32_small. }
  unfold getblk, repeat_awake. apply repeat_until_done.
  set (k1 := upd_bh bh _ k).
  assert (Eg : get_hash_table d b k w = Ret (Some bh) k1 w).
  { unfold get_hash_table, repeat_awake. apply repeat_until_done.
    rewrite (run_ret _ _ _ _ _ _ _ E). run. fold k1.
    assert (Hl1 : truth (b_lock (bh_of k1 bh)) = false).
    { unfold k1. rewrite (field_keep b_lock) by done. by rewrite Hl. }
    unfold wait_on_buffer. run_awake Hl1. run.
    unfold k1. rewrite (field_keep b_dev), (field_keep b_blocknr) by done.
    fold d b. rewrite u32_small by done. by rewrite !Z.eqb_refl. }
  by rewrite (run_ret _ _ _ _ _ _ _ Eg).
Qed.

(** C23. A cache miss with a clean buffer to spare: [getblk] returns without sleeping,
    with a buffer that was in use by nobody, which now holds the block, referenced
    once, clean and not yet up to date; the invariant holds again. *)
Theorem getblk_miss {sync : SyncInodes} nb d b k w z :
  kernel_ok nb k -> badness_pos k -> 0 < d < 65536 -> absent d b k ->
  (z < nb)%nat -> b_count (bh_of k z) = 0 -> BADNESS (bh_of k z) = 0 ->
  exists bh k', getblk d b k w = Ret bh k' w /\ kernel_ok nb k' /\
    (bh < nb)%nat /\ b_count (bh_of k bh) = 0 /\
    b_dev (bh_of k' bh) = d /\ b_blocknr (bh_of k' bh) = u32 b /\
    b_count (bh_of k' bh) = 1 /\ b_dirt (bh_of k' bh) = 0 /\ b_uptodate (bh_of k' bh) = 0.
Proof.
  intros Hk Hpos Hd Habs Hz Hzc Hzb. pose proof Hk as (Hc & Hn & _).
  destruct (find_buffer_ok d b k w Hc) as (r & E & Hr).
  assert (r = None) as ->.
  { destruct r as [x|]; [|done]. destruct Hr as (Hx & ?). by destruct (Habs x Hx). }
  destruct (scan_best k Hc Hpos) as (r & Escan & Hbest).
  assert (Hzin : z ∈ seq 0 (NR_BUFFERS k)) by (apply elem_of_seq; lia).
  destruct r as [bh|]; simpl in Hbest; [|by destruct (Hbest z Hzin)].
  destruct Hbest as (Hin & Hcnt & Hle). specialize (Hle z Hzin Hzc).
  assert (Hbh : (bh < nb)%nat) by (apply elem_of_seq in Hin; lia).
  destruct (Hpos bh) as [Hp1 Hp2]; [by rewrite Hn|]. rewrite BADNESS_eq, Hzb in Hle.
  assert (Hdirt : b_dirt (bh_of k bh) = 0) by lia.
  assert (Hlock : b_lock (bh_of k bh) = 0) by lia.
  destruct (retarget_ok nb bh d b k w Hk Hbh ltac:(lia) ltac:(done))
    as (k' & Ert & Hk' & Hh & Hcnt' & Hdirt' & Hup').
  exists bh, k'. split; [|by destruct Hh as (? & ? & ?)].
  unfold getblk, repeat_awake. apply repeat_until_done.
  assert (Eg : get_hash_table d b k w = Ret None k w).
  { unfold get_hash_table, repeat_awake. apply repeat_until_done.
    by rewrite (run_ret _ _ _ _ _ _ _ E). }
  rewrite (run_ret _ _ _ _ _ _ _ Eg). run. rewrite Escan.
  assert (Hl1 : truth (b_lock (bh_of k bh)) = false) by (by rewrite Hlock).
  unfold wait_on_buffer. run_awake Hl1. run. rewrite Hcnt. cbn [truth].
  assert (Ec : clean bh k w = Ret true k w).
  { unfold clean, repeat_awake. apply repeat_until_done. run. by rewrite Hdirt. }
  change (truth 0) with false. cbn iota.
  rewrite (run_ret _ _ _ _ _ _ _ Ec). cbn [negb].
  rewrite (run_ret _ _ _ _ _ _ _ E). exact Ert.
Qed.

(** ** The cache [buffer_init] leaves *)
Lemma path_seq nf pf n : forall m,
  (forall i, (m <= i)%nat -> (S i < m + n)%nat -> nf i = Some (S i) /\ pf (S i) = Some i) ->
  path nf pf (seq m n).
Proof.
  induction n as [|n IH]; intros m H; [done|]. cbn [seq]. split.
  - destruct n as [|n]; [done|]. apply H; lia.
  - apply IH. intros i Hi1 Hi2. apply H; lia.
Qed.

Lemma ring_seq nf pf n :
  (forall i, (S i < n)%nat -> nf i = Some (S i) /\ pf (S i) = Some i) ->
  nf (pred n) = Some 0%nat -> pf 0%nat = Some (pred n) -> (0 < n)%nat -> ring nf pf (seq 0 n).
Proof.
  intros H H1 H2 Hn. destruct n as [|n]; [lia|]. simpl in H1, H2.
  change (path nf pf (seq 0 (S n) ++ [0%nat])). rewrite seq_S. rewrite <- app_assoc.
  apply path_app. split; [|by repeat split].
  change [(0 + n)%nat] with (seq (0 + n) 1). rewrite <- seq_app. apply path_seq.
  intros i _ Hi. apply H. lia.
Qed.

(** [buffer_init] establishes the invariant: the buffer heads it lays out, if
    there are at least two, form one ring, none is cached and none is in use. *)
Theorem buffer_init_cache start buffer_end k w :
  let b := if buffer_end =? 1 .<< 20 then 640 * 1024 else buffer_end in
  2 <= Z.of_nat (length (block_addrs (Z.to_nat b) start b 0)) ->
  wp (buffer_init start buffer_end) (fun _ k' w' => w' = w /\ cache_ok k' /\
    forall i, (i < NR_BUFFERS k')%nat -> b_count (bh_of k' i) = 0 /\ b_dev (bh_of k' i) = 0) k w.
Proof.
  intros b. unfold buffer_init. fold b. set (addrs := block_addrs _ _ _ _). intros Hlen. apply wp_modify.
  set (k' := _ <| hash_table := _ |>). split; [done|].
  assert (Hn : NR_BUFFERS k' = length addrs) by (unfold NR_BUFFERS; simpl; by rewrite length_imap).
  assert (Hbh : forall i, (i < length addrs)%nat -> exists data, bh_of k' i =
    BufferHead data 0 0 0 0 0 0 None None
      (Some (if decide (i = 0%nat) then pred (length addrs) else pred i))
      (Some (if decide (S i = length addrs) then 0%nat else S i))).
  { intros i Hi. destruct (lookup_lt_is_Some_2 addrs i Hi) as [a Ha].
    unfold bh_of. simpl. rewrite list_lookup_imap, Ha. simpl. eauto. }
  split; [split|].
  - rewrite Hn. lia.
  - exists (seq 0 (NR_BUFFERS k')). split; [done|]. rewrite Hn. split.
    + apply ring_seq; [|unfold nxF|unfold pvF|lia].
      * intros i Hi. unfold nxF, pvF. destruct (Hbh i) as [d ->]; [lia|].
        destruct (Hbh (S i)) as [d' ->]; [lia|]. simpl. rewrite decide_False by lia. done.
      * destruct (Hbh (pred (length addrs))) as [d ->]; [lia|]. simpl.
        by rewrite decide_True by lia.
      * by destruct (Hbh 0%nat) as [d ->]; [lia|].
    + by destruct (length addrs); [lia|].
  - exists (fun _ => []). split.
    + apply length_replicate.
    + intros h Hh. by apply lookup_replicate_2.
    + done.
    + intros h. constructor.
    + intros h x Hx. set_solver.
    + intros x Hx Hd. rewrite Hn in Hx. destruct (Hbh x Hx) as [d E].
      unfold dev in Hd. by rewrite E in Hd.
    + intros x Hx _ _. rewrite Hn in Hx. unfold nxH, pvH. by destruct (Hbh x Hx) as [d ->].
  - intros x y Hx _ Hd. rewrite Hn in Hx. destruct (Hbh x Hx) as [d E].
    unfold dev in Hd. by rewrite E in Hd.
  - intros i Hi. rewrite Hn in Hi. by destruct (Hbh i Hi) as [d ->].
Qed.

(** ** A cache of three buffers, the first of which holds a block *)
Definition cache_sample : K :=
  Kernel
    [BufferHead (repeat 7 1024) 5 0x101 1 0 0 0 None None (Some 2%nat) (Some 1%nat);
     BufferHead (repeat 0 1024) 0 0 0 0 0 0 None None (Some 0%nat) (Some 2%nat);
     BufferHead (repeat 0 1024) 0 0 0 0 2 0 None None (Some 1%nat) (Some 0%nat)]
    (sample_buffer 0 0 0 []) (<[hashfn 0x101 5 := Some 0%nat]> (replicate NR_HASH None))
    (Some 0%nat) (repeat free_request NR_REQUEST)
    [BlkDev None None; BlkDev (Some do_rd_request_fn) None]
    0x200000 65536 [] 0 [] [] 0x101 (fun _ => 0) (no_sched [] None) no_mm 0 [] [] [] [].

Lemma cache_sample_ok : kernel_ok 3 cache_sample.
Proof.
  assert (Hlt : forall x, (x < 3)%nat -> x = 0%nat \/ x = 1%nat \/ x = 2%nat) by lia.
  split; [split|split].
  - unfold NR_BUFFERS. simpl. lia.
  - exists [0; 1; 2]%nat. by repeat split.
  - exists (fun h => if decide (h = hashfn 0x101 5) then [0%nat] else []). split.
    + done.
    + intros h Hh. change (hash_table cache_sample) with
        (<[hashfn 0x101 5 := Some 0%nat]> (replicate NR_HASH (@None nat))).
      destruct (decide (h = hashfn 0x101 5)) as [-> | Hne].
      * rewrite list_lookup_insert_eq; [done|]. rewrite length_replicate. apply hashfn_lt.
      * rewrite list_lookup_insert_ne by done.
        by rewrite lookup_replicate_2.
    + intros h. by destruct (decide _).
    + intros h. destruct (decide _); [apply NoDup_singleton|constructor].
    + intros h x. destruct (decide _) as [-> | ]; [|set_solver].
      intros ->%list_elem_of_singleton. repeat split; [unfold NR_BUFFERS; simpl; lia|done|congruence].
    + intros x [-> | [-> | ->]]%Hlt; try done. intros _ _. rewrite decide_True by done. left.
    + intros x [-> | [-> | ->]]%Hlt; done.
  - intros x y [-> | [-> | ->]]%Hlt [-> | [-> | ->]]%Hlt; done.
  - done.
  - apply typed_check; [vm_compute; reflexivity|done].
Qed.
Lemma cache_sample_pos : badness_pos cache_sample.
Proof.
  intros z Hz. change (z < 3)%nat in Hz.
  assert (z = 0%nat \/ z = 1%nat \/ z = 2%nat) as [-> | [-> | ->]] by lia; split; done.
Qed.

Lemma find_buffer_exact_witness : exists r,
  find_buffer 0x101 5 cache_sample (World [] []) = Ret r cache_sample (World [] []) /\
  (r = Some 0%nat <-> (0 < 3)%nat /\ 0x101 = 0x101 /\ 5 = 5).
Proof.
  destruct (find_buffer_exact 0x101 5 cache_sample (World [] [])) as (r & E & H).
  - apply cache_sample_ok.
  - done.
  - exists r. split; [exact E|]. exact (H 0%nat).
Defined.

Lemma getblk_gets_block_witness :
  wlp (@getblk (sync_inodes_n 2) 0x101 6) (fun bh k' w' =>
    kernel_ok 3 k' /\ (bh < 3)%nat /\ b_dev (bh_of k' bh) = 0x101 /\
    b_blocknr (bh_of k' bh) = u32 6) cache_sample (World [] []).
Proof.
  apply (getblk_gets_block 2 3 0x101 6).
  - lia.
  - apply cache_sample_ok.
  - apply Forall_nil_2.
Defined.

Lemma sys_sync_keeps_cache_witness :
  wlp (@sys_sync (sync_inodes_n 2)) (fun _ k' w' => kernel_ok 3 k') cache_sample (World [] []).
Proof.
  apply (sys_sync_keeps_cache 2 3).
  - apply cache_sample_ok.
  - apply Forall_nil_2.
Defined.

Lemma scan_free_list_best_witness : exists r,
  scan_free_list 3 cache_sample (free_list cache_sample) None = Some r /\ r <> None.
Proof.
  destruct (scan_free_list_best cache_sample) as (r & E & H).
  - apply cache_sample_ok.
  - apply cache_sample_pos.
  - exists r. split; [exact E|]. intros ->. apply (H 0%nat); [change (0 < 3)%nat; lia|done].
Defined.

Lemma getblk_hit_witness :
  @getblk (sync_inodes_n 0) 0x101 5 cache_sample (World [] []) =
    Ret 0%nat (upd_bh 0 (fun b => b <| b_count ::= fun c => u8 (c + 1) |>) cache_sample) (World [] []).
Proof.
  apply (@getblk_hit (sync_inodes_n 0) 0 cache_sample (World [] [])).
  - apply cache_sample_ok.
  - change (0 < 3)%nat. lia.
  - done.
  - simpl. lia.
  - done.
Defined.

Lemma getblk_miss_witness : exists bh k',
  @getblk (sync_inodes_n 0) 0x101 6 cache_sample (World [] []) = Ret bh k' (World [] []) /\
  b_dev (bh_of k' bh) = 0x101 /\ b_blocknr (bh_of k' bh) = 6 /\ b_count (bh_of k' bh) = 1.
Proof.
  destruct (@getblk_miss (sync_inodes_n 0) 3 0x101 6 cache_sample (World [] []) 0)
    as (bh & k' & E & _ & _ & _ & Hd & Hb & Hc & _).
  - apply cache_sample_ok.
  - apply cache_sample_pos.
  - lia.
  - intros x Hx [_ Eb]. change (x < 3)%nat in Hx.
    assert (x = 0%nat \/ x = 1%nat \/ x = 2%nat) as [-> | [-> | ->]] by lia; discriminate.
  - lia.
  - done.
  - done.
  - exists bh, k'. by repeat split.
Defined.

Lemma buffer_init_cache_witness : exists k',
  buffer_init 0x200000 0x201000 cache_sample (World [] []) = Ret tt k' (World [] []) /\ cache_ok k'.
Proof.
  assert (H := buffer_init_cache 0x200000 0x201000 cache_sample (World [] [])
    ltac:(vm_compute; congruence)).
  apply wp_inv in H as ([] & k' & w' & E & -> & Hk & _). by exists k'.
Defined.

