(* ===== verification/Rw.v ===== *)
(** Reading and writing files, block devices, character devices and pipes:
    [fs/file_dev.c], [fs/block_dev.c], [fs/char_dev.c], [fs/pipe.c] and
    [fs/read_write.c].

    [tty_read] and [tty_write] are declared by [fs/char_dev.c] and not defined
    in this repository, and the I/O ports are hardware: both are operations of
    a class. *)
From S2P Require Import Prelude Sched Mm Kernel Fork Blk Buffer Bitmap Inode.

Class Devices : Type := {
  tty_read : Z -> Z -> Z -> M K Z;      (* minor, buf, count *)
  tty_write : Z -> Z -> Z -> M K Z;
  tty_ioctl : Z -> Z -> Z -> M K Z;     (* dev, cmd, arg *)
  inb : Z -> M K Z;
}.

Definition SIGPIPE : Z := 13.
Definition NR_OPEN_Z : Z := 20.

(** [while (n-- > 0) put_fs_byte( *(p++), buf++)] and the converse. *)
Fixpoint put_fs_bytes (l : list Z) (buf : Z) : M K unit :=
  match l with
  | [] => mret tt
  | c :: l' => put_fs_byte c buf ;; put_fs_bytes l' (u32 (buf + 1))
  end.
Fixpoint get_fs_bytes (n : nat) (buf : Z) : M K (list Z) :=
  match n with
  | O => mret []
  | S n' => c ← get_fs_byte buf ; l ← get_fs_bytes n' (u32 (buf + 1)) ; mret (c :: l)
  end.

(** [n] bytes of buffer [bh] from offset [off] on. *)
Definition bh_bytes (k : K) (bh : nat) (off n : Z) : list Z :=
  take (Z.to_nat n) (drop (Z.to_nat off) (b_data (bh_of k bh))).
Definition put_bh_bytes (bh : nat) (off : Z) (l : list Z) : M K unit :=
  modify (upd_bh bh (fun b => b <| b_data ::= put_at (Z.to_nat off) l |>)).

Section rw.
Context `{SyncInodes} `{Devices}.

(** * Regular files *)

(** fs/file_dev.c:24-43 [file_read]: [while (left)]; the result is what is left *)
Fixpoint file_read_loop (fuel : nat) (inode filp : nat) (buf left : Z) : M K Z :=
  if left =? 0 then mret 0 else
  match fuel with
  | O => out_of_fuel
  | S n =>
      pos ← gets (fun k => f_pos (file_of k filp)) ;
      nr ← bmap inode (Z.quot pos BLOCK_SIZE) ;
      bh ← (if truth nr then
              dev ← gets (fun k => i_dev (inode_of k inode)) ;
              bh ← bread dev nr ;
              mret (match bh with Some b => Some (Some b) | None => None end)
            else mret (Some None)) ;
      match bh with
      | None => mret left
      | Some bh =>
          pos ← gets (fun k => f_pos (file_of k filp)) ;
          let nr := Z.rem pos BLOCK_SIZE in
          let chars := Z.min (BLOCK_SIZE - nr) left in
          modify (upd_file filp (fun f => f <| f_pos ::= fun p => s32 (p + chars) |>)) ;;
          match bh with
          | Some b =>
              l ← gets (fun k => bh_bytes k b nr chars) ;
              put_fs_bytes l buf ;;
              brelse (Some b)
          | None => put_fs_bytes (replicate (Z.to_nat chars) 0) buf
          end ;;
          file_read_loop n inode filp (u32 (buf + chars)) (left - chars)
      end
  end.

(** fs/file_dev.c:17-46 [file_read] *)
Definition file_read (inode filp : nat) (buf count : Z) : M K Z :=
  if count <=? 0 then mret 0 else
  left ← file_read_loop (Z.to_nat count) inode filp buf count ;
  modify (fun k => upd_inode inode (fun n => n <| i_atime := now k |>) k) ;;
  mret (if count - left =? 0 then - ERROR else count - left).

(** fs/file_dev.c:64-83 [file_write]: [while (i<count)]; the result is [i] and
    [pos] *)
Fixpoint file_write_loop (fuel : nat) (inode : nat) (buf count i pos : Z) :
    M K (Z * Z) :=
  if count <=? i then mret (i, pos) else
  match fuel with
  | O => out_of_fuel
  | S n =>
      block ← create_block inode (Z.quot pos BLOCK_SIZE) ;
      if block =? 0 then mret (i, pos) else
      dev ← gets (fun k => i_dev (inode_of k inode)) ;
      bh ← bread dev block ;
      match bh with
      | None => mret (i, pos)
      | Some b =>
          let off := Z.rem pos BLOCK_SIZE in
          modify (upd_bh b (fun x => x <| b_dirt := 1 |>)) ;;
          let c := Z.min (BLOCK_SIZE - off) (count - i) in
          let pos := s32 (pos + c) in
          sz ← gets (fun k => i_size (inode_of k inode)) ;
          when (sz <? u32 pos)
            (modify (upd_inode inode (fun n => n <| i_size := u32 pos |> <| i_dirt := 1 |>))) ;;
          l ← get_fs_bytes (Z.to_nat c) buf ;
          put_bh_bytes b off l ;;
          brelse bh ;;
          file_write_loop n inode (u32 (buf + c)) count (i + c) pos
      end
  end.

(** fs/file_dev.c:48-90 [file_write] *)
Definition file_write (inode filp : nat) (buf count : Z) : M K Z :=
  k ← get ;
  let append := truth (f_flags (file_of k filp) .& O_APPEND) in
  let pos := if append then s32 (i_size (inode_of k inode)) else f_pos (file_of k filp) in
  r ← file_write_loop (Z.to_nat count) inode buf count 0 pos ;
  let '(i, pos) := r in
  modify (fun k => upd_inode inode (fun n => n <| i_mtime := now k |>) k) ;;
  when (negb append)
    (modify (upd_file filp (fun f => f <| f_pos := pos |>)) ;;
     modify (fun k => upd_inode inode (fun n => n <| i_ctime := now k |>) k)) ;;
  mret (if i =? 0 then -1 else i).

(** * Block devices *)

(** fs/block_dev.c:23-43 [block_write]: [while (count>0)] *)
Fixpoint block_write_loop (fuel : nat) (dev block offset : Z) (filp : nat)
    (buf count written : Z) : M K Z :=
  if count <=? 0 then mret written else
  match fuel with
  | O => out_of_fuel
  | S n =>
      let chars := Z.min (BLOCK_SIZE - offset) count in
      bh ← (if chars =? BLOCK_SIZE then b ← getblk dev block ; mret (Some b)
            else breada dev block [block + 1; block + 2; -1]) ;
      match bh with
      | None => mret (if written =? 0 then - EIO else written)
      | Some b =>
          modify (upd_file filp (fun f => f <| f_pos ::= fun p => s32 (p + chars) |>)) ;;
          l ← get_fs_bytes (Z.to_nat chars) buf ;
          put_bh_bytes b offset l ;;
          modify (upd_bh b (fun x => x <| b_dirt := 1 |>)) ;;
          brelse bh ;;
          block_write_loop n dev (block + 1) 0 filp (u32 (buf + chars)) (count - chars)
            (written + chars)
      end
  end.

(** fs/block_dev.c:14-45 [block_write]: [pos] is the [f_pos] of [filp] *)
Definition block_write (dev : Z) (filp : nat) (buf count : Z) : M K Z :=
  pos ← gets (fun k => f_pos (file_of k filp)) ;
  block_write_loop (Z.to_nat count) dev (pos .>> BLOCK_SIZE_BITS) (pos .& 1023) filp
    buf count 0.

(** fs/block_dev.c:56-71 [block_read]: [while (count>0)] *)
Fixpoint block_read_loop (fuel : nat) (dev block offset : Z) (filp : nat)
    (buf count read : Z) : M K Z :=
  if count <=? 0 then mret read else
  match fuel with
  | O => out_of_fuel
  | S n =>
      let chars := Z.min (BLOCK_SIZE - offset) count in
      bh ← breada dev block [block + 1; block + 2; -1] ;
      match bh with
      | None => mret (if read =? 0 then - EIO else read)
      | Some b =>
          modify (upd_file filp (fun f => f <| f_pos ::= fun p => s32 (p + chars) |>)) ;;
          l ← gets (fun k => bh_bytes k b offset chars) ;
          put_fs_bytes l buf ;;
          brelse bh ;;
          block_read_loop n dev (block + 1) 0 filp (u32 (buf + chars)) (count - chars)
            (read + chars)
      end
  end.

(** fs/block_dev.c:47-73 [block_read]: [pos] is unsigned here *)
Definition block_read (dev : Z) (filp : nat) (buf count : Z) : M K Z :=
  pos ← gets (fun k => f_pos (file_of k filp)) ;
  block_read_loop (Z.to_nat count) dev (u32 pos .>> BLOCK_SIZE_BITS) (pos .& 1023) filp
    buf count 0.

(** * Character devices *)

(** fs/char_dev.c:22-26 [rw_ttyx] *)
Definition rw_ttyx (rw minor buf count : Z) : M K Z :=
  if rw =? READ then tty_read minor buf count else tty_write minor buf count.

(** fs/char_dev.c:29-34 [rw_tty] *)
Definition rw_tty (rw buf count : Z) : M K Z :=
  t ← gets cur ;
  if tty t <? 0 then mret (- EPERM) else rw_ttyx rw (tty t) buf count.

(** fs/char_dev.c:61-67 [rw_port]: the loop; the result is [i] *)
Fixpoint rw_port_loop (fuel : nat) (rw buf i : Z) : M K Z :=
  match fuel with
  | O => mret i
  | S n =>
      if 65536 <=? i then mret i else
      (if rw =? READ then v ← inb i ; put_fs_byte v buf
       else v ← get_fs_byte buf ; emit (EvOut v i)) ;;
      rw_port_loop n rw (u32 (buf + 1)) (i + 1)
  end.
(** fs/char_dev.c:57-71 [rw_port] *)
Definition rw_port (rw buf count : Z) (filp : nat) : M K Z :=
  pos ← gets (fun k => f_pos (file_of k filp)) ;
  i ← rw_port_loop (Z.to_nat count) rw buf pos ;
  pos ← gets (fun k => f_pos (file_of k filp)) ;
  modify (upd_file filp (fun f => f <| f_pos := s32 (pos + (i - pos)) |>)) ;;
  mret (i - pos).

(** fs/char_dev.c:74-90 [rw_memory] *)
Definition rw_memory (rw minor buf count : Z) (filp : nat) : M K Z :=
  if minor =? 0 then mret (- EIO)              (* rw_ram *)
  else if minor =? 1 then mret (- EIO)         (* rw_mem *)
  else if minor =? 2 then mret (- EIO)         (* rw_kmem *)
  else if minor =? 3 then mret (if rw =? READ then 0 else count)
  else if minor =? 4 then rw_port rw buf count filp
  else mret (- EIO).

(** fs/char_dev.c:94-113 [rw_char]: [crw_table] *)
Definition rw_char (rw dev buf count : Z) (filp : nat) : M K Z :=
  if 8 <=? MAJOR dev then mret (- ENODEV)
  else if MAJOR dev =? 1 then rw_memory rw (MINOR dev) buf count filp
  else if MAJOR dev =? 4 then rw_ttyx rw (MINOR dev) buf count
  else if MAJOR dev =? 5 then rw_tty rw buf count
  else mret (- ENODEV).

(** * Pipes

    The page of a pipe is at [i_size]; it is a ring with the head in
    [i_zone[0]] and the tail in [i_zone[1]]. *)

(** include/linux/fs.h:59-59 [PIPE_HEAD] *)
Definition PIPE_HEAD (n : m_inode) : Z := get_byte (i_zone n) 0.
(** include/linux/fs.h:60-60 [PIPE_TAIL] *)
Definition PIPE_TAIL (n : m_inode) : Z := get_byte (i_zone n) 1.
(** include/linux/fs.h:61-61 [PIPE_SIZE] *)
Definition PIPE_SIZE (n : m_inode) : Z := (PIPE_HEAD n - PIPE_TAIL n) .& 4095.

(** fs/pipe.c:18-23 [read_pipe]: [None] is [return read] *)
Definition wait_for_data (inode : nat) : M K (option Z) :=
  repeat_awake (
    n ← gets (fun k => inode_of k inode) ;
    let size := PIPE_SIZE n in
    if truth size then mret (Some (Some size)) else
    wake_up_q (WInode inode) ;;
    if negb (i_count n =? 2) then mret (Some None) else
    sleep_on_q (WInode inode) ;;
    mret None).

(** fs/pipe.c:17-36 [read_pipe]: [while (count>0)]; [inl] is [return] *)
Fixpoint read_pipe_loop (fuel : nat) (inode : nat) (buf count read : Z) : M K (Z + Z) :=
  if count <=? 0 then mret (inr read) else
  match fuel with
  | O => out_of_fuel
  | S f =>
      size ← wait_for_data inode ;
      match size with
      | None => mret (inl read)
      | Some size =>
          n ← gets (fun k => inode_of k inode) ;
          let tail := PIPE_TAIL n in
          let chars := Z.min (Z.min (4096 - tail) count) size in
          modify (set_zone inode 1 ((tail + chars) .& 4095)) ;;
          l ← gets (fun k => read_bytes (i_size n + tail) (Z.to_nat chars) (mem (k_mm k))) ;
          put_fs_bytes l buf ;;
          read_pipe_loop f inode (u32 (buf + chars)) (count - chars) (read + chars)
      end
  end.

(** fs/pipe.c:13-39 [read_pipe] *)
Definition read_pipe (inode : nat) (buf count : Z) : M K Z :=
  r ← read_pipe_loop (Z.to_nat count) inode buf count 0 ;
  match r with
  | inl read => mret read
  | inr read => wake_up_q (WInode inode) ;; mret read
  end.

(** fs/pipe.c:46-53 [write_pipe]: [None] is the return without readers *)
Definition wait_for_room (inode : nat) : M K (option Z) :=
  repeat_awake (
    n ← gets (fun k => inode_of k inode) ;
    let size := 4095 - PIPE_SIZE n in
    if truth size then mret (Some (Some size)) else
    wake_up_q (WInode inode) ;;
    if negb (i_count n =? 2) then
      modify (upd_current (fun t => t <| signal ::= fun g => g .| (1 .<< (SIGPIPE - 1)) |>)) ;;
      mret (Some None)
    else
    sleep_on_q (WInode inode) ;;
    mret None).

(** fs/pipe.c:45-66 [write_pipe]: [while (count>0)] *)
Fixpoint write_pipe_loop (fuel : nat) (inode : nat) (buf count written : Z) : M K (Z + Z) :=
  if count <=? 0 then mret (inr written) else
  match fuel with
  | O => out_of_fuel
  | S f =>
      size ← wait_for_room inode ;
      match size with
      | None => mret (inl (if written =? 0 then -1 else written))
      | Some size =>
          n ← gets (fun k => inode_of k inode) ;
          let head := PIPE_HEAD n in
          let chars := Z.min (Z.min (4096 - head) count) size in
          modify (set_zone inode 0 ((head + chars) .& 4095)) ;;
          l ← get_fs_bytes (Z.to_nat chars) buf ;
          modify (kmem_put (i_size n + head) l) ;;
          write_pipe_loop f inode (u32 (buf + chars)) (count - chars) (written + chars)
      end
  end.

(** fs/pipe.c:41-69 [write_pipe] *)
Definition write_pipe (inode : nat) (buf count : Z) : M K Z :=
  r ← write_pipe_loop (Z.to_nat count) inode buf count 0 ;
  match r with
  | inl written => mret written
  | inr written => wake_up_q (WInode inode) ;; mret written
  end.

(** The file of descriptor [fd] of the current task, for [fd < NR_OPEN]. *)
Definition fd_file (k : K) (fd : Z) : option nat :=
  if NR_OPEN_Z <=? u32 fd then None else mjoin (filp (cur k) !! Z.to_nat (u32 fd)).

(** fs/pipe.c:80-83 [sys_pipe]: the first [n] indices with [free], from [i] on *)
Fixpoint first_free {A} (free : A -> bool) (n i : nat) (l : list A) : list nat :=
  match n, l with
  | O, _ | _, [] => []
  | S n', x :: l' =>
      if free x then i :: first_free free n' (S i) l' else first_free free n (S i) l'
  end.

(** fs/pipe.c:73-113 [sys_pipe] *)
Definition sys_pipe (fildes : Z) : M K Z :=
  k ← get ;
  match first_free (fun f => f_count f =? 0) 2 0 (file_table k) with
  | [f0; f1] =>
      modify (upd_file f0 (fun f => f <| f_count ::= fun c => u16 (c + 1) |>)) ;;
      modify (upd_file f1 (fun f => f <| f_count ::= fun c => u16 (c + 1) |>)) ;;
      let no_file n := modify (upd_file n (fun f => f <| f_count := 0 |>)) in
      let set_fd i v := modify (upd_current (fun t => t <| filp ::= <[i := v]> |>)) in
      match first_free (fun o => bool_decide (o = None)) 2 0 (filp (cur k)) with
      | [d0; d1] =>
          set_fd d0 (Some f0) ;; set_fd d1 (Some f1) ;;
          inode ← get_pipe_inode ;
          match inode with
          | None =>
              set_fd d0 None ;; set_fd d1 None ;; no_file f0 ;; no_file f1 ;; mret (-1)
          | Some i =>
              let init mode := fun f : file =>
                f <| f_inode := Some i |> <| f_pos := 0 |> <| f_mode := mode |> in
              modify (upd_file f0 (init 1)) ;;
              modify (upd_file f1 (init 2)) ;;
              put_fs_long (Z.of_nat d0) fildes ;;
              put_fs_long (Z.of_nat d1) (u32 (fildes + 4)) ;;
              mret 0
          end
      | _ => no_file f0 ;; no_file f1 ;; mret (-1)
      end
  | _ => mret (-1)
  end.

(** * The system calls *)

(** include/linux/fs.h:24-24 [IS_SEEKABLE] *)
Definition IS_SEEKABLE (x : Z) : bool := (1 <=? x) && (x <=? 3).

(** fs/read_write.c:26-54 [sys_lseek] *)
Definition sys_lseek (fd offset origin : Z) : M K Z :=
  k ← get ;
  match fd_file k fd with
  | None => mret (- EBADF)
  | Some f =>
      match f_inode (file_of k f) with
      | None => mret (- EBADF)
      | Some i =>
          let n := inode_of k i in
          let seek p := modify (upd_file f (fun f => f <| f_pos := p |>)) ;; mret p in
          if negb (IS_SEEKABLE (MAJOR (i_dev n))) then mret (- EBADF) else
          if truth (i_pipe n) then mret (- ESPIPE) else
          if origin =? 0 then
            if offset <? 0 then mret (- EINVAL) else seek offset
          else if origin =? 1 then
            let p := s32 (f_pos (file_of k f) + offset) in
            if p <? 0 then mret (- EINVAL) else seek p
          else if origin =? 2 then
            let p := s32 (i_size n + offset) in
            if p <? 0 then mret (- EINVAL) else seek p
          else mret (- EINVAL)
      end
  end.

(** fs/read_write.c:56-82 [sys_read] *)
Definition sys_read (fd buf count : Z) : M K Z :=
  k ← get ;
  match fd_file k fd with
  | None => mret (- EINVAL)
  | Some f =>
      if count <? 0 then mret (- EINVAL) else
      if count =? 0 then mret 0 else
      verify_area buf count ;;
      k ← get ;
      match f_inode (file_of k f) with
      | None => panic "null f_inode"
      | Some i =>
          let n := inode_of k i in
          let dev := get_byte (i_zone n) 0 in
          if truth (i_pipe n) then
            if truth (f_mode (file_of k f) .& 1) then read_pipe i buf count else mret (- EIO)
          else if S_ISCHR (i_mode n) then rw_char READ dev buf count f
          else if S_ISBLK (i_mode n) then block_read dev f buf count
          else if S_ISDIR (i_mode n) || S_ISREG (i_mode n) then
            let pos := f_pos (file_of k f) in
            let count := if i_size n <? u32 (s32 (count + pos))
                         then s32 (i_size n - pos) else count in
            if count <=? 0 then mret 0 else file_read i f buf count
          else
            printk "(Read)inode->i_mode=%06o" [i_mode n] ;; mret (- EINVAL)
      end
  end.

(** fs/read_write.c:84-104 [sys_write] *)
Definition sys_write (fd buf count : Z) : M K Z :=
  k ← get ;
  match fd_file k fd with
  | None => mret (- EINVAL)
  | Some f =>
      if count <? 0 then mret (- EINVAL) else
      if count =? 0 then mret 0 else
      match f_inode (file_of k f) with
      | None => panic "null f_inode"
      | Some i =>
          let n := inode_of k i in
          let dev := get_byte (i_zone n) 0 in
          if truth (i_pipe n) then
            if truth (f_mode (file_of k f) .& 2) then write_pipe i buf count else mret (- EIO)
          else if S_ISCHR (i_mode n) then rw_char WRITE dev buf count f
          else if S_ISBLK (i_mode n) then block_write dev f buf count
          else if S_ISREG (i_mode n) then file_write i f buf count
          else
            printk "(Write)inode->i_mode=%06o" [i_mode n] ;; mret (- EINVAL)
      end
  end.
End rw.

(** * Properties *)

(** ** Bytes of the user *)
Fixpoint user_bytes (m : Z -> Z) (n : nat) (buf : Z) : list Z :=
  match n with O => [] | S n' => m buf :: user_bytes m n' (u32 (buf + 1)) end.
Fixpoint user_put (l : list Z) (buf : Z) (m : Z -> Z) : Z -> Z :=
  match l with [] => m | c :: l' => user_put l' (u32 (buf + 1)) (upd buf (u8 c) m) end.

Lemma get_fs_bytes_run n : forall buf k w,
  get_fs_bytes n buf k w = Ret (user_bytes (umem k) n buf) k w.
Proof.
  induction n as [|n IH]; intros buf k w; [done|]. cbn [get_fs_bytes]. unfold get_fs_byte. run.
  rewrite (run_ret _ _ _ _ _ _ _ (IH _ k w)). done.
Qed.
Lemma put_fs_bytes_run l : forall buf k w,
  put_fs_bytes l buf k w = Ret tt (k <| umem ::= user_put l buf |>) w.
Proof.
  induction l as [|c l IH]; intros buf k w; [by destruct k|].
  cbn [put_fs_bytes]. unfold put_fs_byte. run. rewrite IH. done.
Qed.

Lemma length_user_bytes m n : forall buf, length (user_bytes m n buf) = n.
Proof. induction n as [|n IH]; intros buf; [done|]. simpl. by rewrite IH. Qed.
Lemma u32_add_u32 a b : u32 (u32 a + b) = u32 (a + b).
Proof. unfold u32. by rewrite Zplus_mod_idemp_l. Qed.
Lemma user_bytes_app m a b : forall buf, 0 <= buf < 4294967296 ->
  user_bytes m (a + b) buf = user_bytes m a buf ++ user_bytes m b (u32 (buf + Z.of_nat a)).
Proof.
  induction a as [|a IH]; intros buf Hb.
  - simpl. by rewrite Z.add_0_r, u32_small.
  - cbn [Nat.add user_bytes app]. rewrite IH by apply u32_range. rewrite u32_add_u32.
    do 4 f_equal. lia.
Qed.
Lemma Forall_user_bytes m n : (forall a, 0 <= m a < 256) ->
  forall buf, Forall (fun b => 0 <= b < 256) (user_bytes m n buf).
Proof. intros Hm. induction n as [|n IH]; intros buf; constructor; auto. Qed.

Lemma user_put_other l : forall buf m a, 0 <= buf -> buf + Z.of_nat (length l) <= 4294967296 ->
  (a < buf \/ buf + Z.of_nat (length l) <= a) -> user_put l buf m a = m a.
Proof.
  induction l as [|c l IH]; intros buf m a Hb Hl Ha; [done|]. cbn [user_put length] in *.
  destruct (decide (l = [])) as [-> | Hne].
  - simpl in *. unfold upd. by rewrite (proj2 (Z.eqb_neq _ _)) by lia.
  - destruct l; [done|]. simpl in Hl. rewrite u32_small by lia.
    rewrite IH by (simpl in *; lia). unfold upd. by rewrite (proj2 (Z.eqb_neq _ _)) by (simpl in Ha; lia).
Qed.
(** What is put can be read back. *)
Lemma user_bytes_put l : forall buf m, 0 <= buf -> buf + Z.of_nat (length l) <= 4294967296 ->
  Forall (fun b => 0 <= b < 256) l -> user_bytes (user_put l buf m) (length l) buf = l.
Proof.
  induction l as [|c l IH]; intros buf m Hb Hl Hr; [done|]. apply Forall_cons in Hr as [Hc Hr].
  cbn [user_put length user_bytes]. destruct (decide (l = [])) as [-> | Hne].
  - simpl. unfold upd. by rewrite Z.eqb_refl, u8_small.
  - assert (0 < Z.of_nat (length l)) by (destruct l; [done|simpl; lia]).
    simpl in Hl. rewrite u32_small by lia. f_equal; [|apply IH; [lia|lia|done]].
    rewrite user_put_other by lia. unfold upd. by rewrite Z.eqb_refl, u8_small.
Qed.

(** ** The contents of a pipe *)
Definition pipe_byte (k : K) (i : nat) (j : Z) : Z :=
  let n := inode_of k i in byte_at (mem (k_mm k)) (i_size n + (PIPE_TAIL n + j) mod 4096).
(** The bytes between the tail and the head of the ring, oldest first. *)
Definition pipe_data (k : K) (i : nat) : list Z :=
  (fun j => pipe_byte k i (Z.of_nat j)) <$> seq 0 (Z.to_nat (PIPE_SIZE (inode_of k i))).

Record pipe_ok (k : K) (i : nat) : Prop := {
  po_in : (i < length (inode_table k))%nat;
  po_zone : (2 <= length (i_zone (inode_of k i)))%nat;
  po_head : 0 <= PIPE_HEAD (inode_of k i) < 4096;
  po_tail : 0 <= PIPE_TAIL (inode_of k i) < 4096;
}.

Lemma PIPE_SIZE_mod n : PIPE_SIZE n = (PIPE_HEAD n - PIPE_TAIL n) mod 4096.
Proof. unfold PIPE_SIZE. by rewrite land_fff. Qed.
Lemma PIPE_SIZE_range n : 0 <= PIPE_SIZE n < 4096.
Proof. rewrite PIPE_SIZE_mod. zlia. Qed.

Lemma inode_of_upd k i f j : (i < length (inode_table k))%nat ->
  inode_of (upd_inode i f k) j = if decide (j = i) then f (inode_of k i) else inode_of k j.
Proof.
  intros Hi. unfold inode_of, upd_inode. simpl. destruct (decide (j = i)) as [-> | Hne].
  - rewrite list_lookup_alter_eq.
    by destruct (lookup_lt_is_Some_2 (inode_table k) i Hi) as [b ->].
  - by rewrite list_lookup_alter_ne.
Qed.

(** [set_zone] on one end of the ring. *)
Lemma set_zone_ends k i z v : (i < length (inode_table k))%nat ->
  (2 <= length (i_zone (inode_of k i)))%nat -> (z < 2)%nat -> 0 <= v < 4096 ->
  let n := inode_of k i in let n' := inode_of (set_zone i z v k) i in
  length (i_zone n') = length (i_zone n) /\ i_size n' = i_size n /\ i_count n' = i_count n /\
  PIPE_HEAD n' = (if decide (z = 0%nat) then v else PIPE_HEAD n) /\
  PIPE_TAIL n' = (if decide (z = 1%nat) then v else PIPE_TAIL n).
Proof.
  intros Hi Hl Hz Hv n n'. unfold n', set_zone. rewrite inode_of_upd by done.
  rewrite decide_True by done. fold n. cbn. rewrite u16_small by lia.
  split; [by rewrite length_insert|]. do 2 (split; [done|]).
  unfold PIPE_HEAD, PIPE_TAIL, get_byte. cbn.
  assert (z = 0%nat \/ z = 1%nat) as [-> | ->] by lia; split; simpl;
    by rewrite ?list_lookup_insert_eq, ?list_lookup_insert_ne by (done || fold n in Hl; lia).
Qed.

(** One round of [write_pipe]: [l] goes in after the head. *)
Definition put_pipe (i : nat) (l : list Z) (k : K) : K :=
  let n := inode_of k i in
  kmem_put (i_size n + PIPE_HEAD n) l
    (set_zone i 0 ((PIPE_HEAD n + Z.of_nat (length l)) .& 4095) k).

Lemma put_pipe_ok i l k : pipe_ok k i -> Forall (fun b => 0 <= b < 256) l ->
  Z.of_nat (length l) <= 4096 - PIPE_HEAD (inode_of k i) ->
  Z.of_nat (length l) <= 4095 - PIPE_SIZE (inode_of k i) ->
  let n' := inode_of (put_pipe i l k) i in
  pipe_ok (put_pipe i l k) i /\
  pipe_data (put_pipe i l k) i = pipe_data k i ++ l /\
  PIPE_SIZE n' = PIPE_SIZE (inode_of k i) + Z.of_nat (length l) /\
  i_size n' = i_size (inode_of k i) /\ i_count n' = i_count (inode_of k i) /\
  umem (put_pipe i l k) = umem k.
Proof.
  intros [Hi Hz Hh Ht] Hl Hl1 Hl2 n'. subst n'. set (n := inode_of k i) in *.
  pose proof (PIPE_SIZE_mod n) as Es. pose proof (PIPE_SIZE_range n) as Hs.
  set (c := Z.of_nat (length l)) in *.
  unfold put_pipe. fold n. fold c. rewrite land_fff.
  set (v := (PIPE_HEAD n + c) mod 4096). assert (Hv : 0 <= v < 4096) by (unfold v; zlia).
  destruct (set_zone_ends k i 0 v Hi Hz ltac:(lia) Hv) as (Z1 & Z2 & Z3 & Z4 & Z5).
  fold n in Z1, Z2, Z3, Z4, Z5. rewrite decide_True in Z4 by done.
  rewrite decide_False in Z5 by done.
  set (k1 := set_zone i 0 v k) in *.
  change (inode_of (kmem_put (i_size n + PIPE_HEAD n) l k1) i) with (inode_of k1 i).
  assert (Es' : PIPE_SIZE (inode_of k1 i) = PIPE_SIZE n + c).
  { rewrite PIPE_SIZE_mod, Z4, Z5. unfold v. rewrite Es. zlia. }
  split; [|split; [|done]].
  - split.
    + unfold k1, set_zone, upd_inode. simpl. by rewrite length_alter.
    + change (inode_of (kmem_put _ _ k1) i) with (inode_of k1 i). by rewrite Z1.
    + change (inode_of (kmem_put _ _ k1) i) with (inode_of k1 i). by rewrite Z4.
    + change (inode_of (kmem_put _ _ k1) i) with (inode_of k1 i). by rewrite Z5.
  - unfold pipe_data at 1. change (inode_of (kmem_put _ _ k1) i) with (inode_of k1 i).
    rewrite Es'. replace (Z.to_nat (PIPE_SIZE n + c)) with (Z.to_nat (PIPE_SIZE n) + length l)%nat by lia.
    rewrite seq_app, fmap_app.
    assert (Hbyte : forall j, pipe_byte (kmem_put (i_size n + PIPE_HEAD n) l k1) i j =
      byte_at (put_bytes (i_size n + PIPE_HEAD n) l (mem (k_mm k)))
        (i_size n + (PIPE_TAIL n + j) mod 4096)).
    { intros j. unfold pipe_byte. change (inode_of (kmem_put _ _ k1) i) with (inode_of k1 i).
      rewrite Z2, Z5. done. }
    f_equal.
    + unfold pipe_data. fold n. apply list_fmap_ext. intros m j Hj. apply lookup_seq in Hj as [-> Hj].
      rewrite Hbyte, byte_at_put. unfold pipe_byte. fold n.
      destruct (Z.leb_spec (i_size n + PIPE_HEAD n) (i_size n + (PIPE_TAIL n + Z.of_nat (0 + m)) mod 4096));
        [destruct (Z.ltb_spec (i_size n + (PIPE_TAIL n + Z.of_nat (0 + m)) mod 4096)
           (i_size n + PIPE_HEAD n + Z.of_nat (length l)))|]; cbn [andb]; try done.
      exfalso. unfold c in *. zlia.
    + apply list_eq. intros m. rewrite list_lookup_fmap.
      destruct (decide (m < length l)%nat) as [Hm|Hm].
      2:{ rewrite lookup_seq_ge by lia. symmetry. apply lookup_ge_None. lia. }
      rewrite lookup_seq_lt by done. simpl. rewrite Hbyte, byte_at_put.
      assert (Ea : (PIPE_TAIL n + Z.of_nat (Z.to_nat (PIPE_SIZE n) + m)) mod 4096 = PIPE_HEAD n + Z.of_nat m)
        by (unfold c in *; zlia).
      rewrite Ea. rewrite (proj2 (Z.leb_le _ _)), (proj2 (Z.ltb_lt _ _)) by lia. cbn [andb].
      replace (Z.to_nat (i_size n + (PIPE_HEAD n + Z.of_nat m) - (i_size n + PIPE_HEAD n))) with m by lia.
      destruct (lookup_lt_is_Some_2 l m Hm) as [b Hb]. rewrite nth_lookup, Hb. simpl. f_equal.
      apply u8_small. by apply (Forall_lookup_1 _ _ _ _ Hl Hb).
Qed.

(** One round of [read_pipe]: [c] bytes go out at the tail. *)
Definition take_pipe (i : nat) (c : Z) (k : K) : K :=
  set_zone i 1 ((PIPE_TAIL (inode_of k i) + c) .& 4095) k.

Lemma take_pipe_ok i c k : pipe_ok k i -> 0 <= c <= 4096 - PIPE_TAIL (inode_of k i) ->
  c <= PIPE_SIZE (inode_of k i) ->
  let n := inode_of k i in let n' := inode_of (take_pipe i c k) i in
  pipe_ok (take_pipe i c k) i /\
  read_bytes (i_size n + PIPE_TAIL n) (Z.to_nat c) (mem (k_mm k)) =
    take (Z.to_nat c) (pipe_data k i) /\
  pipe_data (take_pipe i c k) i = drop (Z.to_nat c) (pipe_data k i) /\
  PIPE_SIZE n' = PIPE_SIZE n - c /\ i_size n' = i_size n /\ i_count n' = i_count n.
Proof.
  intros [Hi Hz Hh Ht] Hc1 Hc2 n n'. subst n'.
  fold n in Hz, Hh, Ht, Hc1, Hc2. pose proof (PIPE_SIZE_mod n) as Es.
  pose proof (PIPE_SIZE_range n) as Hs. unfold take_pipe. fold n. rewrite land_fff.
  set (v := (PIPE_TAIL n + c) mod 4096). assert (Hv : 0 <= v < 4096) by (unfold v; zlia).
  destruct (set_zone_ends k i 1 v Hi Hz ltac:(lia) Hv) as (Z1 & Z2 & Z3 & Z4 & Z5).
  fold n in Z1, Z2, Z3, Z4, Z5. rewrite decide_False in Z4 by done.
  rewrite decide_True in Z5 by done. set (k1 := set_zone i 1 v k) in *.
  assert (Es' : PIPE_SIZE (inode_of k1 i) = PIPE_SIZE n - c).
  { rewrite PIPE_SIZE_mod, Z4, Z5. unfold v. rewrite Es. zlia. }
  assert (Hsplit : pipe_data k i =
    ((fun j => pipe_byte k i (Z.of_nat j)) <$> seq 0 (Z.to_nat c)) ++
    ((fun j => pipe_byte k i (Z.of_nat j)) <$> seq (Z.to_nat c) (Z.to_nat (PIPE_SIZE n - c)))).
  { unfold pipe_data. fold n. rewrite <- fmap_app, <- seq_app. do 2 f_equal. lia. }
  split; [|split; [|split; [|done]]].
  - split; [unfold k1, set_zone, upd_inode; simpl; by rewrite length_alter|by rewrite Z1|
            by rewrite Z4|by rewrite Z5].
  - rewrite Hsplit, take_app_length' by (by rewrite length_fmap, length_seq).
    unfold read_bytes. apply list_fmap_ext. intros m j Hj. apply lookup_seq in Hj as [-> Hj].
    unfold pipe_byte. fold n. f_equal. rewrite Z.mod_small by lia. lia.
  - rewrite Hsplit, drop_app_length' by (by rewrite length_fmap, length_seq).
    unfold pipe_data. rewrite Es'. apply list_eq. intros m. rewrite !list_lookup_fmap.
    destruct (decide (m < Z.to_nat (PIPE_SIZE n - c))%nat) as [Hm|Hm].
    2:{ by rewrite !lookup_seq_ge by lia. }
    rewrite !lookup_seq_lt by done. simpl. f_equal. unfold pipe_byte. fold n. rewrite Z2, Z5.
    change (mem (k_mm k1)) with (mem (k_mm k)). f_equal. f_equal. unfold v.
    rewrite Zplus_mod_idemp_l. f_equal. lia.
Qed.

(** ** The loops *)
Definition umem_ok (k : K) : Prop := forall a, 0 <= umem k a < 256.

Lemma wait_for_room_now i k w : PIPE_SIZE (inode_of k i) <> 4095 ->
  wait_for_room i k w = Ret (Some (4095 - PIPE_SIZE (inode_of k i))) k w.
Proof.
  intros Hs. unfold wait_for_room, repeat_awake. apply repeat_until_done. run.
  unfold truth. rewrite (proj2 (Z.eqb_neq _ _)) by lia. done.
Qed.
Lemma wait_for_data_now i k w : PIPE_SIZE (inode_of k i) <> 0 ->
  wait_for_data i k w = Ret (Some (PIPE_SIZE (inode_of k i))) k w.
Proof.
  intros Hs. unfold wait_for_data, repeat_awake. apply repeat_until_done. run.
  unfold truth. rewrite (proj2 (Z.eqb_neq _ _)) by lia. done.
Qed.

Lemma write_pipe_loop_ok i fuel : forall count buf written k w,
  (Z.to_nat count <= fuel)%nat -> 0 <= count <= 4095 - PIPE_SIZE (inode_of k i) ->
  0 <= buf < 4294967296 -> pipe_ok k i -> umem_ok k ->
  exists k', write_pipe_loop fuel i buf count written k w = Ret (inr (written + count)) k' w /\
    pipe_ok k' i /\
    pipe_data k' i = pipe_data k i ++ user_bytes (umem k) (Z.to_nat count) buf /\
    umem k' = umem k /\ i_count (inode_of k' i) = i_count (inode_of k i).
Proof.
  induction fuel as [|fuel IH]; intros count buf written k w Hf Hc Hb Hk Hu.
  - assert (count = 0) as -> by lia. exists k. simpl. rewrite Z.add_0_r, app_nil_r. done.
  - cbn [write_pipe_loop]. destruct (Z.leb_spec count 0).
    { assert (count = 0) as -> by lia. exists k. rewrite Z.add_0_r. simpl. by rewrite app_nil_r. }
    set (n := inode_of k i) in *. pose proof (PIPE_SIZE_range n) as Hs.
    rewrite (run_ret _ _ _ _ _ _ _ (wait_for_room_now i k w ltac:(fold n; lia))). run. fold n.
    pose proof (po_head k i Hk) as Hh. fold n in Hh.
    set (chars := Z.min (Z.min (4096 - PIPE_HEAD n) count) (4095 - PIPE_SIZE n)).
    assert (Hch : 0 < chars <= count /\ chars <= 4096 - PIPE_HEAD n /\ chars <= 4095 - PIPE_SIZE n)
      by (unfold chars; lia).
    rewrite (run_ret _ _ _ _ _ _ _ (get_fs_bytes_run _ _ _ w)). run.
    change (umem (set_zone i 0 _ k)) with (umem k).
    set (l := user_bytes (umem k) (Z.to_nat chars) buf).
    assert (Hll : Z.of_nat (length l) = chars) by (unfold l; rewrite length_user_bytes; lia).
    assert (Hk1 : kmem_put (i_size n + PIPE_HEAD n) l (set_zone i 0 ((PIPE_HEAD n + chars) .& 4095) k)
      = put_pipe i l k) by (unfold put_pipe; fold n; by rewrite Hll).
    rewrite Hk1.
    assert (Hlr : Forall (fun b => 0 <= b < 256) l) by (by apply Forall_user_bytes).
    destruct (put_pipe_ok i l k Hk Hlr) as (P1 & P2 & P3 & P4 & P5 & P6);
      [fold n; lia|fold n; lia|]. fold n in P3, P4, P5.
    destruct (IH (count - chars) (u32 (buf + chars)) (written + chars) (put_pipe i l k) w)
      as (k' & E & Q1 & Q2 & Q3 & Q4); [lia|rewrite P3; lia|apply u32_range|done|by intros a; rewrite P6|].
    exists k'. replace (written + count) with (written + chars + (count - chars)) by lia.
    split; [exact E|]. split; [done|]. split; [|split; [by rewrite Q3|by rewrite Q4]].
    rewrite Q2, P2, P6, <- app_assoc. f_equal. unfold l.
    replace (Z.to_nat count) with (Z.to_nat chars + Z.to_nat (count - chars))%nat by lia.
    rewrite user_bytes_app by done. by rewrite Z2Nat.id by lia.
Qed.

Lemma user_put_app l1 l2 : forall buf m, 0 <= buf < 4294967296 ->
  user_put (l1 ++ l2) buf m = user_put l2 (u32 (buf + Z.of_nat (length l1))) (user_put l1 buf m).
Proof.
  induction l1 as [|c l1 IH]; intros buf m Hb.
  - simpl. by rewrite Z.add_0_r, u32_small.
  - cbn [app user_put length]. rewrite IH by apply u32_range. rewrite u32_add_u32. f_equal. f_equal. lia.
Qed.

Lemma read_pipe_loop_ok i fuel : forall count buf read k w,
  (Z.to_nat count <= fuel)%nat -> 0 <= count <= PIPE_SIZE (inode_of k i) ->
  0 <= buf < 4294967296 -> pipe_ok k i ->
  exists k', read_pipe_loop fuel i buf count read k w = Ret (inr (read + count)) k' w /\
    pipe_ok k' i /\ pipe_data k' i = drop (Z.to_nat count) (pipe_data k i) /\
    umem k' = user_put (take (Z.to_nat count) (pipe_data k i)) buf (umem k) /\
    i_count (inode_of k' i) = i_count (inode_of k i).
Proof.
  induction fuel as [|fuel IH]; intros count buf read k w Hf Hc Hb Hk.
  - assert (count = 0) as -> by lia. exists k. simpl. by rewrite Z.add_0_r.
  - cbn [read_pipe_loop]. destruct (Z.leb_spec count 0).
    { assert (count = 0) as -> by lia. exists k. by rewrite Z.add_0_r. }
    set (n := inode_of k i) in *. pose proof (PIPE_SIZE_range n) as Hs.
    rewrite (run_ret _ _ _ _ _ _ _ (wait_for_data_now i k w ltac:(fold n; lia))). run. fold n.
    pose proof (po_tail k i Hk) as Ht. fold n in Ht.
    set (chars := Z.min (Z.min (4096 - PIPE_TAIL n) count) (PIPE_SIZE n)).
    assert (Hch : 0 < chars <= count /\ chars <= 4096 - PIPE_TAIL n /\ chars <= PIPE_SIZE n)
      by (unfold chars; lia).
    fold (take_pipe i chars k).
    destruct (take_pipe_ok i chars k Hk) as (P1 & P2 & P3 & P4 & P5 & P6);
      [fold n; lia|fold n; lia|]. fold n in P2, P4, P5, P6.
    change (mem (k_mm (take_pipe i chars k))) with (mem (k_mm k)).
    rewrite (run_ret _ _ _ _ _ _ _ (put_fs_bytes_run _ _ _ w)).
    set (k1 := _ <| umem ::= _ |>).
    assert (Hk1 : pipe_ok k1 i) by (destruct P1; by split).
    assert (Hd1 : pipe_data k1 i = pipe_data (take_pipe i chars k) i) by done.
    destruct (IH (count - chars) (u32 (buf + chars)) (read + chars) k1 w)
      as (k' & E & Q1 & Q2 & Q3 & Q4); [lia| |apply u32_range|done|].
    { change (inode_of k1 i) with (inode_of (take_pipe i chars k) i). rewrite P4. lia. }
    exists k'. replace (read + count) with (read + chars + (count - chars)) by lia.
    split; [exact E|]. split; [done|].
    rewrite Hd1, P3 in Q2, Q3. split; [|split].
    + rewrite Q2, drop_drop. f_equal. lia.
    + rewrite Q3. unfold k1. cbn [umem update_field].
      change (mem (k_mm (set_zone _ _ _ k))) with (mem (k_mm k)).
      change (umem (set_zone _ _ _ k)) with (umem k). rewrite P2.
      replace (Z.to_nat count) with (Z.to_nat chars + Z.to_nat (count - chars))%nat by lia.
      rewrite <- (take_take_drop (pipe_data k i)), user_put_app by done.
      assert (Hl : Z.of_nat (length (take (Z.to_nat chars) (pipe_data k i))) = chars).
      { rewrite length_take. unfold pipe_data. rewrite length_fmap, length_seq. fold n. lia. }
      by rewrite Hl.
    + rewrite Q4. exact P6.
Qed.

(** C21. Writing to a pipe that has room appends: [write_pipe] takes all the bytes,
    without sleeping, and they come after those already in the ring, across the
    wrap-around of the page; then the readers are woken. *)
Theorem write_pipe_appends i buf count k w :
  pipe_ok k i -> umem_ok k -> 0 <= buf < 4294967296 ->
  0 <= count <= 4095 - PIPE_SIZE (inode_of k i) ->
  exists k', write_pipe i buf count k w =
      Ret count k' (World (script w) (EvWake (WInode i) :: log w)) /\
    pipe_ok k' i /\ umem k' = umem k /\
    pipe_data k' i = pipe_data k i ++ user_bytes (umem k) (Z.to_nat count) buf.
Proof.
  intros Hk Hu Hb Hc. unfold write_pipe.
  destruct (write_pipe_loop_ok i (Z.to_nat count) count buf 0 k w) as (k' & E & Q1 & Q2 & Q3 & _);
    [lia|done..|].
  rewrite (run_ret _ _ _ _ _ _ _ E). run. exists k'. done.
Qed.

(** C22. Reading no more than a pipe holds takes its oldest bytes: they are in the
    caller's buffer, in order, nothing else of its memory has changed, and the rest
    is still in the pipe. *)
Theorem read_pipe_takes i buf count k w :
  pipe_ok k i -> 0 <= count <= PIPE_SIZE (inode_of k i) ->
  0 <= buf -> buf + count <= 4294967296 ->
  exists k', read_pipe i buf count k w =
      Ret count k' (World (script w) (EvWake (WInode i) :: log w)) /\
    pipe_ok k' i /\ pipe_data k' i = drop (Z.to_nat count) (pipe_data k i) /\
    user_bytes (umem k') (Z.to_nat count) buf = take (Z.to_nat count) (pipe_data k i) /\
    (forall a, a < buf \/ buf + count <= a -> umem k' a = umem k a).
Proof.
  intros Hk Hc Hb1 Hb2.
  set (l := take (Z.to_nat count) (pipe_data k i)).
  assert (Hl : length l = Z.to_nat count).
  { unfold l. rewrite length_take. unfold pipe_data. rewrite length_fmap, length_seq. lia. }
  assert (Hlr : Forall (fun b => 0 <= b < 256) l).
  { apply Forall_take. unfold pipe_data. apply Forall_fmap, Forall_true. intros j.
    apply byte_at_range. }
  unfold read_pipe. destruct (decide (count = 0)) as [-> | Hne].
  { simpl. run. exists k. by rewrite drop_0. }
  destruct (read_pipe_loop_ok i (Z.to_nat count) count buf 0 k w) as (k' & E & Q1 & Q2 & Q3 & _);
    [lia|done|lia|done|].
  rewrite (run_ret _ _ _ _ _ _ _ E). run. exists k'. split; [done|]. do 2 (split; [done|]).
  fold l in Q3. rewrite Q3. split.
  - rewrite <- Hl at 1. apply user_bytes_put; [done|lia|done].
  - intros a Ha. apply user_put_other; lia.
Qed.

(** The ends of a pipe: a reader of an empty pipe that no writer holds gets end of
    file, and a writer to a full pipe that no reader holds gets [-1] and SIGPIPE;
    neither sleeps. *)
Theorem pipe_ends i buf count k w :
  0 < count -> i_count (inode_of k i) <> 2 ->
  (PIPE_SIZE (inode_of k i) = 0 -> exists w', read_pipe i buf count k w = Ret 0 k w') /\
  (PIPE_SIZE (inode_of k i) = 4095 -> exists w', write_pipe i buf count k w =
     Ret (-1) (upd_current (fun t => t <| signal ::= fun g => g .| (1 .<< (SIGPIPE - 1)) |>) k) w').
Proof.
  intros Hc Hcnt. destruct (Z.to_nat count) as [|fuel] eqn:Ef; [lia|]. split; intros Hs.
  - exists (World (script w) (EvWake (WInode i) :: log w)). unfold read_pipe. rewrite Ef.
    cbn [read_pipe_loop]. rewrite (proj2 (Z.leb_gt _ _)) by done.
    assert (Ew : wait_for_data i k w = Ret None k (World (script w) (EvWake (WInode i) :: log w))).
    { unfold wait_for_data, repeat_awake. apply repeat_until_done. run. rewrite Hs. cbn [truth].
      change (truth 0) with false. cbn iota. run.
      by rewrite (proj2 (Z.eqb_neq _ _)) by done. }
    by rewrite run_assoc, (run_ret _ _ _ _ _ _ _ Ew).
  - exists (World (script w) (EvWake (WInode i) :: log w)). unfold write_pipe. rewrite Ef.
    cbn [write_pipe_loop]. rewrite (proj2 (Z.leb_gt _ _)) by done.
    assert (Ew : wait_for_room i k w = Ret None
      (upd_current (fun t => t <| signal ::= fun g => g .| (1 .<< (SIGPIPE - 1)) |>) k)
      (World (script w) (EvWake (WInode i) :: log w))).
    { unfold wait_for_room, repeat_awake. apply repeat_until_done. run. rewrite Hs.
      change (truth (4095 - 4095)) with false. cbn iota. run.
      rewrite (proj2 (Z.eqb_neq _ _)) by done. cbn [negb]. by run. }
    by rewrite run_assoc, (run_ret _ _ _ _ _ _ _ Ew).
Qed.

(** A pipe of four bytes whose ring wraps round the end of its page. *)
Definition pipe_sample (head tail count : Z) : K :=
  Kernel [] (BufferHead [] 0 0 0 0 0 0 None None None None) [] None [] [] 0 0
    [zero_inode <| i_size := 0x300000 |> <| i_pipe := 1 |> <| i_count := count |>
                <| i_zone := [head; tail; 0; 0; 0; 0; 0; 0; 0] |>]
    0%nat [] [] 0 (fun a => a mod 256) (no_sched [] None) no_mm 0 [] [] [] [].
Lemma pipe_sample_ok head tail count : 0 <= head < 4096 -> 0 <= tail < 4096 ->
  pipe_ok (pipe_sample head tail count) 0.
Proof. intros. split; cbn; lia || done. Qed.
Lemma pipe_sample_umem head tail count : umem_ok (pipe_sample head tail count).
Proof. intros a. cbn. zlia. Qed.

Lemma write_pipe_appends_witness : exists k',
  write_pipe 0 1000 3 (pipe_sample 4094 4090 2) (World [] []) =
    Ret 3 k' (World [] [EvWake (WInode 0)]) /\
  pipe_data k' 0 = pipe_data (pipe_sample 4094 4090 2) 0 ++ [232; 233; 234].
Proof.
  destruct (write_pipe_appends 0 1000 3 (pipe_sample 4094 4090 2) (World [] []))
    as (k' & E & _ & _ & Hd).
  - apply pipe_sample_ok; lia.
  - apply pipe_sample_umem.
  - lia.
  - split; vm_compute; congruence.
  - exists k'. split; [exact E|]. rewrite Hd. reflexivity.
Defined.
Lemma read_pipe_takes_witness : exists k',
  read_pipe 0 1000 3 (pipe_sample 2 4094 2) (World [] []) =
    Ret 3 k' (World [] [EvWake (WInode 0)]) /\
  user_bytes (umem k') 3 1000 = take 3 (pipe_data (pipe_sample 2 4094 2) 0).
Proof.
  destruct (read_pipe_takes 0 1000 3 (pipe_sample 2 4094 2) (World [] []))
    as (k' & E & _ & _ & Hu & _).
  - apply pipe_sample_ok; lia.
  - split; vm_compute; congruence.
  - lia.
  - lia.
  - exists k'. split; [exact E|]. exact Hu.
Defined.
Lemma pipe_ends_witness : exists w',
  read_pipe 0 1000 3 (pipe_sample 7 7 1) (World [] []) = Ret 0 (pipe_sample 7 7 1) w'.
Proof.
  destruct (pipe_ends 0 1000 3 (pipe_sample 7 7 1) (World [] [])) as [H _].
  - lia.
  - cbn. lia.
  - apply H. reflexivity.
Defined.

(** * Seeking *)

(** The position [sys_lseek] is asked for. *)
Definition seek_target (k : K) (f i : nat) (offset origin : Z) : option Z :=
  if origin =? 0 then Some offset
  else if origin =? 1 then Some (s32 (f_pos (file_of k f) + offset))
  else if origin =? 2 then Some (s32 (i_size (inode_of k i) + offset))
  else None.

(** [sys_lseek] either fails and changes nothing, or returns the position it was
    asked for, stores that position in the file and changes nothing else; a position
    is never negative, and a file that is a pipe or not on a seekable device cannot
    be positioned. *)
Theorem sys_lseek_spec fd offset origin k w : exists r k',
  sys_lseek fd offset origin k w = Ret r k' w /\
  ((r < 0 /\ k' = k) \/
   (exists f i, fd_file k fd = Some f /\ f_inode (file_of k f) = Some i /\
      i_pipe (inode_of k i) = 0 /\ IS_SEEKABLE (MAJOR (i_dev (inode_of k i))) = true /\
      seek_target k f i offset origin = Some r /\ 0 <= r /\
      k' = upd_file f (fun x => x <| f_pos := r |>) k)).
Proof.
  unfold sys_lseek, seek_target. run.
  destruct (fd_file k fd) as [f|]; [|by exists (- EBADF), k; split; [done|by left]].
  destruct (f_inode (file_of k f)) as [i|] eqn:Ei; [|by exists (- EBADF), k; split; [done|by left]].
  destruct (IS_SEEKABLE (MAJOR (i_dev (inode_of k i)))) eqn:Es; cbn [negb];
    [|by exists (- EBADF), k; split; [done|by left]].
  destruct (truth (i_pipe (inode_of k i))) eqn:Ep; [by exists (- ESPIPE), k; split; [done|by left]|].
  assert (Hp : i_pipe (inode_of k i) = 0)
    by (apply Z.eqb_eq; unfold truth in Ep; by apply negb_false_iff).
  assert (Hgo : forall p, exists r k',
    (if p <? 0 then mret (- EINVAL) else modify (upd_file f (fun x => x <| f_pos := p |>)) ;; mret p)
      k w = Ret r k' w /\
    ((r < 0 /\ k' = k) \/ (r = p /\ 0 <= p /\ k' = upd_file f (fun x => x <| f_pos := p |>) k))).
  { intros p. destruct (Z.ltb_spec p 0).
    - exists (- EINVAL), k. split; [done|]. by left.
    - exists p, (upd_file f (fun x => x <| f_pos := p |>) k). split; [done|]. by right. }
  destruct (origin =? 0); [|destruct (origin =? 1); [|destruct (origin =? 2)]].
  4: by exists (- EINVAL), k; split; [done|by left].
  - destruct (Hgo offset) as (r & k' & E & [H | (-> & H1 & H2)]); eexists _, k';
      (split; [exact E|]); [by left|right; by exists f, i].
  - destruct (Hgo (s32 (f_pos (file_of k f) + offset))) as (r & k' & E & [H | (-> & H1 & H2)]);
      eexists _, k'; (split; [exact E|]); [by left|right; by exists f, i].
  - destruct (Hgo (s32 (i_size (inode_of k i) + offset))) as (r & k' & E & [H | (-> & H1 & H2)]);
      eexists _, k'; (split; [exact E|]); [by left|right; by exists f, i].
Qed.
