(* ===== verification/Namei.v ===== *)
(** Names: [fs/namei.c].

    A directory entry ([struct dir_entry], 16 bytes) is named by its buffer and
    its index in the buffer's block.  A directory is scanned block by block, the
    64 entries of a block in a loop of their own. *)
From S2P Require Import Prelude Sched Mm Kernel Fork Blk Buffer Bitmap Inode Rw.

Definition I_REGULAR : Z := 32768.       (* 0100000, include/const.h *)
Definition I_DIRECTORY : Z := 16384.     (* 0040000 *)
Definition MAY_EXEC : Z := 1.
Definition MAY_WRITE : Z := 2.
Definition MAY_READ : Z := 4.

(** fs/namei.c:21-21 [ACC_MODE]: the last character is a signed char *)
Definition ACC_MODE (x : Z) : Z :=
  let m := x .& O_ACCMODE in
  if m =? 0 then 4 else if m =? 1 then 2 else if m =? 2 then 6 else -1.

(** fs/namei.c:40-54 [permission] *)
Definition permission (k : K) (inode : nat) (mask : Z) : bool :=
  let n := inode_of k inode in
  if truth (i_dev n) && (i_nlinks n =? 0) then false else
  let mode := if euid (cur k) =? i_uid n then i_mode n .>> 6
              else if egid (cur k) =? i_gid n then i_mode n .>> 3 else i_mode n in
  ((mode .& mask .& 7) =? mask) || suser k.

(** * Directory entries *)

(** include/linux/fs.h:162-165 [dir_entry] *)
Definition de_inode (data : list Z) (e : nat) : Z := get_word data (8 * e).
Definition de_name (data : list Z) (e : nat) : list Z := take 14 (drop (16 * e + 2) data).
Definition set_de_inode (e : nat) (v : Z) (data : list Z) : list Z := set_word (8 * e) v data.

(** fs/namei.c:71-77 [match]: [repe cmpsb] of [len] bytes *)
Fixpoint same_bytes (len : nat) (mem : Z -> Z) (name : Z) (l : list Z) : bool :=
  match len with
  | O => true
  | S n => (mem name =? get_byte l 0) && same_bytes n mem (u32 (name + 1)) (drop 1 l)
  end.

(** fs/namei.c:63-78 [match] *)
Definition match_entry (len : nat) (name : Z) (k : K) (data : list Z) (e : nat) : bool :=
  if (de_inode data e =? 0) || (NAME_LEN <? len)%nat then false else
  if (len <? NAME_LEN)%nat && truth (get_byte (de_name data e) len) then false else
  same_bytes len (umem k) name (de_name data e).

(** The blocks a file can have, and one more. *)
Definition MAX_BLOCKS : nat := Z.to_nat (7 + 512 + 512 * 512 + 1).
(** The longest path followed. *)
Definition PATH_FUEL : nat := Z.to_nat 4096.

Section namei.
Context `{SyncInodes}.

(** fs/namei.c:144-149 [find_entry]: the entries of one block, from [e] on, [i] being
    the number of entry [e] in the directory *)
Fixpoint match_block (n : nat) (len : nat) (name : Z) (k : K) (data : list Z)
    (e : nat) (i entries : Z) : option nat :=
  match n with
  | O => None
  | S n' =>
      if entries <=? i then None
      else if match_entry len name k data e then Some e
      else match_block n' len name k data (S e) (i + 1) entries
  end.

(** fs/namei.c:131-152 [find_entry]: block after block; [bh] is the block of entry [i] *)
Fixpoint find_loop (fuel : nat) (dir : nat) (len : nat) (name : Z) (bh : option nat)
    (i entries : Z) : M K (option (nat * nat)) :=
  match fuel with
  | O => out_of_fuel
  | S f =>
      k ← get ;
      match (match bh with
             | Some b => match_block 64 len name k (b_data (bh_of k b)) 0 i entries
             | None => None
             end), bh with
      | Some e, Some b => mret (Some (b, e))
      | _, _ =>
          let i := i + DIR_ENTRIES_PER_BLOCK in
          brelse bh ;;
          if entries <=? i then mret None else
          block ← bmap dir (Z.quot i DIR_ENTRIES_PER_BLOCK) ;
          bh ← (if block =? 0 then mret None else
                dev ← gets (fun k => i_dev (inode_of k dir)) ; bread dev block) ;
          find_loop f dir len name bh i entries
      end
  end.

(** fs/namei.c:112-126 [find_entry]: the magic of [..]; the result is the directory
    and the length to go on with *)
Definition dotdot (dir : nat) (name : Z) (len : nat) : M K (nat * nat) :=
  k ← get ;
  if (len =? 2)%nat && (umem k name =? 46) && (umem k (u32 (name + 1)) =? 46) then
    if bool_decide (root (cur k) = Some dir) then mret (dir, 1%nat)
    else if i_num (inode_of k dir) =? ROOT_INO then
      sb ← get_super (i_dev (inode_of k dir)) ;
      match sb with
      | None => panic "null super block"
      | Some s =>
          m ← gets (fun k => s_imount (super_of k s)) ;
          match m with
          | None => mret (dir, len)
          | Some _ =>
              iput (Some dir) ;;
              m ← gets (fun k => s_imount (super_of k s)) ;
              match m with
              | None => panic "null s_imount"
              | Some d =>
                  modify (upd_inode d (fun n => n <| i_count ::= fun c => u16 (c + 1) |>)) ;;
                  mret (d, len)
              end
          end
      end
    else mret (dir, len)
  else mret (dir, len).

(** fs/namei.c:91-153 [find_entry]: the directory may change; the entry found *)
Definition find_entry (dir : nat) (name : Z) (namelen : nat) :
    M K (nat * option (nat * nat)) :=
  let namelen := Nat.min namelen NAME_LEN in
  entries ← gets (fun k => i_size (inode_of k dir) / 16) ;
  if (namelen =? 0)%nat then mret (dir, None) else
  r ← dotdot dir name namelen ;
  let '(dir, namelen) := r in
  k ← get ;
  if zone k dir 0 =? 0 then mret (dir, None) else
  bh ← bread (i_dev (inode_of k dir)) (zone k dir 0) ;
  match bh with
  | None => mret (dir, None)
  | Some _ =>
      r ← find_loop MAX_BLOCKS dir namelen name bh 0 entries ;
      mret (dir, r)
  end.

(** fs/namei.c:208-211 [add_entry]: entry [e] of [bh] is taken for the name *)
Definition fill_entry (dir bh e : nat) (name : Z) (namelen : nat) : M K unit :=
  modify (fun k => upd_inode dir (fun n => n <| i_mtime := now k |>) k) ;;
  modify (fun k =>
    let l := (fun i => if (i <? namelen)%nat then umem k (u32 (name + Z.of_nat i)) else 0)
               <$> seq 0 NAME_LEN in
    upd_bh bh (fun b => b <| b_data ::= put_at (16 * e + 2) l |> <| b_dirt := 1 |>) k).

(** fs/namei.c:201-216 [add_entry]: the entries of one block, from [e] on *)
Fixpoint add_in_block (n : nat) (dir bh : nat) (name : Z) (namelen : nat) (e : nat)
    (i : Z) : M K (option nat) :=
  match n with
  | O => mret None
  | S n' =>
      k ← get ;
      when (i_size (inode_of k dir) <=? i * 16)
        (modify (upd_bh bh (fun b => b <| b_data ::= set_de_inode e 0 |>)) ;;
         modify (fun k => upd_inode dir (fun d =>
           d <| i_size := u32 ((i + 1) * 16) |> <| i_dirt := 1 |> <| i_ctime := now k |>) k)) ;;
      free ← gets (fun k => de_inode (b_data (bh_of k bh)) e) ;
      if free =? 0 then fill_entry dir bh e name namelen ;; mret (Some e)
      else add_in_block n' dir bh name namelen (S e) (i + 1)
  end.

(** fs/namei.c:186-217 [add_entry]: block after block *)
Fixpoint add_loop (fuel : nat) (dir : nat) (name : Z) (namelen : nat) (bh : option nat)
    (i : Z) : M K (option (nat * nat)) :=
  match fuel with
  | O => out_of_fuel
  | S f =>
      r ← match bh with
          | Some b =>
              e ← add_in_block 64 dir b name namelen 0 i ;
              mret (match e with Some e => Some (b, e) | None => None end)
          | None => mret None
          end ;
      match r with
      | Some be => mret (Some be)
      | None =>
          let i := i + DIR_ENTRIES_PER_BLOCK in
          brelse bh ;;
          block ← create_block dir (Z.quot i DIR_ENTRIES_PER_BLOCK) ;
          if block =? 0 then mret None else
          dev ← gets (fun k => i_dev (inode_of k dir)) ;
          bh ← bread dev block ;
          add_loop f dir name namelen bh i
      end
  end.

(** fs/namei.c:165-220 [add_entry] *)
Definition add_entry (dir : nat) (name : Z) (namelen : nat) : M K (option (nat * nat)) :=
  let namelen := Nat.min namelen NAME_LEN in
  if (namelen =? 0)%nat then mret None else
  k ← get ;
  if zone k dir 0 =? 0 then mret None else
  bh ← bread (i_dev (inode_of k dir)) (zone k dir 0) ;
  match bh with
  | None => mret None
  | Some _ => add_loop MAX_BLOCKS dir name namelen bh 0
  end.

(** * Walking a path *)

(** fs/namei.c:256-257 [get_dir]: the end of the component at [p]: its
    terminator, its length and the address after the terminator *)
Fixpoint component (fuel : nat) (p : Z) (len : nat) : M K (Z * nat * Z) :=
  match fuel with
  | O => out_of_fuel
  | S f =>
      c ← get_fs_byte p ;
      if (c =? 0) || (c =? 47) then mret (c, len, u32 (p + 1))
      else component f (u32 (p + 1)) (S len)
  end.

(** fs/namei.c:250-270 [get_dir]: [while (1)] *)
Fixpoint walk (fuel : nat) (inode : nat) (path : Z) : M K (option nat) :=
  match fuel with
  | O => out_of_fuel
  | S f =>
      k ← get ;
      if negb (S_ISDIR (i_mode (inode_of k inode))) || negb (permission k inode MAY_EXEC)
      then iput (Some inode) ;; mret None else
      r ← component PATH_FUEL path 0 ;
      let '(c, namelen, next) := r in
      if c =? 0 then mret (Some inode) else
      r ← find_entry inode path namelen ;
      match r with
      | (inode, None) => iput (Some inode) ;; mret None
      | (inode, Some (b, e)) =>
          k ← get ;
          let inr := de_inode (b_data (bh_of k b)) e in
          let idev := i_dev (inode_of k inode) in
          brelse (Some b) ;;
          iput (Some inode) ;;
          inode ← iget idev inr ;
          walk f inode next
      end
  end.

(** fs/namei.c:229-271 [get_dir] *)
Definition get_dir (pathname : Z) : M K (option nat) :=
  k ← get ;
  let in_use p := match p with Some i => truth (i_count (inode_of k i)) | None => false end in
  if negb (in_use (root (cur k))) then panic "No root inode" else
  if negb (in_use (pwd (cur k))) then panic "No cwd inode" else
  c ← get_fs_byte pathname ;
  if c =? 0 then mret None else
  match (if c =? 47 then root (cur k) else pwd (cur k)) with
  | None => mret None
  | Some i =>
      modify (upd_inode i (fun n => n <| i_count ::= fun c => u16 (c + 1) |>)) ;;
      walk PATH_FUEL i (if c =? 47 then u32 (pathname + 1) else pathname)
  end.

(** fs/namei.c:289-292 [dir_namei]: [basename], and [pathname] after the loop *)
Fixpoint last_component (fuel : nat) (p base : Z) : M K (Z * Z) :=
  match fuel with
  | O => out_of_fuel
  | S f =>
      c ← get_fs_byte p ;
      let p := u32 (p + 1) in
      if c =? 0 then mret (base, p)
      else last_component f p (if c =? 47 then p else base)
  end.

(** fs/namei.c:280-296 [dir_namei]: the directory, the length of the last
    component and its address *)
Definition dir_namei (pathname : Z) : M K (option (nat * nat * Z)) :=
  dir ← get_dir pathname ;
  match dir with
  | None => mret None
  | Some d =>
      r ← last_component PATH_FUEL pathname pathname ;
      let '(base, p) := r in
      mret (Some (d, Z.to_nat (u32 (p - base - 1)), base))
  end.

(** fs/namei.c:306-333 [namei] *)
Definition namei (pathname : Z) : M K (option nat) :=
  r ← dir_namei pathname ;
  match r with
  | None => mret None
  | Some (dir, namelen, basename) =>
      if (namelen =? 0)%nat then mret (Some dir) else
      r ← find_entry dir basename namelen ;
      match r with
      | (dir, None) => iput (Some dir) ;; mret None
      | (dir, Some (b, e)) =>
          k ← get ;
          let inr := de_inode (b_data (bh_of k b)) e in
          let dev := i_dev (inode_of k dir) in
          brelse (Some b) ;;
          iput (Some dir) ;;
          i ← iget dev inr ;
          modify (fun k => upd_inode i (fun n => n <| i_atime := now k |> <| i_dirt := 1 |>) k) ;;
          mret (Some i)
      end
  end.
End namei.

(** * Properties *)

(** ** Names *)
(** The C string at the start of a field: up to its first null byte. *)
Fixpoint cstr (l : list Z) : list Z :=
  match l with [] => [] | c :: l' => if c =? 0 then [] else c :: cstr l' end.

Lemma same_bytes_spec len m : forall name l, (len <= length l)%nat ->
  same_bytes len m name l = true <-> user_bytes m len name = take len l.
Proof.
  induction len as [|len IH]; intros name l Hl; [done|].
  destruct l as [|c l]; simpl in Hl; [lia|]. cbn [same_bytes user_bytes take].
  unfold get_byte at 1. cbn [lookup list_lookup]. cbn [default]. change (drop 1 (c :: l)) with l.
  rewrite andb_true_iff, Z.eqb_eq, IH by lia. split; [by intros [-> ->]|by intros [= -> ->]].
Qed.

Lemma cstr_prefix N : forall D, Forall (fun c => c <> 0) N -> (length N <= length D)%nat ->
  cstr D = N <-> N = take (length N) D /\ (length N = length D \/ get_byte D (length N) = 0).
Proof.
  induction N as [|c N IH]; intros D HN Hl.
  - destruct D as [|d D]; simpl; [tauto|]. unfold get_byte. cbn [lookup list_lookup]. cbn [default].
    destruct (Z.eqb_spec d 0); split; intros H; try done; [by split; [|right]|].
    destruct H as [_ [?|?]]; done.
  - apply Forall_cons in HN as [Hc HN]. destruct D as [|d D]; simpl in Hl; [lia|].
    cbn [cstr length take]. specialize (IH D HN ltac:(lia)).
    unfold get_byte in *. cbn [lookup list_lookup]. destruct (Z.eqb_spec d 0) as [-> | Hd].
    + split; [done|]. intros [[= ? _] _]. done.
    + split.
      * intros [= -> H]. destruct (proj1 IH H) as [E ?]. split; [by f_equal|]. destruct_or!; [left; lia|by right].
      * intros [[= -> E] H]. f_equal. apply IH. split; [done|]. destruct_or!; [left; lia|by right].
Qed.

(** Comparing a name with a directory entry: the [len] bytes of a name at [name], none
    of them null, match an entry exactly when the entry is in use, the name is not
    longer than a name may be, and it is the entry's name, which ends at its first
    null byte or at its 14th. *)
Theorem match_entry_name len name k data e :
  (16 * e + 16 <= length data)%nat ->
  Forall (fun c => c <> 0) (user_bytes (umem k) len name) ->
  match_entry len name k data e = true <->
  (len <= NAME_LEN)%nat /\ de_inode data e <> 0 /\
  cstr (de_name data e) = user_bytes (umem k) len name.
Proof.
  intros Hd Hn. unfold match_entry.
  assert (Hl : length (de_name data e) = 14%nat)
    by (unfold de_name; rewrite length_take, length_drop; lia).
  destruct (Z.eqb_spec (de_inode data e) 0) as [E|E]; cbn [orb].
  { split; [done|]. by intros (_ & ? & _). }
  destruct (Nat.ltb_spec NAME_LEN len) as [H|H].
  { split; [done|]. intros (? & _). lia. }
  unfold NAME_LEN in *.
  pose proof (cstr_prefix (user_bytes (umem k) len name) (de_name data e) Hn) as Hc.
  rewrite length_user_bytes in Hc. specialize (Hc ltac:(lia)).
  destruct (Nat.ltb_spec len 14) as [H14|H14]; cbn [andb].
  - unfold truth. destruct (Z.eqb_spec (get_byte (de_name data e) len) 0) as [Ez|Ez]; cbn [negb].
    + rewrite same_bytes_spec by lia. tauto.
    + split; [done|]. intros (_ & _ & Hs). apply Hc in Hs as [_ [?|?]]; [lia|done].
  - rewrite same_bytes_spec by lia. assert (len = 14%nat) as -> by lia.
    rewrite Hl in Hc. tauto.
Qed.

(** The entry [12 "ab"]. *)
Lemma match_entry_name_witness :
  match_entry 2 97 (pipe_sample 0 0 2) ([12; 0; 97; 98] ++ replicate 12 0) 0 = true <->
  (2 <= NAME_LEN)%nat /\ de_inode ([12; 0; 97; 98] ++ replicate 12 0) 0 <> 0 /\
  cstr (de_name ([12; 0; 97; 98] ++ replicate 12 0) 0) = [97; 98].
Proof.
  apply (match_entry_name 2 97 (pipe_sample 0 0 2) ([12; 0; 97; 98] ++ replicate 12 0) 0).
  - simpl. lia.
  - repeat constructor; done.
Defined.
