(* ===== verification/Dir.v ===== *)
(** Opening, creating and removing names: the rest of [fs/namei.c]. *)
From S2P Require Import Prelude Sched Mm Kernel Fork Blk Buffer Bitmap Inode Rw Namei.

Section dir.
Context `{SyncInodes}.

Definition ino (f : m_inode -> m_inode) (i : nat) : M K unit := modify (upd_inode i f).
Definition set_dirt (i : nat) : M K unit := ino (fun n => n <| i_dirt := 1 |>) i.
(** [de->inode = v; bh->b_dirt = 1] *)
Definition link_entry (b e : nat) (v : Z) : M K unit :=
  modify (upd_bh b (fun x => x <| b_data ::= set_de_inode e v |> <| b_dirt := 1 |>)).
(** [iput(a); iput(b); return -err] *)
Definition iput_err (l : list nat) (err : Z) : M K Z :=
  for_each l (fun i => iput (Some i)) ;; mret (- err).

(** fs/namei.c:369-393 [open_namei]: the name is not there and [O_CREAT] is set *)
Definition create_file (dir : nat) (name : Z) (namelen : nat) (mode : Z) :
    M K (Z * option nat) :=
  let fail e := r ← iput_err [dir] e ; mret (r, None) in
  k ← get ;
  if negb (permission k dir MAY_WRITE) then fail EACCES else
  inode ← new_inode (i_dev (inode_of k dir)) ;
  match inode with
  | None => fail ENOSPC
  | Some i =>
      modify (fun k => upd_inode i (fun n =>
        n <| i_uid := euid (cur k) |> <| i_mode := u16 mode |> <| i_dirt := 1 |>) k) ;;
      r ← add_entry dir name namelen ;
      match r with
      | None =>
          ino (fun n => n <| i_nlinks ::= fun l => u8 (l - 1) |>) i ;;
          r ← iput_err [i; dir] ENOSPC ; mret (r, None)
      | Some (b, e) =>
          n ← gets (fun k => i_num (inode_of k i)) ;
          link_entry b e n ;;
          brelse (Some b) ;;
          iput (Some dir) ;;
          mret (0, Some i)
      end
  end.

(** fs/namei.c:340-413 [open_namei]: the value returned and [*res_inode] *)
Definition open_namei (pathname flag mode : Z) : M K (Z * option nat) :=
  let flag := if truth (flag .& O_TRUNC) && negb (truth (flag .& O_ACCMODE))
              then flag .| O_WRONLY else flag in
  t ← gets cur ;
  let mode := (mode .& (511 .& Z.lnot (umask t))) .| I_REGULAR in
  r ← dir_namei pathname ;
  match r with
  | None => mret (- ENOENT, None)
  | Some (dir, namelen, basename) =>
      if (namelen =? 0)%nat then
        if negb (truth (flag .& (O_ACCMODE .| O_CREAT .| O_TRUNC)))
        then mret (0, Some dir)
        else r ← iput_err [dir] EISDIR ; mret (r, None)
      else
      r ← find_entry dir basename namelen ;
      match r with
      | (dir, None) =>
          if negb (truth (flag .& O_CREAT))
          then r ← iput_err [dir] ENOENT ; mret (r, None)
          else create_file dir basename namelen mode
      | (dir, Some (b, e)) =>
          k ← get ;
          let inr := de_inode (b_data (bh_of k b)) e in
          let dev := i_dev (inode_of k dir) in
          brelse (Some b) ;;
          iput (Some dir) ;;
          if truth (flag .& O_EXCL) then mret (- EEXIST, None) else
          i ← iget dev inr ;
          k ← get ;
          if (S_ISDIR (i_mode (inode_of k i)) && truth (flag .& O_ACCMODE)) ||
             negb (permission k i (ACC_MODE flag))
          then r ← iput_err [i] EPERM ; mret (r, None)
          else
            modify (fun k => upd_inode i (fun n => n <| i_atime := now k |>) k) ;;
            when (truth (flag .& O_TRUNC)) (truncate i) ;;
            mret (0, Some i)
      end
  end.

(** fs/namei.c:425-445 [sys_mknod]: the checks that [sys_mknod] and [sys_mkdir]
    share, up to the new inode: the directory, the name and the inode, or the
    error *)
Definition new_name (filename : Z) : M K (Z + nat * nat * Z * nat) :=
  k ← get ;
  if negb (suser k) then mret (inl (- EPERM)) else
  r ← dir_namei filename ;
  match r with
  | None => mret (inl (- ENOENT))
  | Some (dir, namelen, basename) =>
      let fail e := r ← iput_err [dir] e ; mret (inl r) in
      if (namelen =? 0)%nat then fail ENOENT else
      k ← get ;
      if negb (permission k dir MAY_WRITE) then fail EPERM else
      r ← find_entry dir basename namelen ;
      match r with
      | (dir, Some (b, _)) =>
          brelse (Some b) ;; r ← iput_err [dir] EEXIST ; mret (inl r)
      | (dir, None) =>
          k ← get ;
          inode ← new_inode (i_dev (inode_of k dir)) ;
          match inode with
          | None => r ← iput_err [dir] ENOSPC ; mret (inl r)
          | Some i => mret (inr (dir, namelen, basename, i))
          end
      end
  end.

(** fs/namei.c:415-464 [sys_mknod] *)
Definition sys_mknod (filename mode dev : Z) : M K Z :=
  r ← new_name filename ;
  match r with
  | inl e => mret e
  | inr (dir, namelen, basename, i) =>
      ino (fun n => n <| i_mode := u16 mode |>) i ;;
      when (S_ISBLK mode || S_ISCHR mode) (modify (set_zone i 0 dev)) ;;
      modify (fun k => upd_inode i (fun n =>
        n <| i_atime := now k |> <| i_mtime := now k |> <| i_dirt := 1 |>) k) ;;
      r ← add_entry dir basename namelen ;
      match r with
      | None =>
          iput (Some dir) ;;
          ino (fun n => n <| i_nlinks := 0 |>) i ;;
          iput_err [i] ENOSPC
      | Some (b, e) =>
          n ← gets (fun k => i_num (inode_of k i)) ;
          link_entry b e n ;;
          iput (Some dir) ;; iput (Some i) ;; brelse (Some b) ;;
          mret 0
      end
  end.

(** fs/namei.c:514-521 [sys_mkdir]: the entries [.] and [..] of the new block *)
Definition dots (b i dir : nat) : M K unit :=
  modify (fun k => upd_bh b (fun x => x <| b_data ::= fun d =>
    put_at 18 [46; 46; 0] (set_de_inode 1 (i_num (inode_of k dir))
      (put_at 2 [46; 0] (set_de_inode 0 (i_num (inode_of k i)) d))) |>) k) ;;
  ino (fun n => n <| i_nlinks := 2 |>) i ;;
  modify (upd_bh b (fun x => x <| b_dirt := 1 |>)).

(** fs/namei.c:466-541 [sys_mkdir] *)
Definition sys_mkdir (pathname mode : Z) : M K Z :=
  r ← new_name pathname ;
  match r with
  | inl e => mret e
  | inr (dir, namelen, basename, i) =>
      modify (fun k => upd_inode i (fun n => n <| i_size := 32 |> <| i_dirt := 1 |>
        <| i_atime := now k |> <| i_mtime := now k |>) k) ;;
      dev ← gets (fun k => i_dev (inode_of k i)) ;
      z ← new_block dev ;
      modify (set_zone i 0 z) ;;
      if u16 z =? 0 then
        iput (Some dir) ;;
        ino (fun n => n <| i_nlinks ::= fun l => u8 (l - 1) |>) i ;;
        iput_err [i] ENOSPC
      else
      set_dirt i ;;
      k ← get ;
      bh ← bread (i_dev (inode_of k i)) (zone k i 0) ;
      match bh with
      | None =>
          iput (Some dir) ;;
          k ← get ;
          free_block (i_dev (inode_of k i)) (zone k i 0) ;;
          ino (fun n => n <| i_nlinks ::= fun l => u8 (l - 1) |>) i ;;
          iput_err [i] ERROR
      | Some b =>
          dots b i dir ;;
          brelse bh ;;
          modify (fun k => upd_inode i (fun n => n <| i_mode :=
            I_DIRECTORY .| (mode .& 511 .& Z.lnot (umask (cur k))) |> <| i_dirt := 1 |>) k) ;;
          r ← add_entry dir basename namelen ;
          match r with
          | None =>
              iput (Some dir) ;;
              k ← get ;
              free_block (i_dev (inode_of k i)) (zone k i 0) ;;
              ino (fun n => n <| i_nlinks := 0 |>) i ;;
              iput_err [i] ENOSPC
          | Some (b, e) =>
              n ← gets (fun k => i_num (inode_of k i)) ;
              link_entry b e n ;;
              ino (fun n => n <| i_nlinks ::= fun l => u8 (l + 1) |> <| i_dirt := 1 |>) dir ;;
              iput (Some dir) ;; iput (Some i) ;; brelse (Some b) ;;
              mret 0
          end
      end
  end.

(** fs/namei.c:580-585 [empty_dir]: [while (nr<len)]; [bh] stays what it was when a
    block is missing, and is released again *)
Fixpoint used_in_block (n : nat) (data : list Z) (e : nat) (nr len : Z) : bool :=
  match n with
  | O => false
  | S n' => if len <=? nr then false
            else truth (de_inode data e) || used_in_block n' data (S e) (nr + 1) len
  end.
(** fs/namei.c:568-588 [empty_dir]: [while (nr<len)] *)
Fixpoint empty_loop (fuel : nat) (inode b : nat) (past : bool) (e : nat) (nr len : Z) :
    M K Z :=
  match fuel with
  | O => out_of_fuel
  | S f =>
      used ← gets (fun k => negb past &&
               used_in_block (64 - e) (b_data (bh_of k b)) e nr len) ;
      if (used : bool) then brelse (Some b) ;; mret 0 else
      let nr := if past then nr else nr + Z.of_nat (64 - e) in
      brelse (Some b) ;;
      if len <=? nr then mret 1 else
      block ← bmap inode (Z.quot nr DIR_ENTRIES_PER_BLOCK) ;
      if block =? 0 then
        let nr := nr + DIR_ENTRIES_PER_BLOCK in
        empty_loop f inode b true 0 nr len
      else
        dev ← gets (fun k => i_dev (inode_of k inode)) ;
        bh ← bread dev block ;
        match bh with
        | None => mret 0
        | Some b => empty_loop f inode b false 0 nr len
        end
  end.

(** fs/namei.c:546-589 [empty_dir]; [strcmp] with the names [.] and [..] *)
Definition empty_dir (inode : nat) : M K Z :=
  k ← get ;
  let n := inode_of k inode in
  let bad := printk "warning - bad directory on dev %04x" [i_dev n] ;; mret 0 in
  let len := i_size n / 16 in
  if (len <? 2) || (zone k inode 0 =? 0) then bad else
  bh ← bread (i_dev n) (zone k inode 0) ;
  match bh with
  | None => bad
  | Some b =>
      k ← get ;
      let d := b_data (bh_of k b) in
      if negb (de_inode d 0 =? i_num (inode_of k inode)) || (de_inode d 1 =? 0) ||
         negb (bool_decide (take 2 (de_name d 0) = [46; 0])) ||
         negb (bool_decide (take 3 (de_name d 1) = [46; 46; 0]))
      then bad else empty_loop MAX_BLOCKS inode b false 2 2 len
  end.

(** The start [sys_rmdir] and [sys_unlink] share, fs/namei.c:675-694 [sys_unlink]:
    the directory, the entry and the inode it names, or the error. *)
Definition old_name (name : Z) : M K (Z + nat * nat * nat * nat) :=
  r ← dir_namei name ;
  match r with
  | None => mret (inl (- ENOENT))
  | Some (dir, namelen, basename) =>
      let fail e := r ← iput_err [dir] e ; mret (inl r) in
      if (namelen =? 0)%nat then fail ENOENT else
      k ← get ;
      if negb (permission k dir MAY_WRITE) then fail EPERM else
      r ← find_entry dir basename namelen ;
      match r with
      | (dir, None) => r ← iput_err [dir] ENOENT ; mret (inl r)
      | (dir, Some (b, e)) =>
          k ← get ;
          i ← iget (i_dev (inode_of k dir)) (de_inode (b_data (bh_of k b)) e) ;
          mret (inr (dir, b, e, i))
      end
  end.

(** fs/namei.c:591-665 [sys_rmdir] *)
Definition sys_rmdir (name : Z) : M K Z :=
  k ← get ;
  if negb (suser k) then mret (- EPERM) else
  r ← old_name name ;
  match r with
  | inl e => mret e
  | inr (dir, b, e, i) =>
      let fail l err := for_each l (fun i => iput (Some i)) ;; brelse (Some b) ;; mret (- err) in
      k ← get ;
      let d := inode_of k dir in
      let n := inode_of k i in
      let me := euid (cur k) in
      if truth (i_mode d .& S_ISVTX) && truth me && negb (i_uid n =? me)
      then fail [dir; i] EPERM else
      if negb (i_dev n =? i_dev d) || (1 <? i_count n) then fail [dir; i] EPERM else
      if (i =? dir)%nat then fail [i; dir] EPERM else
      if negb (S_ISDIR (i_mode n)) then fail [i; dir] ENOTDIR else
      empty ← empty_dir i ;
      if empty =? 0 then fail [i; dir] ENOTEMPTY else
      l ← gets (fun k => i_nlinks (inode_of k i)) ;
      when (negb (l =? 2)) (printk "empty directory has nlink!=2 (%d)" [l]) ;;
      link_entry b e 0 ;;
      brelse (Some b) ;;
      ino (fun n => n <| i_nlinks := 0 |> <| i_dirt := 1 |>) i ;;
      modify (fun k => upd_inode dir (fun n => n <| i_nlinks ::= fun l => u8 (l - 1) |>
        <| i_mtime := now k |> <| i_ctime := now k |> <| i_dirt := 1 |>) k) ;;
      iput (Some dir) ;; iput (Some i) ;;
      mret 0
  end.

(** fs/namei.c:667-723 [sys_unlink] *)
Definition sys_unlink (name : Z) : M K Z :=
  r ← old_name name ;
  match r with
  | inl e => mret e
  | inr (dir, b, e, i) =>
      let fail l err := for_each l (fun i => iput (Some i)) ;; brelse (Some b) ;; mret (- err) in
      k ← get ;
      let d := inode_of k dir in
      let n := inode_of k i in
      let me := euid (cur k) in
      if truth (i_mode d .& S_ISVTX) && negb (suser k) && negb (me =? i_uid n) &&
         negb (me =? i_uid d)
      then fail [dir; i] EPERM else
      if S_ISDIR (i_mode n) then fail [i; dir] EPERM else
      when (i_nlinks n =? 0)
        (printk "Deleting nonexistent file (%04x:%d), %d" [i_dev n; i_num n; i_nlinks n] ;;
         ino (fun n => n <| i_nlinks := 1 |>) i) ;;
      link_entry b e 0 ;;
      brelse (Some b) ;;
      modify (fun k => upd_inode i (fun n => n <| i_nlinks ::= fun l => u8 (l - 1) |>
        <| i_dirt := 1 |> <| i_ctime := now k |>) k) ;;
      iput (Some i) ;; iput (Some dir) ;;
      mret 0
  end.

(** fs/namei.c:726-783 [sys_link] *)
Definition sys_link (oldname newname : Z) : M K Z :=
  old ← namei oldname ;
  match old with
  | None => mret (- ENOENT)
  | Some o =>
      mode ← gets (fun k => i_mode (inode_of k o)) ;
      if S_ISDIR mode then iput_err [o] EPERM else
      r ← dir_namei newname ;
      match r with
      | None => iput_err [o] EACCES
      | Some (dir, namelen, basename) =>
          if (namelen =? 0)%nat then iput_err [o; dir] EPERM else
          k ← get ;
          if negb (i_dev (inode_of k dir) =? i_dev (inode_of k o))
          then iput_err [dir; o] EXDEV else
          if negb (permission k dir MAY_WRITE) then iput_err [dir; o] EACCES else
          r ← find_entry dir basename namelen ;
          match r with
          | (dir, Some (b, _)) => brelse (Some b) ;; iput_err [dir; o] EEXIST
          | (dir, None) =>
              r ← add_entry dir basename namelen ;
              match r with
              | None => iput_err [dir; o] ENOSPC
              | Some (b, e) =>
                  n ← gets (fun k => i_num (inode_of k o)) ;
                  link_entry b e n ;;
                  brelse (Some b) ;;
                  iput (Some dir) ;;
                  modify (fun k => upd_inode o (fun n =>
                    n <| i_nlinks ::= fun l => u8 (l + 1) |> <| i_ctime := now k |>
                      <| i_dirt := 1 |>) k) ;;
                  iput (Some o) ;;
                  mret 0
              end
          end
      end
  end.
End dir.
