(* ===== verification/Super.v ===== *)
(** Mounting: the rest of [fs/super.c], and [check_disk_change] of [fs/buffer.c].

    [floppy_change] asks the drive whether its door was opened; it and
    [wait_for_keypress] are hardware, operations of a class. *)
From S2P Require Import Prelude Sched Mm Kernel Fork Blk Buffer Bitmap Inode Rw Namei.

Class Drives : Type := {
  floppy_change : Z -> M K Z;
  wait_for_keypress : M K unit;
}.

(** fs/super.c:130-131 [read_super]: [struct d_super_block], the structure at offset 0
    of [l]; an in-memory [super_block] starts with its fields. *)
Definition read_d_super (l : list Z) (s : super_block) : super_block :=
  s <| s_ninodes := get_word l 0 |> <| s_nzones := get_word l 1 |>
    <| s_imap_blocks := get_word l 2 |> <| s_zmap_blocks := get_word l 3 |>
    <| s_firstdatazone := get_word l 4 |> <| s_log_zone_size := get_word l 5 |>
    <| s_max_size := le_value (take 4 (drop 12 l)) |> <| s_magic := get_word l 8 |>.

Section super.
Context `{SyncInodes} `{Drives}.

Definition sup (i : nat) (f : super_block -> super_block) : M K unit := modify (upd_super i f).

(** fs/super.c:75-99 [put_super] *)
Definition put_super (dev : Z) : M K unit :=
  r ← gets ROOT_DEV ;
  if dev =? r then printk "root diskette changed: prepare for armageddon" [] else
  sb ← get_super dev ;
  match sb with
  | None => mret tt
  | Some s =>
      m ← gets (fun k => s_imount (super_of k s)) ;
      if bool_decide (m <> None) then printk "Mounted disk changed - tssk, tssk" [] else
      lock_super s ;;
      sup s (fun x => x <| s_dev := 0 |>) ;;
      for_each (seq 0 I_MAP_SLOTS) (fun i =>
        b ← gets (fun k => map_bh (s_imap (super_of k s)) i) ; brelse b) ;;
      for_each (seq 0 Z_MAP_SLOTS) (fun i =>
        b ← gets (fun k => map_bh (s_zmap (super_of k s)) i) ; brelse b) ;;
      free_super s
  end.

(** fs/buffer.c:120-133 [check_disk_change] *)
Definition check_disk_change (dev : Z) : M K unit :=
  if negb (MAJOR dev =? 2) then mret tt else
  c ← floppy_change (dev .& 0x03) ;
  if negb (truth c) then mret tt else
  for_each (seq 0 NR_SUPER) (fun i =>
    d ← gets (fun k => s_dev (super_of k i)) ;
    when (d =? dev) (put_super d)) ;;
  invalidate_inodes dev ;;
  invalidate_buffers dev.

(** fs/super.c:143-147 [read_super]: the blocks of one bitmap from [block] on, until
    one cannot be read; the next block *)
Fixpoint read_maps (n : nat) (i : nat) (dev block : Z)
    (set : nat -> option nat -> super_block -> super_block) (s : nat) : M K Z :=
  match n with
  | O => mret block
  | S n' =>
      bh ← bread dev block ;
      sup s (set i bh) ;;
      match bh with
      | None => mret block
      | Some _ => read_maps n' (S i) dev (block + 1) set s
      end
  end.

(** fs/super.c:112-117 [read_super]: an empty slot *)
Fixpoint find_empty_super (n i : nat) (k : K) : option nat :=
  match n with
  | O => None
  | S n' => if s_dev (super_of k i) =? 0 then Some i else find_empty_super n' (S i) k
  end.

(** fs/super.c:101-166 [read_super]; a disk whose bitmaps need more than 8 blocks
    overruns [s_imap] and [s_zmap], stores that are dropped here *)
Definition read_super (dev : Z) : M K (option nat) :=
  if dev =? 0 then mret None else
  check_disk_change dev ;;
  sb ← get_super dev ;
  match sb with
  | Some s => mret (Some s)
  | None =>
      k ← get ;
      match find_empty_super NR_SUPER 0 k with
      | None => mret None
      | Some s =>
          let fail := sup s (fun x => x <| s_dev := 0 |>) ;; free_super s ;; mret None in
          sup s (fun x => x <| s_dev := u16 dev |> <| s_isup := None |> <| s_imount := None |>
            <| s_time := 0 |> <| s_rd_only := 0 |> <| s_dirt := 0 |>) ;;
          lock_super s ;;
          bh ← bread dev 1 ;
          match bh with
          | None => fail
          | Some b =>
              modify (fun k => upd_super s (read_d_super (b_data (bh_of k b))) k) ;;
              brelse bh ;;
              m ← gets (fun k => s_magic (super_of k s)) ;
              if negb (m =? SUPER_MAGIC) then fail else
              sup s (fun x => x <| s_imap := replicate 8 None |>
                                <| s_zmap := replicate 8 None |>) ;;
              x ← gets (fun k => super_of k s) ;
              block ← read_maps (Z.to_nat (s_imap_blocks x)) 0 dev 2
                (fun i bh x => x <| s_imap ::= <[i := bh]> |>) s ;
              x ← gets (fun k => super_of k s) ;
              block ← read_maps (Z.to_nat (s_zmap_blocks x)) 0 dev block
                (fun i bh x => x <| s_zmap ::= <[i := bh]> |>) s ;
              x ← gets (fun k => super_of k s) ;
              if negb (block =? 2 + s_imap_blocks x + s_zmap_blocks x) then
                for_each (seq 0 I_MAP_SLOTS) (fun i =>
                  b ← gets (fun k => map_bh (s_imap (super_of k s)) i) ; brelse b) ;;
                for_each (seq 0 Z_MAP_SLOTS) (fun i =>
                  b ← gets (fun k => map_bh (s_zmap (super_of k s)) i) ; brelse b) ;;
                fail
              else
              let first := fun d : list Z => alter (fun c => c .| 1) 0%nat d in
              modify (upd_bh_at (map_bh (s_imap x) 0) (fun b => b <| b_data ::= first |>)) ;;
              modify (upd_bh_at (map_bh (s_zmap x) 0) (fun b => b <| b_data ::= first |>)) ;;
              free_super s ;;
              mret (Some s)
          end
      end
  end.

(** fs/super.c:168-199 [sys_umount] *)
Definition sys_umount (dev_name : Z) : M K Z :=
  r ← namei dev_name ;
  match r with
  | None => mret (- ENOENT)
  | Some i =>
      k ← get ;
      let dev := zone k i 0 in
      if negb (S_ISBLK (i_mode (inode_of k i))) then iput (Some i) ;; mret (- ENOTBLK) else
      iput (Some i) ;;
      rd ← gets ROOT_DEV ;
      if dev =? rd then mret (- EBUSY) else
      sb ← get_super dev ;
      k ← get ;
      match sb with
      | None => mret (- ENOENT)
      | Some s =>
          match s_imount (super_of k s) with
          | None => mret (- ENOENT)
          | Some m =>
              when (i_mount (inode_of k m) =? 0) (printk "Mounted inode has i_mount=0" []) ;;
              if existsb (fun n => (i_dev n =? dev) && truth (i_count n)) (inode_table k)
              then mret (- EBUSY) else
              modify (upd_inode m (fun n => n <| i_mount := 0 |>)) ;;
              iput (Some m) ;;
              sup s (fun x => x <| s_imount := None |>) ;;
              i ← gets (fun k => s_isup (super_of k s)) ;
              iput i ;;
              sup s (fun x => x <| s_isup := None |>) ;;
              put_super dev ;;
              sync_dev dev ;;
              mret 0
          end
      end
  end.

(** fs/super.c:201-241 [sys_mount] *)
Definition sys_mount (dev_name dir_name rw_flag : Z) : M K Z :=
  r ← namei dev_name ;
  match r with
  | None => mret (- ENOENT)
  | Some dev_i =>
      k ← get ;
      let dev := zone k dev_i 0 in
      if negb (S_ISBLK (i_mode (inode_of k dev_i)))
      then iput (Some dev_i) ;; mret (- EPERM) else
      iput (Some dev_i) ;;
      r ← namei dir_name ;
      match r with
      | None => mret (- ENOENT)
      | Some d =>
          let fail e := iput (Some d) ;; mret (- e) in
          n ← gets (fun k => inode_of k d) ;
          if negb (i_count n =? 1) || (i_num n =? ROOT_INO) then fail EBUSY else
          if negb (S_ISDIR (i_mode n)) then fail EPERM else
          sb ← read_super dev ;
          match sb with
          | None => fail EBUSY
          | Some s =>
              k ← get ;
              if bool_decide (s_imount (super_of k s) <> None) then fail EBUSY else
              if truth (i_mount (inode_of k d)) then fail EPERM else
              sup s (fun x => x <| s_imount := Some d |>) ;;
              modify (upd_inode d (fun n => n <| i_mount := 1 |> <| i_dirt := 1 |>)) ;;
              mret 0
          end
      end
  end.

(** fs/super.c:270-274 [mount_root]: the clear bits below [n] of a bitmap; this
    [set_bit] only tests *)
Definition count_clear (k : K) (maps : list (option nat)) (n : nat) : nat :=
  length (filter (fun i => test_bit (i mod Z.to_nat 8192)
    (b_data (bh_at k (map_bh maps (i / Z.to_nat 8192)))) = false) (seq 0 n)).

(** fs/super.c:243-282 [mount_root] *)
Definition mount_root : M K unit :=
  for_each (seq 0 NR_FILE) (fun i => modify (upd_file i (fun f => f <| f_count := 0 |>))) ;;
  rd ← gets ROOT_DEV ;
  when (MAJOR rd =? 2) (printk "Insert root floppy and press ENTER" [] ;; wait_for_keypress) ;;
  for_each (seq 0 NR_SUPER) (fun i => sup i (fun s => s <| s_dev := 0 |> <| s_lock := 0 |>)) ;;
  rd ← gets ROOT_DEV ;
  p ← read_super rd ;
  match p with
  | None => panic "Unable to mount root"
  | Some p =>
      rd ← gets ROOT_DEV ;
      mi ← iget rd ROOT_INO ;
      modify (upd_inode mi (fun n => n <| i_count ::= fun c => u16 (c + 3) |>)) ;;
      sup p (fun s => s <| s_imount := Some mi |> <| s_isup := Some mi |>) ;;
      modify (upd_current (fun t => t <| pwd := Some mi |> <| root := Some mi |>)) ;;
      k ← get ;
      let s := super_of k p in
      printk "%d/%d free blocks"
        [Z.of_nat (count_clear k (s_zmap s) (Z.to_nat (s_nzones s))); s_nzones s] ;;
      printk "%d/%d free inodes"
        [Z.of_nat (count_clear k (s_imap s) (Z.to_nat (s_ninodes s + 1))); s_ninodes s]
  end.
End super.
