(* ===== verification/Keep.v ===== *)
(** The file system keeps the invariant of the cache: every routine of bitmap.c, truncate.c,
    inode.c, super.c, namei.c, file_dev.c, block_dev.c, pipe.c and read_write.c of fs/
    preserves [kernel_ok], whatever the other tasks do within it where it sleeps. *)
From S2P Require Import Prelude Links Sched Mm Kernel Fork Blk Buffer Bitmap Inode Cache Getblk Rw Namei Dir Super.

#[local] Arguments replicate : simpl never.
#[local] Arguments repeat : simpl never.

(** ** Routines of other components, inside the kernel *)
Lemma kok_lift {S A} (get : K -> S) (put : S -> K -> K) (m : M S A) nb :
  (forall s k, kernel_ok nb k -> kernel_ok nb (put s k)) ->
  preserves (kernel_ok nb) (liftM get put m).
Proof.
  intros Hp k w Hk Hw. unfold wlpx, liftM. destruct (m (get k) _); try done; [|by apply Hp].
  split; [by apply Hp|done].
Qed.
Lemma kok_in_mm {A} (m : M mm A) nb : preserves (kernel_ok nb) (in_mm m).
Proof. apply kok_lift. intros s k Hk. keep. Qed.
Lemma kok_in_sched {A} (m : M sched A) nb : preserves (kernel_ok nb) (in_sched m).
Proof. apply kok_lift. intros s k Hk. keep. Qed.
#[export] Hint Resolve kok_in_mm kok_in_sched : preserves.

(** ** Device numbers *)
Section words.
Context (nb : nat) (k : K) (Hk : kernel_ok nb k).
Lemma word_dev i : is_word (i_dev (inode_of k i)).
Proof using Hk. apply Hk. Qed.
Lemma word_super i : is_word (s_dev (super_of k i)).
Proof using Hk. apply Hk. Qed.
Lemma word_zone i z : is_word (get_byte (i_zone (inode_of k i)) z).
Proof using Hk.
  destruct Hk as (_ & _ & [T1 _ _ _ _ _]). destruct (T1 i) as [_ Hz]. unfold get_byte.
  destruct (i_zone (inode_of k i) !! z) as [x|] eqn:E; [|split; done].
  rewrite Forall_forall in Hz. apply Hz. by eapply list_elem_of_lookup_2.
Qed.
Lemma bytes_data b : Forall is_byte (b_data (bh_of k b)).
Proof using Hk. apply Hk. Qed.
Lemma bytes_data_at p : Forall is_byte (b_data (bh_at k p)).
Proof using Hk. destruct p; apply Hk. Qed.
Lemma byte_user a : is_byte (umem k a).
Proof using Hk. apply Hk. Qed.
End words.
Ltac from_ok lem := match goal with H : kernel_ok _ _ |- _ => solve [eapply lem; exact H] end.
#[export] Hint Extern 1 (is_word (i_dev _)) => from_ok word_dev : typed.
#[export] Hint Extern 1 (is_word (s_dev _)) => from_ok word_super : typed.
#[export] Hint Extern 1 (is_word (get_byte (i_zone _) _)) => from_ok word_zone : typed.
#[export] Hint Extern 1 (is_word (zone _ _ _)) => from_ok word_zone : typed.
#[export] Hint Extern 1 (Forall is_byte (b_data (bh_of _ _))) => from_ok bytes_data : typed.
#[export] Hint Extern 1 (Forall is_byte (b_data (bh_at _ _))) => from_ok bytes_data_at : typed.
#[export] Hint Extern 1 (is_byte (umem _ _)) => from_ok byte_user : typed.

Lemma preserves_bind_val {A B} (I : K -> Prop) (P : A -> Prop) (m : M K A) (f : A -> M K B) :
  (forall s w, I s -> ok_script I w ->
    wlpx I m (fun a s' w' => (I s' /\ ok_script I w') /\ P a) s w) ->
  (forall a, P a -> preserves I (f a)) -> preserves I (m ≫= f).
Proof.
  intros Hm Hf s w Hs Hw. apply wlp_bind. eapply wlp_mono; [by apply Hm|].
  intros a s' w' [[Hs' Hw'] Ha]. by apply Hf.
Qed.
(** What is read from the user are bytes. *)
Lemma preserves_get_fs_bytes {B} nb n buf (f : list Z -> M K B) :
  (forall l, Forall is_byte l -> preserves (kernel_ok nb) (f l)) ->
  preserves (kernel_ok nb) (get_fs_bytes n buf ≫= f).
Proof.
  apply preserves_bind_val. revert buf.
  induction n as [|n IH]; intros buf s w Hs Hw; simpl; [by apply wlp_ret|].
  apply wlp_gets_bind, wlp_bind. eapply wlp_mono; [by apply IH|]. intros l s' w' [H Hl].
  apply wlp_ret. split; [done|]. constructor; [apply Hs|done].
Qed.
Lemma keep_zone nb i z v k : kernel_ok nb k -> kernel_ok nb (set_zone i z v k).
Proof. apply keep_inode. intros n [Hd Hz]. split; [done|]. apply words_insert; [apply word_u16|done]. Qed.
Ltac keep' := cbn beta; first
  [ repeat apply keep_zone; assumption
  | match goal with |- kernel_ok _ (if ?b then _ else _) => destruct b; first [assumption | keep] end
  | keep ].

(** Takes a routine apart as [preserve], and remembers the invariant where the state is read;
    [kp_special] is for what a later file adds. *)
Ltac kp_special := fail.
Ltac kp := repeat first
  [ progress cbn zeta beta
  | kp_special
  | solve [auto 4 with preserves typed nocore]
  | match goal with
    | |- preserves _ (gets _ ≫= _) => apply preserves_gets_bind; intros ? ?; cbn beta
    | |- preserves _ (get ≫= _) => apply preserves_get_bind; intros ? ?; cbn beta
    | |- preserves _ (get_fs_bytes _ _ ≫= _) => apply preserves_get_fs_bytes; intros ? ?
    | |- preserves _ (_ ≫= _) => apply preserves_bind; [|intros ?]
    | |- preserves _ (when _ _) => apply preserves_when
    | |- preserves _ (modify _) => apply preserves_modify; intros ? ?; solve [keep']
    | |- preserves _ (printk _ _) => apply preserves_emit
    | |- preserves _ (wake_up_q _) => apply preserves_emit
    | |- preserves _ (for_each _ _) => apply preserves_for_each; intros ?
    | |- preserves _ (repeat_awake _) => apply preserves_repeat_awake
    | |- preserves _ (repeat_until _ _) => apply preserves_repeat_until
    | |- preserves _ (match ?x with _ => _ end) => destruct x
    end ].

(** ** Bits *)
Lemma bytes_alter f i l : (forall x, is_byte x -> is_byte (f x)) -> Forall is_byte l ->
  Forall is_byte (alter f i l).
Proof.
  intros Hf Hl. revert i. induction Hl as [|x l Hx Hl IH]; intros i; [done|].
  destruct i; constructor; auto. 
Qed.
Lemma byte_bits x y : is_byte x -> (forall n, 8 <= n -> Z.testbit y n = false) ->
  0 <= y -> is_byte y.
Proof.
  intros _ Hy H0. split; [done|]. change 256 with (2 ^ 8).
  destruct (Z.eq_dec y 0) as [-> | Hne]; [done|]. apply Z.log2_lt_pow2; [lia|].
  destruct (Z.lt_ge_cases (Z.log2 y) 8); [done|]. specialize (Hy (Z.log2 y) ltac:(lia)).
  rewrite Z.bit_log2 in Hy by lia. done.
Qed.
Lemma byte_high x n : is_byte x -> 8 <= n -> Z.testbit x n = false.
Proof. intros Hx Hn. apply (testbit_ge_false x 8); [exact Hx|done]. Qed.
Lemma bytes_set_bit nr l : Forall is_byte l -> Forall is_byte (set_bit nr l).
Proof.
  apply bytes_alter. intros x Hx. pose proof (Nat.mod_upper_bound nr 8 ltac:(lia)).
  apply (byte_bits x); [done| |].
  - intros n Hn. rewrite Z.setbit_neq by lia. by apply byte_high.
  - rewrite Z.setbit_spec'. apply Z.lor_nonneg. split; [apply Hx|]. apply Z.pow_nonneg. lia.
Qed.
Lemma bytes_clear_bit nr l : Forall is_byte l -> Forall is_byte (clear_bit nr l).
Proof.
  apply bytes_alter. intros x Hx. pose proof (Nat.mod_upper_bound nr 8 ltac:(lia)).
  apply (byte_bits x); [done| |].
  - intros n Hn. rewrite Z.clearbit_neq by lia. by apply byte_high.
  - rewrite Z.clearbit_spec'. apply Z.ldiff_nonneg. left. apply Hx.
Qed.
Lemma bytes_set_word i v l : Forall is_byte l -> Forall is_byte (set_word i v l).
Proof. intros. apply bytes_put_at; [apply bytes_le|done]. Qed.
Lemma bytes_set_de e v l : Forall is_byte l -> Forall is_byte (set_de_inode e v l).
Proof. apply bytes_put_at, bytes_le. Qed.
Lemma bytes_replicate n : Forall is_byte (replicate n 0).
Proof. by apply Forall_replicate. Qed.
#[export] Hint Resolve bytes_set_de bytes_set_bit bytes_clear_bit bytes_set_word bytes_replicate : typed.

(** ** Super blocks and bitmaps *)
#[local] Abbreviation kok m := (forall nb, preserves (kernel_ok nb) m).
Lemma kok_lock_super s : kok (lock_super s).
Proof. intros nb. unfold lock_super. kp. Qed.
Lemma kok_free_super s : kok (free_super s).
Proof. intros nb. unfold free_super. kp. Qed.
Lemma kok_wait_on_super s : kok (wait_on_super s).
Proof. intros nb. unfold wait_on_super. kp. Qed.
Lemma kok_free_block d b : kok (free_block d b).
Proof. intros nb. unfold free_block. kp. Qed.
Lemma kok_free_inode i : kok (free_inode i).
Proof. intros nb. unfold free_inode. kp. Qed.
#[export] Hint Resolve kok_lock_super kok_free_super kok_wait_on_super kok_free_block kok_free_inode : preserves.

(** ** Inodes, over a cache whose [sync_inodes] keeps the invariant *)
Lemma words_decode l : Forall is_byte l -> Forall is_word (di_zone (decode_inode l)).
Proof.
  intros Hl. apply Forall_forall. intros z (i & -> & _)%list_elem_of_fmap. unfold is_word.
  pose proof (le_value_range (take 2 (drop (14 + 2 * i) l))) as Hr.
  assert (Hb : Forall is_byte (take 2 (drop (14 + 2 * i) l))) by (by apply Forall_take, Forall_drop).
  specialize (Hr Hb). rewrite length_take in Hr.
  assert (256 ^ Z.of_nat (2 `min` length (drop (14 + 2 * i) l)) <= 256 ^ 2)
    by (apply Z.pow_le_mono_r; lia). lia.
Qed.

Section inode.
Context {sync : SyncInodes} (nb : nat) (Hsync : preserves (kernel_ok nb) sync_inodes).
#[local] Abbreviation kok m := (preserves (kernel_ok nb) m).

Lemma kok_getblk d b : is_word d -> kok (getblk d b).
Proof using Hsync.
  intros Hd s w Hs Hw. eapply wlp_mono; [by apply getblk_holds|]. by intros ? ? ? [? _].
Qed.
#[local] Hint Resolve kok_getblk kok_bread kok_sync_dev kok_write_inode : preserves.
Lemma kok_new_block d : is_word d -> kok (new_block d).
Proof using Hsync. intros Hd. unfold new_block. kp. Qed.
#[local] Hint Resolve kok_new_block : preserves.
Lemma kok_free_ind d b : is_word d -> kok (free_ind d b).
Proof using Hsync. intros Hd. unfold free_ind. kp. Qed.
#[local] Hint Resolve kok_free_ind : preserves.
Lemma kok_free_dind d b : is_word d -> kok (free_dind d b).
Proof using Hsync. intros Hd. unfold free_dind. kp. Qed.
#[local] Hint Resolve kok_free_dind : preserves.
Lemma kok_truncate i : kok (truncate i).
Proof using Hsync.
  unfold truncate. kp.
Qed.
#[local] Hint Resolve kok_truncate : preserves.
Lemma kok_read_inode i : kok (read_inode i).
Proof using Hsync.
  unfold read_inode. kp. apply preserves_modify. intros s9 Hs9. apply keep_inode; [|done].
  intros n9 [Hd Hz]. split; [done|]. apply words_decode, Forall_drop, Hs9.
Qed.
#[local] Hint Resolve kok_read_inode : preserves.
Lemma kok_inode_zone i z c : kok (inode_zone i z c).
Proof using Hsync. unfold inode_zone. kp. Qed.
#[local] Hint Resolve kok_inode_zone : preserves.
Lemma kok_indirect i b z c : kok (indirect i b z c).
Proof using Hsync. unfold indirect. kp. Qed.
#[local] Hint Resolve kok_indirect : preserves.
Lemma kok_bmap_create i b c : kok (_bmap i b c).
Proof using Hsync. unfold _bmap. kp. Qed.
Lemma kok_bmap i b : kok (bmap i b).
Proof using Hsync. apply kok_bmap_create. Qed.
Lemma kok_create_block i b : kok (create_block i b).
Proof using Hsync. apply kok_bmap_create. Qed.
Lemma kok_iput_last i : kok (iput_last i).
Proof using Hsync. unfold iput_last. kp. Qed.
#[local] Hint Resolve kok_iput_last : preserves.
Lemma kok_iput i : kok (iput i).
Proof using Hsync. unfold iput. kp. Qed.
#[local] Hint Resolve kok_iput : preserves.
Lemma kok_write_back i : kok (write_back i).
Proof using Hsync. unfold write_back. kp. Qed.
#[local] Hint Resolve kok_write_back : preserves.
Lemma kok_get_empty_inode : kok get_empty_inode.
Proof using Hsync. unfold get_empty_inode. kp. Qed.
#[local] Hint Resolve kok_get_empty_inode : preserves.
Lemma kok_get_pipe_inode : kok get_pipe_inode.
Proof using Hsync. unfold get_pipe_inode. kp. Qed.
Lemma kok_iget_loop f : forall pos e d nr, kok (iget_loop f pos e d nr).
Proof using Hsync. induction f as [|f IH]; intros pos e d nr; simpl; kp. Qed.
#[local] Hint Resolve kok_iget_loop : preserves.
Lemma kok_iget d nr : kok (iget d nr).
Proof using Hsync.
  unfold iget. kp. apply (preserves_world (kernel_ok nb) (fun w => iget_loop (IGET_FUEL (script w)) 0 _ d nr)).
  intros w. apply kok_iget_loop.
Qed.
Lemma kok_new_inode d : kok (new_inode d).
Proof using Hsync. unfold new_inode. kp. Qed.
End inode.

#[export] Hint Resolve kok_getblk kok_bread kok_sync_dev kok_write_inode kok_new_block kok_truncate
  kok_bmap kok_create_block kok_iput kok_get_empty_inode kok_get_pipe_inode kok_iget kok_new_inode : preserves.

(** ** What the file system calls outside of it keeps the invariant *)
Class SyncKeeps (nb : nat) `{SyncInodes} : Prop := sync_keeps : preserves (kernel_ok nb) sync_inodes.
Class DevicesKeep (nb : nat) `{Devices} : Prop := {
  tty_read_keeps minor buf count : preserves (kernel_ok nb) (tty_read minor buf count);
  tty_write_keeps minor buf count : preserves (kernel_ok nb) (tty_write minor buf count);
  tty_ioctl_keeps dev cmd arg : preserves (kernel_ok nb) (tty_ioctl dev cmd arg);
  inb_keeps port : preserves (kernel_ok nb) (inb port);
}.
Class DrivesKeep (nb : nat) `{Drives} : Prop := {
  floppy_change_keeps nr : preserves (kernel_ok nb) (floppy_change nr);
  keypress_keeps : preserves (kernel_ok nb) wait_for_keypress;
}.
#[export] Hint Extern 1 (preserves _ sync_inodes) => apply sync_keeps : preserves.
#[export] Hint Resolve tty_read_keeps tty_write_keeps tty_ioctl_keeps inb_keeps
  floppy_change_keeps keypress_keeps : preserves.

(** ** User memory *)
Section user.
Context (nb : nat).
#[local] Abbreviation kok m := (preserves (kernel_ok nb) m).
Lemma kok_put_fs_byte v a : kok (put_fs_byte v a).
Proof using.
  apply preserves_modify. intros s Hs. apply keep_umem; [|done]. intros m Hm x. unfold upd.
  case_match; [apply byte_u8|apply Hm].
Qed.
Lemma kok_put_fs_long v a : kok (put_fs_long v a).
Proof using.
  apply preserves_modify. intros s Hs. apply keep_umem; [|done]. intros m Hm x.
  case_match; [apply byte_u8|apply Hm].
Qed.
Lemma kok_get_fs_byte a : kok (get_fs_byte a).
Proof using. apply preserves_gets. Qed.
Lemma kok_get_fs_long a : kok (get_fs_long a).
Proof using. apply preserves_gets. Qed.
#[local] Hint Resolve kok_put_fs_byte : preserves.
Lemma kok_put_fs_bytes l : forall buf, kok (put_fs_bytes l buf).
Proof using. induction l as [|c l IH]; intros buf; simpl; kp. Qed.
Lemma kok_verify_area a n : kok (verify_area a n).
Proof using. unfold verify_area. kp. Qed.
Lemma kok_put_bh_bytes b off l : Forall is_byte l -> kok (put_bh_bytes b off l).
Proof using. intros Hl. unfold put_bh_bytes. kp. Qed.
End user.
#[export] Hint Resolve kok_put_fs_byte kok_put_fs_long kok_get_fs_byte kok_get_fs_long
  kok_put_fs_bytes kok_verify_area kok_put_bh_bytes : preserves.

(** ** Reading and writing *)
Section rw.
Context (nb : nat) `{HS : SyncKeeps nb} `{HT : DevicesKeep nb}.
#[local] Abbreviation kok m := (preserves (kernel_ok nb) m).
Lemma kok_read_ahead d bh : is_word d -> forall l, kok (read_ahead d bh l).
Proof using HS. intros Hd. induction l as [|x l IH]; simpl; kp. Qed.
#[local] Hint Resolve kok_read_ahead : preserves.
Lemma kok_breada d b l : is_word d -> kok (breada d b l).
Proof using HS. intros Hd. unfold breada. kp. Qed.
#[local] Hint Resolve kok_breada : preserves.
Lemma kok_file_read_loop f i fp : forall buf left, kok (file_read_loop f i fp buf left).
Proof using HS. induction f as [|f IH]; intros buf left; simpl; kp. Qed.
#[local] Hint Resolve kok_file_read_loop : preserves.
Lemma kok_file_read i fp buf count : kok (file_read i fp buf count).
Proof using HS. unfold file_read. kp. Qed.
Lemma kok_file_write_loop f i : forall buf count j pos, kok (file_write_loop f i buf count j pos).
Proof using HS. induction f as [|f IH]; intros buf count j pos; simpl; kp. Qed.
#[local] Hint Resolve kok_file_write_loop : preserves.
Lemma kok_file_write i fp buf count : kok (file_write i fp buf count).
Proof using HS. unfold file_write. kp. Qed.
Lemma kok_block_write_loop f d fp : is_word d -> forall b off buf count w,
  kok (block_write_loop f d b off fp buf count w).
Proof using HS. intros Hd. induction f as [|f IH]; intros b off buf count w; simpl; kp. Qed.
#[local] Hint Resolve kok_block_write_loop : preserves.
Lemma kok_block_write d fp buf count : is_word d -> kok (block_write d fp buf count).
Proof using HS. intros Hd. unfold block_write. kp. Qed.
Lemma kok_block_read_loop f d fp : is_word d -> forall b off buf count r,
  kok (block_read_loop f d b off fp buf count r).
Proof using HS. intros Hd. induction f as [|f IH]; intros b off buf count r; simpl; kp. Qed.
#[local] Hint Resolve kok_block_read_loop : preserves.
Lemma kok_block_read d fp buf count : is_word d -> kok (block_read d fp buf count).
Proof using HS. intros Hd. unfold block_read. kp. Qed.
#[local] Hint Resolve kok_file_read kok_file_write kok_block_read kok_block_write : preserves.
Lemma kok_rw_ttyx rw minor buf count : kok (rw_ttyx rw minor buf count).
Proof using HT. unfold rw_ttyx. kp. Qed.
#[local] Hint Resolve kok_rw_ttyx : preserves.
Lemma kok_rw_port_loop f rw : forall buf i, kok (rw_port_loop f rw buf i).
Proof using HT. induction f as [|f IH]; intros buf i; simpl; kp. Qed.
#[local] Hint Resolve kok_rw_port_loop : preserves.
Lemma kok_rw_char rw d buf count fp : kok (rw_char rw d buf count fp).
Proof using HT. unfold rw_char, rw_memory, rw_port, rw_tty. kp. Qed.
#[local] Hint Resolve kok_rw_char : preserves.

(** Pipes *)
Lemma kok_wait_for_data i : kok (wait_for_data i).
Proof using. unfold wait_for_data. kp. Qed.
Lemma kok_wait_for_room i : kok (wait_for_room i).
Proof using. unfold wait_for_room. kp. Qed.
#[local] Hint Resolve kok_wait_for_data kok_wait_for_room : preserves.
Lemma kok_read_pipe_loop f i : forall buf count r, kok (read_pipe_loop f i buf count r).
Proof using. induction f as [|f IH]; intros buf count r; simpl; kp. Qed.
Lemma kok_write_pipe_loop f i : forall buf count w, kok (write_pipe_loop f i buf count w).
Proof using. induction f as [|f IH]; intros buf count w; simpl; kp. Qed.
#[local] Hint Resolve kok_read_pipe_loop kok_write_pipe_loop : preserves.
Lemma kok_read_pipe i buf count : kok (read_pipe i buf count).
Proof using. unfold read_pipe. kp. Qed.
Lemma kok_write_pipe i buf count : kok (write_pipe i buf count).
Proof using. unfold write_pipe. kp. Qed.
#[local] Hint Resolve kok_read_pipe kok_write_pipe : preserves.

Lemma kok_sys_pipe a : kok (sys_pipe a).
Proof using HS. unfold sys_pipe. kp. Qed.
Lemma kok_sys_lseek fd off o : kok (sys_lseek fd off o).
Proof using. unfold sys_lseek. kp. Qed.
Lemma kok_sys_read fd buf count : kok (sys_read fd buf count).
Proof using HS HT. unfold sys_read. kp. Qed.
Lemma kok_sys_write fd buf count : kok (sys_write fd buf count).
Proof using HS HT. unfold sys_write. kp. Qed.
End rw.

(** ** Names *)
Section namei.
Context (nb : nat) `{HS : SyncKeeps nb}.
#[local] Abbreviation kok m := (preserves (kernel_ok nb) m).
Lemma kok_find_loop f len name : forall dir bh i n, kok (find_loop f dir len name bh i n).
Proof using HS. induction f as [|f IH]; intros dir bh i n; simpl; kp. Qed.
Lemma kok_dotdot dir name len : kok (dotdot dir name len).
Proof using HS. unfold dotdot. kp. Qed.
#[local] Hint Resolve kok_find_loop kok_dotdot : preserves.
Lemma kok_find_entry dir name len : kok (find_entry dir name len).
Proof using HS. unfold find_entry. kp. Qed.
Lemma kok_fill_entry dir b e name len : kok (fill_entry dir b e name len).
Proof using.
  unfold fill_entry. kp. apply preserves_modify. intros s Hs. apply keep_bh; [done| |done].
  intros x Hx. simpl. apply bytes_put_at; [|done].
  repeat constructor; case_match; (done || apply Hs).
Qed.
#[local] Hint Resolve kok_fill_entry : preserves.
Lemma kok_add_in_block n dir b name len : forall e i, kok (add_in_block n dir b name len e i).
Proof using HS. induction n as [|n IH]; intros e i; simpl; kp. Qed.
#[local] Hint Resolve kok_add_in_block : preserves.
Lemma kok_add_loop f dir name len : forall bh i, kok (add_loop f dir name len bh i).
Proof using HS. induction f as [|f IH]; intros bh i; simpl; kp. Qed.
#[local] Hint Resolve kok_add_loop : preserves.
Lemma kok_add_entry dir name len : kok (add_entry dir name len).
Proof using HS. unfold add_entry. kp. Qed.
Lemma kok_component f : forall p len, kok (component f p len).
Proof using. induction f as [|f IH]; intros p len; simpl; kp. Qed.
Lemma kok_last_component f : forall p b, kok (last_component f p b).
Proof using. induction f as [|f IH]; intros p b; simpl; kp. Qed.
#[local] Hint Resolve kok_find_entry kok_component kok_last_component : preserves.
Lemma kok_walk f : forall i p, kok (walk f i p).
Proof using HS. induction f as [|f IH]; intros i p; cbn [walk]; kp. Qed.
#[local] Hint Resolve kok_walk : preserves.
Lemma kok_get_dir p : kok (get_dir p).
Proof using HS. unfold get_dir. kp. Qed.
#[local] Hint Resolve kok_get_dir : preserves.
Lemma kok_dir_namei p : kok (dir_namei p).
Proof using HS. unfold dir_namei. kp. Qed.
#[local] Hint Resolve kok_dir_namei : preserves.
Lemma kok_namei p : kok (namei p).
Proof using HS. unfold namei. kp. Qed.
End namei.
#[export] Hint Resolve kok_find_entry kok_add_entry kok_dir_namei kok_namei : preserves.

Section dir.
Context (nb : nat) `{HS : SyncKeeps nb}.
#[local] Abbreviation kok m := (preserves (kernel_ok nb) m).
Lemma kok_iput_err l e : kok (iput_err l e).
Proof using HS. unfold iput_err. kp. Qed.
Lemma kok_link_entry b e v : kok (link_entry b e v).
Proof using. unfold link_entry. kp. Qed.
Lemma kok_ino f i : (forall n, inode_typed n -> inode_typed (f n)) -> kok (ino f i).
Proof using. intros Hf. apply preserves_modify. intros s. by apply keep_inode. Qed.
Lemma kok_set_dirt i : kok (set_dirt i).
Proof using. by apply kok_ino. Qed.
#[local] Hint Extern 2 (preserves _ (ino _ _)) => apply kok_ino; typed : preserves.
#[local] Hint Resolve kok_iput_err kok_link_entry kok_set_dirt : preserves.
Lemma kok_create_file dir name len mode : kok (create_file dir name len mode).
Proof using HS. unfold create_file. kp. Qed.
#[local] Hint Resolve kok_create_file : preserves.
Lemma kok_open_namei p flag mode : kok (open_namei p flag mode).
Proof using HS. unfold open_namei. kp. Qed.
Lemma kok_new_name p : kok (new_name p).
Proof using HS. unfold new_name. kp. Qed.
Lemma kok_old_name p : kok (old_name p).
Proof using HS. unfold old_name. kp. Qed.
#[local] Hint Resolve kok_new_name kok_old_name : preserves.
Lemma kok_sys_mknod p mode d : kok (sys_mknod p mode d).
Proof using HS. unfold sys_mknod. kp. Qed.
Lemma kok_dots b i dir : kok (dots b i dir).
Proof using.
  unfold dots. kp. apply preserves_modify. intros s Hs. apply keep_bh; [done| |done].
  intros x Hx. simpl. apply bytes_put_at; [by repeat constructor|]. apply bytes_set_de.
  apply bytes_put_at; [by repeat constructor|]. by apply bytes_set_de.
Qed.
#[local] Hint Resolve kok_dots : preserves.
Lemma kok_sys_mkdir p mode : kok (sys_mkdir p mode).
Proof using HS. unfold sys_mkdir. kp. Qed.
Lemma kok_empty_loop f i : forall b past e nr len, kok (empty_loop f i b past e nr len).
Proof using HS. induction f as [|f IH]; intros b past e nr len; cbn [empty_loop]; kp. Qed.
#[local] Hint Resolve kok_empty_loop : preserves.
Lemma kok_empty_dir i : kok (empty_dir i).
Proof using HS. unfold empty_dir. kp. Qed.
#[local] Hint Resolve kok_empty_dir : preserves.
Lemma kok_sys_rmdir p : kok (sys_rmdir p).
Proof using HS. unfold sys_rmdir. kp. Qed.
Lemma kok_sys_unlink p : kok (sys_unlink p).
Proof using HS. unfold sys_unlink. kp. Qed.
Lemma kok_sys_link p q : kok (sys_link p q).
Proof using HS. unfold sys_link. kp. Qed.
End dir.
#[export] Hint Resolve kok_open_namei : preserves.

(** ** Super blocks *)
Section super.
Context (nb : nat) `{HS : SyncKeeps nb} `{HD : DrivesKeep nb}.
#[local] Abbreviation kok m := (preserves (kernel_ok nb) m).
Lemma kok_sup i f : (forall s, is_word (s_dev s) -> is_word (s_dev (f s))) -> kok (sup i f).
Proof using. intros Hf. apply preserves_modify. intros s. by apply keep_super. Qed.
#[local] Hint Extern 2 (preserves _ (sup _ _)) => apply kok_sup; typed : preserves.
Lemma kok_put_super d : kok (put_super d).
Proof using. unfold put_super. kp. Qed.
Lemma kok_invalidate_inodes d : kok (invalidate_inodes d).
Proof using. unfold invalidate_inodes. kp. Qed.
#[local] Hint Resolve kok_put_super kok_invalidate_inodes kok_invalidate_buffers : preserves.
Lemma kok_check_disk_change d : kok (check_disk_change d).
Proof using HD. unfold check_disk_change. kp. Qed.
#[local] Hint Resolve kok_check_disk_change : preserves.
Lemma kok_read_maps n d s f : is_word d -> (forall i b x, s_dev (f i b x) = s_dev x) ->
  forall i b, kok (read_maps n i d b f s).
Proof using HS.
  intros Hd Hf. induction n as [|n IH]; intros i b; cbn [read_maps]; kp.
  apply kok_sup. intros x. by rewrite Hf.
Qed.
#[local] Hint Resolve kok_read_maps : preserves.
Lemma byte_or_1 x : is_byte x -> is_byte (x .| 1).
Proof using.
  intros Hx. apply (byte_bits x); [done| |].
  - intros n Hn. rewrite Z.lor_spec, (byte_high x) by done. apply (testbit_ge_false 1 8); lia.
  - apply Z.lor_nonneg. split; [apply Hx|lia].
Qed.
Lemma kok_read_super d : is_word d -> kok (read_super d).
Proof using HS HD. 
  intros Hd. unfold read_super.
  kp; try (by apply kok_read_maps); apply preserves_modify; intros k Hk;
    (apply keep_bh_at; [done| |done]); intros x Hx; by apply bytes_alter; [apply byte_or_1|].
Qed.
#[local] Hint Resolve kok_read_super : preserves.
Lemma kok_sys_umount p : kok (sys_umount p).
Proof using HS. unfold sys_umount. kp. Qed.
Lemma kok_sys_mount p q rw : kok (sys_mount p q rw).
Proof using HS HD. unfold sys_mount. kp. Qed.
End super.
#[export] Hint Resolve kok_check_disk_change : preserves.
