(* ===== verification/Boot.v ===== *)
(** The start of the kernel: main() of init/main.c, up to the first system call, and rd_load
    of kernel/blk_drv/ramdisk.c, which brings a root image from the floppy. *)
From S2P Require Import Prelude Links Sched Mm Kernel Fork Blk Buffer Bitmap Inode Cache Getblk Super Keep.

(** * [init/main.c] *)



(** * [kernel/blk_drv/ramdisk.c], loading the root image *)
Section load.
Context `{SyncInodes}.

(** kernel/blk_drv/ramdisk.c:107-123 [rd_load]: [n] blocks from [block] on, to the memory at
    [cp]; [false] when a block cannot be read *)
Fixpoint load_blocks (n : nat) (dev block cp i : Z) : M K bool :=
  match n with
  | O => mret true
  | S n' =>
      bh ← (if 2 <? s32 (Z.of_nat n) then breada dev block [block + 1; block + 2] else bread dev block) ;
      match bh with
      | None => printk "I/O error on block %d, aborting load" [block] ;; mret false
      | Some b =>
          k ← get ;
          modify (kmem_put cp (b_data (bh_of k b))) ;;
          brelse (Some b) ;;
          printk "%4dk" [i] ;;
          load_blocks n' dev (block + 1) (cp + BLOCK_SIZE) (i + 1)
      end
  end.
(** kernel/blk_drv/ramdisk.c:71-125 [rd_load]; the loop counts down to 0 from a number of
    blocks that may be negative *)
Definition rd_load : M K unit :=
  k ← get ;
  if rd_length k =? 0 then mret tt else
  printk "Ram disk: %d bytes, starting at 0x%x" [rd_length k; rd_start k] ;;
  if negb (MAJOR (ROOT_DEV k) =? 2) then mret tt else
  bh ← breada (ROOT_DEV k) (256 + 1) [256; 256 + 2] ;
  match bh with
  | None => printk "Disk error while looking for ramdisk!" []
  | Some b =>
      s ← gets (fun k => read_d_super (b_data (bh_of k b)) zero_super) ;
      brelse (Some b) ;;
      if negb (s_magic s =? SUPER_MAGIC) then mret tt else
      let nblocks := s32 (s_nzones s .<< (s_log_zone_size s .& 31)) in
      if rd_length k .>> BLOCK_SIZE_BITS <? nblocks then
        printk "Ram disk image too big!  (%d blocks, %d avail)"
          [nblocks; rd_length k .>> BLOCK_SIZE_BITS]
      else
        printk "Loading %d bytes into ram disk... 0000k" [nblocks .<< BLOCK_SIZE_BITS] ;;
        ok ← load_blocks (Z.to_nat (u32 nblocks)) (ROOT_DEV k) 256 (rd_start k) 1 ;
        when ok (printk "done" [] ;; modify (fun k => k <| ROOT_DEV := 0x0101 |>))
  end.
End load.

(** * Properties *)



(** What the first steps leave alone. *)
Record booting (k k1 : K) (dev : Z) : Prop := {
  bo_inodes : inode_table k1 = inode_table k;
  bo_supers : supers k1 = supers k;
  bo_umem : umem k1 = umem k;
  bo_null : null_bh k1 = null_bh k;
  bo_root : ROOT_DEV k1 = dev;
}.
Lemma booting_step k k1 dev f : booting k k1 dev -> inode_table (f k1) = inode_table k1 ->
  supers (f k1) = supers k1 -> umem (f k1) = umem k1 -> null_bh (f k1) = null_bh k1 ->
  ROOT_DEV (f k1) = ROOT_DEV k1 -> booting k (f k1) dev.
Proof. intros [] H1 H2 H3 H4 H5. split; congruence. Qed.






(** Loading the root image keeps the invariant. *)
Section load.
Context (nb : nat) `{HS : SyncKeeps nb}.
Lemma kok_load_blocks n dev : is_word dev -> forall block cp i,
  preserves (kernel_ok nb) (load_blocks n dev block cp i).
Proof using HS.
  intros Hd. induction n as [|n IH]; intros block cp i; cbn [load_blocks]; [kp|].
  apply preserves_bind; [|intros [b|]; kp].
  destruct (2 <? _); [by apply kok_breada|by apply kok_bread].
Qed.
#[local] Hint Resolve kok_load_blocks : preserves.
Lemma keep_root d k : is_word d -> kernel_ok nb k -> kernel_ok nb (k <| ROOT_DEV := d |>).
Proof using.
  intros Hd (? & ? & [T1 T2 T3 T4 T5 T6]). split; [by apply (cache_ok_eq k)|]. split; [done|].
  by split.
Qed.
Lemma kok_rd_load : preserves (kernel_ok nb) rd_load.
Proof using HS.
  unfold rd_load. apply preserves_get_bind. intros k Hk.
  assert (Hr : is_word (ROOT_DEV k)) by apply Hk.
  case_match; [kp|]. apply preserves_bind; [kp|]. intros _. case_match; [kp|].
  apply preserves_bind; [by apply kok_breada|]. intros [b|]; [|kp].
  kp. apply preserves_modify. intros k0 Hk0. by apply keep_root.
Qed.
End load.
