(* ===== verification/Setup.v ===== *)
(** The call that sets the disks up, sys_setup of kernel/blk_drv/hd.c: the drives that the
    BIOS and the CMOS know, their partition tables, the root image and the root file system.

    The driver's tables are written by this call alone and are passed through it; the rest
    of the driver, with the same tables in its state, is in [Hd]. *)
From S2P Require Import Prelude Links Sched Mm Kernel Fork Blk Hd Buffer Bitmap Inode Cache Getblk Rw Namei Super Keep Boot.

(** kernel/blk_drv/hd.c:45-59 [hd]: the tables, and the static [callable] of [sys_setup] *)
Record hd_tables : Type := HdTables {
  callable : Z;
  t_info : list hd_i_struct;
  t_hd : list hd_struct;
  t_NR_HD : Z;
}.
#[global] Instance eta_hd_tables : Eta hd_tables := fun t =>
  HdTables (callable t) (t_info t) (t_hd t) (t_NR_HD t).

(** kernel/blk_drv/hd.c:98-100 [sys_setup]: a drive as a whole *)
Definition whole_drive (d : hd_i_struct) : hd_struct :=
  HdPart 0 (s32 (h_head d * h_sect d * h_cyl d)).
(** kernel/blk_drv/hd.c:83-101 [sys_setup]: the drives of the BIOS, [m] being the memory;
    [HD_TYPE] is not defined *)
Definition bios_drives (m : Z -> Z) (BIOS : Z) (t : hd_tables) : hd_tables :=
  let info := [drive_info m BIOS; drive_info m (BIOS + 16)] in
  let n := if truth (h_cyl (info_of info 1)) then 2 else 1 in
  foldl (fun t i => t <| t_hd ::= <[(5 * i)%nat := whole_drive (info_of info (Z.of_nat i))]> |>)
    (t <| t_info := info |> <| t_NR_HD := n |>) (seq 0 (Z.to_nat n)).
(** kernel/blk_drv/hd.c:125-135 [sys_setup]: the drives the CMOS knows *)
Definition cmos_drives (cmos_disks : Z) (t : hd_tables) : hd_tables :=
  let n := if truth (cmos_disks .& 0xf0) then (if truth (cmos_disks .& 0x0f) then 2 else 1) else 0 in
  foldl (fun t i => t <| t_hd ::= <[(5 * i)%nat := HdPart 0 0]> |>)
    (t <| t_NR_HD := n |>) (seq (Z.to_nat n) (2 - Z.to_nat n)).
(** kernel/blk_drv/hd.c:147-151 [sys_setup]: the partitions of a drive, from its first
    block *)
Definition set_partitions (drive : nat) (data : list Z) (t : hd_tables) : hd_tables :=
  foldl (fun t i => t <| t_hd ::= <[(i + 1 + 5 * drive)%nat := partition data i]> |>) t (seq 0 4).

Section setup.
Context `{SyncInodes} `{Devices} `{Drives}.

(** kernel/blk_drv/hd.c:136-153 [sys_setup]: the drives of [l], from the first *)
Fixpoint read_partitions (l : list nat) (t : hd_tables) : M K hd_tables :=
  match l with
  | [] => mret t
  | drive :: l' =>
      bh ← bread (0x300 + Z.of_nat drive * 5) 0 ;
      match bh with
      | None =>
          printk "Unable to read partition table of drive %d" [Z.of_nat drive] ;; panic ""
      | Some b =>
          data ← gets (fun k => b_data (bh_of k b)) ;
          if negb (good_mark data) then
            printk "Bad partition table on drive %d" [Z.of_nat drive] ;; panic ""
          else brelse (Some b) ;; read_partitions l' (set_partitions drive data t)
      end
  end.
(** kernel/blk_drv/hd.c:71-159 [sys_setup] *)
Definition sys_setup (t : hd_tables) (BIOS : Z) : M K (Z * hd_tables) :=
  if negb (truth (callable t)) then mret (-1, t) else
  m ← gets (fun k => mem (k_mm k)) ;
  let t := bios_drives m BIOS (t <| callable := 0 |>) in
  emit (EvOut (0x80 .| 0x12) 0x70) ;;
  cmos_disks ← Rw.inb 0x71 ;
  let t := cmos_drives (u8 cmos_disks) t in
  t ← read_partitions (seq 0 (Z.to_nat (t_NR_HD t))) t ;
  when (truth (t_NR_HD t))
    (if 1 <? t_NR_HD t then printk "Partition tables ok." [] else printk "Partition table ok." []) ;;
  rd_load ;;
  mount_root ;;
  mret (0, t).
End setup.

(** * What it does to the tables *)

(** A store at each place of a run of the table. *)
Lemma foldl_stores (g : nat -> hd_struct) at_ l t j : NoDup (at_ <$> l) ->
  t_hd (foldl (fun t i => t <| t_hd ::= <[at_ i := g i]> |>) t l) !! j =
  match list_find (fun i => at_ i = j) l with
  | Some (_, i) => (fun _ => g i) <$> t_hd t !! j
  | None => t_hd t !! j
  end.
Proof.
  revert t. induction l as [|i l IH]; intros t Hnd; [done|].
  cbn [fmap list_fmap] in Hnd. apply NoDup_cons in Hnd as [Hi Hnd]. cbn [foldl]. rewrite IH by done.
  cbn [t_hd update_field list_find]. destruct (decide (at_ i = j)) as [<-|Hne].
  - destruct (list_find (fun i' => at_ i' = at_ i) l) as [[n i']|] eqn:E.
    { apply list_find_Some in E as (El & Eq & _). destruct Hi. rewrite <- Eq.
      apply list_elem_of_fmap_2. by eapply list_elem_of_lookup_2. }
    destruct (decide (at_ i < length (t_hd t))%nat) as [Hl|Hl].
    + rewrite list_lookup_insert_eq by done. by destruct (lookup_lt_is_Some_2 _ _ Hl) as [x ->].
    + rewrite !lookup_ge_None_2 by (rewrite ?length_insert; lia). done.
  - rewrite list_lookup_insert_ne by done.
    by destruct (list_find (fun i' => at_ i' = j) l) as [[]|].
Qed.
Lemma set_partitions_hd drive data t j : t_hd (set_partitions drive data t) !! j =
  if decide (5 * drive + 1 <= j <= 5 * drive + 4)%nat then
    (fun _ => partition data (j - 5 * drive - 1)) <$> t_hd t !! j
  else t_hd t !! j.
Proof.
  unfold set_partitions. rewrite foldl_stores by (cbn; repeat constructor; set_solver by lia).
  cbn [seq list_find]. repeat case_decide; try lia; cbn [fmap option_fmap option_map prod_map]; try done;
    match goal with H : (?i + 1 + 5 * drive = j)%nat |- _ =>
      replace (j - 5 * drive - 1)%nat with i by lia end; done.
Qed.

(** ** Only once

    The tables that a call leaves, whatever happens while it waits for the disks, are closed
    to every later call. *)
Lemma wlp_any {A} (m : M K A) (Q : A -> K -> world K -> Prop) s w :
  (forall a s' w', Q a s' w') -> wlpx (fun _ => True) m Q s w.
Proof. intros HQ. unfold wlpx. destruct (m s w); try done; apply HQ. Qed.
Lemma wlp_next {A B} (m : M K A) (f : A -> M K B) Q s w :
  (forall a s' w', wlpx (fun _ => True) (f a) Q s' w') -> wlpx (fun _ => True) (m ≫= f) Q s w.
Proof. intros Hf. apply wlp_bind, wlp_any, Hf. Qed.
Lemma foldl_callable (g : nat -> list hd_struct -> list hd_struct) l t :
  callable (foldl (fun t i => t <| t_hd ::= g i |>) t l) = callable t.
Proof. revert t. induction l as [|i l IH]; intros t; [done|]. cbn [foldl]. by rewrite IH. Qed.
Lemma set_partitions_callable d data t : callable (set_partitions d data t) = callable t.
Proof. apply foldl_callable. Qed.
Lemma cmos_drives_callable v t : callable (cmos_drives v t) = callable t.
Proof. unfold cmos_drives. by rewrite foldl_callable. Qed.
Lemma bios_drives_callable m a t : callable (bios_drives m a t) = callable t.
Proof.
  unfold bios_drives. cbv zeta. by rewrite foldl_callable.
Qed.
Lemma read_partitions_callable `{SyncInodes} l : forall t s w, callable t = 0 ->
  wlpx (fun _ => True) (read_partitions l t) (fun t' _ _ => callable t' = 0) s w.
Proof.
  induction l as [|d l IH]; intros t s w Ht; cbn [read_partitions]; [by apply wlp_ret|].
  apply wlp_next. intros [b|] s1 w1; [|by apply wlp_next; intros; exact I].
  apply wlp_next. intros data s2 w2. case_match; [by apply wlp_next; intros; exact I|].
  apply wlp_next. intros _ s3 w3. apply IH. by rewrite set_partitions_callable.
Qed.
Lemma sys_setup_once `{SyncInodes} `{Devices} `{Drives} t b s w :
  wlp (sys_setup t b) (fun r _ _ => forall b' s' w', sys_setup r.2 b' s' w' = Ret (-1, r.2) s' w') s w.
Proof.
  assert (Hno : forall t' b' s' w', callable t' = 0 -> sys_setup t' b' s' w' = Ret (-1, t') s' w').
  { intros t' b' s' w' E. unfold sys_setup. by rewrite E. }
  unfold sys_setup at 1.
  destruct (negb (truth (callable t))) eqn:E.
  { apply wlp_ret. intros b' s' w'. apply Hno. unfold truth in E. cbn [snd]. lia. }
  do 3 (apply wlp_next; intros ? ? ?). apply wlp_bind. eapply wlp_mono.
  - apply read_partitions_callable. by rewrite cmos_drives_callable, bios_drives_callable.
  - intros t1 s1 w1 Ht1. cbn beta. do 3 (apply wlp_next; intros ? ? ?). apply wlp_ret.
    intros b' s2 w2. by apply Hno.
Qed.

(** * What it does to the kernel *)
Section keeps.
Context (nb : nat) `{HS : SyncKeeps nb} `{HT : DevicesKeep nb} `{HD : DrivesKeep nb}.
#[local] Abbreviation kok m := (preserves (kernel_ok nb) m).
Lemma kok_mount_root : kok mount_root.
Proof using HS HD.
  unfold mount_root. kp; try (by apply kok_sup; typed).
  match goal with Hk : kernel_ok nb _ |- _ => apply kok_read_super; [done..|apply Hk] end.
Qed.
Lemma kok_read_partitions l : Forall (fun d => (d < 2)%nat) l -> forall t, kok (read_partitions l t).
Proof using HS.
  induction 1 as [|d l Hd _ IH]; intros t; cbn [read_partitions]; kp.
  apply kok_bread; [done|unfold is_word; lia].
Qed.
Lemma foldl_NR_HD (g : nat -> list hd_struct -> list hd_struct) l t :
  t_NR_HD (foldl (fun t i => t <| t_hd ::= g i |>) t l) = t_NR_HD t.
Proof using. revert t. induction l as [|i l IH]; intros t; [done|]. cbn [foldl]. by rewrite IH. Qed.
Lemma cmos_drives_bound v t : Forall (fun d => (d < 2)%nat) (seq 0 (Z.to_nat (t_NR_HD (cmos_drives v t)))).
Proof using.
  unfold cmos_drives. rewrite foldl_NR_HD. cbn [t_NR_HD update_field].
  apply Forall_seq. repeat case_match; simpl; lia.
Qed.
#[local] Hint Resolve kok_mount_root kok_rd_load : preserves.
(** It keeps the invariant of the kernel, with whatever tables. *)
Lemma kok_sys_setup t b : kok (sys_setup t b).
Proof using HS HT HD.
  unfold sys_setup. kp. apply kok_read_partitions, cmos_drives_bound.
Qed.
End keeps.
