(* ===== verification/Open.v ===== *)
(** System calls on names and descriptors: [fs/open.c], [fs/fcntl.c], [fs/stat.c]
    and [fs/ioctl.c]. *)
From S2P Require Import Prelude Sched Mm Kernel Fork Blk Buffer Bitmap Inode Rw Namei Dir Super.

Definition F_DUPFD : Z := 0.
Definition F_GETFD : Z := 1.
Definition F_SETFD : Z := 2.
Definition F_GETFL : Z := 3.
Definition F_SETFL : Z := 4.

(** fs/open.c:147-149 [sys_open]: the first free slot of the descriptors from [i] on *)
Fixpoint free_fd (i : nat) (l : list (option nat)) : option nat :=
  match l with
  | [] => None
  | None :: _ => Some i
  | Some _ :: l' => free_fd (S i) l'
  end.
(** fs/open.c:153-155 [sys_open]: the first free slot of the file table *)
Fixpoint free_file (i : nat) (l : list file) : option nat :=
  match l with
  | [] => None
  | f :: l' => if f_count f =? 0 then Some i else free_file (S i) l'
  end.

Definition set_fd (fd : nat) (v : option nat) : M K unit :=
  modify (upd_current (fun t => t <| filp ::= <[fd := v]> |>)).
(** fs/open.c:152-152 [sys_open] *)
Definition clear_cloexec (fd : nat) : M K unit :=
  modify (upd_current (fun t =>
    t <| close_on_exec ::= fun c => u32 (c .& Z.lnot (1 .<< Z.of_nat fd)) |>)).

Section open.
Context `{SyncInodes} `{Devices} `{Drives}.

(** fs/open.c:19-22 [sys_ustat] *)
Definition sys_ustat (dev ubuf : Z) : M K Z := mret (- ENOSYS).

(** fs/open.c:24-41 [sys_utime] *)
Definition sys_utime (filename times : Z) : M K Z :=
  r ← namei filename ;
  match r with
  | None => mret (- ENOENT)
  | Some i =>
      (if truth times then
         actime ← get_fs_long times ;
         modtime ← get_fs_long (u32 (times + 4)) ;
         modify (upd_inode i (fun n => n <| i_atime := actime |> <| i_mtime := modtime |>))
       else
         modify (fun k => upd_inode i (fun n =>
           n <| i_atime := now k |> <| i_mtime := now k |>) k)) ;;
      set_dirt i ;;
      iput (Some i) ;;
      mret 0
  end.

(** fs/open.c:56-73 [sys_access]: the decision; both the owner and the group get
    the owner's bits *)
Definition access_ok (t : task_struct) (n : m_inode) (mode : Z) : bool :=
  let i_m := i_mode n .& 511 in
  let res := if uid t =? i_uid n then i_m .>> 6
             else if gid t =? i_gid n then i_m .>> 6 else i_m in
  ((res .& 7 .& mode) =? mode) ||
  ((uid t =? 0) && (negb (truth (mode .& 1)) || truth (i_m .& 73))).

(** fs/open.c:48-74 [sys_access]; the inode's owner is read after it was released *)
Definition sys_access (filename mode : Z) : M K Z :=
  let mode := mode .& 7 in
  r ← namei filename ;
  match r with
  | None => mret (- EACCES)
  | Some i =>
      m ← gets (fun k => i_mode (inode_of k i)) ;
      iput (Some i) ;;
      k ← get ;
      if access_ok (cur k) (inode_of k i <| i_mode := m |>) mode
      then mret 0 else mret (- EACCES)
  end.

(** fs/open.c:76-89 [sys_chdir] *)
Definition sys_chdir (filename : Z) : M K Z :=
  r ← namei filename ;
  match r with
  | None => mret (- ENOENT)
  | Some i =>
      m ← gets (fun k => i_mode (inode_of k i)) ;
      if negb (S_ISDIR m) then iput (Some i) ;; mret (- ENOTDIR) else
      t ← gets cur ;
      iput (pwd t) ;;
      modify (upd_current (fun t => t <| pwd := Some i |>)) ;;
      mret 0
  end.

(** fs/open.c:91-104 [sys_chroot] *)
Definition sys_chroot (filename : Z) : M K Z :=
  r ← namei filename ;
  match r with
  | None => mret (- ENOENT)
  | Some i =>
      m ← gets (fun k => i_mode (inode_of k i)) ;
      if negb (S_ISDIR m) then iput (Some i) ;; mret (- ENOTDIR) else
      t ← gets cur ;
      iput (root t) ;;
      modify (upd_current (fun t => t <| root := Some i |>)) ;;
      mret 0
  end.

(** fs/open.c:106-120 [sys_chmod] *)
Definition sys_chmod (filename mode : Z) : M K Z :=
  r ← namei filename ;
  match r with
  | None => mret (- ENOENT)
  | Some i =>
      k ← get ;
      if negb (euid (cur k) =? i_uid (inode_of k i)) && negb (suser k)
      then iput (Some i) ;; mret (- EACCES) else
      ino (fun n => n <| i_mode ::= fun m => u16 ((mode .& 4095) .| (m .& Z.lnot 4095)) |>) i ;;
      set_dirt i ;;
      iput (Some i) ;;
      mret 0
  end.

(** fs/open.c:122-137 [sys_chown] *)
Definition sys_chown (filename uid gid : Z) : M K Z :=
  r ← namei filename ;
  match r with
  | None => mret (- ENOENT)
  | Some i =>
      k ← get ;
      if negb (suser k) then iput (Some i) ;; mret (- EACCES) else
      ino (fun n => n <| i_uid := u16 uid |> <| i_gid := u8 gid |> <| i_dirt := 1 |>) i ;;
      iput (Some i) ;;
      mret 0
  end.

(** fs/open.c:165-178 [sys_open]: what is special about terminals; [false] is the
    refusal of [/dev/tty] *)
Definition open_tty (i : nat) : M K bool :=
  k ← get ;
  let dev := zone k i 0 in
  let t := cur k in
  if negb (S_ISCHR (i_mode (inode_of k i))) then mret true
  else if MAJOR dev =? 4 then
    when (truth (leader t) && (tty t <? 0))
      (modify (upd_current (fun t => t <| tty := MINOR dev |>)) ;;
       modify (fun k => k <| tty_pgrp ::= <[Z.to_nat (MINOR dev) := pgrp t]> |>)) ;;
    mret true
  else mret (negb ((MAJOR dev =? 5) && (tty t <? 0))).

(** fs/open.c:140-188 [sys_open] *)
Definition sys_open (filename flag mode : Z) : M K Z :=
  k ← get ;
  let mode := mode .& (511 .& Z.lnot (umask (cur k))) in
  match free_fd 0 (filp (cur k)) with
  | None => mret (- EINVAL)
  | Some fd =>
      clear_cloexec fd ;;
      match free_file 0 (file_table k) with
      | None => mret (- EINVAL)
      | Some f =>
          let fail e := set_fd fd None ;;
                        modify (upd_file f (fun x => x <| f_count := 0 |>)) ;; mret e in
          set_fd fd (Some f) ;;
          modify (upd_file f (fun x => x <| f_count ::= fun c => u16 (c + 1) |>)) ;;
          r ← open_namei filename flag mode ;
          match r with
          | (e, None) => fail e
          | (_, Some i) =>
              ok ← open_tty i ;
              if negb ok then iput (Some i) ;; fail (- EPERM) else
              k ← get ;
              when (S_ISBLK (i_mode (inode_of k i))) (check_disk_change (zone k i 0)) ;;
              m ← gets (fun k => i_mode (inode_of k i)) ;
              modify (upd_file f (fun _ => File m (u16 flag) 1 (Some i) 0)) ;;
              mret (Z.of_nat fd)
          end
      end
  end.

(** fs/open.c:190-193 [sys_creat] *)
Definition sys_creat (pathname mode : Z) : M K Z := sys_open pathname (O_CREAT .| O_TRUNC) mode.

(** fs/open.c:195-211 [sys_close] *)
Definition sys_close (fd : Z) : M K Z :=
  if 20 <=? u32 fd then mret (- EINVAL) else
  let n := Z.to_nat (u32 fd) in
  clear_cloexec n ;;
  k ← get ;
  match fd_file k fd with
  | None => mret (- EINVAL)
  | Some f =>
      set_fd n None ;;
      c ← gets (fun k => f_count (file_of k f)) ;
      if c =? 0 then panic "Close: file count is 0" else
      modify (upd_file f (fun x => x <| f_count := u16 (c - 1) |>)) ;;
      if negb (c - 1 =? 0) then mret 0 else
      i ← gets (fun k => f_inode (file_of k f)) ;
      iput i ;;
      mret 0
  end.

(** * [fs/fcntl.c] *)

(** fs/fcntl.c:18-34 [dupfd] *)
Definition dupfd (fd arg : Z) : M K Z :=
  k ← get ;
  match fd_file k fd with
  | None => mret (- EBADF)
  | Some f =>
      if 20 <=? u32 arg then mret (- EINVAL) else
      match free_fd (Z.to_nat (u32 arg)) (drop (Z.to_nat (u32 arg)) (filp (cur k))) with
      | None => mret (- EMFILE)
      | Some n =>
          clear_cloexec n ;;
          set_fd n (Some f) ;;
          modify (upd_file f (fun x => x <| f_count ::= fun c => u16 (c + 1) |>)) ;;
          mret (Z.of_nat n)
      end
  end.

(** fs/fcntl.c:36-40 [sys_dup2] *)
Definition sys_dup2 (oldfd newfd : Z) : M K Z := sys_close newfd ;; dupfd oldfd newfd.
(** fs/fcntl.c:42-45 [sys_dup] *)
Definition sys_dup (fildes : Z) : M K Z := dupfd fildes 0.

(** fs/fcntl.c:47-75 [sys_fcntl] *)
Definition sys_fcntl (fd cmd arg : Z) : M K Z :=
  k ← get ;
  match fd_file k fd with
  | None => mret (- EBADF)
  | Some f =>
      let bit := 1 .<< u32 fd in
      if cmd =? F_DUPFD then dupfd fd arg
      else if cmd =? F_GETFD then mret ((close_on_exec (cur k) .>> u32 fd) .& 1)
      else if cmd =? F_SETFD then
        modify (upd_current (fun t => t <| close_on_exec ::= fun c =>
          if truth (arg .& 1) then c .| bit else u32 (c .& Z.lnot bit) |>)) ;;
        mret 0
      else if cmd =? F_GETFL then mret (f_flags (file_of k f))
      else if cmd =? F_SETFL then
        let fl := O_APPEND .| O_NONBLOCK in
        modify (upd_file f (fun x =>
          x <| f_flags ::= fun c => u16 ((c .& Z.lnot fl) .| (arg .& fl)) |>)) ;;
        mret 0
      else mret (-1)
  end.

(** * [fs/stat.c] *)
Section stat.
(** What the kernel stack holds where [struct stat] has padding. *)
Context (junk : nat -> Z).

(** include/sys/stat.h:6-18 [stat]: the 32 bytes of the structure *)
Definition stat_bytes (n : m_inode) : list Z :=
  le_bytes 2 (i_dev n) ++ le_bytes 2 (i_num n) ++ le_bytes 2 (i_mode n) ++
  le_bytes 1 (i_nlinks n) ++ [junk 7] ++ le_bytes 2 (i_uid n) ++ le_bytes 1 (i_gid n) ++
  [junk 11] ++ le_bytes 2 (get_byte (i_zone n) 0) ++ [junk 14; junk 15] ++
  le_bytes 4 (i_size n) ++ le_bytes 4 (i_atime n) ++ le_bytes 4 (i_mtime n) ++
  le_bytes 4 (i_ctime n).

(** fs/stat.c:17-36 [cp_stat] *)
Definition cp_stat (inode : nat) (statbuf : Z) : M K unit :=
  verify_area statbuf 32 ;;
  n ← gets (fun k => inode_of k inode) ;
  put_fs_bytes (stat_bytes n) statbuf.

(** fs/stat.c:38-47 [sys_stat] *)
Definition sys_stat (filename statbuf : Z) : M K Z :=
  r ← namei filename ;
  match r with
  | None => mret (- ENOENT)
  | Some i => cp_stat i statbuf ;; iput (Some i) ;; mret 0
  end.

(** fs/stat.c:49-58 [sys_fstat] *)
Definition sys_fstat (fd statbuf : Z) : M K Z :=
  k ← get ;
  match fd_file k fd with
  | None => mret (- EBADF)
  | Some f =>
      match f_inode (file_of k f) with
      | None => mret (- EBADF)
      | Some i => cp_stat i statbuf ;; mret 0
      end
  end.
End stat.

(** fs/ioctl.c:30-46 [sys_ioctl]: in the table only the terminals have an entry *)
Definition sys_ioctl (fd cmd arg : Z) : M K Z :=
  k ← get ;
  match fd_file k fd with
  | None => mret (- EBADF)
  | Some f =>
      match f_inode (file_of k f) with
      | None => panic "null f_inode"
      | Some i =>
          let mode := i_mode (inode_of k i) in
          if negb (S_ISCHR mode) && negb (S_ISBLK mode) then mret (- EINVAL) else
          let dev := zone k i 0 in
          if 8 <=? MAJOR dev then mret (- ENODEV) else
          if negb ((MAJOR dev =? 4) || (MAJOR dev =? 5)) then mret (- ENOTTY) else
          tty_ioctl dev cmd arg
      end
  end.
End open.

(** * Properties *)

(** ** Descriptors *)
Lemma free_fd_spec l : forall i,
  match free_fd i l with
  | Some j => (i <= j)%nat /\ l !! (j - i)%nat = Some None /\
      forall m, (m < j - i)%nat -> exists f, l !! m = Some (Some f)
  | None => forall m o, l !! m = Some o -> o <> None
  end.
Proof.
  induction l as [|[f|] l IH]; intros i; cbn [free_fd].
  - intros m o Hm. by rewrite lookup_nil in Hm.
  - specialize (IH (S i)). destruct (free_fd (S i) l) as [j|].
    + destruct IH as (Hj & Hn & Hb). split; [lia|].
      replace (j - i)%nat with (S (j - S i)) by lia. split; [done|].
      intros [|m] Hm; [by exists f|]. apply Hb. lia.
    + intros [|m] o Hm; [by injection Hm as <-|]. by apply (IH m).
  - split; [done|]. rewrite Nat.sub_diag. split; [done|]. lia.
Qed.

Lemma cur_upd_file f g k : cur (upd_file f g k) = cur k.
Proof. done. Qed.

(** [dupfd], the work of [dup], [dup2] and [F_DUPFD]: an open descriptor is
    duplicated to the lowest free descriptor not below [arg]; both then name the same
    file, which has one more reference, the new one is not closed on [exec], and no
    other descriptor has changed.  When nothing is free from [arg] on the answer is
    [-EMFILE] and nothing happens. *)
Theorem dupfd_lowest fd arg f k w :
  running k -> length (filp (cur k)) = 20%nat -> fd_file k fd = Some f ->
  0 <= arg < 20 ->
  (exists n k', dupfd fd arg k w = Ret (Z.of_nat n) k' w /\
     arg <= Z.of_nat n < 20 /\ filp (cur k) !! n = Some None /\
     (forall m, arg <= Z.of_nat m < Z.of_nat n -> exists g, filp (cur k) !! m = Some (Some g)) /\
     filp (cur k') = <[n := Some f]> (filp (cur k)) /\
     file_table k' = alter (fun x => x <| f_count ::= fun c => u16 (c + 1) |>) f (file_table k) /\
     Z.testbit (close_on_exec (cur k')) (Z.of_nat n) = false) \/
  (dupfd fd arg k w = Ret (- EMFILE) k w /\
     forall m, arg <= Z.of_nat m < 20 -> exists g, filp (cur k) !! m = Some (Some g)).
Proof.
  intros Hr Hlen Hfd Harg. unfold dupfd. run. rewrite Hfd, u32_small by lia.
  rewrite (proj2 (Z.leb_gt _ _)) by lia.
  set (a := Z.to_nat arg). pose proof (free_fd_spec (drop a (filp (cur k))) a) as Hs.
  destruct (free_fd a (drop a (filp (cur k)))) as [n|].
  - left. destruct Hs as (Han & Hn & Hb). rewrite lookup_drop in Hn.
    replace (a + (n - a))%nat with n in Hn by lia.
    assert (Hn20 : (n < 20)%nat) by (apply lookup_lt_Some in Hn; lia).
    unfold clear_cloexec, set_fd. run. eexists n, _. split; [done|].
    split; [lia|]. split; [done|]. split.
    { intros m Hm. destruct (Hb (m - a)%nat) as [g Hg]; [lia|]. exists g.
      rewrite lookup_drop in Hg. by replace (a + (m - a))%nat with m in Hg by lia. }
    rewrite !cur_upd_file, !cur_upd_current by (done || by apply running_upd_current).
    split; [done|]. split; [done|]. cbn.
    unfold u32. change 4294967296 with (2 ^ 32). rewrite Z.mod_pow2_bits_low by lia.
    rewrite Z.land_spec, Z.lnot_spec, Z.shiftl_spec, Z.sub_diag by lia. apply andb_false_r.
  - right. split; [done|]. intros m Hm.
    destruct (lookup_lt_is_Some_2 (filp (cur k)) m) as [o Ho]; [lia|].
    destruct o as [g|]; [by exists g|]. exfalso. apply (Hs (m - a)%nat None); [|done].
    rewrite lookup_drop. replace (a + (m - a))%nat with m by lia. done.
Qed.

(** A task whose descriptors 0, 1 and 3 are open on file 0. *)
Definition fd_sample : K :=
  fork_sample
    <| k_sched ::= fun s => s <| task := [Some (INIT_TASK 0 0
         <| filp := [Some 0%nat; Some 0%nat; None; Some 0%nat] ++ repeat None 16 |>)] |> |>
    <| file_table := [File 0x81a4 0 3 (Some 0%nat) 0] |>.
Lemma dupfd_lowest_witness :
  (exists k', dupfd 0 1 fd_sample (World [] []) = Ret 2 k' (World [] []) /\
     filp (cur k') !! 2%nat = Some (Some 0%nat)) \/
  dupfd 0 1 fd_sample (World [] []) = Ret (- EMFILE) fd_sample (World [] []).
Proof.
  destruct (dupfd_lowest 0 1 0 fd_sample (World [] []))
    as [(n & k' & E & Hn & Hnone & Hbelow & Hfilp & _) | [E _]].
  - done.
  - reflexivity.
  - reflexivity.
  - lia.
  - left. assert (n = 2%nat) as ->.
    { destruct (decide (n = 1%nat)) as [-> | ]; [done|].
      destruct (decide (n = 2%nat)) as [-> | ]; [done|]. exfalso.
      destruct (Hbelow 2%nat) as [g Hg]; [lia|]. discriminate. }
    exists k'. split; [exact E|]. rewrite Hfilp. apply list_lookup_insert_eq. cbn. lia.
  - right. exact E.
Defined.

(** ** Access *)

(** [sys_access] gives a member of the file's group the owner's permissions: for a
    caller with no privilege that is not the owner but is in the group the group bits
    of the mode play no part in the answer. *)
Theorem access_ok_ignores_group t n m bits :
  uid t <> i_uid n -> uid t <> 0 -> gid t = i_gid n -> 0 <= bits < 8 ->
  access_ok t n m =
  access_ok t (n <| i_mode ::= fun x => (x .& Z.lnot 56) .| (bits .<< 3) |>) m.
Proof.
  intros Hu H0 Hg Hb. unfold access_ok. cbn [i_mode i_uid i_gid update_field].
  rewrite (proj2 (Z.eqb_neq (uid t) (i_uid n))) by done. rewrite Hg, (Z.eqb_refl (i_gid n)).
  rewrite (proj2 (Z.eqb_neq (uid t) 0)) by done. cbn [andb]. rewrite !orb_false_r.
  do 2 f_equal. change 511 with (Z.ones 9). change 7 with (Z.ones 3).
  change 56 with (Z.ones 3 .<< 3).
  apply Z.bits_inj'. intros i Hi. rewrite !Z.land_spec. destruct (decide (i < 3)).
  2:{ rewrite (Z.testbit_ones 3) by lia. rewrite (proj2 (Z.ltb_ge i 3)) by lia.
      by rewrite !andb_false_r. }
  f_equal. rewrite !Z.shiftr_spec, !Z.land_spec, Z.lor_spec, Z.land_spec, Z.lnot_spec by lia.
  rewrite !Z.shiftl_spec, (Z.testbit_ones 3) by lia.
  rewrite (proj2 (Z.ltb_ge (i + 6 - 3) 3)) by lia. rewrite andb_false_r, andb_true_r.
  rewrite (testbit_ge_false bits 3) by (cbn; lia). by rewrite orb_false_r.
Qed.
Lemma access_ok_ignores_group_witness :
  let t := INIT_TASK 0 0 <| uid := 5 |> <| gid := 2 |> in
  let n := zero_inode <| i_uid := 1 |> <| i_gid := 2 |> <| i_mode := 0x81c0 |> in
  access_ok t n 4 = access_ok t (n <| i_mode ::= fun x => (x .& Z.lnot 56) .| (0 .<< 3) |>) 4.
Proof.
  apply (access_ok_ignores_group (INIT_TASK 0 0 <| uid := 5 |> <| gid := 2 |>)
    (zero_inode <| i_uid := 1 |> <| i_gid := 2 |> <| i_mode := 0x81c0 |>) 4 0);
    cbn; lia.
Defined.
