(* ===== verification/Exec.v ===== *)
(** Program execution, fs/exec.c: the definitions.

    The argument and environment strings are gathered in up to 32 fresh pages of main
    memory, which become the top of the new program's data segment.  The segment register
    %fs decides which memory get_fs_byte reads: strings of the kernel itself (the parts of
    a script's first line) are arguments of their own here, and [umem] is the user's
    memory throughout, old until [change_ldt] and new from then on. *)
From S2P Require Import Prelude Sched Mm Kernel Fork Blk Buffer Bitmap Inode Rw Namei Dir Super Open Strings.

(** fs/exec.c:39-39 [MAX_ARG_PAGES] *)
Definition MAX_ARG_PAGES : Z := 32.
Definition S_ISGID : Z := 1024.

(** ** The header of a program *)

(** include/a.out.h:6-15 [exec] *)
Record exec : Type := Header {
  a_magic : Z; a_text : Z; a_data : Z; a_bss : Z; a_syms : Z; a_entry : Z;
  a_trsize : Z; a_drsize : Z;
}.
Definition get_long (l : list Z) (i : nat) : Z := le_value (take 4 (drop (4 * i) l)).
(** fs/exec.c:227-227 [do_execve]: the header of the first block *)
Definition exec_header (l : list Z) : exec :=
  Header (get_long l 0) (get_long l 1) (get_long l 2) (get_long l 3) (get_long l 4)
    (get_long l 5) (get_long l 6) (get_long l 7).

(** include/a.out.h:26-27 [ZMAGIC] *)
Definition ZMAGIC : Z := 0x10b.
(** include/a.out.h:93-93 [SEGMENT_SIZE] *)
Definition SEGMENT_SIZE : Z := 1024.
Definition HEADER_SIZE : Z := 32.
(** include/a.out.h:40-45 [N_TXTOFF] *)
Definition N_TXTOFF (x : exec) : Z :=
  if a_magic x =? ZMAGIC then SEGMENT_SIZE - HEADER_SIZE + HEADER_SIZE else HEADER_SIZE.

(** fs/exec.c:305-307 [do_execve]: a header that is turned down *)
Definition bad_header (x : exec) (i_size : Z) : bool :=
  negb (a_magic x =? ZMAGIC) || truth (a_trsize x) || truth (a_drsize x) ||
  (0x3000000 <? u32 (a_text x + a_data x + a_bss x)) ||
  (i_size <? u32 (a_text x + a_data x + a_syms x + N_TXTOFF x)).

(** fs/exec.c:210-218 [do_execve]: may a task execute the file? *)
Definition may_execute (t : task_struct) (n : m_inode) : bool :=
  let i := i_mode n in
  let i := if euid t =? i_uid n then i .>> 6
           else if egid t =? i_gid n then i .>> 3 else i in
  truth (i .& 1) || (truth (i_mode n .& 73) && (euid t =? 0)).

(** ** A script's first line *)

(** lib/string.c:111-126 [strchr]: the place of [c] in the string at the start of [l] *)
Fixpoint strchr_at (l : list Z) (c : Z) : option nat :=
  match l with
  | [] => None
  | x :: l' => if x =? c then Some O else if x =? 0 then None else S <$> strchr_at l' c
  end.

Definition is_blank (c : Z) : bool := (c =? 32) || (c =? 9).
(** fs/exec.c:244-244 [do_execve]: past the blanks *)
Fixpoint skip_blanks (l : list Z) : list Z :=
  match l with c :: l' => if is_blank c then skip_blanks l' else l | [] => [] end.
(** fs/exec.c:250-259 [do_execve]: the interpreter's path, its last component [name]
    and what stands behind the blank that ends it *)
Fixpoint split_interp (l name : list Z) : list Z * list Z * option (list Z) :=
  match l with
  | [] => ([], name, None)
  | c :: l' =>
      if is_blank c then ([], name, Some l')
      else let '(path, name, arg) := split_interp l' (if c =? 47 then [] else name ++ [c]) in
           (c :: path, name, arg)
  end.
(** fs/exec.c:238-259 [do_execve]: the line behind the mark; [None] is ENOEXEC *)
Definition parse_script (data : list Z) : option (list Z * list Z * option (list Z)) :=
  let buf := strncpy_bytes 1022 (drop 2 data) ++ [0] in
  match strchr_at buf 10 with
  | None => None
  | Some n =>
      match skip_blanks (take n buf) with
      | [] => None
      | cp => Some (split_interp cp [])
      end
  end.

(** ** Gathering the strings *)

(** Where the pointers and the bytes of copy_strings are, its [from_kmem]: an array of
    pointers in user memory (0), one pointer of the kernel to a string of the user (1),
    one string of the kernel (2), which stands at 1 in a memory of its own. *)
Inductive arg_src : Type :=
| UserArgs (argv : Z)
| UserString (s : Z)
| KernelString (l : list Z).
Definition arg_ptr (src : arg_src) (argc : Z) : M K Z :=
  match src with
  | UserArgs argv => get_fs_long (u32 (argv + 4 * argc))
  | UserString s => mret s
  | KernelString _ => mret 1
  end.
Definition arg_byte (src : arg_src) (a : Z) : M K Z :=
  match src with
  | KernelString l => mret (nth (Z.to_nat (a - 1)) l 0)
  | _ => get_fs_byte a
  end.

(** A string that is longer than all the pages has no result: the code runs off the
    array [page]. *)
Definition ARG_FUEL : nat := Z.to_nat (MAX_ARG_PAGES * PAGE_SIZE + 1).

(** fs/exec.c:124-127 [copy_strings]: the length with its terminator *)
Fixpoint arg_len (fuel : nat) (src : arg_src) (tmp : Z) : M K Z :=
  match fuel with
  | O => out_of_fuel
  | S n =>
      c ← arg_byte src tmp ;
      if truth c then l ← arg_len n src (u32 (tmp + 1)) ; mret (l + 1) else mret 1
  end.

(** The local variables of copy_strings. *)
Record copying : Type := Copying {
  cp_p : Z; cp_offset : Z; cp_pag : Z; cp_page : list Z;
}.
(** fs/exec.c:134-145 [copy_strings]: the place of the next byte; [false] when there is
    no page *)
Definition next_place (c : copying) : M K (copying * bool) :=
  let p := u32 (cp_p c - 1) in
  let offset := cp_offset c - 1 in
  if offset <? 0 then
    let i := Z.to_nat (p / PAGE_SIZE) in
    match cp_page c !! i with
    | None => out_of_fuel
    | Some pag =>
        if truth pag then mret (Copying p (p mod PAGE_SIZE) pag (cp_page c), true)
        else
          pag ← in_mm get_free_page ;
          mret (Copying p (p mod PAGE_SIZE) pag (<[i := pag]> (cp_page c)), truth pag)
    end
  else mret (Copying p offset (cp_pag c) (cp_page c), true).
(** fs/exec.c:132-147 [copy_strings]: the [len] bytes at [tmp], the last one first *)
Fixpoint copy_bytes (len : nat) (src : arg_src) (tmp : Z) (c : copying) : M K (copying * bool) :=
  match len with
  | O => mret (c, true)
  | S n =>
      r ← next_place c ;
      let '(c, ok) := r in
      if negb (ok : bool) then mret (c, false) else
      b ← arg_byte src (u32 (tmp + Z.of_nat n)) ;
      modify (kmem_put (cp_pag c + cp_offset c) [b]) ;;
      copy_bytes n src tmp c
  end.
(** fs/exec.c:117-148 [copy_strings]: the strings, the last one first *)
Fixpoint copy_each (argc : nat) (src : arg_src) (c : copying) : M K (copying * bool) :=
  match argc with
  | O => mret (c, true)
  | S n =>
      tmp ← arg_ptr src (Z.of_nat n) ;
      if tmp =? 0 then panic "argc is wrong" else
      len ← arg_len ARG_FUEL src tmp ;
      if u32 (cp_p c - len) <? 0 then mret (c, false) else
      r ← copy_bytes (Z.to_nat len) src tmp c ;
      let '(c, ok) := r in
      if negb (ok : bool) then mret (c, false) else copy_each n src c
  end.
(** fs/exec.c:104-152 [copy_strings]: the new [p], 0 when it fails, and the pages *)
Definition copy_strings (argc : Z) (src : arg_src) (page : list Z) (p : Z) : M K (Z * list Z) :=
  if p =? 0 then mret (0, page) else
  r ← copy_each (Z.to_nat argc) src (Copying p 0 0 page) ;
  let '(c, ok) := r in
  mret (if (ok : bool) then cp_p c else 0, cp_page c).

(** fs/exec.c:316-318 [do_execve]: the environment and the arguments of a binary *)
Definition copy_args (argc envc argv envp : Z) (page : list Z) (p : Z) : M K (Z * list Z) :=
  r ← copy_strings envc (UserArgs envp) page p ; let '(p, page) := r in
  copy_strings argc (UserArgs argv) page p.

(** fs/exec.c:80-84 [count]: the loop *)
Fixpoint count_from (fuel : nat) (tmp : Z) : M K Z :=
  match fuel with
  | O => out_of_fuel
  | S n =>
      v ← get_fs_long tmp ;
      if truth v then i ← count_from n (u32 (tmp + 4)) ; mret (i + 1) else mret 0
  end.
(** fs/exec.c:75-85 [count] *)
Definition count (argv : Z) : M K Z :=
  if truth argv then count_from ARG_FUEL argv else mret 0.

(** ** The new program's memory *)

(** fs/exec.c:61-61 [create_tables]: past a string *)
Fixpoint skip_string (fuel : nat) (p : Z) : M K Z :=
  match fuel with
  | O => out_of_fuel
  | S n =>
      c ← get_fs_byte p ;
      if truth c then skip_string n (u32 (p + 1)) else mret (u32 (p + 1))
  end.
(** fs/exec.c:59-63 [create_tables]: the pointers to [n] strings from [p] on, at [tbl],
    and the null pointer behind them; the address after the strings *)
Fixpoint put_table (n : nat) (tbl p : Z) : M K Z :=
  match n with
  | O => put_fs_long 0 tbl ;; mret p
  | S n' =>
      put_fs_long p tbl ;;
      p ← skip_string ARG_FUEL p ;
      put_table n' (u32 (tbl + 4)) p
  end.
(** fs/exec.c:46-70 [create_tables] *)
Definition create_tables (p argc envc : Z) : M K Z :=
  let sp := 0xfffffffc .& p in
  let envp := u32 (sp - 4 * (envc + 1)) in
  let argv := u32 (envp - 4 * (argc + 1)) in
  put_fs_long envp (u32 (argv - 4)) ;;
  put_fs_long argv (u32 (argv - 8)) ;;
  put_fs_long argc (u32 (argv - 12)) ;;
  p ← put_table (Z.to_nat argc) argv p ;
  put_table (Z.to_nat envc) envp p ;;
  mret (u32 (argv - 12)).

(** The memory a task sees whose last pages are [page]; [blank] is what a page fault
    brings in elsewhere. *)
Definition new_space (blank : Z -> Z) (page : list Z) (limit : Z) (m : Z -> Z) (a : Z) : Z :=
  let x := a - (limit - MAX_ARG_PAGES * PAGE_SIZE) in
  let pg := nth (Z.to_nat (x / PAGE_SIZE)) page 0 in
  if (0 <=? x) && (x <? MAX_ARG_PAGES * PAGE_SIZE) && truth pg
  then byte_at m (pg + x mod PAGE_SIZE) else blank a.

Section execve.
Context `{SyncInodes} `{Devices} `{Drives}.
(** What the page fault handler fills a page of the current task with. *)
Context (blank : K -> Z -> Z).

(** fs/exec.c:154-177 [change_ldt] *)
Definition change_ldt (text_size : Z) (page : list Z) : M K Z :=
  let code_limit := u32 (text_size + PAGE_SIZE - 1) .& 0xFFFFF000 in
  let data_limit := 0x4000000 in
  t ← gets cur ;
  let base := get_base (ldt_of t 1) in
  modify (upd_current (fun t => t <| ldt ::= fun l =>
    alter (fun d => set_limit (set_base d base) data_limit) 2%nat
      (alter (fun d => set_limit (set_base d base) code_limit) 1%nat l) |>)) ;;
  for_each (rev (seq 0 32)) (fun i =>
    let data_base := u32 (base + data_limit - PAGE_SIZE * (MAX_ARG_PAGES - Z.of_nat i)) in
    let pg := nth i page 0 in
    when (truth pg) (in_mm (put_page pg data_base) ;; mret tt)) ;;
  modify (fun k => k <| umem := new_space (blank k) page data_limit (mem (k_mm k)) |>) ;;
  mret data_limit.

(** fs/exec.c:353-358 [do_execve]: [exec_error2] with an inode, [exec_error1] without *)
Definition exec_error (inode : option nat) (page : list Z) (retval : Z) : M K (Z * option (Z * Z)) :=
  iput inode ;;
  for_each page (fun pg => in_mm (free_page pg)) ;;
  mret (retval, None).

(** A path of the kernel's: %fs is the kernel's while it is looked up. *)
Definition namei_kernel (path : list Z) : M K (option nat) :=
  old ← gets umem ;
  modify (fun k => k <| umem := fun a => nth (Z.to_nat a) path 0 |>) ;;
  inode ← namei 0 ;
  modify (fun k => k <| umem := old |>) ;;
  mret inode.

(** fs/exec.c:324-352 [do_execve]: from the point of no return on *)
Definition exec_commit (inode : nat) (ex : exec) (page : list Z) (p argc envc e_uid e_gid : Z) :
    M K (Z * option (Z * Z)) :=
  t ← gets cur ;
  iput (executable t) ;;
  modify (upd_current (fun t => t <| executable := Some inode |>)) ;;
  modify (upd_current (fun t => t <| sigactions ::= fmap (fun a => a <| sa_handler := 0 |>) |>)) ;;
  for_each (seq 0 20) (fun i =>
    c ← gets (fun k => close_on_exec (cur k)) ;
    when (truth ((c .>> Z.of_nat i) .& 1)) (sys_close (Z.of_nat i) ;; mret tt)) ;;
  modify (upd_current (fun t => t <| close_on_exec := 0 |>)) ;;
  t ← gets cur ;
  in_mm (free_page_tables (get_base (ldt_of t 1)) (get_limit (ldt_of t 1))) ;;
  t ← gets cur ;
  in_mm (free_page_tables (get_base (ldt_of t 2)) (get_limit (ldt_of t 2))) ;;
  modify (fun k => if decide (last_task_used_math (k_sched k) = Some (current (k_sched k)))
                   then k <| k_sched ::= fun s => s <| last_task_used_math := None |> |> else k) ;;
  modify (upd_current (fun t => t <| used_math := 0 |>)) ;;
  limit ← change_ldt (a_text ex) page ;
  p ← create_tables (u32 (p + (limit - MAX_ARG_PAGES * PAGE_SIZE))) argc envc ;
  modify (upd_current (fun t => t <| end_code := a_text ex |>
    <| end_data := u32 (a_data ex + a_text ex) |>
    <| brk := u32 (a_bss ex + (a_data ex + a_text ex)) |>
    <| start_stack := p .& 0xfffff000 |> <| euid := e_uid |> <| egid := e_gid |>)) ;;
  let i := u32 (a_text ex + a_data ex) in
  for_each (seq 0 (Z.to_nat ((4096 - i mod 4096) mod 4096))) (fun j =>
    put_fs_byte 0 (u32 (i + Z.of_nat j))) ;;
  mret (0, Some (a_entry ex, p)).

(** fs/exec.c:264-285 [do_execve]: the strings of a script's program; the new number of
    arguments *)
Definition splice_args (filename argv envp argc envc p : Z) (i_name : list Z) (i_arg : option (list Z))
    (page : list Z) : M K (Z * list Z * Z) :=
  let argc := argc - 1 in
  r ← copy_args argc envc (u32 (argv + 4)) envp page p ; let '(p, page) := r in
  r ← copy_strings 1 (UserString filename) page p ; let '(p, page) := r in
  let argc := argc + 1 in
  r ← (match i_arg with
       | Some a => copy_strings 1 (KernelString a) page p
       | None => mret (p, page)
       end) ; let '(p, page) := r in
  let argc := match i_arg with Some _ => argc + 1 | None => argc end in
  r ← copy_strings 1 (KernelString i_name) page p ; let '(p, page) := r in
  mret (p, page, argc + 1).

(** fs/exec.c:303-323 [do_execve]: a binary program; [sh_bang] says that a script named
    it *)
Definition exec_binary (sh_bang : bool) (inode b : nat) (ex : exec)
    (filename argv envp argc envc p : Z) (page : list Z) (e_uid e_gid : Z) :
    M K (Z * option (Z * Z)) :=
  brelse (Some b) ;;
  size ← gets (fun k => i_size (inode_of k inode)) ;
  if bad_header ex size then exec_error (Some inode) page (- ENOEXEC) else
  if negb (N_TXTOFF ex =? BLOCK_SIZE) then
    printk "%s: N_TXTOFF != BLOCK_SIZE. See a.out.h." [filename] ;;
    exec_error (Some inode) page (- ENOEXEC)
  else
    r ← (if sh_bang then mret (p, page) else copy_args argc envc argv envp page p) ;
    let '(p, page) := r in
    if negb sh_bang && (p =? 0) then exec_error (Some inode) page (- ENOMEM)
    else exec_commit inode ex page p argc envc e_uid e_gid.

(** fs/exec.c:204-302 [do_execve]: from [restart_interp] on; the first line of a script is
    looked at [scripts] times, of a file named by a script not again ([sh_bang]) *)
Fixpoint exec_file (scripts : nat) (inode : nat) (filename argv envp argc envc p : Z)
    (page : list Z) : M K (Z * option (Z * Z)) :=
  k ← get ;
  let n := inode_of k inode in
  if negb (S_ISREG (i_mode n)) then exec_error (Some inode) page (- EACCES) else
  let e_uid := if truth (i_mode n .& S_ISUID) then i_uid n else euid (cur k) in
  let e_gid := if truth (i_mode n .& S_ISGID) then i_gid n else egid (cur k) in
  if negb (may_execute (cur k) n) then exec_error (Some inode) page (- ENOEXEC) else
  bh ← bread (i_dev n) (zone k inode 0) ;
  match bh with
  | None => exec_error (Some inode) page (- EACCES)
  | Some b =>
      data ← gets (fun k => b_data (bh_of k b)) ;
      let ex := exec_header data in
      match scripts with
      | S scripts' =>
          if (get_byte data 0 =? 35) && (get_byte data 1 =? 33) then
            brelse (Some b) ;;
            iput (Some inode) ;;
            match parse_script data with
            | None => exec_error None page (- ENOEXEC)
            | Some (interp, i_name, i_arg) =>
                r ← splice_args filename argv envp argc envc p i_name i_arg page ;
                let '(p, page, argc) := r in
                if p =? 0 then exec_error None page (- ENOMEM) else
                inode ← namei_kernel interp ;
                match inode with
                | None => exec_error None page (- ENOENT)
                | Some inode => exec_file scripts' inode filename argv envp argc envc p page
                end
            end
          else exec_binary false inode b ex filename argv envp argc envc p page e_uid e_gid
      | O => exec_binary true inode b ex filename argv envp argc envc p page e_uid e_gid
      end
  end.

(** fs/exec.c:182-202 [do_execve]: [cs] is [eip[1]]; with 0 come the new [eip[0]] and
    [eip[3]] *)
Definition do_execve (cs filename argv envp : Z) : M K (Z * option (Z * Z)) :=
  if negb (0xffff .& cs =? 0x000f) then panic "execve called from supervisor mode" else
  inode ← namei filename ;
  match inode with
  | None => mret (- ENOENT, None)
  | Some inode =>
      argc ← count argv ;
      envc ← count envp ;
      exec_file 1 inode filename argv envp argc envc (PAGE_SIZE * MAX_ARG_PAGES - 4)
        (repeat 0 32)
  end.
End execve.
