(* ===== verification/Args.v ===== *)
(** The strings of a new program, fs/exec.c: theorems on [Exec].

    What the caller of execve passes is what the new program finds on its stack. *)
From S2P Require Import Prelude Sched Mm Kernel Fork Tables Buffer Inode Strings Exec.

#[local] Arguments page_addr : simpl never.
#[local] Arguments ARG_FUEL : simpl never.

(** ** The pages of the strings *)

(** Byte [x] of the pages. *)
Definition in_pages (page : list Z) (x : Z) : Z := nth (Z.to_nat (x / 4096)) page 0.
Definition area (s : mm) (page : list Z) (x : Z) : Z :=
  byte_at (mem s) (in_pages page x + x mod 4096).

Record pages_ok (s : mm) (page : list Z) : Prop := {
  po_len : length page = 32%nat;
  po_own : forall i, nth i page 0 <> 0 -> exists q, nth i page 0 = page_addr q /\
    0 <= q < PAGING_PAGES /\ mem_map s q = 1;
  po_inj : forall i j, nth i page 0 <> 0 -> nth i page 0 = nth j page 0 -> i = j;
}.
(** The bytes [l] from [p] on. *)
Definition holds (s : mm) (page : list Z) (p : Z) (l : list Z) : Prop :=
  forall j b, l !! j = Some b ->
    in_pages page (p + Z.of_nat j) <> 0 /\ area s page (p + Z.of_nat j) = b.
(** From [s] to [s'] new pages are taken, and memory changes in the pages only. *)
Record grows (s : mm) (page : list Z) (s' : mm) (page' : list Z) : Prop := {
  gr_high : HIGH_MEMORY s' = HIGH_MEMORY s;
  gr_map : forall q, mem_map s' q = mem_map s q \/
    (0 <= q < PAGING_PAGES /\ mem_map s q = 0 /\ mem_map s' q = 1 /\ page_addr q ∈ page');
  gr_mem : forall a, (forall pg, pg ∈ page' -> pg <> 0 -> ~ pg <= a < pg + 4096) ->
    byte_at (mem s') a = byte_at (mem s) a;
  gr_keep : forall i, nth i page 0 <> 0 -> nth i page' 0 = nth i page 0;
  gr_new : forall i, nth i page' 0 <> 0 -> nth i page 0 = nth i page' 0 \/
    exists q, nth i page' 0 = page_addr q /\ mem_map s q = 0;
}.
Lemma grows_refl s page : grows s page s page.
Proof. split; auto. Qed.
Lemma nth_in (l : list Z) i : nth i l 0 <> 0 -> nth i l 0 ∈ l.
Proof.
  intros H. rewrite nth_lookup in *. destruct (l !! i) as [x|] eqn:E; [|done].
  simpl. by eapply list_elem_of_lookup_2.
Qed.
Lemma grows_in s page s' page' pg : grows s page s' page' -> pg ∈ page -> pg <> 0 -> pg ∈ page'.
Proof.
  intros H (i & Hi)%list_elem_of_lookup_1 Hne. assert (E : nth i page 0 = pg) by (by rewrite nth_lookup, Hi).
  rewrite <- E, <- (gr_keep _ _ _ _ H) by congruence. apply nth_in. rewrite (gr_keep _ _ _ _ H) by congruence. congruence.
Qed.
Lemma grows_trans s page s1 page1 s2 page2 :
  grows s page s1 page1 -> grows s1 page1 s2 page2 -> grows s page s2 page2.
Proof.
  intros H1 H2. split.
  - by rewrite (gr_high _ _ _ _ H2), (gr_high _ _ _ _ H1).
  - intros q. destruct (gr_map _ _ _ _ H2 q) as [-> | (Hq & E & E' & Hin)].
    + destruct (gr_map _ _ _ _ H1 q) as [|(Hq & ? & ? & Hin)]; [by left|right].
      do 3 (split; [done|]). apply (grows_in _ _ _ _ _ H2); [done|].
      pose proof (page_addr_pos q). lia.
    + destruct (gr_map _ _ _ _ H1 q) as [E1|(_ & _ & E1 & _)]; [|congruence].
      right. rewrite <- E1. done.
  - intros a Ha. rewrite (gr_mem _ _ _ _ H2), (gr_mem _ _ _ _ H1); [done| |done].
    intros pg Hpg Hne. apply Ha; [by apply (grows_in _ _ _ _ _ H2)|done].
  - intros i Hi. rewrite (gr_keep _ _ _ _ H2), (gr_keep _ _ _ _ H1); [done..|].
    by rewrite (gr_keep _ _ _ _ H1).
  - intros i Hi. destruct (gr_new _ _ _ _ H2 i Hi) as [E | (q & E & Hq)].
    + rewrite <- E in Hi |- *. by apply (gr_new _ _ _ _ H1).
    + right. exists q. split; [done|]. destruct (gr_map _ _ _ _ H1 q) as [<- | (_ & ? & _)]; done.
Qed.

Lemma byte_at_same m m' a : m' (a - a mod 4) = m (a - a mod 4) -> byte_at m' a = byte_at m a.
Proof. unfold byte_at. by intros ->. Qed.
Lemma in_page_word p a : page_addr p <= a < page_addr p + 4096 <->
  page_addr p <= a - a mod 4 < page_addr p + 4096.
Proof. unfold page_addr, LOW_MEM. zlia. Qed.
Lemma area_page s page x : pages_ok s page -> in_pages page x <> 0 ->
  exists q, in_pages page x = page_addr q /\ 0 <= q < PAGING_PAGES /\ mem_map s q = 1.
Proof. intros H. apply (po_own _ _ H). Qed.

(** A fresh page in the slot [i]. *)
Lemma pages_ok_fresh s page i q : pages_ok s page -> (i < 32)%nat -> nth i page 0 = 0 ->
  0 <= q < PAGING_PAGES -> mem_map s q = 0 ->
  pages_ok (take_page q s) (<[i := page_addr q]> page) /\
  grows s page (take_page q s) (<[i := page_addr q]> page) /\
  forall p l, holds s page p l -> holds (take_page q s) (<[i := page_addr q]> page) p l.
Proof.
  intros Hok Hi Hz Hq Hm. pose proof (po_len _ _ Hok) as Hlen. pose proof (page_addr_pos q (proj1 Hq)) as Hpos.
  assert (Hnth : forall j, nth j (<[i := page_addr q]> page) 0 = if decide (j = i) then page_addr q else nth j page 0).
  { intros j. rewrite !nth_lookup. destruct (decide (j = i)) as [-> | ].
    - by rewrite list_lookup_insert_eq by lia.
    - by rewrite list_lookup_insert_ne. }
  assert (Hnew : forall j r, nth j page 0 = page_addr r -> nth j page 0 <> 0 -> r <> q).
  { intros j r E Hne ->. destruct (po_own _ _ Hok j Hne) as (r' & E' & Hr' & Hm').
    assert (r' = q) as -> by (unfold page_addr in *; lia). lia. }
  split; [split|split; [split|]].
  - by rewrite length_insert.
  - intros j. rewrite Hnth. destruct (decide (j = i)) as [-> | ].
    + intros _. exists q. split; [done|]. split; [done|]. apply upd_eq.
    + intros Hne. destruct (po_own _ _ Hok j Hne) as (r & E & Hr & Hmr). exists r. do 2 (split; [done|]).
      simpl. rewrite upd_ne; [done|]. by apply (Hnew j).
  - intros j k. rewrite !Hnth. repeat case_decide; subst; try done.
    + intros _ E. exfalso. destruct (po_own _ _ Hok k) as (r & E' & _); [lia|].
      apply (Hnew k r E'); [lia|]. unfold page_addr in *. lia.
    + intros Hne E. exfalso. destruct (po_own _ _ Hok j Hne) as (r & E' & _).
      apply (Hnew j r E' Hne). unfold page_addr in *. lia.
    + apply (po_inj _ _ Hok).
  - done.
  - intros r. simpl. destruct (decide (r = q)) as [-> | ]; [right|left; by apply upd_ne].
    rewrite upd_eq. do 3 (split; [done|]). apply list_elem_of_lookup_2 with i.
    by rewrite list_lookup_insert_eq by lia.
  - intros a Ha. apply byte_at_same, clear_out. rewrite <- in_page_word. apply Ha; [|lia].
    apply list_elem_of_lookup_2 with i. by rewrite list_lookup_insert_eq by lia.
  - intros j Hne. rewrite Hnth. destruct (decide (j = i)) as [-> | ]; [|done]. congruence.
  - intros j. rewrite Hnth. destruct (decide (j = i)) as [-> | ]; [right; by exists q|by left].
  - intros p l Hh j b Hj. destruct (Hh j b Hj) as [Hne Hb]. unfold area, in_pages in *. rewrite Hnth.
    destruct (decide _) as [E | _]; [rewrite <- E in Hz; congruence|]. split; [done|].
    rewrite <- Hb. apply byte_at_same. simpl. apply clear_out.
    destruct (po_own _ _ Hok _ Hne) as (r & E & Hr & _). rewrite E.
    rewrite <- in_page_word. pose proof (Hnew _ r E Hne).
    pose proof (Z.mod_pos_bound (p + Z.of_nat j) 4096 ltac:(lia)). unfold page_addr in *. lia.
Qed.

(** The bytes of the pages are apart. *)
Lemma area_inj s page x y : pages_ok s page -> 0 <= x -> in_pages page x <> 0 -> in_pages page y <> 0 ->
  0 <= y /\ x <> y -> in_pages page y + y mod 4096 <> in_pages page x + x mod 4096.
Proof.
  intros Hok Hx Hnx Hny [Hy Hne] E.
  destruct (area_page s page _ Hok Hnx) as (q & Eq & _), (area_page s page _ Hok Hny) as (r & Er & _).
  rewrite Eq, Er in E. apply page_addr_apart in E as [-> Em]; [|apply Z.mod_pos_bound; lia..].
  assert (Ei : Z.to_nat (x / 4096) = Z.to_nat (y / 4096)).
  { apply (po_inj _ _ Hok); [done|]. unfold in_pages in *. by rewrite Eq, Er. }
  zlia.
Qed.
(** A byte stored in front. *)
Lemma store_front s page p l b : pages_ok s page -> 0 < p -> p + Z.of_nat (length l) <= 131072 ->
  in_pages page (p - 1) <> 0 -> 0 <= b < 256 -> holds s page p l ->
  let s' := s <| mem ::= put_bytes (in_pages page (p - 1) + (p - 1) mod 4096) [b] |> in
  pages_ok s' page /\ grows s page s' page /\ holds s' page (p - 1) (b :: l).
Proof.
  intros Hok Hp Htop Hne Hb Hh s'. destruct (area_page s page _ Hok Hne) as (q & Eq & Hq & Hmq).
  pose proof (Z.mod_pos_bound (p - 1) 4096 ltac:(lia)) as Hmod.
  set (a := in_pages page (p - 1) + (p - 1) mod 4096) in *.
  split; [by split; apply Hok|]. split; [split|].
  - done.
  - by left.
  - intros x Hx. simpl. rewrite byte_at_put. cbn [length].
    assert (Hnx : ~ in_pages page (p - 1) <= x < in_pages page (p - 1) + 4096)
      by (apply Hx; [by apply nth_in|done]).
    destruct (Z.leb_spec a x), (Z.ltb_spec x (a + Z.of_nat 1)); simpl; lia || done.
  - done.
  - by left.
  - intros j c Hj. destruct j as [|j].
    + simpl in Hj. injection Hj as <-. rewrite Z.add_0_r. split; [done|].
      unfold area. fold a. simpl. rewrite byte_at_put. cbn [length].
      rewrite (proj2 (Z.leb_le _ _)), (proj2 (Z.ltb_lt _ _)) by lia. simpl.
      rewrite Z.sub_diag. by apply u8_small.
    + replace (p - 1 + Z.of_nat (S j)) with (p + Z.of_nat j) by lia.
      destruct (Hh j c Hj) as [Hn <-]. split; [done|]. unfold area. simpl. rewrite byte_at_put. cbn [length].
      assert (Hap : in_pages page (p + Z.of_nat j) + (p + Z.of_nat j) mod 4096 <> a).
      { apply (area_inj s page (p - 1) (p + Z.of_nat j)); [done|lia|done..|lia]. }
      destruct (Z.leb_spec a (in_pages page (p + Z.of_nat j) + (p + Z.of_nat j) mod 4096)),
        (Z.ltb_spec (in_pages page (p + Z.of_nat j) + (p + Z.of_nat j) mod 4096) (a + Z.of_nat 1));
        simpl; lia || done.
Qed.

(** ** copy_strings *)

(** The state of the copying: the strings gathered so far are [l]. *)
Record copying_ok (s : mm) (c : copying) (l : list Z) : Prop := {
  co_pages : pages_ok s (cp_page c);
  co_holds : holds s (cp_page c) (cp_p c) l;
  co_top : 0 <= cp_p c /\ cp_p c + Z.of_nat (length l) <= 131072;
  co_place : cp_offset c = 0 \/
    (cp_offset c = cp_p c mod 4096 /\ cp_pag c = in_pages (cp_page c) (cp_p c) /\ cp_pag c <> 0);
}.
Definition with_mm (s : mm) (k : K) : K := k <| k_mm := s |>.
Lemma with_mm_mm s k : k_mm (with_mm s k) = s.
Proof. reflexivity. Qed.
Lemma with_mm_same k : with_mm (k_mm k) k = k.
Proof. by destruct k. Qed.
Lemma get_page_run k w :
  (in_mm get_free_page k w = Ret 0 k w /\ no_free_page (k_mm k)) \/
  (exists q, in_mm get_free_page k w = Ret (page_addr q) (with_mm (take_page q (k_mm k)) k) w /\
     highest_free (k_mm k) q).
Proof.
  unfold in_mm, liftM.
  destruct (get_free_page_cases (k_mm k) (World [] (log w))) as [[E Hn] | (p & E & Hp)]; rewrite E.
  - left. split; [|done]. by destruct k, w.
  - right. exists p. split; [by destruct w|done].
Qed.

(** The place of the next byte is found, or there is no page left. *)
Lemma next_place_run k c l w : copying_ok (k_mm k) c l -> 0 < cp_p c -> cp_p c <= 131072 ->
  (exists s c', next_place c k w = Ret (c', true) (with_mm s k) w /\
     cp_p c' = cp_p c - 1 /\ pages_ok s (cp_page c') /\ holds s (cp_page c') (cp_p c) l /\
     cp_offset c' = cp_p c' mod 4096 /\ cp_pag c' = in_pages (cp_page c') (cp_p c') /\ cp_pag c' <> 0 /\
     grows (k_mm k) (cp_page c) s (cp_page c')) \/
  (exists c', next_place c k w = Ret (c', false) k w /\ no_free_page (k_mm k) /\
     cp_page c' = cp_page c).
Proof.
  intros [Hok Hh _ Hpl] Hp Hp2. unfold next_place. cbv zeta. rewrite u32_small by lia.
  destruct (Z.ltb_spec (cp_offset c - 1) 0) as [Hlt | Hge].
  - pose proof (po_len _ _ Hok) as Hlen.
    assert (Hi : (Z.to_nat ((cp_p c - 1) / PAGE_SIZE) < 32)%nat) by (unfold PAGE_SIZE; zlia).
    set (i := Z.to_nat ((cp_p c - 1) / PAGE_SIZE)) in *.
    destruct (lookup_lt_is_Some_2 (cp_page c) i ltac:(lia)) as [pg Epg]. rewrite Epg.
    assert (En : in_pages (cp_page c) (cp_p c - 1) = pg)
      by (unfold in_pages; change 4096 with PAGE_SIZE; fold i; by rewrite nth_lookup, Epg).
    unfold truth. destruct (Z.eqb_spec pg 0) as [-> | Hne]; cbn [negb].
    + destruct (get_page_run k w) as [[E Hn] | (q & E & (Hq & Hm & _))].
      * right. rewrite (run_ret _ _ _ _ _ _ _ E). eexists. split; [reflexivity|]. split; [done|].
        simpl. apply list_insert_id. done.
      * left. rewrite (run_ret _ _ _ _ _ _ _ E). pose proof (page_addr_pos q (proj1 Hq)).
        destruct (pages_ok_fresh (k_mm k) (cp_page c) i q Hok Hi En Hq Hm) as (H1 & H2 & H3).
        rewrite (proj2 (Z.eqb_neq (page_addr q) 0)) by lia. eexists _, _. split; [reflexivity|]. simpl.
        split; [done|]. split; [done|]. split; [by apply H3|]. split; [done|]. split; [|split; [lia|done]].
        unfold in_pages. change 4096 with PAGE_SIZE. fold i. rewrite nth_lookup, list_lookup_insert_eq by lia. done.
    + left. eexists (k_mm k), _. split; [rewrite (with_mm_same k); reflexivity|]. simpl.
      do 3 (split; [done|]). split; [done|]. split; [done|]. split; [done|apply grows_refl].
  - destruct Hpl as [E | (Eo & Eg & Hne)]; [lia|].
    left. eexists (k_mm k), _. split; [rewrite (with_mm_same k); reflexivity|]. simpl.
    assert (Es : (cp_p c - 1) / 4096 = cp_p c / 4096 /\ cp_offset c - 1 = (cp_p c - 1) mod 4096) by zlia.
    do 3 (split; [done|]). split; [apply Es|]. split; [|split; [done|apply grows_refl]].
    rewrite Eg. unfold in_pages. by rewrite (proj1 Es).
Qed.

(** What arg_byte reads. *)
Definition src_byte (src : arg_src) (m : Z -> Z) (a : Z) : Z :=
  match src with KernelString l => nth (Z.to_nat (a - 1)) l 0 | _ => m a end.
Lemma run_arg_byte {A} src a (f : Z -> M K A) k w :
  (arg_byte src a ≫= f) k w = f (src_byte src (umem k) a) k w.
Proof. by destruct src. Qed.
Lemma kmem_put_mm a l s k : kmem_put a l (with_mm s k) = with_mm (s <| mem ::= put_bytes a l |>) k.
Proof. reflexivity. Qed.

(** The outcome of a part of the copying that puts [bs] in front of [l]. *)
Definition copied_front (k : K) (c : copying) (bs l : list Z) (w : world K)
    (o : outcome K (copying * bool)) : Prop :=
  (exists s c', o = Ret (c', true) (with_mm s k) w /\ cp_p c' = cp_p c - Z.of_nat (length bs) /\
     copying_ok s c' (bs ++ l) /\ grows (k_mm k) (cp_page c) s (cp_page c')) \/
  (exists s c', o = Ret (c', false) (with_mm s k) w /\ no_free_page s /\
     pages_ok s (cp_page c') /\ grows (k_mm k) (cp_page c) s (cp_page c')).

Lemma copied_front_trans k c bs l w s c1 bs1 o : cp_p c1 = cp_p c - Z.of_nat (length bs) ->
  grows (k_mm k) (cp_page c) s (cp_page c1) ->
  copied_front (with_mm s k) c1 bs1 (bs ++ l) w o -> copied_front k c (bs1 ++ bs) l w o.
Proof.
  intros Hp Hg [(s2 & c2 & -> & Hp2 & Hc2 & Hg2) | (s2 & c2 & -> & Hn & Hok & Hg2)].
  - left. exists s2, c2. split; [done|]. split; [rewrite Hp2, Hp, length_app; lia|].
    split; [by rewrite <- app_assoc|]. by eapply grows_trans.
  - right. exists s2, c2. do 3 (split; [done|]). by eapply grows_trans.
Qed.

Lemma copy_bytes_run src tmp w bs : forall k c l, copying_ok (k_mm k) c l ->
  Forall (fun b => 0 <= b < 256) bs -> Z.of_nat (length bs) <= cp_p c ->
  (forall i b, bs !! i = Some b -> src_byte src (umem k) (u32 (tmp + Z.of_nat i)) = b) ->
  copied_front k c bs l w (copy_bytes (length bs) src tmp c k w).
Proof.
  induction bs as [|b bs IH] using rev_ind; intros k c l Hc Hb Hp Hsrc.
  { left. exists (k_mm k), c. rewrite with_mm_same. split; [done|]. split; [simpl; lia|].
    split; [done|apply grows_refl]. }
  rewrite length_app in *. cbn [length] in *. replace (length bs + 1)%nat with (S (length bs)) by lia.
  apply Forall_app in Hb as [Hb Hb1]. apply Forall_cons in Hb1 as [Hb1 _].
  pose proof (co_top _ _ _ Hc) as [Hp0 Htop]. cbn [copy_bytes].
  destruct (next_place_run k c l w Hc ltac:(lia) ltac:(lia))
    as [(s & c1 & E & Ep & Hok & Hh & Eo & Eg & Hne & Hg) | (c1 & E & Hn & Epg)];
    rewrite (run_ret _ _ _ _ _ _ _ E).
  - cbn [negb]. rewrite run_arg_byte, run_modify, kmem_put_mm.
    change (umem (with_mm s k)) with (umem k).
    rewrite (Hsrc (length bs) b) by (rewrite list_lookup_middle; done).
    rewrite Eo, Eg. rewrite Eg in Hne. rewrite Ep in *.
    destruct (store_front s (cp_page c1) (cp_p c) l b Hok ltac:(lia) Htop Hne Hb1 Hh) as (H1 & H2 & H3).
    set (s1 := s <| mem ::= _ |>) in *.
    apply (copied_front_trans k c [b] l w s1 c1 bs); [simpl; lia|by eapply grows_trans|].
    apply IH; [|done|simpl; lia|].
    + split; [done|by rewrite Ep|simpl; lia|]. right. rewrite Eo, Eg, Ep. done.
    + intros i x Hi. apply Hsrc. by apply lookup_app_l_Some.
  - right. exists (k_mm k), c1. rewrite with_mm_same. cbn [negb]. split; [done|]. split; [done|].
    rewrite Epg. split; [apply Hc|apply grows_refl].
Qed.

Lemma arg_len_run src l w : forall k tmp fuel, str_at (src_byte src (umem k)) tmp l ->
  (length l < fuel)%nat -> arg_len fuel src tmp k w = Ret (Z.of_nat (length l) + 1) k w.
Proof.
  induction l as [|b l IH]; intros k tmp [|fuel] Hs Hf; simpl in Hf; try lia; cbn [arg_len];
    rewrite run_arg_byte.
  - pose proof (sa_end _ _ _ Hs) as E. simpl in E. rewrite Z.add_0_r in E. by rewrite E.
  - apply str_at_cons in Hs as (-> & Hb & Hs). unfold truth. rewrite (proj2 (Z.eqb_neq b 0)) by lia.
    cbn [negb]. rewrite u32_small by (destruct Hs as [_ Hr _ _]; lia).
    rewrite (run_ret _ _ _ _ _ _ _ (IH k _ fuel Hs ltac:(lia))). cbn [length].
    replace (Z.of_nat (S (length l)) + 1) with (Z.of_nat (length l) + 1 + 1) by lia. done.
Qed.
(** The strings one after the other. *)
Definition strings (ss : list (list Z)) : list Z := mjoin (zstr <$> ss).

(** The long at [a] of the user's memory. *)
Definition user_long (m : Z -> Z) (a : Z) : Z := le_value (m <$> [a; a + 1; a + 2; a + 3]).
Definition src_ptr (src : arg_src) (m : Z -> Z) (n : Z) : Z :=
  match src with
  | UserArgs argv => user_long m (u32 (argv + 4 * n))
  | UserString s => s
  | KernelString _ => 1
  end.
Lemma run_arg_ptr {A} src n (f : Z -> M K A) k w :
  (arg_ptr src n ≫= f) k w = f (src_ptr src (umem k) n) k w.
Proof. by destruct src. Qed.
(** [src] holds the strings [ss]. *)
Definition src_strings (src : arg_src) (m : Z -> Z) (ss : list (list Z)) : Prop :=
  forall n x, ss !! n = Some x -> str_at (src_byte src m) (src_ptr src m (Z.of_nat n)) x.

Lemma strings_app ss ts : strings (ss ++ ts) = strings ss ++ strings ts.
Proof. unfold strings. by rewrite fmap_app, join_app. Qed.
Lemma strings_one x : strings [x] = zstr x.
Proof. unfold strings. simpl. by rewrite app_nil_r. Qed.
Lemma ARG_FUEL_enough n : Z.of_nat n <= 131072 -> (n < ARG_FUEL)%nat.
Proof. unfold ARG_FUEL, MAX_ARG_PAGES, PAGE_SIZE. lia. Qed.

Lemma copy_each_run src w ss : forall k c l, copying_ok (k_mm k) c l ->
  src_strings src (umem k) ss -> Z.of_nat (length (strings ss)) <= cp_p c ->
  copied_front k c (strings ss) l w (copy_each (length ss) src c k w).
Proof.
  induction ss as [|x ss IH] using rev_ind; intros k c l Hc Hs Hp.
  { left. exists (k_mm k), c. rewrite with_mm_same. split; [done|]. split; [simpl; lia|].
    split; [done|apply grows_refl]. }
  rewrite strings_app, strings_one in *. rewrite length_app in *. rewrite length_zstr in Hp.
  pose proof (co_top _ _ _ Hc) as [Hp0 Htop].
  assert (Hx : str_at (src_byte src (umem k)) (src_ptr src (umem k) (Z.of_nat (length ss))) x)
    by (apply Hs; by apply list_lookup_middle).
  cbn [length]. replace (length ss + 1)%nat with (S (length ss)) by lia. cbn [copy_each].
  rewrite run_arg_ptr. set (tmp := src_ptr _ _ _) in *. pose proof (sa_range _ _ _ Hx) as Hr.
  rewrite (proj2 (Z.eqb_neq tmp 0)) by lia.
  rewrite (run_ret _ _ _ _ _ _ _ (arg_len_run src x w k tmp _ Hx (ARG_FUEL_enough (length x) ltac:(lia)))).
  pose proof (u32_range (cp_p c - (Z.of_nat (length x) + 1))) as Hu.
  rewrite (proj2 (Z.ltb_ge _ 0)) by lia.
  replace (Z.to_nat (Z.of_nat (length x) + 1)) with (length (zstr x)) by (rewrite length_zstr; lia).
  destruct (copy_bytes_run src tmp w (zstr x) k c l Hc (zstr_bytes _ _ _ Hx))
    as [(s & c1 & E & Ep & Hc1 & Hg) | (s & c1 & E & Hn & Hok & Hg)];
    [rewrite length_zstr; lia|intros i b; by apply (str_at_zstr _ _ x)|..];
    rewrite (run_ret _ _ _ _ _ _ _ E); cbn [negb].
  - apply (copied_front_trans k c (zstr x) l w s c1 (strings ss)); [done|done|].
    apply (IH (with_mm s k)); [done| |].
    + intros n y Hy. apply Hs. by apply lookup_app_l_Some.
    + rewrite Ep, length_zstr. lia.
  - right. by exists s, c1.
Qed.

(** copy_strings: the pages after it, or it has found no free page. *)
Record gathers (k : K) (page : list Z) (p : Z) (bs : list Z) (s : mm) (page' : list Z) (l : list Z) : Prop := {
  ga_pages : pages_ok s page';
  ga_holds : holds s page' (p - Z.of_nat (length bs)) (bs ++ l);
  ga_grows : grows (k_mm k) page s page';
}.
Lemma copy_strings_run src ss k page p l w : pages_ok (k_mm k) page -> holds (k_mm k) page p l ->
  p + Z.of_nat (length l) <= 131072 -> Z.of_nat (length (strings ss)) < p ->
  src_strings src (umem k) ss ->
  (exists s page', copy_strings (Z.of_nat (length ss)) src page p k w =
     Ret (p - Z.of_nat (length (strings ss)), page') (with_mm s k) w /\
     gathers k page p (strings ss) s page' l) \/
  (exists s page', copy_strings (Z.of_nat (length ss)) src page p k w = Ret (0, page') (with_mm s k) w /\
     no_free_page s /\ pages_ok s page' /\ grows (k_mm k) page s page').
Proof.
  intros Hok Hh Htop Hp Hs. unfold copy_strings. rewrite (proj2 (Z.eqb_neq p 0)) by lia.
  rewrite Nat2Z.id.
  destruct (copy_each_run src w ss k (Copying p 0 0 page) l) as [(s & c & E & Ep & Hc & Hg) | (s & c & E & Hn & Hok' & Hg)];
    [split; simpl; try done; [lia|by left]|done|simpl; lia|..]; rewrite (run_ret _ _ _ _ _ _ _ E).
  - left. exists s, (cp_page c). simpl in *. rewrite Ep. split; [done|]. split; [apply Hc| |done].
    rewrite <- Ep. apply Hc.
  - right. by exists s, (cp_page c).
Qed.

(** ** create_tables *)

Definition put_long (a v : Z) (m : Z -> Z) : Z -> Z :=
  fun x => if (a <=? x) && (x <? a + 4) then u8 (v .>> (8 * (x - a))) else m x.
Definition with_umem (m : Z -> Z) (k : K) : K := k <| umem := m |>.
Lemma run_put_long {A} v a (f : unit -> M K A) m k w :
  (put_fs_long v a ≫= f) (with_umem m k) w = f tt (with_umem (put_long a v m) k) w.
Proof. reflexivity. Qed.
Lemma user_long_put a v m : user_long (put_long a v m) a = u32 v.
Proof.
  unfold user_long, put_long. cbn [fmap list_fmap]. rewrite !(proj2 (Z.leb_le _ _)) by lia.
  rewrite !(proj2 (Z.ltb_lt _ _)) by lia. cbn [andb].
  transitivity (le_value (le_bytes 4 v)); [|apply (le_value_bytes 4)]. cbn [le_bytes le_value].
  replace (8 * (a - a)) with 0 by lia. replace (8 * (a + 1 - a)) with 8 by lia.
  replace (8 * (a + 2 - a)) with (8 + 8) by lia. replace (8 * (a + 3 - a)) with (8 + 8 + 8) by lia.
  by rewrite !Z.shiftr_shiftr, Z.shiftr_0_r by lia.
Qed.
Lemma put_long_out a v m x : ~ a <= x < a + 4 -> put_long a v m x = m x.
Proof.
  intros H. unfold put_long. destruct (Z.leb_spec a x), (Z.ltb_spec x (a + 4)); simpl; lia || done.
Qed.
Lemma user_long_ext m m' a : (forall x, a <= x < a + 4 -> m' x = m x) -> user_long m' a = user_long m a.
Proof.
  intros H. unfold user_long. cbn [fmap list_fmap].
  by rewrite (H a), (H (a + 1)), (H (a + 2)), (H (a + 3)) by lia.
Qed.

(** The strings [ss] stand one after the other from [p] on. *)
Fixpoint strs_at (m : Z -> Z) (p : Z) (ss : list (list Z)) : Prop :=
  match ss with
  | [] => True
  | x :: ss' => str_at m p x /\ strs_at m (p + Z.of_nat (length (zstr x))) ss'
  end.
Lemma strings_cons x ss : strings (x :: ss) = zstr x ++ strings ss.
Proof. done. Qed.
Lemma strs_at_ext m m' ss : forall p,
  (forall x, p <= x < p + Z.of_nat (length (strings ss)) -> m' x = m x) ->
  strs_at m p ss -> strs_at m' p ss.
Proof.
  induction ss as [|x ss IH]; intros p H; [done|]. rewrite strings_cons, length_app, length_zstr in H.
  cbn [strs_at]. rewrite length_zstr. intros [Hx Hs]. split.
  - eapply str_at_ext; [|exact Hx]. intros y Hy. apply H. lia.
  - apply IH; [|done]. intros y Hy. apply H. lia.
Qed.
Lemma skip_string_run l w : forall k p fuel, str_at (umem k) p l -> (length l < fuel)%nat ->
  p + Z.of_nat (length l) + 1 < 2 ^ 32 ->
  skip_string fuel p k w = Ret (p + Z.of_nat (length (zstr l))) k w.
Proof.
  induction l as [|b l IH]; intros k p [|fuel] Hs Hf Hp; simpl in Hf; try lia; cbn [skip_string];
    unfold get_fs_byte; rewrite run_gets, length_zstr; cbn [length] in Hp |- *.
  - pose proof (sa_end _ _ _ Hs) as E. pose proof (sa_range _ _ _ Hs). simpl in E. rewrite Z.add_0_r in E. rewrite E.
    cbn. by rewrite u32_small by lia.
  - pose proof (sa_range _ _ _ Hs). apply str_at_cons in Hs as (-> & Hb & Hs). unfold truth.
    rewrite (proj2 (Z.eqb_neq b 0)) by lia. cbn [negb].
    rewrite u32_small by lia. rewrite (IH k (p + 1) fuel Hs) by lia. rewrite length_zstr. f_equal. lia.
Qed.

(** The table at [tbl] points to the strings [ss], which are at [lo] or above. *)
Record table_at (m : Z -> Z) (tbl lo : Z) (ss : list (list Z)) : Prop := {
  ta_str : forall j x, ss !! j = Some x ->
    str_at m (user_long m (tbl + 4 * Z.of_nat j)) x /\ lo <= user_long m (tbl + 4 * Z.of_nat j);
  ta_null : user_long m (tbl + 4 * Z.of_nat (length ss)) = 0;
}.
Lemma put_table_run k w ss : forall m tbl p,
  strs_at m p ss -> 0 <= tbl -> tbl + 4 * (Z.of_nat (length ss) + 1) <= p -> 
  p + Z.of_nat (length (strings ss)) < 2 ^ 32 -> Z.of_nat (length (strings ss)) <= 131072 ->
  exists m', put_table (length ss) tbl p (with_umem m k) w =
      Ret (p + Z.of_nat (length (strings ss))) (with_umem m' k) w /\
    table_at m' tbl p ss /\
    forall a, ~ tbl <= a < tbl + 4 * (Z.of_nat (length ss) + 1) -> m' a = m a.
Proof.
  induction ss as [|x ss IH]; intros m tbl p Hs Htbl Hp Hr Hl.
  - exists (put_long tbl 0 m). split; [cbn; by rewrite Z.add_0_r|]. split; [split|].
    + intros j x Hj. done.
    + cbn [length]. change (4 * Z.of_nat 0) with 0. by rewrite Z.add_0_r, user_long_put.
    + intros a Ha. apply put_long_out. cbn [length] in Ha. lia.
  - rewrite strings_cons, length_app, length_zstr in Hr, Hl. cbn [length] in Hp. cbn [strs_at] in Hs.
    destruct Hs as [Hx Hs]. rewrite length_zstr in Hs.
    cbn [length put_table]. rewrite run_put_long. set (m1 := put_long tbl p m).
    assert (Hm1 : forall a, p <= a -> m1 a = m a) by (intros a Ha; apply put_long_out; lia).
    assert (Hx1 : str_at m1 p x) by (eapply str_at_ext; [|exact Hx]; intros a Ha; apply Hm1; lia).
    assert (Hs1 : strs_at m1 (p + Z.of_nat (S (length x))) ss)
      by (eapply strs_at_ext; [|exact Hs]; intros a Ha; apply Hm1; lia).
    assert (Hsk : skip_string ARG_FUEL p (with_umem m1 k) w =
      Ret (p + Z.of_nat (length (zstr x))) (with_umem m1 k) w).
    { apply skip_string_run; [done|apply ARG_FUEL_enough; lia|lia]. }
    rewrite (run_ret _ _ _ _ _ _ _ Hsk), length_zstr, u32_small by lia.
    destruct (IH m1 (tbl + 4) (p + Z.of_nat (S (length x))) Hs1 ltac:(lia) ltac:(lia) ltac:(lia) ltac:(lia))
      as (m' & E & [Ht He] & Hout).
    exists m'. rewrite E, strings_cons, length_app, length_zstr. split; [f_equal; lia|]. split; [split|].
    + assert (E0 : user_long m' tbl = p).
      { rewrite (user_long_ext m1) by (intros a Ha; apply Hout; lia). subst m1.
        rewrite user_long_put. apply u32_small. pose proof (sa_range _ _ _ Hx). lia. }
      intros [|j] y Hj.
      * injection Hj as <-. change (4 * Z.of_nat 0) with 0. rewrite Z.add_0_r, E0.
        split; [|lia]. eapply str_at_ext; [|exact Hx1]. intros a Ha. apply Hout. lia.
      * replace (tbl + 4 * Z.of_nat (S j)) with (tbl + 4 + 4 * Z.of_nat j) by lia.
        destruct (Ht j y Hj). split; [done|lia].
    + cbn [length]. rewrite <- He. f_equal. lia.
    + intros a Ha. cbn [length] in Ha. rewrite Hout by lia. apply put_long_out. lia.
Qed.
Lemma table_at_ext m m' tbl lo ss : table_at m tbl lo ss ->
  (forall a, tbl <= a < tbl + 4 * (Z.of_nat (length ss) + 1) \/ lo <= a -> m' a = m a) ->
  table_at m' tbl lo ss.
Proof.
  intros [Ht He] H. assert (Hw : forall j, (j <= length ss)%nat ->
    user_long m' (tbl + 4 * Z.of_nat j) = user_long m (tbl + 4 * Z.of_nat j)).
  { intros j Hj. apply user_long_ext. intros a Ha. apply H. lia. }
  split; [|by rewrite Hw by lia]. intros j x Hj. destruct (Ht j x Hj) as [Hx Hlo].
  apply lookup_lt_Some in Hj. rewrite Hw by lia. split; [|done].
  eapply str_at_ext; [|exact Hx]. intros a Ha. apply H. lia.
Qed.
Lemma strs_at_app m ss ts : forall p, strs_at m p (ss ++ ts) <->
  strs_at m p ss /\ strs_at m (p + Z.of_nat (length (strings ss))) ts.
Proof.
  induction ss as [|x ss IH]; intros p; cbn [app strs_at].
  - change (length (strings [])) with 0%nat. rewrite Z.add_0_r. tauto.
  - rewrite IH, strings_cons, length_app.
    replace (p + Z.of_nat (length (zstr x)) + Z.of_nat (length (strings ss)))
      with (p + Z.of_nat (length (zstr x) + length (strings ss))) by lia. tauto.
Qed.

(** What a program finds at its start: the number of its arguments, and the tables of the
    arguments and of the environment, at the address [r]. *)
Record stack_at (m : Z -> Z) (r : Z) (args envs : list (list Z)) : Prop := {
  st_argc : user_long m r = Z.of_nat (length args);
  st_argv : exists lo, table_at m (user_long m (r + 4)) lo args;
  st_envp : exists lo, table_at m (user_long m (r + 8)) lo envs;
}.
Lemma length_strings ss : (length ss <= length (strings ss))%nat.
Proof.
  induction ss as [|x ss IH]; [done|]. rewrite strings_cons, length_app, length_zstr. simpl. lia.
Qed.
Lemma create_tables_run k w m p args envs : strs_at m p (args ++ envs) ->
  Z.of_nat (length (strings (args ++ envs))) <= 131072 -> 2 ^ 21 <= p ->
  p + Z.of_nat (length (strings (args ++ envs))) < 2 ^ 32 ->
  let r := p - p mod 4 - 4 * (Z.of_nat (length args) + Z.of_nat (length envs) + 5) in
  exists m', create_tables p (Z.of_nat (length args)) (Z.of_nat (length envs)) (with_umem m k) w =
      Ret r (with_umem m' k) w /\
    stack_at m' r args envs /\ forall a, ~ r <= a < p -> m' a = m a.
Proof.
  intros Hs Hl Hp Hr r. apply strs_at_app in Hs as [Ha He].
  rewrite strings_app, length_app in Hl, Hr.
  pose proof (length_strings args). pose proof (length_strings envs).
  unfold create_tables. cbv zeta.
  assert (Esp : 0xfffffffc .& p = p - p mod 4) by (apply (land_high_mask p 2 32); lia). rewrite Esp.
  pose proof (Z.mod_pos_bound p 4 ltac:(lia)).
  rewrite (u32_small (p - p mod 4 - _)) by lia.
  set (envp := p - p mod 4 - 4 * (Z.of_nat (length envs) + 1)).
  rewrite !(u32_small (envp - _)) by lia.
  set (argv := envp - 4 * (Z.of_nat (length args) + 1)).
  rewrite !u32_small by lia. replace (argv - 12) with r by lia.
  rewrite !run_put_long. set (m1 := put_long r _ _).
  assert (Hm1 : forall a, argv <= a -> m1 a = m a)
    by (intros a Hx; subst m1; rewrite !put_long_out by lia; done).
  rewrite !Nat2Z.id.
  destruct (put_table_run k w args m1 argv p) as (m2 & E2 & Ht2 & Hout2);
    [eapply strs_at_ext; [|exact Ha]; intros a Hx; apply Hm1; lia|lia..|].
  rewrite (run_ret _ _ _ _ _ _ _ E2).
  destruct (put_table_run k w envs m2 envp (p + Z.of_nat (length (strings args)))) as (m3 & E3 & Ht3 & Hout3);
    [eapply strs_at_ext; [|exact He]; intros a Hx; rewrite Hout2, Hm1 by lia; done|lia..|].
  rewrite (run_ret _ _ _ _ _ _ _ E3). exists m3. split; [done|].
  assert (Hw : forall a, r <= a -> a + 4 <= argv -> user_long m3 a = user_long m1 a).
  { intros a Hlo Hhi. apply user_long_ext. intros x Hx. rewrite Hout3, Hout2 by lia. done. }
  split; [split|].
  - rewrite Hw by lia. subst m1. rewrite user_long_put. apply u32_small. lia.
  - exists p. rewrite Hw by lia. replace (user_long m1 (r + 4)) with argv.
    + eapply table_at_ext; [exact Ht2|]. intros a Hx. apply Hout3. lia.
    + subst m1. rewrite (user_long_ext (put_long (argv - 8) argv (put_long (argv - 4) envp m)))
        by (intros x Hx; apply put_long_out; lia).
      replace (r + 4) with (argv - 8) by lia. rewrite user_long_put. symmetry. apply u32_small. lia.
  - eexists. rewrite Hw by lia. replace (user_long m1 (r + 8)) with envp; [exact Ht3|].
    subst m1. rewrite (user_long_ext (put_long (argv - 4) envp m))
      by (intros x Hx; rewrite !put_long_out by lia; done).
    replace (r + 8) with (argv - 4) by lia. rewrite user_long_put. symmetry. apply u32_small. lia.
  - intros a Hx. rewrite Hout3, Hout2 by lia. subst m1. rewrite !put_long_out by lia. done.
Qed.

(** ** From the caller to the new program *)

(** The bytes of the strings, read as strings. *)
Lemma strs_at_bytes m ss : forall p, Forall (Forall (fun b => 0 < b < 256)) ss ->
  (forall j b, strings ss !! j = Some b -> m (p + Z.of_nat j) = b) ->
  0 < p -> p + Z.of_nat (length (strings ss)) < 2 ^ 32 -> strs_at m p ss.
Proof.
  induction ss as [|x ss IH]; intros p Hb Hm Hp Hr; [done|].
  apply Forall_cons in Hb as [Hx Hb]. rewrite strings_cons in Hm, Hr. rewrite length_app in Hr.
  rewrite length_zstr in Hr.
  assert (Hz : forall j b, zstr x !! j = Some b -> m (p + Z.of_nat j) = b)
    by (intros j b Hj; apply Hm; by apply lookup_app_l_Some).
  split; [split|].
  - done.
  - lia.
  - intros j b Hj. apply Hz. by apply lookup_app_l_Some.
  - apply Hz. by apply list_lookup_middle.
  - apply IH; [done| |rewrite length_zstr; lia..]. intros j b Hj.
    replace (p + Z.of_nat (length (zstr x)) + Z.of_nat j) with (p + Z.of_nat (length (zstr x) + j)) by lia.
    apply Hm. rewrite lookup_app_r by lia. by replace (length (zstr x) + j - length (zstr x))%nat with j by lia.
Qed.
Lemma src_strings_bytes src m ss : src_strings src m ss -> Forall (Forall (fun b => 0 < b < 256)) ss.
Proof. intros H. apply Forall_lookup. intros n x Hn. apply (sa_bytes _ _ _ (H n x Hn)). Qed.

(** The gathered bytes, as the new program sees them. *)
Lemma new_space_bytes blank s page p l : holds s page p l -> 0 <= p ->
  p + Z.of_nat (length l) <= 131072 -> forall j b, l !! j = Some b ->
  new_space blank page 0x4000000 (mem s) (p + (0x4000000 - 131072) + Z.of_nat j) = b.
Proof.
  intros Hh Hp Htop j b Hj. destruct (Hh j b Hj) as [Hne <-]. apply lookup_lt_Some in Hj.
  unfold new_space, MAX_ARG_PAGES. change PAGE_SIZE with 4096. cbv zeta.
  replace (p + (0x4000000 - 131072) + Z.of_nat j - (0x4000000 - 32 * 4096)) with (p + Z.of_nat j) by lia.
  rewrite (proj2 (Z.leb_le _ _)), (proj2 (Z.ltb_lt _ _)) by lia. unfold truth.
  unfold in_pages in Hne. by rewrite (proj2 (Z.eqb_neq _ _)).
Qed.

Lemma pages_ok_none s : pages_ok s (repeat 0 32).
Proof.
  assert (H : forall i, nth i (repeat 0 32) 0 = 0).
  { intros i. apply nth_repeat. }
  split; [done|..]; intros i; rewrite H; lia.
Qed.
Lemma holds_none s page p : holds s page p [].
Proof. by intros j b Hj. Qed.

Section arguments.
Context (k : K) (w : world K) (args envs : list (list Z)) (argv envp : Z).
Context (Ha : src_strings (UserArgs argv) (umem k) args) (He : src_strings (UserArgs envp) (umem k) envs).
Context (Hl : Z.of_nat (length (strings args)) + Z.of_nat (length (strings envs)) < 131068).

Definition gather_args : M K (Z * list Z) :=
  copy_args (Z.of_nat (length args)) (Z.of_nat (length envs)) argv envp (repeat 0 32)
    (PAGE_SIZE * MAX_ARG_PAGES - 4).
Lemma gather_args_run : exists p page s, gather_args k w = Ret (p, page) (with_mm s k) w /\
  pages_ok s page /\ grows (k_mm k) (repeat 0 32) s page /\
  ((p = 0 /\ no_free_page s) \/
   (p = 131068 - Z.of_nat (length (strings (args ++ envs))) /\ holds s page p (strings (args ++ envs)))).
Proof using All.
  unfold gather_args, copy_args. change (PAGE_SIZE * MAX_ARG_PAGES - 4) with 131068.
  destruct (copy_strings_run (UserArgs envp) envs k (repeat 0 32) 131068 [] w (pages_ok_none _)
    (holds_none _ _ _) ltac:(simpl; lia) ltac:(lia) He)
    as [(s & page & E & [Hok Hh Hg]) | (s & page & E & Hn & Hok & Hg)];
    rewrite (run_ret _ _ _ _ _ _ _ E).
  2: { exists 0, page, s. split; [done|]. split; [done|]. split; [done|]. by left. }
  rewrite app_nil_r in Hh. set (p1 := 131068 - Z.of_nat (length (strings envs))) in *.
  destruct (copy_strings_run (UserArgs argv) args (with_mm s k) page p1 (strings envs) w Hok Hh
    ltac:(lia) ltac:(lia) Ha)
    as [(s2 & page2 & E2 & [Hok2 Hh2 Hg2]) | (s2 & page2 & E2 & Hn & Hok2 & Hg2)]; rewrite E2.
  - eexists _, page2, s2. split; [done|]. split; [done|]. split; [by eapply grows_trans|].
    right. rewrite strings_app, length_app. split; [lia|done].
  - exists 0, page2, s2. split; [done|]. split; [done|]. split; [by eapply grows_trans|]. by left.
Qed.

Lemma program_stack blank s page p k2 w2 : pages_ok s page ->
  p = 131068 - Z.of_nat (length (strings (args ++ envs))) -> holds s page p (strings (args ++ envs)) ->
  umem k2 = new_space blank page 0x4000000 (mem s) ->
  exists m r, create_tables (u32 (p + (0x4000000 - MAX_ARG_PAGES * PAGE_SIZE)))
      (Z.of_nat (length args)) (Z.of_nat (length envs)) k2 w2 = Ret r (with_umem m k2) w2 /\
    stack_at m r args envs /\ r mod 4 = 0.
Proof using Ha He Hl.
  intros Hok Hp Hh Hu. change (MAX_ARG_PAGES * PAGE_SIZE) with 131072.
  rewrite strings_app, length_app in Hp.
  assert (Hs : strs_at (umem k2) (p + (0x4000000 - 131072)) (args ++ envs)).
  { rewrite Hu. apply strs_at_bytes.
    - apply Forall_app. split; [by eapply src_strings_bytes|by eapply src_strings_bytes].
    - apply (new_space_bytes _ s page p); [done|lia|rewrite strings_app, length_app; lia].
    - lia.
    - rewrite strings_app, length_app. lia. }
  rewrite u32_small by lia.
  destruct (create_tables_run k2 w2 (umem k2) (p + (0x4000000 - 131072)) args envs Hs) as (m & E & Hst & _);
    [rewrite strings_app, length_app; lia|lia|rewrite strings_app, length_app; lia|].
  assert (Ek : with_umem (umem k2) k2 = k2) by (by destruct k2). rewrite Ek in E.
  eexists m, _. split; [exact E|]. split; [done|].
  pose proof (length_strings args). pose proof (length_strings envs). zlia.
Qed.
End arguments.

(** ** Counting the arguments *)

(** The array of pointers at [argv], with its null pointer. *)
Record user_args (m : Z -> Z) (argv : Z) (ss : list (list Z)) : Prop := {
  ua_strings : src_strings (UserArgs argv) m ss;
  ua_null : user_long m (u32 (argv + 4 * Z.of_nat (length ss))) = 0;
  ua_range : 0 < argv < 2 ^ 32;
}.
Lemma count_from_run k w n : forall i argv fuel, (n < fuel)%nat ->
  (forall j, (j < n)%nat -> user_long (umem k) (u32 (argv + 4 * (i + Z.of_nat j))) <> 0) ->
  user_long (umem k) (u32 (argv + 4 * (i + Z.of_nat n))) = 0 ->
  count_from fuel (u32 (argv + 4 * i)) k w = Ret (Z.of_nat n) k w.
Proof.
  induction n as [|n IH]; intros i argv [|fuel] Hf Hne He; try lia; cbn [count_from];
    unfold get_fs_long; rewrite run_gets; fold (user_long (umem k) (u32 (argv + 4 * i))).
  - rewrite Z.add_0_r in He. by rewrite He.
  - assert (H0 : user_long (umem k) (u32 (argv + 4 * i)) <> 0).
    { specialize (Hne 0%nat ltac:(lia)). by rewrite Z.add_0_r in Hne. }
    unfold truth. rewrite (proj2 (Z.eqb_neq _ _) H0). cbn [negb].
    replace (u32 (u32 (argv + 4 * i) + 4)) with (u32 (argv + 4 * (i + 1)))
      by (unfold u32; rewrite Zplus_mod_idemp_l; f_equal; lia).
    rewrite (run_ret _ _ _ _ _ _ _ (IH (i + 1) argv fuel ltac:(lia)
      ltac:(intros j Hj; replace (i + 1 + Z.of_nat j) with (i + Z.of_nat (S j)) by lia; apply Hne; lia)
      ltac:(replace (i + 1 + Z.of_nat n) with (i + Z.of_nat (S n)) by lia; exact He))).
    replace (Z.of_nat n + 1) with (Z.of_nat (S n)) by lia. done.
Qed.
Lemma count_run k w argv ss : user_args (umem k) argv ss -> Z.of_nat (length (strings ss)) <= 131072 ->
  count argv k w = Ret (Z.of_nat (length ss)) k w.
Proof.
  intros [Hs Hn Hr] Hl. unfold count, truth. rewrite (proj2 (Z.eqb_neq argv 0)) by lia. cbn [negb].
  pose proof (length_strings ss).
  replace argv with (u32 (argv + 4 * 0)) by (rewrite Z.mul_0_r, Z.add_0_r; apply u32_small; lia).
  apply count_from_run; [apply ARG_FUEL_enough; lia| |done].
  intros j Hj. destruct (lookup_lt_is_Some_2 ss j Hj) as [x Hx].
  pose proof (sa_range _ _ _ (Hs j x Hx)) as [Hp _]. simpl in Hp. rewrite Z.add_0_l. lia.
Qed.

(** ** Giving the pages back *)



(** C10. fs/exec.c: what the caller of execve passes is what the new program finds.  For
    argument and environment strings of together less than 131068 bytes, count finds
    their numbers; copy_strings gathers them in fresh pages, changing no other memory,
    or fails for want of a page; and when these pages are the last ones of the new
    program's memory, create_tables leaves on its stack the number of arguments and
    null-terminated tables that point to the same strings in the same order, at an
    address that is a multiple of four, whatever is in the other pages. *)
Theorem execve_arguments k w args envs argv envp :
  user_args (umem k) argv args -> user_args (umem k) envp envs ->
  Z.of_nat (length (strings args)) + Z.of_nat (length (strings envs)) < 131068 ->
  count argv k w = Ret (Z.of_nat (length args)) k w /\
  count envp k w = Ret (Z.of_nat (length envs)) k w /\
  exists p page s,
    copy_args (Z.of_nat (length args)) (Z.of_nat (length envs)) argv envp (repeat 0 32)
      (PAGE_SIZE * MAX_ARG_PAGES - 4) k w = Ret (p, page) (with_mm s k) w /\
    grows (k_mm k) (repeat 0 32) s page /\
    ((p = 0 /\ no_free_page s) \/
     (p <> 0 /\ forall blank k2 w2, umem k2 = new_space blank page 0x4000000 (mem s) ->
        exists m r, create_tables (u32 (p + (0x4000000 - MAX_ARG_PAGES * PAGE_SIZE)))
            (Z.of_nat (length args)) (Z.of_nat (length envs)) k2 w2 = Ret r (with_umem m k2) w2 /\
          stack_at m r args envs /\ r mod 4 = 0)).
Proof.
  intros Ha He Hl. split; [apply count_run; [done|lia]|]. split; [apply count_run; [done|lia]|].
  destruct (gather_args_run k w args envs argv envp (ua_strings _ _ _ Ha) (ua_strings _ _ _ He) Hl)
    as (p & page & s & E & Hok & Hg & Hp).
  exists p, page, s. split; [exact E|]. split; [done|].
  destruct Hp as [Hp | [Hp Hh]]; [by left|right].
  split; [rewrite strings_app, length_app in Hp; lia|]. intros blank k2 w2 Hu.
  apply (program_stack k args envs argv envp (ua_strings _ _ _ Ha) (ua_strings _ _ _ He) Hl blank s page p); done.
Qed.


(** A caller with one argument and one environment string. *)
Definition exec_sample : K :=
  fork_sample
    <| k_mm := Mm (fun _ => 0) (fun i => if i <? 3820 then 100 else 0) (16 * 1024 * 1024) |>
    <| umem := fun a => nth (Z.to_nat a)
         (repeat 0 16 ++ [64; 0; 0; 0; 0; 0; 0; 0; 70; 0; 0; 0; 0; 0; 0; 0] ++ repeat 0 32 ++
          [115; 104; 0; 0; 0; 0; 97; 61; 98; 0]) 0 |>.
Definition sh_args : list (list Z) := [[115; 104]].
Definition sh_envs : list (list Z) := [[97; 61; 98]].
Lemma exec_sample_args :
  user_args (umem exec_sample) 16 sh_args /\ user_args (umem exec_sample) 24 sh_envs.
Proof.
  split; (split; [|reflexivity|lia]); intros [|n] x Hx; try done; injection Hx as <-;
    (split; [repeat constructor; lia|split; vm_compute; reflexivity| |reflexivity]);
    intros [|[|[|i]]] b Hb; try done; injection Hb as <-; reflexivity.
Qed.
Lemma execve_arguments_witness : exists p page s,
  copy_args (Z.of_nat (length sh_args)) (Z.of_nat (length sh_envs)) 16 24 (repeat 0 32) (PAGE_SIZE * MAX_ARG_PAGES - 4) exec_sample (World [] []) =
    Ret (p, page) (with_mm s exec_sample) (World [] []) /\
  forall blank k2 w2, umem k2 = new_space blank page 0x4000000 (mem s) -> p <> 0 ->
    exists m r, create_tables (u32 (p + (0x4000000 - MAX_ARG_PAGES * PAGE_SIZE))) (Z.of_nat (length sh_args)) (Z.of_nat (length sh_envs)) k2 w2 =
      Ret r (with_umem m k2) w2 /\ stack_at m r sh_args sh_envs.
Proof.
  destruct exec_sample_args as [Ha He].
  destruct (execve_arguments exec_sample (World [] []) sh_args sh_envs 16 24 Ha He)
    as (_ & _ & p & page & s & E & _ & H); [vm_compute; reflexivity|].
  exists p, page, s. split; [exact E|]. intros blank k2 w2 Hu Hp.
  destruct H as [[E0 _] | [_ H]]; [destruct (Hp E0)|]. destruct (H blank k2 w2 Hu) as (m & r & E2 & Hst & _).
  exists m, r. exact (conj E2 Hst).
Defined.
