(* ===== verification/Script.v ===== *)
(** The first line of a script and the header of a binary, fs/exec.c: theorems. *)
From S2P Require Import Prelude Sched Kernel Strings Exec.

(** ** The line of a script *)

Lemma strncpy_bytes_prefix l rest : forall n, Forall (fun c => c <> 0) l -> (length l <= n)%nat ->
  strncpy_bytes n (l ++ rest) = l ++ strncpy_bytes (n - length l) rest.
Proof.
  induction l as [|c l IH]; intros n Hl Hn; [by rewrite Nat.sub_0_r|].
  apply Forall_cons in Hl as [Hc Hl]. destruct n as [|n]; [simpl in Hn; lia|].
  cbn [app strncpy_bytes length]. rewrite (proj2 (Z.eqb_neq c 0)) by done.
  rewrite IH by (done || simpl in Hn; lia). done.
Qed.
Lemma strchr_at_found l c rest : c <> 0 -> Forall (fun x => x <> c /\ x <> 0) l ->
  strchr_at (l ++ c :: rest) c = Some (length l).
Proof.
  intros Hc. induction 1 as [|x l [Hx H0] _ IH]; cbn [app strchr_at length].
  - by rewrite Z.eqb_refl.
  - by rewrite (proj2 (Z.eqb_neq x c)), (proj2 (Z.eqb_neq x 0)), IH by done.
Qed.
Lemma strchr_at_none l c rest : c <> 0 -> Forall (fun x => x <> c) l ->
  strchr_at (l ++ 0 :: rest) c = None.
Proof.
  intros Hc. induction 1 as [|x l Hx _ IH]; cbn [app strchr_at].
  - rewrite (proj2 (Z.eqb_neq 0 c)) by congruence. done.
  - rewrite (proj2 (Z.eqb_neq x c)) by done. destruct (x =? 0); [done|]. by rewrite IH.
Qed.
Lemma skip_blanks_app blanks l : Forall (fun c => is_blank c = true) blanks ->
  skip_blanks (blanks ++ l) = skip_blanks l.
Proof. induction 1 as [|c b Hc _ IH]; [done|]. cbn [app skip_blanks]. by rewrite Hc. Qed.

(** A character of a path: no blank, no end. *)
Definition path_char (c : Z) : Prop := is_blank c = false /\ c <> 10 /\ c <> 0.
(** What split_interp makes of the rest of the line. *)
Definition arg_of (l : list Z) : option (list Z) := match l with [] => None | _ :: a => Some a end.
Lemma split_interp_base base tail : forall name, Forall (fun c => path_char c /\ c <> 47) base ->
  match tail with [] => True | b :: _ => is_blank b = true end ->
  split_interp (base ++ tail) name = (base, name ++ base, arg_of tail).
Proof.
  induction base as [|c base IH]; intros name Hb Ht; cbn [app].
  - rewrite app_nil_r. destruct tail as [|b a]; [done|]. cbn [split_interp]. by rewrite Ht.
  - apply Forall_cons in Hb as [[[Hc _] Hs] Hb]. cbn [split_interp].
    rewrite Hc, (proj2 (Z.eqb_neq c 47)) by done. rewrite IH by done. by rewrite <- app_assoc.
Qed.
Lemma split_interp_dir dir base tail : forall name, Forall path_char dir ->
  Forall (fun c => path_char c /\ c <> 47) base -> last dir = Some 47 ->
  match tail with [] => True | b :: _ => is_blank b = true end ->
  split_interp (dir ++ base ++ tail) name = (dir ++ base, base, arg_of tail).
Proof.
  induction dir as [|c dir IH]; intros name Hd Hb Hl Ht; [done|].
  apply Forall_cons in Hd as [[Hc _] Hd]. cbn [app split_interp]. rewrite Hc.
  destruct dir as [|c' dir].
  - injection Hl as ->. rewrite Z.eqb_refl. cbn [app]. by rewrite (split_interp_base base tail []).
  - by rewrite (IH _ Hd Hb Hl Ht).
Qed.

(** C27. fs/exec.c do_execve, the first line of a script: of "#!", blanks, a path and, behind
    a blank, an argument, ended by a newline in the first 1024 bytes, the interpreter is
    the path, the name it gets is what stands behind the path's last slash, and the
    argument is all the rest of the line. *)
Theorem parse_script_line blanks dir base tail rest :
  Forall (fun c => is_blank c = true) blanks ->
  Forall path_char dir -> Forall (fun c => path_char c /\ c <> 47) base ->
  dir = [] \/ last dir = Some 47 -> dir ++ base <> [] ->
  match tail with [] => True | b :: _ => is_blank b = true end ->
  Forall (fun c => c <> 10 /\ c <> 0) tail ->
  (length (blanks ++ dir ++ base ++ tail) < 1022)%nat ->
  parse_script (35 :: 33 :: (blanks ++ dir ++ base ++ tail) ++ 10 :: rest) =
    Some (dir ++ base, base, arg_of tail).
Proof.
  intros Hbl Hd Hb Hdir Hne Ht Htc Hlen. unfold parse_script.
  set (line := blanks ++ dir ++ base ++ tail) in *.
  replace (drop 2 (35 :: 33 :: line ++ 10 :: rest)) with (line ++ 10 :: rest) by done.
  assert (Hline : Forall (fun x => x <> 10 /\ x <> 0) line).
  { repeat apply Forall_app_2; [| | |done].
    - eapply Forall_impl; [exact Hbl|]. unfold is_blank. intros c Hc. simpl in Hc. lia.
    - eapply Forall_impl; [exact Hd|]. by intros c (_ & ? & ?).
    - eapply Forall_impl; [exact Hb|]. by intros c [(_ & ? & ?) _]. }
  rewrite strncpy_bytes_prefix;
    [|by eapply Forall_impl; [exact Hline|]; intros c [_ ?]|unfold line in *; lia].
  destruct (1022 - length line)%nat as [|n] eqn:En; [unfold line in *; lia|].
  cbn [strncpy_bytes]. change (10 =? 0) with false. cbv iota. rewrite <- app_assoc. cbn [app].
  rewrite strchr_at_found by done. rewrite take_app_length. unfold line.
  rewrite skip_blanks_app by done.
  assert (Hs : skip_blanks (dir ++ base ++ tail) = dir ++ base ++ tail).
  { destruct dir as [|c dir]; [destruct base as [|c base]; [done|]|]; cbn [app skip_blanks].
    - apply Forall_cons in Hb as [[[-> _] _] _]. done.
    - apply Forall_cons in Hd as [[-> _] _]. done. }
  rewrite Hs. destruct (dir ++ base ++ tail) as [|c cp] eqn:E.
  { rewrite app_assoc in E. apply app_eq_nil in E as [E _]. done. }
  rewrite <- E. f_equal. destruct Hdir as [-> | Hl].
  - by apply (split_interp_base base tail []).
  - by apply split_interp_dir.
Qed.
Lemma parse_script_line_witness :
  parse_script ([35; 33; 32; 47; 98; 105; 110; 47; 115; 104; 32; 45; 120; 10] ++ [1; 2]) =
    Some ([47; 98; 105; 110; 47; 115; 104], [115; 104], Some [45; 120]).
Proof.
  apply (parse_script_line [32] [47; 98; 105; 110; 47] [115; 104] [32; 45; 120] [1; 2]).
  - by repeat constructor.
  - by repeat constructor.
  - by repeat constructor.
  - by right.
  - done.
  - done.
  - by repeat constructor.
  - simpl. lia.
Defined.

Lemma Forall_repeat {A} (P : A -> Prop) x n : P x -> Forall P (repeat x n).
Proof. intros H. induction n; constructor; auto. Qed.
(** Without a newline in the first 1024 bytes the file is turned down. *)
Lemma parse_script_no_newline data : Forall (fun c => c <> 10) (take 1022 (drop 2 data)) ->
  parse_script data = None.
Proof.
  intros H. unfold parse_script.
  assert (Hn : forall n l, Forall (fun c => c <> 10) (take n l) ->
    Forall (fun c => c <> 10) (strncpy_bytes n l)).
  { intros n. induction n as [|n IH]; intros l Hl; [by destruct l|].
    destruct l as [|c l]; [cbn [strncpy_bytes]; by apply Forall_repeat|].
    cbn [strncpy_bytes take] in *. apply Forall_cons in Hl as [Hc Hl]. constructor; [done|].
    destruct (c =? 0); [by apply Forall_repeat|by apply IH]. }
  rewrite (strchr_at_none _ 10 []); [done|done|by apply Hn].
Qed.

(** ** The header of a binary *)

(** A text of 4 GB less a page, with a page of data behind it: both sums are small. *)
Lemma header_wraps : exists x, bad_header x 2048 = false /\ 0x3000000 < a_text x.
Proof. exists (Header ZMAGIC 0xfffff000 0x1000 0 0 0 0 0). by vm_compute. Qed.
