(* ===== verification/Exit.v ===== *)
(** Ending processes and signals: [kernel/exit.c] and [kernel/signal.c]. *)
From S2P Require Import Prelude Sched Mm Kernel Fork Blk Buffer Bitmap Inode Rw Namei Dir Super Open.

Definition SIGHUP : Z := 1.
Definition SIGCHLD : Z := 17.
Definition SA_NOMASK : Z := 0x40000000.
Definition SA_ONESHOT : Z := 0x80000000.
Definition WNOHANG : Z := 1.
Definition WUNTRACED : Z := 2.

Definition upd_slot (i : nat) (f : task_struct -> task_struct) : K -> K :=
  fun k => k <| k_sched ::= upd_task i f |>.
Definition slot (k : K) (i : nat) : option task_struct := task_at (k_sched k) i.
(** [for (p = &LAST_TASK; p > &FIRST_TASK; --p)] *)
Definition slots_down : list nat := reverse (seq 1 63).
Definition sig_bit (sig : Z) : Z := 1 .<< (sig - 1).

(** kernel/exit.c:19-33 [release] *)
Definition release (p : nat) : M K unit :=
  k ← get ;
  if (1 <=? p)%nat && bool_decide (slot k p <> None) then
    modify (fun k => k <| k_sched ::= fun s => s <| task ::= <[p := None]> |> |>) ;;
    in_mm (free_page (get_byte (task_page k) p)) ;;
    reschedule
  else panic "trying to release non-existent task".

(** kernel/exit.c:35-44 [send_sig] *)
Definition send_sig (sig : Z) (p : nat) (priv : bool) : M K Z :=
  k ← get ;
  match slot k p with
  | None => mret (- EINVAL)
  | Some t =>
      if (sig <? 1) || (32 <? sig) then mret (- EINVAL) else
      if priv || (euid (cur k) =? euid t) || suser k then
        modify (upd_slot p (fun t => t <| signal ::= fun g => g .| sig_bit sig |>)) ;;
        mret 0
      else mret (- EPERM)
  end.

(** kernel/exit.c:46-54 [kill_session] *)
Definition kill_session : M K unit :=
  for_each slots_down (fun p =>
    k ← get ;
    match slot k p with
    | Some t => when (session t =? session (cur k))
        (modify (upd_slot p (fun t => t <| signal ::= fun g => g .| sig_bit SIGHUP |>)))
    | None => mret tt
    end).

(** kernel/exit.c:65-79 [sys_kill]: one of its loops; [sel] says which slots get
    the signal *)
Fixpoint kill_loop (ps : list nat) (sel : K -> nat -> bool) (sig : Z) (priv : bool)
    (retval : Z) : M K Z :=
  match ps with
  | [] => mret retval
  | p :: ps' =>
      k ← get ;
      if sel k p then
        err ← send_sig sig p priv ;
        kill_loop ps' sel sig priv (if truth err then err else retval)
      else kill_loop ps' sel sig priv retval
  end.
Definition has_task (f : K -> task_struct -> bool) (k : K) (p : nat) : bool :=
  match slot k p with Some t => f k t | None => false end.

(** kernel/exit.c:60-81 [sys_kill] *)
Definition sys_kill (pid_arg sig : Z) : M K Z :=
  if pid_arg =? 0 then
    kill_loop slots_down (has_task (fun k t => pgrp t =? pid (cur k))) sig true 0
  else if 0 <? pid_arg then
    kill_loop slots_down (has_task (fun k t => pid t =? pid_arg)) sig false 0
  else if pid_arg =? -1 then
    kill_loop slots_down (fun _ _ => true) sig false 0
  else
    kill_loop slots_down (has_task (fun k t => pgrp t =? - pid_arg)) sig false 0.

(** kernel/exit.c:83-100 [tell_father] *)
Definition tell_father (pid_arg : Z) : M K unit :=
  k ← get ;
  match (if pid_arg =? 0 then None else slot_of_pid 0 (task (k_sched k)) pid_arg) with
  | Some i =>
      modify (upd_slot i (fun t => t <| signal ::= fun g => g .| sig_bit SIGCHLD |>))
  | None =>
      printk "BAD BAD - no father found" [] ;;
      release (current (k_sched k))
  end.

Section exit.
Context `{SyncInodes} `{Devices} `{Drives}.

(** kernel/exit.c:107-113 [do_exit]: the children are given to task 1 *)
Definition orphan_children : M K unit :=
  for_each (seq 0 NR_TASKS) (fun i =>
    k ← get ;
    match slot k i with
    | Some t =>
        when (father t =? pid (cur k))
          (modify (upd_slot i (fun t => t <| father := 1 |>)) ;;
           when (state t =? TASK_ZOMBIE) (send_sig SIGCHLD 1 true ;; mret tt))
    | None => mret tt
    end).

(** kernel/exit.c:102-134 [do_exit]: the task does not run again *)
Definition do_exit {A} (code : Z) : M K A :=
  t ← gets cur ;
  in_mm (free_page_tables (get_base (ldt_of t 1)) (get_limit (ldt_of t 1))) ;;
  in_mm (free_page_tables (get_base (ldt_of t 2)) (get_limit (ldt_of t 2))) ;;
  orphan_children ;;
  for_each (seq 0 NR_OPEN) (fun i =>
    t ← gets cur ;
    match mjoin (filp t !! i) with
    | Some _ => sys_close (Z.of_nat i) ;; mret tt
    | None => mret tt
    end) ;;
  t ← gets cur ; iput (pwd t) ;; modify (upd_current (fun t => t <| pwd := None |>)) ;;
  t ← gets cur ; iput (root t) ;; modify (upd_current (fun t => t <| root := None |>)) ;;
  t ← gets cur ; iput (executable t) ;;
  modify (upd_current (fun t => t <| executable := None |>)) ;;
  t ← gets cur ;
  when (truth (leader t) && (0 <=? tty t))
    (modify (fun k => k <| tty_pgrp ::= <[Z.to_nat (tty t) := 0]> |>)) ;;
  modify (fun k => k <| k_sched ::= fun s =>
    if decide (last_task_used_math s = Some (current s))
    then s <| last_task_used_math := None |> else s |>) ;;
  when (truth (leader t)) kill_session ;;
  modify (upd_current (fun t => t <| state := TASK_ZOMBIE |> <| exit_code := code |>)) ;;
  t ← gets cur ;
  tell_father (father t) ;;
  next ← in_sched choose_next ;
  run_task next ;;
  exit_task code.

(** kernel/exit.c:136-139 [sys_exit] *)
Definition sys_exit (error_code : Z) : M K Z := do_exit ((error_code .& 0xff) .<< 8).

(** * [kernel/exit.c], waiting *)

(** kernel/exit.c:152-163 [sys_waitpid]: is [t] a child the caller asks for? *)
Definition wanted (me t : task_struct) (pid_arg : Z) : bool :=
  (father t =? pid me) &&
  (if 0 <? pid_arg then pid t =? pid_arg
   else if pid_arg =? 0 then pgrp t =? pgrp me
   else if negb (pid_arg =? -1) then pgrp t =? - pid_arg
   else true).

(** kernel/exit.c:149-182 [sys_waitpid]: the loop over the slots; [inl] is
    [return], [inr] is [flag] *)
Fixpoint wait_loop (ps : list nat) (pid_arg stat_addr options flag : Z) : M K (Z + Z) :=
  match ps with
  | [] => mret (inr flag)
  | p :: ps' =>
      k ← get ;
      match slot k p with
      | Some t =>
          if decide (p = current (k_sched k)) then wait_loop ps' pid_arg stat_addr options flag
          else if negb (wanted (cur k) t pid_arg)
          then wait_loop ps' pid_arg stat_addr options flag
          else if state t =? TASK_STOPPED then
            if negb (truth (options .& WUNTRACED))
            then wait_loop ps' pid_arg stat_addr options flag
            else put_fs_long 0x7f stat_addr ;; mret (inl (pid t))
          else if state t =? TASK_ZOMBIE then
            modify (upd_current (fun me =>
              me <| cutime ::= fun c => s32 (c + utime t) |>
                 <| cstime ::= fun c => s32 (c + stime t) |>)) ;;
            release p ;;
            put_fs_long (exit_code t) stat_addr ;;
            mret (inl (pid t))
          else wait_loop ps' pid_arg stat_addr options 1
      | None => wait_loop ps' pid_arg stat_addr options flag
      end
  end.

(** kernel/exit.c:141-194 [sys_waitpid]; every round but the last has given up the
    processor *)
Definition sys_waitpid (pid_arg stat_addr options : Z) : M K Z :=
  verify_area stat_addr 4 ;;
  repeat_awake (
    r ← wait_loop slots_down pid_arg stat_addr options 0 ;
    match r with
    | inl v => mret (Some v)
    | inr flag =>
        if negb (truth flag) then mret (Some (- ECHILD)) else
        if truth (options .& WNOHANG) then mret (Some 0) else
        modify (upd_current (fun t => t <| state := TASK_INTERRUPTIBLE |>)) ;;
        reschedule ;;
        modify (upd_current (fun t => t <| signal ::= fun g => g .& Z.lnot (sig_bit SIGCHLD) |>)) ;;
        t ← gets cur ;
        if truth (signal t) then mret (Some (- EINTR)) else mret None
    end).

(** * [kernel/signal.c] *)

(** kernel/signal.c:15-18 [sys_sgetmask] *)
Definition sys_sgetmask : M K Z := gets (fun k => blocked (cur k)).
(** kernel/signal.c:20-26 [sys_ssetmask] *)
Definition sys_ssetmask (newmask : Z) : M K Z :=
  old ← sys_sgetmask ;
  modify (upd_current (fun t => t <| blocked := newmask .& Z.lnot (sig_bit SIGKILL) |>)) ;;
  mret old.

Definition zero_action : sigaction := SigAction 0 0 0 0.
Definition action_of (t : task_struct) (sig : Z) : sigaction :=
  default zero_action (sigactions t !! Z.to_nat (sig - 1)).
Definition set_action (sig : Z) (a : sigaction) : M K unit :=
  modify (upd_current (fun t => t <| sigactions ::= <[Z.to_nat (sig - 1) := a]> |>)).
(** kernel/signal.c:52-52 [sys_signal] *)
Definition bad_signum (sig : Z) : bool := (sig <? 1) || (32 <? sig) || (sig =? SIGKILL).

(** The 16 bytes of a [struct sigaction]. *)
Definition action_bytes (a : sigaction) : list Z :=
  le_bytes 4 (sa_handler a) ++ le_bytes 4 (sa_mask a) ++ le_bytes 4 (sa_flags a) ++
  le_bytes 4 (sa_restorer a).
(** kernel/signal.c:28-38 [save_old] *)
Definition save_old (a : sigaction) (to : Z) : M K unit :=
  verify_area to 16 ;; put_fs_bytes (action_bytes a) to.
(** kernel/signal.c:40-46 [get_new] *)
Definition get_new (from : Z) : M K sigaction :=
  l ← get_fs_bytes 16 from ;
  let word i := le_value (take 4 (drop i l)) in
  mret (SigAction (word 0%nat) (word 4%nat) (word 8%nat) (word 12%nat)).

(** kernel/signal.c:48-61 [sys_signal] *)
Definition sys_signal (signum handler restorer : Z) : M K Z :=
  if bad_signum signum then mret (-1) else
  t ← gets cur ;
  set_action signum (SigAction handler 0 (SA_ONESHOT .| SA_NOMASK) restorer) ;;
  mret (sa_handler (action_of t signum)).

(** kernel/signal.c:62-79 [sys_sigaction] *)
Definition sys_sigaction (signum action oldaction : Z) : M K Z :=
  if bad_signum signum then mret (-1) else
  t ← gets cur ;
  a ← get_new action ;
  set_action signum a ;;
  when (truth oldaction) (save_old (action_of t signum) oldaction) ;;
  t ← gets cur ;
  let a := action_of t signum in
  set_action signum (a <| sa_mask := if truth (sa_flags a .& SA_NOMASK) then 0
                                     else sa_mask a .| sig_bit signum |>) ;;
  mret 0.

(** kernel/signal.c:81-118 [do_signal]: the new [eip] and [esp] of the frame *)
Definition do_signal (signr eax ecx edx eip eflags esp : Z) : M K (Z * Z) :=
  t ← gets cur ;
  let sa := action_of t signr in
  if sa_handler sa =? 1 then mret (eip, esp) else
  if sa_handler sa =? 0 then
    if signr =? SIGCHLD then mret (eip, esp) else do_exit (sig_bit signr)
  else
  when (truth (sa_flags sa .& SA_ONESHOT)) (set_action signr (sa <| sa_handler := 0 |>)) ;;
  let mask := negb (truth (sa_flags sa .& SA_NOMASK)) in
  let longs := if mask then 8 else 7 in
  let esp := u32 (esp - 4 * longs) in
  verify_area esp (longs * 4) ;;
  t ← gets cur ;
  let frame := [sa_restorer sa; signr] ++ (if mask then [blocked t] else []) ++
               [eax; ecx; edx; eflags; eip] in
  for_each (imap (fun i v => (i, v)) frame) (fun iv =>
    put_fs_long iv.2 (u32 (esp + 4 * Z.of_nat iv.1))) ;;
  modify (upd_current (fun t => t <| blocked ::= fun b => b .| sa_mask sa |>)) ;;
  mret (sa_handler sa, esp).
End exit.

(** * Properties *)

(** ** Permission to send a signal *)
Definition may_signal (me t : task_struct) : bool := (euid me =? euid t) || (euid me =? 0).
Definition add_signal (sig : Z) (t : task_struct) : task_struct :=
  t <| signal ::= fun g => g .| sig_bit sig |>.
(** What a task that the number [p] may name becomes. *)
Definition hit (me : task_struct) (p sig : Z) (t : task_struct) : task_struct :=
  if (pid t =? p) && may_signal me t then add_signal sig t else t.
Definition denied (me : task_struct) (p : Z) (o : option task_struct) : bool :=
  match o with Some t => (pid t =? p) && negb (may_signal me t) | None => false end.

Lemma slot_upd k i f j :
  slot (upd_slot i f k) j = if decide (j = i) then f <$> slot k i else slot k j.
Proof. unfold slot, upd_slot. simpl. apply task_at_upd. Qed.
Lemma cur_slot k : cur k = default (INIT_TASK 0 0) (slot k (current (k_sched k))).
Proof. done. Qed.

Lemma send_sig_run sig p k w t : 1 <= sig <= 32 -> slot k p = Some t ->
  send_sig sig p false k w =
    if may_signal (cur k) t then Ret 0 (upd_slot p (add_signal sig) k) w
    else Ret (- EPERM) k w.
Proof.
  intros Hs Ht. unfold send_sig. run. rewrite Ht.
  rewrite (proj2 (Z.ltb_ge _ _)), (proj2 (Z.ltb_ge _ _)) by lia. cbn [orb].
  unfold may_signal, suser. by destruct ((euid (cur k) =? euid t) || (euid (cur k) =? 0)).
Qed.

Lemma hit_euid me p sig t : euid (hit me p sig t) = euid t /\ pid (hit me p sig t) = pid t.
Proof. unfold hit. by destruct (_ && _). Qed.

Lemma kill_loop_pid p sig ps : NoDup ps -> 1 <= sig <= 32 -> forall k ret w,
  exists k', kill_loop ps (has_task (fun k t => pid t =? p)) sig false ret k w =
      Ret (if existsb (fun i => denied (cur k) p (slot k i)) ps then - EPERM else ret) k' w /\
    current (k_sched k') = current (k_sched k) /\
    forall j, slot k' j = if decide (j ∈ ps) then hit (cur k) p sig <$> slot k j else slot k j.
Proof.
  intros Hnd Hs. induction Hnd as [|i ps Hi Hnd IH]; intros k ret w.
  { exists k. split; [done|]. split; [done|]. intros j. by rewrite decide_False by set_solver. }
  cbn [kill_loop existsb]. run. unfold has_task at 1.
  assert (Hskip : denied (cur k) p (slot k i) = false -> hit (cur k) p sig <$> slot k i = slot k i ->
    exists k', kill_loop ps (has_task (fun k t => pid t =? p)) sig false ret k w =
      Ret (if existsb (fun i => denied (cur k) p (slot k i)) ps then - EPERM else ret) k' w /\
    current (k_sched k') = current (k_sched k) /\
    forall j, slot k' j = if decide (j ∈ i :: ps) then hit (cur k) p sig <$> slot k j else slot k j).
  { intros _ Hh. destruct (IH k ret w) as (k' & E & Hc & Hj). exists k'. split; [done|].
    split; [done|]. intros j. rewrite Hj. destruct (decide (j = i)) as [-> | Hne].
    - rewrite decide_False by done. by rewrite decide_True by set_solver.
    - destruct (decide (j ∈ ps)); [by rewrite decide_True by set_solver|].
      by rewrite decide_False by set_solver. }
  destruct (slot k i) as [t|] eqn:Et; [|by apply Hskip].
  destruct (pid t =? p) eqn:Ep.
  2:{ assert (Hd : denied (cur k) p (Some t) = false) by (simpl; by rewrite Ep).
      rewrite Hd. apply Hskip; [done|]. simpl. unfold hit. by rewrite Ep. }
  destruct (may_signal (cur k) t) eqn:Em.
  - assert (Esend : send_sig sig i false k w = Ret 0 (upd_slot i (add_signal sig) k) w)
      by (rewrite (send_sig_run sig i k w t) by done; by rewrite Em).
    rewrite (run_ret _ _ _ _ _ _ _ Esend). change (truth 0) with false. cbn iota.
    set (k1 := upd_slot i (add_signal sig) k).
    assert (Hs1 : forall j, slot k1 j = if decide (j = i) then add_signal sig <$> slot k i else slot k j)
      by (intros j; apply slot_upd).
    assert (He : forall q u, may_signal (cur k1) u = may_signal (cur k) u /\
      hit (cur k1) p sig u = hit (cur k) p sig u /\ denied (cur k1) q (Some u) = denied (cur k) q (Some u)).
    { assert (Ee : euid (cur k1) = euid (cur k)).
      { rewrite !cur_slot. change (current (k_sched k1)) with (current (k_sched k)).
        rewrite Hs1. destruct (decide _) as [-> | ]; [|done]. by rewrite Et. }
      intros q u. unfold hit, denied, may_signal. by rewrite Ee. }
    destruct (IH k1 ret w) as (k' & E & Hc & Hj). exists k'. split; [|split; [done|]].
    + rewrite E. simpl. rewrite Ep, Em. cbn [andb negb orb].
      replace (existsb (fun i0 => denied (cur k1) p (slot k1 i0)) ps)
        with (existsb (fun i0 => denied (cur k) p (slot k i0)) ps); [done|].
      apply eq_bool_prop_intro. rewrite !Is_true_true, !existsb_exists.
      assert (Hd : forall x, x ∈ ps -> denied (cur k1) p (slot k1 x) = denied (cur k) p (slot k x)).
      { intros x Hx. rewrite Hs1, decide_False by (intros ->; done).
        destruct (slot k x); [apply He|done]. }
      split; intros (x & Hx & Hxd); exists x; (split; [done|]);
        apply list_elem_of_In in Hx; by rewrite Hd in * || rewrite <- Hd.
    + intros j. rewrite Hj, !Hs1. destruct (decide (j = i)) as [-> | Hne].
      * rewrite decide_False by done. rewrite decide_True by set_solver. rewrite Et. simpl.
        unfold hit. by rewrite Ep, Em.
      * destruct (decide (j ∈ ps)).
        -- rewrite decide_True by set_solver. destruct (slot k j); [|done]. simpl. f_equal. apply He; exact 0.
        -- by rewrite decide_False by set_solver.
  - assert (Esend : send_sig sig i false k w = Ret (- EPERM) k w)
      by (rewrite (send_sig_run sig i k w t) by done; by rewrite Em).
    rewrite (run_ret _ _ _ _ _ _ _ Esend). change (truth (- EPERM)) with true. cbn iota.
    destruct (IH k (- EPERM) w) as (k' & E & Hc & Hj). exists k'. split; [|split; [done|]].
    + rewrite E. simpl. rewrite Ep, Em. simpl. by destruct (existsb _ ps).
    + intros j. rewrite Hj. destruct (decide (j = i)) as [-> | Hne].
      * rewrite decide_False by done. rewrite decide_True by set_solver. rewrite Et. simpl.
        unfold hit. by rewrite Ep, Em.
      * destruct (decide (j ∈ ps)); [by rewrite decide_True by set_solver|].
        by rewrite decide_False by set_solver.
Qed.

Lemma slots_down_in j : j ∈ slots_down <-> (1 <= j < 64)%nat.
Proof. unfold slots_down. rewrite elem_of_reverse, elem_of_seq. lia. Qed.

(** C26. [sys_kill] with the number of a process: the signal is added to the pending
    ones of every task of that number, task 0 apart, that the caller may signal (same
    effective user, or superuser) and to no other task; the result is [-EPERM] when
    some such task may not be signalled, else 0. *)
Theorem sys_kill_process p sig k w : 0 < p -> 1 <= sig <= 32 ->
  exists r k', sys_kill p sig k w = Ret r k' w /\
    (forall j, slot k' j = if decide (1 <= j < 64)%nat
       then (fun t => if (pid t =? p) && may_signal (cur k) t then add_signal sig t else t)
              <$> slot k j
       else slot k j) /\
    (r = - EPERM /\ (exists j t, (1 <= j < 64)%nat /\ slot k j = Some t /\ pid t = p /\
                       may_signal (cur k) t = false) \/
     r = 0 /\ forall j t, (1 <= j < 64)%nat -> slot k j = Some t -> pid t = p ->
                may_signal (cur k) t = true).
Proof.
  intros Hp Hs. unfold sys_kill. rewrite (proj2 (Z.eqb_neq _ _)), (proj2 (Z.ltb_lt _ _)) by lia.
  assert (Hnd : NoDup slots_down) by (unfold slots_down; rewrite reverse_Permutation; apply NoDup_seq).
  destruct (kill_loop_pid p sig slots_down Hnd Hs k 0 w) as (k' & E & _ & Hj).
  eexists _, k'. split; [exact E|]. split.
  - intros j. rewrite Hj. destruct (decide (j ∈ slots_down)) as [H|H].
    + rewrite slots_down_in in H. by rewrite decide_True.
    + rewrite slots_down_in in H. by rewrite decide_False.
  - destruct (existsb (fun i => denied (cur k) p (slot k i)) slots_down) eqn:Ed.
    + left. split; [done|]. apply existsb_exists in Ed as (j & Hin & Hd).
      apply list_elem_of_In, slots_down_in in Hin. destruct (slot k j) as [t|] eqn:Et; [|done].
      simpl in Hd. apply andb_true_iff in Hd as [Hp' Hm]. exists j, t.
      split; [done|]. split; [done|]. split; [by apply Z.eqb_eq|by apply negb_true_iff].
    + right. split; [done|]. intros j t Hjr Ht Hpt. destruct (may_signal (cur k) t) eqn:Em; [done|].
      assert (existsb (fun i => denied (cur k) p (slot k i)) slots_down = true); [|congruence].
      apply existsb_exists. exists j. split; [by apply list_elem_of_In, slots_down_in|].
      rewrite Ht. simpl. by rewrite Em, (proj2 (Z.eqb_eq _ _)) by done.
Qed.

Lemma sys_kill_process_witness : exists r k',
  sys_kill 1 9 fork_sample (World [] []) = Ret r k' (World [] []) /\
  slot k' 1 = Some (add_signal 9 (INIT_TASK 0 0 <| pid := 1 |> <| uid := 5 |> <| euid := 6 |>)).
Proof.
  destruct (sys_kill_process 1 9 fork_sample (World [] [])) as (r & k' & E & H & _).
  - lia.
  - lia.
  - exists r, k'. split; [exact E|]. rewrite (H 1%nat), decide_True by lia. reflexivity.
Defined.

(** [kill(-1, sig)]: the loop sends the signal to the empty slots too, so the call
    answers [-EINVAL] whenever slot 1 is empty, whoever was signalled. *)
Theorem sys_kill_all_empty_slot sig k w : slot k 1 = None ->
  exists k', sys_kill (-1) sig k w = Ret (- EINVAL) k' w.
Proof.
  intros H1. unfold sys_kill. simpl.
  assert (Hgen : forall ps k ret w, slot k 1 = None ->
    exists k', kill_loop (ps ++ [1%nat]) (fun _ _ => true) sig false ret k w = Ret (- EINVAL) k' w).
  { induction ps as [|i ps IH]; intros k0 ret w0 Hk0.
    - simpl. unfold send_sig. run. rewrite Hk0. run. by exists k0.
    - cbn [app kill_loop]. run.
      assert (exists e k1, send_sig sig i false k0 w0 = Ret e k1 w0 /\ slot k1 1 = None)
        as (e & k1 & Es & Hk1).
      { unfold send_sig. run. destruct (slot k0 i) as [t|] eqn:Et; [|by exists (- EINVAL), k0].
        destruct (_ || _); [by exists (- EINVAL), k0|].
        destruct (_ || suser k0); run; [|by exists (- EPERM), k0].
        eexists 0, _. split; [done|]. rewrite slot_upd. destruct (decide (1%nat = i)) as [<- | ]; [|done].
        congruence. }
      rewrite (run_ret _ _ _ _ _ _ _ Es). by apply IH. }
  destruct (Hgen (reverse (seq 2 62)) k 0 w H1) as [k' E]. exists k'. exact E.
Qed.
Lemma sys_kill_all_empty_slot_witness : exists k',
  sys_kill (-1) 9 (fork_sample <| k_sched ::= fun s => s <| task := [Some (INIT_TASK 0 0)] |> |>)
    (World [] []) = Ret (- EINVAL) k' (World [] []).
Proof. apply sys_kill_all_empty_slot. reflexivity. Defined.
