(* ===== verification/Sys.v ===== *)
(** The remaining system calls: [kernel/sys.c]. *)
From S2P Require Import Prelude Sched Mm Kernel Fork Blk Buffer Bitmap Inode Rw.

(** ** Not implemented *)
(** kernel/sys.c:16-19 [sys_ftime] *)
Definition sys_ftime : M K Z := mret (- ENOSYS).
(** kernel/sys.c:21-24 [sys_break] *)
Definition sys_break : M K Z := mret (- ENOSYS).
(** kernel/sys.c:26-29 [sys_ptrace] *)
Definition sys_ptrace : M K Z := mret (- ENOSYS).
(** kernel/sys.c:31-34 [sys_stty] *)
Definition sys_stty : M K Z := mret (- ENOSYS).
(** kernel/sys.c:36-39 [sys_gtty] *)
Definition sys_gtty : M K Z := mret (- ENOSYS).
(** kernel/sys.c:41-44 [sys_rename] *)
Definition sys_rename : M K Z := mret (- ENOSYS).
(** kernel/sys.c:46-49 [sys_prof] *)
Definition sys_prof : M K Z := mret (- ENOSYS).
(** kernel/sys.c:77-80 [sys_acct] *)
Definition sys_acct : M K Z := mret (- ENOSYS).
(** kernel/sys.c:82-85 [sys_phys] *)
Definition sys_phys : M K Z := mret (- ENOSYS).
(** kernel/sys.c:87-90 [sys_lock] *)
Definition sys_lock : M K Z := mret (- ENOSYS).
(** kernel/sys.c:92-95 [sys_mpx] *)
Definition sys_mpx : M K Z := mret (- ENOSYS).
(** kernel/sys.c:97-100 [sys_ulimit] *)
Definition sys_ulimit : M K Z := mret (- ENOSYS).

(** kernel/sys.c:51-70 [sys_setregid] *)
Definition sys_setregid (rgid_arg egid_arg : Z) : M K Z :=
  ok ← (if 0 <? rgid_arg then
          k ← get ;
          if (gid (cur k) =? rgid_arg) || suser k
          then modify (upd_current (fun t => t <| gid := u16 rgid_arg |>)) ;; mret true
          else mret false
        else mret true) ;
  if negb ok then mret (- EPERM) else
  if 0 <? egid_arg then
    k ← get ;
    let t := cur k in
    if (gid t =? egid_arg) || (egid t =? egid_arg) || (sgid t =? egid_arg) || suser k
    then modify (upd_current (fun t => t <| egid := u16 egid_arg |>)) ;; mret 0
    else mret (- EPERM)
  else mret 0.

(** kernel/sys.c:72-75 [sys_setgid] *)
Definition sys_setgid (g : Z) : M K Z := sys_setregid g g.

(** kernel/sys.c:102-112 [sys_time] *)
Definition sys_time (tloc : Z) : M K Z :=
  i ← gets now ;
  when (truth tloc) (verify_area tloc 4 ;; put_fs_long i tloc) ;;
  mret i.

(** kernel/sys.c:118-141 [sys_setreuid] *)
Definition sys_setreuid (ruid_arg euid_arg : Z) : M K Z :=
  k ← get ;
  let old_ruid := uid (cur k) in
  ok ← (if 0 <? ruid_arg then
          if (euid (cur k) =? ruid_arg) || (old_ruid =? ruid_arg) || suser k
          then modify (upd_current (fun t => t <| uid := u16 ruid_arg |>)) ;; mret true
          else mret false
        else mret true) ;
  if negb ok then mret (- EPERM) else
  if 0 <? euid_arg then
    k ← get ;
    if (old_ruid =? euid_arg) || (euid (cur k) =? euid_arg) || suser k
    then modify (upd_current (fun t => t <| euid := u16 euid_arg |>)) ;; mret 0
    else modify (upd_current (fun t => t <| uid := u16 old_ruid |>)) ;; mret (- EPERM)
  else mret 0.

(** kernel/sys.c:143-146 [sys_setuid] *)
Definition sys_setuid (u : Z) : M K Z := sys_setreuid u u.

(** kernel/sys.c:148-154 [sys_stime] *)
Definition sys_stime (tptr : Z) : M K Z :=
  k ← get ;
  if negb (suser k) then mret (- EPERM) else
  v ← get_fs_long tptr ;
  modify (fun k => k <| k_sched ::= fun s =>
    s <| startup_time := s32 (v - Z.quot (jiffies s) HZ) |> |>) ;;
  mret 0.

(** kernel/sys.c:156-166 [sys_times] *)
Definition sys_times (tbuf : Z) : M K Z :=
  when (truth tbuf)
    (verify_area tbuf 16 ;;
     t ← gets cur ;
     put_fs_long (utime t) tbuf ;;
     put_fs_long (stime t) (u32 (tbuf + 4)) ;;
     put_fs_long (cutime t) (u32 (tbuf + 8)) ;;
     put_fs_long (cstime t) (u32 (tbuf + 12))) ;;
  gets (fun k => s32 (jiffies (k_sched k))).

(** kernel/sys.c:168-174 [sys_brk] *)
Definition sys_brk (end_data_seg : Z) : M K Z :=
  t ← gets cur ;
  when ((end_code t <=? end_data_seg) && (end_data_seg <? u32 (start_stack t - 16384)))
    (modify (upd_current (fun t => t <| brk := end_data_seg |>))) ;;
  gets (fun k => s32 (brk (cur k))).

(** kernel/sys.c:181-199 [sys_setpgid] *)
Definition sys_setpgid (pid_arg pgid : Z) : M K Z :=
  k ← get ;
  let me := cur k in
  let pid_arg := if pid_arg =? 0 then pid me else pid_arg in
  let pgid := if pgid =? 0 then pid me else pgid in
  match slot_of_pid 0 (task (k_sched k)) pid_arg with
  | None => mret (- ESRCH)
  | Some i =>
      let t := default me (task_at (k_sched k) i) in
      if truth (leader t) then mret (- EPERM) else
      if negb (session t =? session me) then mret (- EPERM) else
      modify (fun k => k <| k_sched ::= upd_task i (fun t => t <| pgrp := pgid |>) |>) ;;
      mret 0
  end.

(** kernel/sys.c:201-204 [sys_getpgrp] *)
Definition sys_getpgrp : M K Z := gets (fun k => pgrp (cur k)).

(** kernel/sys.c:206-214 [sys_setsid] *)
Definition sys_setsid : M K Z :=
  k ← get ;
  if truth (leader (cur k)) && negb (suser k) then mret (- EPERM) else
  modify (upd_current (fun t =>
    t <| leader := 1 |> <| session := pid t |> <| pgrp := pid t |> <| tty := -1 |>)) ;;
  gets (fun k => pgrp (cur k)).

(** A field of the structure: nine characters, padded with zeros. *)
Definition uts_field (s : string) : list Z := take 9 (bytes_of s ++ replicate 9 0).
(** kernel/sys.c:218-220 [sys_uname]: five fields of nine characters *)
Definition thisname : list Z :=
  uts_field "linux .0" ++ uts_field "nodename" ++ uts_field "release " ++
  uts_field "version " ++ uts_field "machine ".
(** kernel/sys.c:216-228 [sys_uname] *)
Definition sys_uname (name : Z) : M K Z :=
  if name =? 0 then mret (- ERROR) else
  verify_area name 45 ;; put_fs_bytes thisname name ;; mret 0.

(** kernel/sys.c:230-236 [sys_umask] *)
Definition sys_umask (mask : Z) : M K Z :=
  old ← gets (fun k => umask (cur k)) ;
  modify (upd_current (fun t => t <| umask := mask .& 511 |>)) ;;
  mret old.

(** * Properties *)

(** The numbers a task may take: its own two, or any if it is the superuser; a number
    that is not positive is not asked for. *)
Definition may_become (t : task_struct) (x : Z) : Prop :=
  x <= 0 \/ x = uid t \/ x = euid t \/ euid t = 0.
#[global] Instance may_become_dec t x : Decision (may_become t x).
Proof. unfold may_become. apply _. Defined.

(** [sys_setreuid]: a task gets the real and effective user numbers it asks for
    if it may take both, and otherwise keeps the two it had and gets [-EPERM]; so a
    task without privilege only ever exchanges its own two numbers. *)
Theorem sys_setreuid_spec r e k w :
  running k -> 0 <= uid (cur k) < 65536 ->
  exists res k', sys_setreuid r e k w = Ret res k' w /\
    (if decide (may_become (cur k) r /\ may_become (cur k) e)
     then res = 0 /\ uid (cur k') = (if 0 <? r then u16 r else uid (cur k)) /\
          euid (cur k') = (if 0 <? e then u16 e else euid (cur k))
     else res = - EPERM /\ uid (cur k') = uid (cur k) /\ euid (cur k') = euid (cur k)) /\
    forall j, j <> current (k_sched k) -> task_at (k_sched k') j = task_at (k_sched k) j.
Proof.
  intros Hr Hu. unfold sys_setreuid. run. unfold suser.
  assert (Hother : forall f k0 j, j <> current (k_sched k0) ->
    task_at (k_sched (upd_current f k0)) j = task_at (k_sched k0) j).
  { intros f k0 j Hj. unfold upd_current, upd_cur. simpl. by rewrite task_at_upd, decide_False. }
  assert (Hmay : forall x, 0 < x ->
    bool_decide (may_become (cur k) x) = (euid (cur k) =? x) || (uid (cur k) =? x) || (euid (cur k) =? 0)).
  { intros x Hx. apply eq_bool_prop_intro. rewrite bool_decide_spec. unfold may_become.
    rewrite !orb_True, !Is_true_true, !Z.eqb_eq. intuition lia. }
  (* the first number *)
  destruct (Z.ltb_spec 0 r) as [Hr0|Hr0]; [rewrite <- (Hmay r Hr0)|].
  - destruct (bool_decide_reflect (may_become (cur k) r)) as [Mr|Mr]; run; cbn [negb].
    2:{ exists (- EPERM), k. split; [done|]. rewrite decide_False by tauto. done. }
    set (k1 := upd_current _ k). assert (Hr1 : running k1) by (by apply running_upd_current).
    assert (E1 : euid (cur k1) = euid (cur k)) by (unfold k1; by rewrite cur_upd_current).
    assert (U1 : uid (cur k1) = u16 r) by (unfold k1; by rewrite cur_upd_current).
    destruct (Z.ltb_spec 0 e) as [He0|He0]; run.
    + rewrite E1. rewrite (orb_comm (uid (cur k) =? e)), <- (Hmay e He0).
      destruct (bool_decide_reflect (may_become (cur k) e)) as [Me|Me]; run.
      * eexists _, _. split; [done|]. rewrite decide_True by done.
        rewrite !cur_upd_current by done. split; [|intros j Hj; transitivity (task_at (k_sched k1) j); by apply Hother].
        split; [done|]. split; [exact U1|done].
      * eexists _, _. split; [done|]. rewrite decide_False by tauto.
        rewrite !cur_upd_current by done. split; [|intros j Hj; transitivity (task_at (k_sched k1) j); by apply Hother].
        split; [done|]. split; [cbn; by apply u16_small|exact E1].
    + eexists _, _. split; [done|]. rewrite decide_True by (split; [done|left; lia]).
      split; [done|]. intros j Hj. by apply Hother.
  - run; cbn [negb].
    destruct (Z.ltb_spec 0 e) as [He0|He0]; run.
    + rewrite (orb_comm (uid (cur k) =? e)), <- (Hmay e He0).
      destruct (bool_decide_reflect (may_become (cur k) e)) as [Me|Me]; run.
      * eexists _, _. split; [done|]. rewrite decide_True by (split; [left; lia|done]).
        rewrite !cur_upd_current by done. split; [done|intros j Hj; by apply Hother].
      * eexists _, _. split; [done|]. rewrite decide_False by tauto.
        rewrite !cur_upd_current by done. split; [|intros j Hj; by apply Hother].
        split; [done|]. split; [cbn; by apply u16_small|done].
    + exists 0, k. split; [done|]. rewrite decide_True by (split; left; lia). done.
Qed.

Definition user_sample : K :=
  fork_sample <| k_sched ::= fun s => s <| current := 1%nat |> |>.
Lemma sys_setreuid_spec_witness : exists k',
  sys_setreuid 6 5 user_sample (World [] []) = Ret 0 k' (World [] []) /\
  uid (cur k') = 6 /\ euid (cur k') = 5.
Proof.
  destruct (sys_setreuid_spec 6 5 user_sample (World [] [])) as (res & k' & E & H & _).
  - done.
  - cbn. lia.
  - rewrite decide_True in H by (split; [right; right; left|right; left]; reflexivity).
    destruct H as (-> & Hu & He). exists k'. split; [exact E|]. split; [exact Hu|exact He].
Defined.
