(* ===== verification/KeepSys.v ===== *)
(** The system calls keep the invariant of the cache: open.c, fcntl.c, stat.c, ioctl.c and
    exec.c of fs/, exit.c, signal.c, sys.c and fork.c of kernel/, and the fault handlers of
    mm/memory.c preserve [kernel_ok]. *)
From S2P Require Import Prelude Links Sched Mm Kernel Fork Strings Blk Buffer Bitmap Inode Fault Cache Getblk Rw Namei Dir Super Open Exec Exit Sys Keep.

#[local] Arguments replicate : simpl never.
#[local] Arguments repeat : simpl never.
#[local] Arguments ARG_FUEL : simpl never.

Lemma kok_resume nb : preserves (kernel_ok nb) resume.
Proof.
  intros s [sc lg] Hs Hw. unfold wlpx, resume; simpl. destruct sc as [|f sc]; [done|].
  apply Forall_cons in Hw as [Hf Hsc]. split; auto.
Qed.
#[export] Hint Resolve kok_resume : preserves.
Lemma kok_run_task nb i : preserves (kernel_ok nb) (run_task i).
Proof. unfold run_task. kp. Qed.
#[local] Hint Resolve kok_run_task : preserves.
Lemma kok_reschedule nb : preserves (kernel_ok nb) reschedule.
Proof. unfold reschedule. kp. Qed.
#[export] Hint Resolve kok_run_task kok_reschedule : preserves.

(** ** fs/open.c, fcntl.c, stat.c, ioctl.c *)
Section open.
Context (nb : nat) `{HS : SyncKeeps nb} `{HT : DevicesKeep nb} `{HD : DrivesKeep nb}.
#[local] Abbreviation kok m := (preserves (kernel_ok nb) m).
#[local] Hint Extern 2 (preserves _ (ino _ _)) => apply kok_ino; typed : preserves.
#[local] Hint Resolve kok_set_dirt : preserves.
Lemma kok_set_fd fd v : kok (set_fd fd v).
Proof using. unfold set_fd. kp. Qed.
Lemma kok_clear_cloexec fd : kok (clear_cloexec fd).
Proof using. unfold clear_cloexec. kp. Qed.
#[local] Hint Resolve kok_set_fd kok_clear_cloexec : preserves.
Lemma kok_sys_utime p t : kok (sys_utime p t).
Proof using HS. unfold sys_utime. kp. Qed.
Lemma kok_sys_access p m : kok (sys_access p m).
Proof using HS. unfold sys_access. kp. Qed.
Lemma kok_sys_chdir p : kok (sys_chdir p).
Proof using HS. unfold sys_chdir. kp. Qed.
Lemma kok_sys_chroot p : kok (sys_chroot p).
Proof using HS. unfold sys_chroot. kp. Qed.
Lemma kok_sys_chmod p m : kok (sys_chmod p m).
Proof using HS. unfold sys_chmod. kp. Qed.
Lemma kok_sys_chown p u g : kok (sys_chown p u g).
Proof using HS. unfold sys_chown. kp. Qed.
Lemma kok_open_tty i : kok (open_tty i).
Proof using. unfold open_tty. kp. Qed.
#[local] Hint Resolve kok_open_tty : preserves.
Lemma kok_sys_open p f m : kok (sys_open p f m).
Proof using HS HD. unfold sys_open. kp. Qed.
Lemma kok_sys_creat p m : kok (sys_creat p m).
Proof using HS HD. apply kok_sys_open. Qed.
Lemma kok_sys_close fd : kok (sys_close fd).
Proof using HS. unfold sys_close. kp. Qed.
#[local] Hint Resolve kok_sys_close : preserves.
Lemma kok_dupfd fd a : kok (dupfd fd a).
Proof using. unfold dupfd. kp. Qed.
#[local] Hint Resolve kok_dupfd : preserves.
Lemma kok_sys_dup2 a b : kok (sys_dup2 a b).
Proof using HS. unfold sys_dup2. kp. Qed.
Lemma kok_sys_dup a : kok (sys_dup a).
Proof using. apply kok_dupfd. Qed.
Lemma kok_sys_fcntl fd c a : kok (sys_fcntl fd c a).
Proof using. unfold sys_fcntl. kp. Qed.
Lemma kok_cp_stat junk i a : kok (cp_stat junk i a).
Proof using. unfold cp_stat. kp. Qed.
#[local] Hint Resolve kok_cp_stat : preserves.
Lemma kok_sys_stat junk p a : kok (sys_stat junk p a).
Proof using HS. unfold sys_stat. kp. Qed.
Lemma kok_sys_fstat junk fd a : kok (sys_fstat junk fd a).
Proof using. unfold sys_fstat. kp. Qed.
Lemma kok_sys_ioctl fd c a : kok (sys_ioctl fd c a).
Proof using HT. unfold sys_ioctl. kp. Qed.
End open.
#[export] Hint Resolve kok_sys_close : preserves.

(** ** kernel/exit.c and signal.c *)
Section exit.
Context (nb : nat) `{HS : SyncKeeps nb} `{HT : DevicesKeep nb} `{HD : DrivesKeep nb}.
#[local] Abbreviation kok m := (preserves (kernel_ok nb) m).
Lemma kok_release p : kok (release p).
Proof using. unfold release. kp. Qed.
Lemma kok_send_sig g p b : kok (send_sig g p b).
Proof using. unfold send_sig. kp. Qed.
#[local] Hint Resolve kok_release kok_send_sig : preserves.
Lemma kok_kill_session : kok kill_session.
Proof using. unfold kill_session. kp. Qed.
Lemma kok_kill_loop ps sel g b : forall r, kok (kill_loop ps sel g b r).
Proof using. induction ps as [|p ps IH]; intros r; simpl; kp. Qed.
#[local] Hint Resolve kok_kill_session kok_kill_loop : preserves.
Lemma kok_sys_kill p g : kok (sys_kill p g).
Proof using. unfold sys_kill. kp. Qed.
Lemma kok_tell_father p : kok (tell_father p).
Proof using. unfold tell_father. kp. Qed.
Lemma kok_orphan_children : kok orphan_children.
Proof using. unfold orphan_children. kp. Qed.
#[local] Hint Resolve kok_tell_father kok_orphan_children : preserves.
Lemma kok_do_exit {A} c : kok (do_exit (A := A) c).
Proof using HS. unfold do_exit. kp. Qed.
#[local] Hint Resolve kok_do_exit : preserves.
Lemma kok_sys_exit c : kok (sys_exit c).
Proof using HS. apply kok_do_exit. Qed.
Lemma kok_wait_loop ps a b c : forall f, kok (wait_loop ps a b c f).
Proof using. induction ps as [|p ps IH]; intros f; simpl; kp. Qed.
#[local] Hint Resolve kok_wait_loop : preserves.
Lemma kok_sys_waitpid a b c : kok (sys_waitpid a b c).
Proof using. unfold sys_waitpid. kp. Qed.
Lemma kok_sys_ssetmask m : kok (sys_ssetmask m).
Proof using. unfold sys_ssetmask, sys_sgetmask. kp. Qed.
Lemma kok_set_action g a : kok (set_action g a).
Proof using. unfold set_action. kp. Qed.
Lemma kok_save_old a t : kok (save_old a t).
Proof using. unfold save_old. kp. Qed.
Lemma kok_get_new a : kok (get_new a).
Proof using. unfold get_new. kp. Qed.
#[local] Hint Resolve kok_set_action kok_save_old kok_get_new : preserves.
Lemma kok_sys_signal a b c : kok (sys_signal a b c).
Proof using. unfold sys_signal. kp. Qed.
Lemma kok_sys_sigaction a b c : kok (sys_sigaction a b c).
Proof using. unfold sys_sigaction. kp. Qed.
Lemma kok_do_signal a b c d e f g : kok (do_signal a b c d e f g).
Proof using HS. unfold do_signal. kp. Qed.
End exit.

(** ** kernel/sys.c and fork.c, mm/memory.c *)
Section sys.
Context (nb : nat).
#[local] Abbreviation kok m := (preserves (kernel_ok nb) m).
Lemma kok_sys_setregid a b : kok (sys_setregid a b).
Proof using. unfold sys_setregid. kp. Qed.
Lemma kok_sys_setreuid a b : kok (sys_setreuid a b).
Proof using. unfold sys_setreuid. kp. Qed.
Lemma kok_sys_time a : kok (sys_time a).
Proof using. unfold sys_time. kp. Qed.
Lemma kok_sys_stime a : kok (sys_stime a).
Proof using. unfold sys_stime. kp. Qed.
Lemma kok_sys_times a : kok (sys_times a).
Proof using. unfold sys_times. kp. Qed.
Lemma kok_sys_brk a : kok (sys_brk a).
Proof using. unfold sys_brk. kp. Qed.
Lemma kok_sys_setpgid a b : kok (sys_setpgid a b).
Proof using. unfold sys_setpgid. kp. Qed.
Lemma kok_sys_setsid : kok sys_setsid.
Proof using. unfold sys_setsid. kp. Qed.
Lemma kok_sys_uname a : kok (sys_uname a).
Proof using. unfold sys_uname. kp. Qed.
Lemma kok_sys_umask a : kok (sys_umask a).
Proof using. unfold sys_umask. kp. Qed.
Lemma kok_copy_mem nr : kok (copy_mem nr).
Proof using. unfold copy_mem. kp. Qed.
Lemma kok_inc_inode p : kok (modify (inc_inode p)).
Proof using. apply preserves_modify. intros s Hs. destruct p; [|done]. unfold inc_inode. keep. Qed.
#[local] Hint Resolve kok_copy_mem kok_inc_inode : preserves.
Lemma kok_copy_process nr r : kok (copy_process nr r).
Proof using. unfold copy_process. kp. Qed.
Lemma kok_find_empty_process : kok find_empty_process.
Proof using. unfold find_empty_process. kp. Qed.
Context `{HS : SyncKeeps nb}.
Lemma kok_page_blocks n i : forall b, kok (page_blocks n i b).
Proof using HS. induction n as [|n IH]; intros b; simpl; kp. Qed.
#[local] Hint Resolve kok_page_blocks : preserves.
Lemma kok_get_blocks d : is_word d -> forall b, kok (get_blocks d b).
Proof using HS. intros Hd. induction b as [|x b IH]; simpl; kp. Qed.
#[local] Hint Resolve kok_get_blocks : preserves.
Lemma kok_bread_page a d b : is_word d -> kok (bread_page a d b).
Proof using HS. intros Hd. unfold bread_page. kp. Qed.
#[local] Hint Resolve kok_bread_page : preserves.
Lemma kok_do_no_page e a : kok (do_no_page e a).
Proof using HS. unfold do_no_page. kp. Qed.
End sys.

(** ** fs/exec.c *)

(** The interpreter's path is made of bytes of the block. *)
Lemma bytes_strncpy n l : Forall is_byte l -> Forall is_byte (strncpy_bytes n l).
Proof.
  intros Hl. revert n. induction Hl as [|c l Hc Hl IH]; intros n; destruct n; simpl; try done.
  - constructor; [done|apply bytes_repeat].
  - constructor; [done|]. destruct (c =? 0); [apply bytes_repeat|apply IH].
Qed.
Lemma bytes_skip l : Forall is_byte l -> Forall is_byte (skip_blanks l).
Proof. induction 1 as [|c l Hc Hl IH]; [done|]. simpl. destruct (is_blank c); [done|by constructor]. Qed.
Lemma bytes_split l : Forall is_byte l -> forall name, Forall is_byte (split_interp l name).1.1.
Proof.
  induction 1 as [|c l Hc Hl IH]; intros name; [done|]. simpl. destruct (is_blank c); [done|].
  specialize (IH (if c =? 47 then [] else name ++ [c])). destruct (split_interp _ _) as [[path nm] arg].
  by constructor.
Qed.
Lemma bytes_script data i n a : Forall is_byte data -> parse_script data = Some (i, n, a) ->
  Forall is_byte i.
Proof.
  intros Hd. unfold parse_script. set (buf := _ ++ [0]).
  assert (Hb : Forall is_byte buf).
  { apply bytes_app; [|by repeat constructor]. by apply bytes_strncpy, Forall_drop. }
  destruct (strchr_at buf 10) as [m|]; [|done].
  pose proof (bytes_skip _ (Forall_take _ m _ Hb)) as Hs. destruct (skip_blanks _) as [|c cp]; [done|].
  pose proof (bytes_split _ Hs []) as Hp. destruct (split_interp (c :: cp) []) as [[p' n'] a'].
  by intros [= <- _ _].
Qed.
Lemma byte_nth l i : Forall is_byte l -> is_byte (nth i l 0).
Proof.
  intros Hl. rewrite nth_lookup. destruct (l !! i) eqn:E; [|done]. simpl.
  by eapply Forall_lookup_1.
Qed.

Ltac kp_special ::=
  match goal with
  | |- preserves _ (match parse_script ?data with _ => _ end) =>
      let Hd := fresh in let E := fresh in
      assert (Hd : Forall is_byte data) by auto with typed;
      destruct (parse_script data) as [[[? ?] ?]|] eqn:E;
      [apply bytes_script in E; [clear Hd|exact Hd]|clear E]
  end.
Section exec.
Context (nb : nat) `{HS : SyncKeeps nb} (blank : K -> Z -> Z).
(** What the page fault handler brings in are bytes. *)
Context (Hblank : forall k a, is_byte (blank k a)).
#[local] Abbreviation kok m := (preserves (kernel_ok nb) m).
Lemma kok_arg_ptr src n : kok (arg_ptr src n).
Proof using. destruct src; simpl; kp. Qed.
Lemma kok_arg_byte src a : kok (arg_byte src a).
Proof using. destruct src; simpl; kp. Qed.
#[local] Hint Resolve kok_arg_ptr kok_arg_byte : preserves.
Lemma kok_arg_len f src : forall a, kok (arg_len f src a).
Proof using. induction f as [|f IH]; intros a; cbn [arg_len]; kp. Qed.
Lemma kok_next_place c : kok (next_place c).
Proof using. unfold next_place. kp. Qed.
#[local] Hint Resolve kok_arg_len kok_next_place : preserves.
Lemma kok_copy_bytes n src a : forall c, kok (copy_bytes n src a c).
Proof using. induction n as [|n IH]; intros c; cbn [copy_bytes]; kp. Qed.
#[local] Hint Resolve kok_copy_bytes : preserves.
Lemma kok_copy_each n src : forall c, kok (copy_each n src c).
Proof using. induction n as [|n IH]; intros c; cbn [copy_each]; kp. Qed.
#[local] Hint Resolve kok_copy_each : preserves.
Lemma kok_copy_strings n src pg p : kok (copy_strings n src pg p).
Proof using. unfold copy_strings. kp. Qed.
#[local] Hint Resolve kok_copy_strings : preserves.
Lemma kok_copy_args a b c d e f : kok (copy_args a b c d e f).
Proof using. unfold copy_args. kp. Qed.
Lemma kok_count_from f : forall a, kok (count_from f a).
Proof using. induction f as [|f IH]; intros a; cbn [count_from]; kp. Qed.
#[local] Hint Resolve kok_copy_args kok_count_from : preserves.
Lemma kok_count a : kok (count a).
Proof using. unfold count. kp. Qed.
Lemma kok_skip_string f : forall p, kok (skip_string f p).
Proof using. induction f as [|f IH]; intros p; cbn [skip_string]; kp. Qed.
#[local] Hint Resolve kok_count kok_skip_string : preserves.
Lemma kok_put_table n : forall a p, kok (put_table n a p).
Proof using. induction n as [|n IH]; intros a p; cbn [put_table]; kp. Qed.
#[local] Hint Resolve kok_put_table : preserves.
Lemma kok_create_tables a b c : kok (create_tables a b c).
Proof using. unfold create_tables. kp. Qed.
Lemma kok_change_ldt a pg : kok (change_ldt blank a pg).
Proof using Hblank.
  unfold change_ldt. kp. apply preserves_modify. intros k Hk. apply keep_umem_const; [|done].
  intros x. unfold new_space. case_match; [|apply Hblank]. unfold byte_at. rewrite land_ff.
  apply Z.mod_pos_bound. lia.
Qed.
Lemma kok_exec_error i pg r : kok (exec_error i pg r).
Proof using HS. unfold exec_error. kp. Qed.
Lemma kok_namei_kernel p : Forall is_byte p -> kok (namei_kernel p).
Proof using HS.
  intros Hp. unfold namei_kernel. apply preserves_gets_bind. intros s Hs.
  apply preserves_bind.
  { apply preserves_modify. intros k Hk. apply keep_umem_const; [|done]. intros a. by apply byte_nth. }
  intros _. apply preserves_bind; [kp|]. intros i. apply preserves_bind; [|intros _; kp].
  apply preserves_modify. intros k Hk. apply keep_umem_const; [|done]. apply Hs.
Qed.
#[local] Hint Resolve kok_create_tables kok_change_ldt kok_exec_error kok_namei_kernel : preserves.
Lemma kok_exec_commit i ex pg p a e u g : kok (exec_commit blank i ex pg p a e u g).
Proof using HS Hblank. unfold exec_commit. kp. Qed.
Lemma kok_splice_args a b c d e f g h i : kok (splice_args a b c d e f g h i).
Proof using. unfold splice_args. kp. Qed.
#[local] Hint Resolve kok_exec_commit kok_splice_args : preserves.
Lemma kok_exec_binary a b c d e f g h i j k l m : kok (exec_binary blank a b c d e f g h i j k l m).
Proof using HS Hblank. unfold exec_binary. kp. Qed.
#[local] Hint Resolve kok_exec_binary : preserves.
Lemma kok_exec_file n : forall a b c d e f g h, kok (exec_file blank n a b c d e f g h).
Proof using HS Hblank. induction n as [|n IH]; intros a b c d e f g h; cbn [exec_file]; kp. Qed.
#[local] Hint Resolve kok_exec_file : preserves.
Lemma kok_do_execve cs a b c : kok (do_execve blank cs a b c).
Proof using HS Hblank. unfold do_execve. kp. Qed.
End exec.
