(* ===== verification/Syscall.v ===== *)
(** The way into the kernel: [system_call] of kernel/system_call.s with the table of
    include/linux/sys.h, the delivery of signals on the way back to the user, the clock
    interrupt, and the [_syscall] macros of include/unistd.h with the wrappers of lib/.

    The frame that an entry builds on the kernel's stack is a [Fork.regs], without [eax],
    which is handed along.  (The C functions own the argument slots of that frame, [ebx],
    [ecx] and [edx]; that a compiler may store into them is not modelled.) *)
From S2P Require Import Prelude Sched Mm Kernel Fork Strings Who Blk Buffer Bitmap Inode Rw Namei Dir Super Open Exec Args Exit Sys.

#[global] Instance eta_regs : Eta regs := fun r =>
  Regs (r_ebp r) (r_edi r) (r_esi r) (r_gs r) (r_ebx r) (r_ecx r) (r_edx r) (r_fs r) (r_es r)
    (r_ds r) (r_eip r) (r_cs r) (r_eflags r) (r_esp r) (r_ss r).

(** * [kernel/system_call.s] *)

(** kernel/system_call.s:63-63 [nr_system_calls] *)
Definition nr_system_calls : Z := 74.

(** include/linux/sys.h:1-74 [sys_setup]: the names of the calls *)
Inductive sysname : Type :=
  | Sys_setup | Sys_exit | Sys_fork | Sys_read | Sys_write | Sys_open | Sys_close | Sys_waitpid
    | Sys_creat | Sys_link | Sys_unlink | Sys_execve | Sys_chdir | Sys_time | Sys_mknod
    | Sys_chmod | Sys_chown | Sys_break | Sys_stat | Sys_lseek | Sys_getpid | Sys_mount
    | Sys_umount | Sys_setuid | Sys_getuid | Sys_stime | Sys_ptrace | Sys_alarm | Sys_fstat
    | Sys_pause | Sys_utime | Sys_stty | Sys_gtty | Sys_access | Sys_nice | Sys_ftime | Sys_sync
    | Sys_kill | Sys_rename | Sys_mkdir | Sys_rmdir | Sys_dup | Sys_pipe | Sys_times | Sys_prof
    | Sys_brk | Sys_setgid | Sys_getgid | Sys_signal | Sys_geteuid | Sys_getegid | Sys_acct
    | Sys_phys | Sys_lock | Sys_ioctl | Sys_fcntl | Sys_mpx | Sys_setpgid | Sys_ulimit
    | Sys_uname | Sys_umask | Sys_chroot | Sys_ustat | Sys_dup2 | Sys_getppid | Sys_getpgrp
    | Sys_setsid | Sys_sigaction | Sys_sgetmask | Sys_ssetmask | Sys_setreuid | Sys_setregid
    | Sys_iam | Sys_whoami.
(** include/unistd.h:61-134 [__NR_setup]: the numbers of the calls, for the user *)
Definition NR (n : sysname) : nat :=
  match n with
  | Sys_setup => 0 | Sys_exit => 1 | Sys_fork => 2 | Sys_read => 3 | Sys_write => 4
    | Sys_open => 5 | Sys_close => 6 | Sys_waitpid => 7 | Sys_creat => 8 | Sys_link => 9
    | Sys_unlink => 10 | Sys_execve => 11 | Sys_chdir => 12 | Sys_time => 13 | Sys_mknod => 14
    | Sys_chmod => 15 | Sys_chown => 16 | Sys_break => 17 | Sys_stat => 18 | Sys_lseek => 19
    | Sys_getpid => 20 | Sys_mount => 21 | Sys_umount => 22 | Sys_setuid => 23 | Sys_getuid => 24
    | Sys_stime => 25 | Sys_ptrace => 26 | Sys_alarm => 27 | Sys_fstat => 28 | Sys_pause => 29
    | Sys_utime => 30 | Sys_stty => 31 | Sys_gtty => 32 | Sys_access => 33 | Sys_nice => 34
    | Sys_ftime => 35 | Sys_sync => 36 | Sys_kill => 37 | Sys_rename => 38 | Sys_mkdir => 39
    | Sys_rmdir => 40 | Sys_dup => 41 | Sys_pipe => 42 | Sys_times => 43 | Sys_prof => 44
    | Sys_brk => 45 | Sys_setgid => 46 | Sys_getgid => 47 | Sys_signal => 48 | Sys_geteuid => 49
    | Sys_getegid => 50 | Sys_acct => 51 | Sys_phys => 52 | Sys_lock => 53 | Sys_ioctl => 54
    | Sys_fcntl => 55 | Sys_mpx => 56 | Sys_setpgid => 57 | Sys_ulimit => 58 | Sys_uname => 59
    | Sys_umask => 60 | Sys_chroot => 61 | Sys_ustat => 62 | Sys_dup2 => 63 | Sys_getppid => 64
    | Sys_getpgrp => 65 | Sys_setsid => 66 | Sys_sigaction => 67 | Sys_sgetmask => 68
    | Sys_ssetmask => 69 | Sys_setreuid => 70 | Sys_setregid => 71 | Sys_iam => 72
    | Sys_whoami => 73
  end%nat.
(** include/linux/sys.h:76-88 [sys_call_table]: the order of the table *)
Definition table_order : list sysname := [
    Sys_setup; Sys_exit; Sys_fork; Sys_read; Sys_write; Sys_open; Sys_close; Sys_waitpid;
    Sys_creat; Sys_link; Sys_unlink; Sys_execve; Sys_chdir; Sys_time; Sys_mknod; Sys_chmod;
    Sys_chown; Sys_break; Sys_stat; Sys_lseek; Sys_getpid; Sys_mount; Sys_umount; Sys_setuid;
    Sys_getuid; Sys_stime; Sys_ptrace; Sys_alarm; Sys_fstat; Sys_pause; Sys_utime; Sys_stty;
    Sys_gtty; Sys_access; Sys_nice; Sys_ftime; Sys_sync; Sys_kill; Sys_rename; Sys_mkdir;
    Sys_rmdir; Sys_dup; Sys_pipe; Sys_times; Sys_prof; Sys_brk; Sys_setgid; Sys_getgid;
    Sys_signal; Sys_geteuid; Sys_getegid; Sys_acct; Sys_phys; Sys_lock; Sys_ioctl; Sys_fcntl;
    Sys_mpx; Sys_setpgid; Sys_ulimit; Sys_uname; Sys_umask; Sys_chroot; Sys_ustat; Sys_dup2;
    Sys_getppid; Sys_getpgrp; Sys_setsid; Sys_sigaction; Sys_sgetmask; Sys_ssetmask;
    Sys_setreuid; Sys_setregid; Sys_iam; Sys_whoami ].

(** kernel/system_call.s:100-104 [system_call]: is
    another task to run? *)
Definition need_resched (k : K) : bool := negb (state (cur k) =? 0) || (counter (cur k) =? 0).

(** kernel/system_call.s:110-113 [ret_from_sys_call]: the frame is a user's *)
Definition from_user (r : regs) : bool := (u16 (r_cs r) =? 0x0f) && (u16 (r_ss r) =? 0x17).
(** kernel/system_call.s:114-117 [ret_from_sys_call]: the signals of a task that it does not
    block *)
Definition deliverable (t : task_struct) : Z := u32 (Z.lnot (blocked t)) .& u32 (signal t).
(** kernel/system_call.s:118-119 [ret_from_sys_call]: the lowest of them, counted from 0 *)
Definition first_signal (t : task_struct) : option nat := bsf 32 0 (deliverable t).

Section call.
Context `{SyncInodes} `{Devices} `{Drives}.
(** What the page fault handler brings in, what the kernel's stack holds where [struct stat]
    has padding, and [sys_setup] of kernel/blk_drv/hd.c with the driver's tables, which are
    no part of the state ([Setup]). *)
Context (blank : K -> Z -> Z) (junk : nat -> Z) (sys_setup : Z -> M K Z).

(** kernel/system_call.s:105-125 [ret_from_sys_call]: task 0 has no signals, and only a user
    gets one *)
Definition ret_from_sys_call (eax : Z) (r : regs) : M K regs :=
  k ← get ;
  if (current (k_sched k) =? 0)%nat then mret r else
  if negb (from_user r) then mret r else
  match first_signal (cur k) with
  | None => mret r
  | Some n =>
      modify (upd_current (fun t => t <| signal ::= fun g => Z.clearbit g (Z.of_nat n) |>)) ;;
      e ← do_signal (Z.of_nat n + 1) eax (r_ecx r) (r_edx r) (r_eip r) (r_eflags r) (r_esp r) ;
      mret (r <| r_eip := e.1 |> <| r_esp := e.2 |>)
  end.

(** A system call: what it returns in [eax], and the frame, which two of them change or copy. *)
Definition call : Type := regs -> M K (Z * regs).
Definition call0 (f : M K Z) : call := fun r => v ← f ; mret (v, r).
Definition call1 (f : Z -> M K Z) : call := fun r => call0 (f (r_ebx r)) r.
Definition call2 (f : Z -> Z -> M K Z) : call := fun r => call0 (f (r_ebx r) (r_ecx r)) r.
Definition call3 (f : Z -> Z -> Z -> M K Z) : call := fun r =>
  call0 (f (r_ebx r) (r_ecx r) (r_edx r)) r.

(** kernel/system_call.s:211-223 [sys_fork] *)
Definition sys_fork : call := fun r =>
  nr ← find_empty_process ;
  if nr <? 0 then mret (nr, r) else call0 (copy_process (Z.to_nat nr) r) r.
(** kernel/system_call.s:203-208 [sys_execve]: the address of the frame's [eip] is the first
    argument *)
Definition sys_execve : call := fun r =>
  e ← do_execve blank (r_cs r) (r_ebx r) (r_ecx r) (r_edx r) ;
  mret (e.1, match e.2 with Some (eip, esp) => r <| r_eip := eip |> <| r_esp := esp |> | None => r end).
(** kernel/sched.c:112-117 [sys_pause] *)
Definition sys_pause : M K Z :=
  modify (upd_current (fun t => t <| state := TASK_INTERRUPTIBLE |>)) ;; reschedule ;; mret 0.

(** include/linux/sys.h:1-74 [sys_setup]: the function of a name; an [int] argument is the
    register as a signed number *)
Definition sys_fn (n : sysname) : call :=
  match n with
  | Sys_setup => call1 sys_setup
  | Sys_exit => call1 (fun c => sys_exit (s32 c))
  | Sys_fork => sys_fork
  | Sys_read => call3 (fun fd b n => sys_read fd b (s32 n))
  | Sys_write => call3 (fun fd b n => sys_write fd b (s32 n))
  | Sys_open => call3 (fun p f m => sys_open p (s32 f) (s32 m))
  | Sys_close => call1 sys_close
  | Sys_waitpid => call3 (fun p a o => sys_waitpid (s32 p) a (s32 o))
  | Sys_creat => call2 (fun p m => sys_creat p (s32 m))
  | Sys_link => call2 sys_link
  | Sys_unlink => call1 sys_unlink
  | Sys_execve => sys_execve
  | Sys_chdir => call1 sys_chdir
  | Sys_time => call1 sys_time
  | Sys_mknod => call3 (fun p m d => sys_mknod p (s32 m) (s32 d))
  | Sys_chmod => call2 (fun p m => sys_chmod p (s32 m))
  | Sys_chown => call3 (fun p u g => sys_chown p (s32 u) (s32 g))
  | Sys_break => call0 sys_break
  | Sys_stat => call2 (sys_stat junk)
  | Sys_lseek => call3 (fun fd o w => sys_lseek fd (s32 o) (s32 w))
  | Sys_getpid => call0 (in_sched sys_getpid)
  | Sys_mount => call3 (fun d p f => sys_mount d p (s32 f))
  | Sys_umount => call1 sys_umount
  | Sys_setuid => call1 (fun u => sys_setuid (s32 u))
  | Sys_getuid => call0 (in_sched sys_getuid)
  | Sys_stime => call1 sys_stime
  | Sys_ptrace => call0 sys_ptrace
  | Sys_alarm => call1 (fun s => in_sched (sys_alarm (s32 s)))
  | Sys_fstat => call2 (sys_fstat junk)
  | Sys_pause => call0 sys_pause
  | Sys_utime => call2 sys_utime
  | Sys_stty => call0 sys_stty
  | Sys_gtty => call0 sys_gtty
  | Sys_access => call2 (fun p m => sys_access p (s32 m))
  | Sys_nice => call1 (fun i => in_sched (sys_nice (s32 i)))
  | Sys_ftime => call0 sys_ftime
  | Sys_sync => call0 sys_sync
  | Sys_kill => call2 (fun p g => sys_kill (s32 p) (s32 g))
  | Sys_rename => call0 sys_rename
  | Sys_mkdir => call2 (fun p m => sys_mkdir p (s32 m))
  | Sys_rmdir => call1 sys_rmdir
  | Sys_dup => call1 sys_dup
  | Sys_pipe => call1 sys_pipe
  | Sys_times => call1 sys_times
  | Sys_prof => call0 sys_prof
  | Sys_brk => call1 sys_brk
  | Sys_setgid => call1 (fun g => sys_setgid (s32 g))
  | Sys_getgid => call0 (in_sched sys_getgid)
  | Sys_signal => call3 (fun g h q => sys_signal (s32 g) h q)
  | Sys_geteuid => call0 (in_sched sys_geteuid)
  | Sys_getegid => call0 (in_sched sys_getegid)
  | Sys_acct => call0 sys_acct
  | Sys_phys => call0 sys_phys
  | Sys_lock => call0 sys_lock
  | Sys_ioctl => call3 sys_ioctl
  | Sys_fcntl => call3 sys_fcntl
  | Sys_mpx => call0 sys_mpx
  | Sys_setpgid => call2 (fun p g => sys_setpgid (s32 p) (s32 g))
  | Sys_ulimit => call0 sys_ulimit
  | Sys_uname => call1 sys_uname
  | Sys_umask => call1 (fun m => sys_umask (s32 m))
  | Sys_chroot => call1 sys_chroot
  | Sys_ustat => call2 (fun d u => sys_ustat (s32 d) u)
  | Sys_dup2 => call2 sys_dup2
  | Sys_getppid => call0 (in_sched sys_getppid)
  | Sys_getpgrp => call0 sys_getpgrp
  | Sys_setsid => call0 sys_setsid
  | Sys_sigaction => call3 (fun g a o => sys_sigaction (s32 g) a o)
  | Sys_sgetmask => call0 sys_sgetmask
  | Sys_ssetmask => call1 (fun m => sys_ssetmask (s32 m))
  | Sys_setreuid => call2 (fun a b => sys_setreuid (s32 a) (s32 b))
  | Sys_setregid => call2 (fun a b => sys_setregid (s32 a) (s32 b))
  | Sys_iam => call1 sys_iam
  | Sys_whoami => call2 sys_whoami
  end.
(** include/linux/sys.h:76-88 [sys_call_table] *)
Definition sys_call_table : list call := sys_fn <$> table_order.

(** kernel/system_call.s:97-97 [system_call]: the call of the table *)
Definition dispatch (eax : Z) : call := fun r =>
  match sys_call_table !! Z.to_nat (u32 eax) with
  | Some f => f r
  | None => panic "no such system call"
  end.
(** kernel/system_call.s:73-133 [system_call], with [bad_sys_call] and [reschedule] *)
Definition system_call (eax : Z) (r : regs) : M K (Z * regs) :=
  if nr_system_calls - 1 <? u32 eax then mret (u32 (-1), r) else
  e ← dispatch eax r ;
  k ← get ;
  when (need_resched k) reschedule ;;
  r ← ret_from_sys_call (u32 e.1) e.2 ;
  mret (u32 e.1, r).

(** kernel/system_call.s:179-200 [timer_interrupt] *)
Definition timer_interrupt (eax : Z) (r : regs) : M K regs :=
  modify (fun k => k <| k_sched ::= fun s => s <| jiffies ::= fun j => s32 (j + 1) |> |>) ;;
  b ← in_sched (timer_tick (r_cs r .& 3)) ;
  when b reschedule ;;
  ret_from_sys_call eax r.

(** * The user's side *)

(** include/unistd.h:143-146 [_syscall0]: the result, and the new [errno] when there is one *)
Definition user_result (eax : Z) : Z * option Z :=
  let res := s32 eax in if 0 <=? res then (res, None) else (-1, Some (s32 (- res))).
(** include/unistd.h:136-147 [_syscall0] *)
Definition _syscall0 (name : Z) (r : regs) : M K (Z * option Z) :=
  e ← system_call name r ; mret (user_result e.1).
(** include/unistd.h:149-160 [_syscall1] *)
Definition _syscall1 (name a : Z) (r : regs) : M K (Z * option Z) :=
  _syscall0 name (r <| r_ebx := u32 a |>).
(** include/unistd.h:162-173 [_syscall2] *)
Definition _syscall2 (name a b : Z) (r : regs) : M K (Z * option Z) :=
  _syscall1 name a (r <| r_ecx := u32 b |>).
(** include/unistd.h:175-186 [_syscall3] *)
Definition _syscall3 (name a b c : Z) (r : regs) : M K (Z * option Z) :=
  _syscall2 name a b (r <| r_edx := u32 c |>).

(** lib/write.c:10-10 [write] *)
Definition write (fd buf cnt : Z) := _syscall3 (Z.of_nat (NR Sys_write)) fd buf cnt.
(** lib/close.c:10-10 [close] *)
Definition close (fd : Z) := _syscall1 (Z.of_nat (NR Sys_close)) fd.
(** lib/dup.c:10-10 [dup] *)
Definition dup (fd : Z) := _syscall1 (Z.of_nat (NR Sys_dup)) fd.
(** lib/setsid.c:10-10 [setsid] *)
Definition setsid := _syscall0 (Z.of_nat (NR Sys_setsid)).
(** lib/execve.c:10-10 [execve] *)
Definition execve (file argv envp : Z) := _syscall3 (Z.of_nat (NR Sys_execve)) file argv envp.
(** lib/wait.c:11-11 [waitpid] *)
Definition waitpid (pid wait_stat options : Z) :=
  _syscall3 (Z.of_nat (NR Sys_waitpid)) pid wait_stat options.
(** lib/wait.c:13-16 [wait] *)
Definition wait (wait_stat : Z) := waitpid (-1) wait_stat 0.
(** lib/open.c:11-25 [open]; [mode] is the third argument, given or not *)
Definition open (filename flag mode : Z) :=
  _syscall3 (Z.of_nat (NR Sys_open)) filename flag mode.
(** lib/_exit.c:10-13 [_exit] *)
Definition _exit (exit_code : Z) (r : regs) : M K (Z * regs) :=
  system_call (Z.of_nat (NR Sys_exit)) (r <| r_ebx := u32 exit_code |>).
End call.

(** * Properties *)

(** The table of the kernel and the numbers of the user's header agree. *)
Lemma table_order_numbers n : table_order !! NR n = Some n.
Proof. by destruct n. Qed.
Lemma dispatch_number `{SyncInodes} `{Devices} `{Drives} blank junk sys_setup n r k w :
  dispatch blank junk sys_setup (Z.of_nat (NR n)) r k w = sys_fn blank junk sys_setup n r k w.
Proof.
  unfold dispatch, sys_call_table. replace (Z.to_nat _) with (NR n) by (by destruct n).
  by rewrite list_lookup_fmap, table_order_numbers.
Qed.

(** ** The way back to the user *)
Definition no_signal (k : K) : Prop := current (k_sched k) = 0%nat \/ deliverable (cur k) = 0.
Lemma first_signal_none t : deliverable t = 0 -> first_signal t = None.
Proof. intros E. unfold first_signal. by rewrite E. Qed.
Lemma ret_quiet `{SyncInodes} eax r k w : no_signal k -> ret_from_sys_call eax r k w = Ret r k w.
Proof.
  intros Hq. unfold ret_from_sys_call. run. destruct (Nat.eqb_spec (current (k_sched k)) 0); [done|].
  destruct Hq as [? | Hq]; [done|]. destruct (from_user r); [|done]. cbn [negb].
  by rewrite first_signal_none.
Qed.

(** The calls that the kernel only names. *)
Definition unimplemented : list sysname :=
  [Sys_break; Sys_ptrace; Sys_stty; Sys_gtty; Sys_ftime; Sys_rename; Sys_prof; Sys_acct; Sys_phys;
   Sys_lock; Sys_mpx; Sys_ulimit; Sys_ustat].
Lemma unimplemented_fn `{SyncInodes} `{Devices} `{Drives} blank junk sys_setup n r k w :
  n ∈ unimplemented -> sys_fn blank junk sys_setup n r k w = Ret (- ENOSYS, r) k w.
Proof.
  intros Hn. unfold unimplemented in Hn. repeat (apply elem_of_cons in Hn as [-> | Hn]; [done|]).
  by apply elem_of_nil in Hn.
Qed.

(** A call that leaves its task running and without a signal returns what its function does. *)
Lemma system_call_run `{SyncInodes} `{Devices} `{Drives} blank junk sys_setup n r k w v r' k' w' :
  sys_fn blank junk sys_setup n r k w = Ret (v, r') k' w' -> need_resched k' = false ->
  no_signal k' ->
  system_call blank junk sys_setup (Z.of_nat (NR n)) r k w = Ret (u32 v, r') k' w'.
Proof.
  intros E Hr Hs. unfold system_call. rewrite (proj2 (Z.ltb_ge _ _)) by (destruct n; vm_compute; done).
  rewrite <- dispatch_number in E. rewrite (run_ret _ _ _ _ _ _ _ E), run_get, Hr. cbn [when fst snd].
  rewrite run_mret, (run_ret _ _ _ _ _ _ _ (ret_quiet (u32 v) r' k' w' Hs)). done.
Qed.

(** C39. What a program sees of a call that is not there, kernel/system_call.s and
    include/unistd.h: a number beyond the table gives -1 with [errno] EPERM, a call that the
    kernel only names gives -1 with ENOSYS; the kernel is as before, whatever the registers. *)
Theorem missing_call_fails `{SyncInodes} `{Devices} `{Drives} blank junk sys_setup nr n a b c r k w :
  nr_system_calls <= u32 nr -> n ∈ unimplemented -> need_resched k = false -> no_signal k ->
  _syscall3 blank junk sys_setup nr a b c r k w = Ret (-1, Some EPERM) k w /\
  _syscall3 blank junk sys_setup (Z.of_nat (NR n)) a b c r k w = Ret (-1, Some ENOSYS) k w.
Proof.
  intros Hnr Hn Hr Hs. unfold _syscall3, _syscall2, _syscall1, _syscall0. split.
  - unfold system_call. by rewrite (proj2 (Z.ltb_lt _ _)) by (unfold nr_system_calls in *; lia).
  - erewrite run_ret; [|by apply system_call_run; [apply unimplemented_fn|..]]. done.
Qed.

(** ** Signals *)
Fixpoint put_longs (l : list Z) (a : Z) (m : Z -> Z) : Z -> Z :=
  match l with [] => m | v :: l' => put_longs l' (a + 4) (put_long a v m) end.
(** The [n] words of the user's memory from [a] on. *)
Definition user_longs (m : Z -> Z) (n : nat) (a : Z) : list Z :=
  (fun i => user_long m (a + 4 * Z.of_nat i)) <$> seq 0 n.

Lemma put_longs_out l x : forall a m, ~ a <= x < a + 4 * Z.of_nat (length l) -> put_longs l a m x = m x.
Proof.
  induction l as [|v l IH]; intros a m Hx; [done|]. cbn [put_longs length] in *.
  rewrite IH by lia. apply put_long_out. lia.
Qed.
Lemma user_longs_put l : forall a m, user_longs (put_longs l a m) (length l) a = u32 <$> l.
Proof.
  induction l as [|v l IH]; intros a m; [done|]. cbn [put_longs length].
  unfold user_longs. cbn [seq fmap list_fmap]. f_equal.
  - rewrite Z.add_0_r, (user_long_ext (put_long a v m)); [apply user_long_put|].
    intros x Hx. apply put_longs_out. lia.
  - rewrite <- (IH (a + 4) (put_long a v m)). unfold user_longs.
    rewrite <- seq_shift, <- list_fmap_compose. apply list_fmap_ext. intros i j _. simpl. f_equal. lia.
Qed.
Lemma put_longs_run l a w : forall j k, 0 <= a -> a + 4 * Z.of_nat (j + length l) <= 4294967296 ->
  for_each (imap (fun i v => ((i + j)%nat, v)) l) (fun iv =>
    put_fs_long iv.2 (u32 (a + 4 * Z.of_nat iv.1))) k w =
  Ret tt (k <| umem ::= put_longs l (a + 4 * Z.of_nat j) |>) w.
Proof.
  induction l as [|v l IH]; intros j k Ha Hl; [by destruct k|]. cbn [length] in Hl.
  cbn [imap for_each]. rewrite (run_ret _ _ k w tt (k <| umem ::= put_long (a + 4 * Z.of_nat j) v |>) w)
    by (cbn [fst snd]; rewrite u32_small by lia; done).
  assert (E : imap ((fun i v => ((i + j)%nat, v)) ∘ S) l =
              imap (fun i (v : Z) => ((i + S j)%nat, v)) l).
  { apply imap_ext. intros i x _. simpl. f_equal. lia. }
  rewrite E, IH by lia. cbn [put_longs]. f_equal.
  replace (a + 4 * Z.of_nat (S j)) with (a + 4 * Z.of_nat j + 4) by lia. done.
Qed.

(** The pages of the area are the task's own or are not there yet: [write_verify] has nothing
    to do. *)
Definition area_page (k : K) (addr : Z) (i : nat) : Z :=
  u32 (u32 ((u32 addr .& 0xfffff000) + get_base (ldt_of (cur k) 2)) + 4096 * Z.of_nat i).
Definition area_ready (k : K) (addr size : Z) : Prop :=
  forall i lg, (i < Z.to_nat ((s32 (size + (u32 addr .& 0xfff)) + 4095) / 4096))%nat ->
    write_verify (area_page k addr i) (k_mm k) (World [] lg) = Ret tt (k_mm k) (World [] lg).
Lemma verify_area_ready addr size k k0 w : area_ready k0 addr size -> k_mm k = k_mm k0 ->
  ldt (cur k) = ldt (cur k0) -> verify_area addr size k w = Ret tt k w.
Proof.
  intros Hr Em El. unfold verify_area. rewrite run_gets. cbv zeta.
  set (n := Z.to_nat _). assert (H : forall l, Forall (fun i => (i < n)%nat) l ->
    for_each l (fun i => in_mm (write_verify (u32 (u32 ((u32 addr .& 0xfffff000) +
      get_base (ldt_of (cur k) 2)) + 4096 * Z.of_nat i)))) k w = Ret tt k w).
  { induction 1 as [|i l Hi _ IH]; [done|]. cbn [for_each].
    rewrite (run_ret _ _ k w tt k w); [done|]. unfold in_mm, liftM.
    specialize (Hr i (log w) Hi). unfold area_page, ldt_of in *. rewrite Em, El, Hr.
    destruct k, w; simpl in *; by subst. }
  apply H, Forall_forall. intros i Hi. apply elem_of_seq in Hi. lia.
Qed.

(** [n] is the lowest signal, from 0 on, that is pending and not blocked. *)
Record lowest_signal (t : task_struct) (n : nat) : Prop := {
  ls_range : (n < 32)%nat;
  ls_pending : Z.testbit (signal t) (Z.of_nat n) = true;
  ls_unblocked : Z.testbit (blocked t) (Z.of_nat n) = false;
  ls_lowest : forall i, (i < n)%nat ->
    Z.testbit (signal t) (Z.of_nat i) && negb (Z.testbit (blocked t) (Z.of_nat i)) = false;
}.
Lemma deliverable_bit t i : (i < 32)%nat -> Z.testbit (deliverable t) (Z.of_nat i) =
  Z.testbit (signal t) (Z.of_nat i) && negb (Z.testbit (blocked t) (Z.of_nat i)).
Proof.
  intros Hi. unfold deliverable, u32. change 4294967296 with (2 ^ 32).
  rewrite Z.land_spec, !Z.mod_pow2_bits_low, Z.lnot_spec by lia. apply andb_comm.
Qed.
Lemma first_signal_lowest t n : lowest_signal t n -> first_signal t = Some n.
Proof.
  intros [Hr Hp Hb Hl]. unfold first_signal. pose proof (bsf_spec 32 (deliverable t) 0) as H.
  destruct (bsf 32 0 (deliverable t)) as [j|].
  - destruct H as (Hj & Ht & Hlow). f_equal. rewrite deliverable_bit in Ht by lia.
    destruct (Nat.lt_trichotomy j n) as [Hlt | [-> | Hgt]]; [|done|].
    + by rewrite Hl in Ht.
    + specialize (Hlow n ltac:(lia)). rewrite deliverable_bit, Hp, Hb in Hlow by lia. done.
  - specialize (H n ltac:(lia)). rewrite deliverable_bit, Hp, Hb in H by lia. done.
Qed.

(** What the handler of signal [n + 1] finds on its stack. *)
Definition signal_frame (sa : sigaction) (n : nat) (t : task_struct) (eax : Z) (r : regs) : list Z :=
  [sa_restorer sa; Z.of_nat n + 1] ++
  (if truth (sa_flags sa .& SA_NOMASK) then [] else [blocked t]) ++
  [eax; r_ecx r; r_edx r; r_eflags r; r_eip r].
(** The task when the signal has been taken. *)
Definition signalled (sa : sigaction) (n : nat) (t : task_struct) : task_struct :=
  t <| signal := Z.clearbit (signal t) (Z.of_nat n) |>
    <| sigactions ::= fun l => if truth (sa_flags sa .& SA_ONESHOT)
                              then <[n := sa <| sa_handler := 0 |>]> l else l |>
    <| blocked ::= fun b => b .| sa_mask sa |>.

(** [k'] is [k] with another current task and other user memory. *)
Record served (k : K) (t : task_struct) (m : Z -> Z) (k' : K) : Prop := {
  sv_cur : cur k' = t;
  sv_umem : umem k' = m;
  sv_mm : k_mm k' = k_mm k;
  sv_running : running k';
  sv_others : forall j, j <> current (k_sched k) -> task_at (k_sched k') j = task_at (k_sched k) j;
  sv_current : current (k_sched k') = current (k_sched k);
}.
Lemma served_upd k t m k' f : served k t m k' -> served k (f t) m (upd_current f k').
Proof.
  intros [<- <- H3 H4 H5 H6]. split; [by apply cur_upd_current|done|done|by apply running_upd_current| |done].
  intros j Hj. unfold upd_current, upd_cur. simpl. rewrite task_at_upd, H6, decide_False by done. auto.
Qed.
Lemma served_refl k : running k -> served k (cur k) (umem k) k.
Proof. done. Qed.

Lemma do_signal_caught `{SyncInodes} n t eax r k0 m k w :
  let sa := action_of t (Z.of_nat n + 1) in
  let fr := signal_frame sa n t eax r in
  let esp := r_esp r - 4 * Z.of_nat (length fr) in
  served k0 t m k -> ldt t = ldt (cur k0) -> sa_handler sa <> 0 -> sa_handler sa <> 1 ->
  0 <= esp -> r_esp r < 4294967296 -> area_ready k0 esp (4 * Z.of_nat (length fr)) ->
  exists k', do_signal (Z.of_nat n + 1) eax (r_ecx r) (r_edx r) (r_eip r) (r_eflags r) (r_esp r) k w =
      Ret (sa_handler sa, esp) k' w /\
    served k0 (t <| sigactions ::= fun l => if truth (sa_flags sa .& SA_ONESHOT)
                     then <[n := sa <| sa_handler := 0 |>]> l else l |>
                 <| blocked ::= fun b => b .| sa_mask sa |>) (put_longs fr esp m) k'.
Proof.
  intros sa fr esp Hk El H0 H1 Hesp Hr Hready. unfold do_signal. rewrite run_gets, (sv_cur _ _ _ _ Hk).
  fold sa. rewrite (proj2 (Z.eqb_neq _ 1) H1), (proj2 (Z.eqb_neq _ 0) H0). cbv zeta.
  set (longs := if negb _ then 8 else 7).
  assert (Elen : longs = Z.of_nat (length fr)).
  { unfold longs, fr, signal_frame. by destruct (truth (sa_flags sa .& SA_NOMASK)). }
  rewrite Elen. replace (u32 _) with esp by (symmetry; apply u32_small; lia).
  set (g := fun t : task_struct => t <| sigactions ::= fun l => if truth (sa_flags sa .& SA_ONESHOT)
             then <[n := sa <| sa_handler := 0 |>]> l else l |>).
  assert (E1 : exists k1, when (truth (sa_flags sa .& SA_ONESHOT))
      (set_action (Z.of_nat n + 1) (sa <| sa_handler := 0 |>)) k w = Ret tt k1 w /\ served k0 (g t) m k1).
  { unfold set_action, g. replace (Z.to_nat (Z.of_nat n + 1 - 1)) with n by lia.
    destruct (truth (sa_flags sa .& SA_ONESHOT)); eexists; (split; [done|]);
      [by apply (served_upd _ _ _ _ (fun t => t <| sigactions ::= <[n := _]> |>))|by destruct t]. }
  destruct E1 as (k1 & E1 & Hk1). rewrite (run_ret _ _ _ _ _ _ _ E1).
  rewrite (Z.mul_comm (Z.of_nat _) 4), (run_ret _ _ k1 w tt k1 w).
  2: { eapply verify_area_ready; [exact Hready|apply Hk1|by rewrite (sv_cur _ _ _ _ Hk1)]. }
  rewrite run_gets, (sv_cur _ _ _ _ Hk1).
  match goal with |- context [imap (fun i v => (i, v)) ?l] => replace l with fr end.
  2: { unfold fr, signal_frame, g. by destruct (truth (sa_flags sa .& SA_NOMASK)). }
  pose proof (put_longs_run fr esp w 0 k1 Hesp ltac:(unfold esp; lia)) as Hp.
  rewrite (imap_ext _ (fun i v => (i, v))) in Hp by (intros; simpl; f_equal; lia).
  rewrite (run_ret _ _ _ _ _ _ _ Hp), run_modify, Z.add_0_r. eexists. split; [done|].
  apply (served_upd _ (g t) _ _ (fun t => t <| blocked ::= fun b => b .| sa_mask sa |>)).
  destruct Hk1 as [? <- ? ? ? ?]. by split.
Qed.

(** C3. The delivery of a signal, ret_from_sys_call of kernel/system_call.s and do_signal of
    kernel/signal.c: a user task other than task 0 with a handler for its lowest pending
    signal that is not blocked goes on in the handler; on its stack are the restorer, the
    number, the mask (unless SA_NOMASK), [eax], [ecx], [edx], the flags and the place to
    return to; nothing else of its memory and no other task changes, the signal is no longer
    pending, the handler's mask is blocked, and with SA_ONESHOT the handler is forgotten. *)
Theorem signal_delivered `{SyncInodes} n eax r k w :
  let t := cur k in
  let sa := action_of t (Z.of_nat n + 1) in
  let fr := signal_frame sa n t eax r in
  let esp := r_esp r - 4 * Z.of_nat (length fr) in
  running k -> current (k_sched k) <> 0%nat -> from_user r = true -> lowest_signal t n ->
  sa_handler sa <> 0 -> sa_handler sa <> 1 ->
  0 <= esp -> r_esp r < 4294967296 -> area_ready k esp (4 * Z.of_nat (length fr)) ->
  exists k', ret_from_sys_call eax r k w = Ret (r <| r_eip := sa_handler sa |> <| r_esp := esp |>) k' w /\
    user_longs (umem k') (length fr) esp = u32 <$> fr /\
    (forall x, ~ esp <= x < r_esp r -> umem k' x = umem k x) /\
    cur k' = signalled sa n t /\
    (forall j, j <> current (k_sched k) -> task_at (k_sched k') j = task_at (k_sched k) j).
Proof.
  intros t sa fr esp Hrun Hc Hu Hl H0 H1 Hesp Hr Hready. unfold ret_from_sys_call.
  rewrite run_get, (proj2 (Nat.eqb_neq _ _) Hc), Hu. cbn [negb].
  rewrite (first_signal_lowest (cur k) n Hl), run_modify.
  pose proof (served_upd _ _ _ _ (fun t => t <| signal ::= fun g => Z.clearbit g (Z.of_nat n) |>)
    (served_refl k Hrun)) as Hk.
  destruct (do_signal_caught n _ eax r _ _ _ w Hk eq_refl H0 H1 Hesp Hr Hready) as (k' & E & Hk').
  rewrite (run_ret _ _ _ _ _ _ _ E). exists k'. split; [done|]. destruct Hk' as [E1 E2 _ _ E3 _].
  split; [rewrite E2; apply user_longs_put|]. split; [|by split].
  intros x Hx. rewrite E2. apply put_longs_out.
  assert (Hx' : ~ esp <= x < esp + 4 * Z.of_nat (length fr)) by (unfold esp in *; lia). exact Hx'.
Qed.

(** Task 1, with a handler at 0x5000 for signal 2 that blocks signal 9, and both pending. *)
Definition signal_sample : K :=
  fork_sample <| k_sched ::= fun s => s <| current := 1%nat |>
    <| task ::= alter (fun o => match o with
        | Some t => Some (t <| signal := 2 |> <| counter := 5 |>
            <| sigactions ::= <[1%nat := SigAction 0x5000 0x100 0 0x6000]> |>)
        | None => None end) 1%nat |> |>.
Definition sample_regs : regs := Regs 0 0 0 0 1 2 3 0x17 0x17 0x17 0x1234 0x0f 0x202 0x8000 0x17.
Lemma sample_ready esp n : area_ready signal_sample esp n.
Proof. intros i lg _. unfold write_verify. by vm_compute. Qed.
#[local] Instance no_sync : SyncInodes := mret tt.
#[local] Instance no_devices : Devices := {|
  tty_read _ _ _ := mret 0; tty_write _ _ _ := mret 0; tty_ioctl _ _ _ := mret 0; inb _ := mret 0 |}.
#[local] Instance no_drives : Drives := {| floppy_change _ := mret 0; wait_for_keypress := mret tt |}.

Lemma signal_delivered_witness : exists k',
  ret_from_sys_call 7 sample_regs signal_sample (World [] []) =
    Ret (sample_regs <| r_eip := 0x5000 |> <| r_esp := 0x8000 - 32 |>) k' (World [] []) /\
  user_longs (umem k') 8 (0x8000 - 32) = [0x6000; 2; 0; 7; 2; 3; 0x202; 0x1234] /\
  blocked (cur k') = 0x100.
Proof.
  destruct (signal_delivered 1 7 sample_regs signal_sample (World [] []))
    as (k' & E & Hs & _ & Hc & _).
  - by vm_compute.
  - done.
  - done.
  - split; [lia|done|done|]. intros i Hi. by replace i with 0%nat by lia.
  - done.
  - done.
  - vm_compute. done.
  - done.
  - apply sample_ready.
  - exists k'. split; [exact E|]. split; [exact Hs|]. by rewrite Hc.
Defined.

Definition blank0 (k : K) (a : Z) : Z := 0.
Definition calm_sample : K := fork_sample <| k_sched ::= fun s => s <| current := 1%nat |> |>.
Lemma missing_call_fails_witness :
  _syscall3 blank0 (fun _ => 0) (fun _ => mret 0) 74 1 2 3 sample_regs calm_sample (World [] []) =
    Ret (-1, Some EPERM) calm_sample (World [] []) /\
  _syscall3 blank0 (fun _ => 0) (fun _ => mret 0) 38 1 2 3 sample_regs calm_sample (World [] []) =
    Ret (-1, Some ENOSYS) calm_sample (World [] []).
Proof.
  apply (missing_call_fails blank0 (fun _ => 0) (fun _ => mret 0) 74 Sys_rename 1 2 3).
  - vm_compute. done.
  - unfold unimplemented. set_solver.
  - by vm_compute.
  - right. by vm_compute.
Defined.

(** The handler's mask is not kept from SIGKILL, as the scheduler's [_BLOCKABLE] is: in the
    handler of [signal_sample] a kill waits. *)
Lemma sigkill_blocked :
  match ret_from_sys_call 7 sample_regs signal_sample (World [] []) with
  | Ret r1 k1 w1 =>
      let k2 := upd_current (add_signal SIGKILL) k1 in
      match ret_from_sys_call 0 r1 k2 w1 with
      | Ret r2 k3 _ => (r_eip r2, Z.testbit (signal (cur k3)) 8) = (0x5000, true)
      | _ => False
      end
  | _ => False
  end.
Proof. by vm_compute. Qed.
