(* ===== verification/Traps.v ===== *)
(** Hardware faults: kernel/traps.c with the entries of kernel/asm.s, the page fault entry of
    mm/page.s, and kernel/math/math_emulate.c. *)
From Stdlib Require Import Btauto.
From S2P Require Import Prelude Sched Mm Kernel Fork Blk Buffer Inode Rw Super Fault Exit Syscall.

(** * The interrupt descriptor table *)

(** The routines that traps.c puts into it. *)
Inductive entry : Type :=
  | divide_error | debug | nmi | int3 | overflow | bounds | invalid_op | device_not_available
  | double_fault | coprocessor_segment_overrun | invalid_TSS | segment_not_present
  | stack_segment | general_protection | page_fault | reserved | coprocessor_error | irq13
  | parallel_interrupt.
#[global] Instance entry_eq : EqDecision entry.
Proof. solve_decision. Defined.

(** include/asm/system.h:35-44 [_set_gate]: the two halves of a descriptor of the kernel's
    code segment *)
Definition _set_gate (type dpl addr : Z) : desc_struct :=
  Desc (0x00080000 .| (addr .& 0xffff))
       ((addr .& 0xffff0000) .| ((0x8000 + (dpl .<< 13) + (type .<< 8)) .& 0xffff)).
(** include/asm/system.h:50-51 [set_trap_gate] *)
Definition trap_gate : Z -> desc_struct := _set_gate 15 0.
(** include/asm/system.h:53-54 [set_system_gate] *)
Definition system_gate : Z -> desc_struct := _set_gate 15 3.
(** What the processor reads from a descriptor: the offset, and the privilege from which
    [int] may raise it. *)
Definition gate_offset (d : desc_struct) : Z := (d_a d .& 0xffff) .| (d_b d .& 0xffff0000).
Definition gate_dpl (d : desc_struct) : Z := (d_b d .>> 13) .& 3.

Section gates.
(** Where the entries are linked. *)
Context (address : entry -> Z).
Definition trap (n : nat) (e : entry) : nat * desc_struct := (n, trap_gate (address e)).
Definition sys (n : nat) (e : entry) : nat * desc_struct := (n, system_gate (address e)).
(** kernel/traps.c:183-209 [trap_init]: the stores, in order *)
Definition trap_stores : list (nat * desc_struct) :=
  [trap 0 divide_error; trap 1 debug; trap 2 nmi; sys 3 int3; sys 4 overflow; sys 5 bounds;
   trap 6 invalid_op; trap 7 device_not_available; trap 8 double_fault;
   trap 9 coprocessor_segment_overrun; trap 10 invalid_TSS; trap 11 segment_not_present;
   trap 12 stack_segment; trap 13 general_protection; trap 14 page_fault; trap 15 reserved;
   trap 16 coprocessor_error] ++ ((fun i => trap i reserved) <$> seq 17 31) ++
  [trap 45 irq13; trap 39 parallel_interrupt].
(** kernel/traps.c:179-210 [trap_init]; the two stores to the interrupt controllers' masks
    are left out *)
Definition trap_init (idt : list desc_struct) : list desc_struct :=
  foldl (fun l '(n, d) => <[n := d]> l) idt trap_stores.
End gates.

(** * The handlers *)
Section traps.
Context `{SyncInodes} `{Devices} `{Drives}.
(** The [str] macro and [math_state_restore], which no file defines. *)
Context (task_register : K -> Z) (math_state_restore : M K unit).

(** kernel/traps.c:21-25 [get_seg_byte]: a selector of the local table is the user's *)
Definition get_seg_byte (seg addr : Z) (k : K) : Z :=
  if Z.testbit seg 2 then umem k addr else byte_at (mem (k_mm k)) addr.

(** kernel/traps.c:62-84 [die]: the stack words that [esp] points to are those of the frame *)
Definition die (str : string) (r : regs) (nr : Z) : M K unit :=
  printk (str ++ ": %04x") [nr .& 0xffff] ;;
  printk "EIP:%04x:%p EFLAGS:%p ESP:%04x:%p" [r_cs r; r_eip r; r_eflags r; r_ss r; r_esp r] ;;
  printk "fs: %04x" [0x10] ;;
  k ← get ;
  printk "base: %p, limit: %p" [get_base (ldt_of (cur k) 1); get_limit (ldt_of (cur k) 2)] ;;
  when (r_ss r =? 0x17)
    (for_each (seq 0 4) (fun i =>
       v ← get_fs_long (u32 (r_esp r + 4 * Z.of_nat i)) ; printk "%p " [v])) ;;
  printk "Pid: %d, process nr: %d" [pid (cur k); 0xffff .& task_register k] ;;
  for_each (seq 0 10) (fun i =>
    printk "%02x " [get_seg_byte (r_cs r) (u32 (r_eip r + Z.of_nat i)) k]) ;;
  do_exit 11.

(** kernel/traps.c:101-116 [do_int3]: it prints the registers and goes on; [esp] is where the
    frame is *)
Definition do_int3 (esp : Z) (r : regs) (eax tr : Z) : M K unit :=
  printk "eax ebx ecx edx %8x %8x %8x %8x" [eax; r_ebx r; r_ecx r; r_edx r] ;;
  printk "esi edi ebp esp %8x %8x %8x %8x" [r_esi r; r_edi r; r_ebp r; esp] ;;
  printk "ds es fs tr %4x %4x %4x %4x" [r_ds r; r_es r; r_fs r; tr] ;;
  printk "EIP: %8x   CS: %4x  EFLAGS: %8x" [r_eip r; r_cs r; r_eflags r].

(** kernel/traps.c:86-89 [do_double_fault] *)
Definition do_double_fault (r : regs) (error_code : Z) : M K unit := die "double fault" r error_code.
(** kernel/traps.c:91-94 [do_general_protection] *)
Definition do_general_protection (r : regs) (error_code : Z) : M K unit := die "general protection" r error_code.
(** kernel/traps.c:96-99 [do_divide_error] *)
Definition do_divide_error (r : regs) (error_code : Z) : M K unit := die "divide error" r error_code.
(** kernel/traps.c:118-121 [do_nmi] *)
Definition do_nmi (r : regs) (error_code : Z) : M K unit := die "nmi" r error_code.
(** kernel/traps.c:123-126 [do_debug] *)
Definition do_debug (r : regs) (error_code : Z) : M K unit := die "debug" r error_code.
(** kernel/traps.c:128-131 [do_overflow] *)
Definition do_overflow (r : regs) (error_code : Z) : M K unit := die "overflow" r error_code.
(** kernel/traps.c:133-136 [do_bounds] *)
Definition do_bounds (r : regs) (error_code : Z) : M K unit := die "bounds" r error_code.
(** kernel/traps.c:138-141 [do_invalid_op] *)
Definition do_invalid_op (r : regs) (error_code : Z) : M K unit := die "invalid operand" r error_code.
(** kernel/traps.c:143-146 [do_device_not_available] *)
Definition do_device_not_available (r : regs) (error_code : Z) : M K unit := die "device not available" r error_code.
(** kernel/traps.c:148-151 [do_coprocessor_segment_overrun] *)
Definition do_coprocessor_segment_overrun (r : regs) (error_code : Z) : M K unit := die "coprocessor segment overrun" r error_code.
(** kernel/traps.c:152-155 [do_invalid_TSS] *)
Definition do_invalid_TSS (r : regs) (error_code : Z) : M K unit := die "invalid TSS" r error_code.
(** kernel/traps.c:157-160 [do_segment_not_present] *)
Definition do_segment_not_present (r : regs) (error_code : Z) : M K unit := die "segment not present" r error_code.
(** kernel/traps.c:162-165 [do_stack_segment] *)
Definition do_stack_segment (r : regs) (error_code : Z) : M K unit := die "stack segment" r error_code.
(** kernel/traps.c:174-177 [do_reserved] *)
Definition do_reserved (r : regs) (error_code : Z) : M K unit := die "reserved (15,17-47) error" r error_code.
(** kernel/traps.c:167-172 [do_coprocessor_error] *)
Definition do_coprocessor_error (r : regs) (error_code : Z) : M K unit :=
  s ← gets k_sched ;
  if decide (last_task_used_math s = Some (current s)) then die "coprocessor error" r error_code
  else mret tt.

Definition or_signal (sig : Z) (t : task_struct) : task_struct :=
  t <| signal ::= fun g => g .| sig_bit sig |>.
(** include/signal.h:20-20 [SIGFPE] *)
Definition SIGFPE : Z := 8.
(** kernel/math/math_emulate.c:18-35 [math_emulate]: the two bytes at [eip] are skipped, and
    the task gets a signal *)
Definition math_emulate (r : regs) : M K regs :=
  if negb (u16 (r_cs r) =? 0x0f) then
    printk "math_emulate: %04x:%08x" [u16 (r_cs r); r_eip r] ;;
    panic "Math emulation needed in kernel"
  else
    first ← get_fs_byte (r_eip r) ;
    second ← get_fs_byte (u32 (r_eip r + 1)) ;
    printk "%04x:%08x %02x %02x" [u16 (r_cs r); r_eip r; first; second] ;;
    modify (upd_current (or_signal SIGFPE)) ;;
    mret (r <| r_eip := u32 (r_eip r + 2) |>).
(** kernel/math/math_emulate.c:37-42 [math_error] *)
Definition math_error : M K unit :=
  k ← get ;
  match last_task_used_math (k_sched k) with
  | Some i => modify (upd_slot i (or_signal SIGFPE))
  | None => mret tt
  end.

(** What the processor has beside the frame: [eax], the error code, the address that
    faulted, the emulation bit of [cr0], and where the frame is. *)
Record cause : Type := Cause {
  c_eax : Z; c_error : Z; c_cr2 : Z; c_em : bool; c_esp : Z;
}.

(** kernel/panic.c:18-26 [panic], as a routine: what is done before the loop for ever, for
    which the outcome [Panicked] stands everywhere else *)
Definition panic_stop (s : string) : M K unit :=
  printk ("Kernel panic: " +:+ s) [] ;;
  k ← get ;
  (if (current (k_sched k) =? 0)%nat then printk "In swapper task - not syncing" []
   else sys_sync ;; mret tt) ;;
  panic s.
(** mm/page.s:14-40 [page_fault]: the entry, with the error code and [cr2] *)
Definition page_fault_entry (error_code address : Z) : M K unit :=
  if Z.testbit error_code 0 then in_mm (do_wp_page error_code address)
  else do_no_page error_code address.

(** kernel/system_call.s:152-177 [device_not_available], kernel/system_call.s:135-149
    [coprocessor_error], kernel/asm.s:85-95 [irq13] and the rest of asm.s *)
Definition enter (e : entry) (c : cause) (r : regs) : M K regs :=
  match e with
  | debug | int3 => k ← get ; do_int3 (c_esp c) r (c_eax c) (task_register k) ;; mret r
  | device_not_available =>
      r ← (if c_em c then math_emulate r else math_state_restore ;; mret r) ;
      ret_from_sys_call (c_eax c) r
  | coprocessor_error | irq13 => math_error ;; ret_from_sys_call (c_eax c) r
  | page_fault => page_fault_entry (c_error c) (c_cr2 c) ;; mret r
  | parallel_interrupt => mret r
  | divide_error => do_divide_error r 0 ;; mret r
  | nmi => do_nmi r 0 ;; mret r
  | overflow => do_overflow r 0 ;; mret r
  | bounds => do_bounds r 0 ;; mret r
  | invalid_op => do_invalid_op r 0 ;; mret r
  | coprocessor_segment_overrun => do_coprocessor_segment_overrun r 0 ;; mret r
  | reserved => do_reserved r 0 ;; mret r
  | double_fault => do_double_fault r (c_error c) ;; mret r
  | invalid_TSS => do_invalid_TSS r (c_error c) ;; mret r
  | segment_not_present => do_segment_not_present r (c_error c) ;; mret r
  | stack_segment => do_stack_segment r (c_error c) ;; mret r
  | general_protection => do_general_protection r (c_error c) ;; mret r
  end.
End traps.

(** * Properties *)

(** ** Panic does not come back *)
Lemma panic_stop_stops `{SyncInodes} s k w : wlp (panic_stop s) (fun _ _ _ => False) k w.
Proof.
  unfold panic_stop. apply wlp_bind, wlp_bind, wlp_bind. unfold wlpx at 1. cbn.
  destruct (current (k_sched k) =? 0)%nat; [done|]. apply wlp_bind. unfold wlpx at 1.
  by destruct (sys_sync _ _).
Qed.

(** ** The descriptors *)
Lemma gate_offset_set type dpl addr : 0 <= addr < 4294967296 ->
  gate_offset (_set_gate type dpl addr) = addr.
Proof.
  intros Ha. unfold gate_offset, _set_gate. cbn [d_a d_b]. set (c := 0x8000 + _ + _).
  apply Z.bits_inj'. intros i Hi.
  rewrite !Z.lor_spec, !Z.land_spec, !Z.lor_spec, !Z.land_spec.
  change 0xffff0000 with (Z.shiftl (Z.ones 16) 16). change 0xffff with (Z.ones 16).
  change 0x00080000 with (2 ^ 19).
  rewrite Z.shiftl_spec, !Z.testbit_ones_nonneg, Z.pow2_bits_eqb by lia.
  destruct (Z.ltb_spec i 16).
  - rewrite (Z.testbit_neg_r (Z.ones 16)), (proj2 (Z.eqb_neq _ _)) by lia. cbn. btauto.
  - destruct (Z.ltb_spec i 32).
    + rewrite Z.testbit_ones_nonneg by lia. rewrite (proj2 (Z.ltb_lt _ _)) by lia. btauto.
    + rewrite Z.testbit_ones_nonneg by lia. rewrite (proj2 (Z.ltb_ge _ _)) by lia.
      assert (Hb : Z.testbit addr i = false) by
        (rewrite <- (Z.mod_small addr (2 ^ 32)) by lia; apply Z.mod_pow2_bits_high; lia).
      rewrite Hb.
      btauto.
Qed.
Lemma gate_dpl_set dpl addr : dpl ∈ [0; 3] -> gate_dpl (_set_gate 15 dpl addr) = dpl.
Proof.
  intros Hd. unfold gate_dpl, _set_gate. cbn [d_b].
  assert (H : (addr .& 0xffff0000) .>> 13 = ((addr .>> 16) .& 0xffff) .<< 3).
  { apply Z.bits_inj'. intros i Hi. rewrite Z.shiftr_spec, Z.land_spec by lia.
    rewrite Z.shiftl_spec by lia. change 0xffff0000 with (Z.shiftl (Z.ones 16) 16).
    rewrite Z.shiftl_spec by lia. destruct (Z.ltb_spec i 3).
    - rewrite (Z.testbit_neg_r (Z.ones 16)), (Z.testbit_neg_r (_ .& _)) by lia. btauto.
    - rewrite Z.land_spec, Z.shiftr_spec by lia. change 0xffff with (Z.ones 16). f_equal; f_equal; lia. }
  rewrite Z.shiftr_lor, H, Z.land_lor_distr_l.
  replace ((((addr .>> 16) .& 0xffff) .<< 3) .& 3) with 0.
  - repeat (apply elem_of_cons in Hd as [-> | Hd]; [done|]). by apply elem_of_nil in Hd.
  - symmetry. apply Z.bits_inj'. intros i Hi. rewrite Z.bits_0, Z.land_spec, Z.shiftl_spec by lia.
    change 3 with (Z.ones 2) at 2. rewrite Z.testbit_ones_nonneg by lia.
    destruct (Z.ltb_spec i 2); [|btauto]. rewrite Z.testbit_neg_r by lia. btauto.
Qed.

(** The last store to slot [n]. *)
Definition stored (n : nat) (l : list (nat * desc_struct)) (o : option desc_struct) : option desc_struct :=
  foldl (fun o '(m, d) => if decide (m = n) then Some d else o) o l.
Lemma foldl_insert_lookup n l : forall idt : list desc_struct,
  Forall (fun p => p.1 < length idt)%nat l ->
  foldl (fun t '(m, d) => <[m := d]> t) idt l !! n = stored n l (idt !! n).
Proof.
  induction l as [|[m d] l IH]; intros idt Hl; [done|]. apply Forall_cons in Hl as [Hm Hl]. simpl in *.
  rewrite IH by (by rewrite length_insert). destruct (decide (m = n)) as [-> | Hne].
  - by rewrite list_lookup_insert_eq by done.
  - by rewrite list_lookup_insert_ne by done.
Qed.

Lemma gate_levels n : (if decide (n ∈ [3; 4; 5]%nat) then 3 else 0) ∈ [0; 3].
Proof. case_decide; set_solver. Qed.

(** What Intel's numbering of the exceptions, the two interrupt controllers at 32 and 40 and
    the coprocessor's line ask for. *)
Definition vector (n : nat) : entry :=
  match n with
  | 0 => divide_error | 1 => debug | 2 => nmi | 3 => int3 | 4 => overflow | 5 => bounds
  | 6 => invalid_op | 7 => device_not_available | 8 => double_fault
  | 9 => coprocessor_segment_overrun | 10 => invalid_TSS | 11 => segment_not_present
  | 12 => stack_segment | 13 => general_protection | 14 => page_fault | 16 => coprocessor_error
  | 39 => parallel_interrupt | 45 => irq13 | _ => reserved
  end%nat.

(** C40. trap_init of kernel/traps.c over any table of at least 48 descriptors: each of the
    first 48 leads to the entry that its vector is for, only breakpoint, overflow and bounds
    can be raised by a program's [int], and no later descriptor changes. *)
Theorem trap_init_vectors (address : entry -> Z) idt n :
  (forall e, 0 <= address e < 4294967296) -> (48 <= length idt)%nat ->
  ((n < 48)%nat -> exists d, trap_init address idt !! n = Some d /\
     gate_offset d = address (vector n) /\ gate_dpl d = if decide (n ∈ [3; 4; 5]%nat) then 3 else 0) /\
  ((48 <= n)%nat -> trap_init address idt !! n = idt !! n).
Proof.
  intros Ha Hlen. unfold trap_init. rewrite foldl_insert_lookup.
  2: { eapply Forall_impl; [|intros p Hp; eapply Nat.lt_le_trans; [exact Hp|exact Hlen]].
       unfold trap_stores. cbn [fmap list_fmap seq app].
       repeat (apply Forall_cons_2; [apply Nat.ltb_lt; reflexivity|]). apply Forall_nil_2. }
  split; intros Hn.
  - do 48 (destruct n as [|n];
      [eexists; split; [reflexivity|]; split; [by apply gate_offset_set|by apply gate_dpl_set; set_solver]|]).
    lia.
  - do 48 (destruct n as [|n]; [lia|]). done.
Qed.
Lemma trap_init_vectors_witness : exists d,
  trap_init (fun _ => 0x7000) (repeat (Desc 0 0) 256) !! 45%nat = Some d /\
  gate_offset d = 0x7000 /\ gate_dpl d = 0.
Proof.
  apply (trap_init_vectors (fun _ => 0x7000) (repeat (Desc 0 0) 256) 45).
  - done.
  - rewrite repeat_length. lia.
  - lia.
Defined.

(** ** Faults end the task *)
Definition no_return {S A} (m : M S A) : Prop := forall s w a s' w', m s w <> Ret a s' w'.
Lemma no_return_bind {S A B} (m : M S A) (f : A -> M S B) :
  (forall a, no_return (f a)) -> no_return (m ≫= f).
Proof. intros Hf s w a s' w'. unfold mbind, M_bind. destruct (m s w); try done. apply Hf. Qed.
Lemma no_return_bind_l {S A B} (m : M S A) (f : A -> M S B) : no_return m -> no_return (m ≫= f).
Proof.
  intros Hm s w a s' w'. unfold mbind, M_bind. specialize (Hm s w). destruct (m s w); try done.
  by destruct (Hm a0 s0 w0).
Qed.
Lemma do_exit_no_return `{SyncInodes} {A} c : no_return (do_exit (A := A) c).
Proof. unfold do_exit. by repeat (apply no_return_bind; intros ?). Qed.

(** The entries that end in [die]. *)
Definition dies (e : entry) : bool :=
  match e with
  | debug | int3 | device_not_available | coprocessor_error | irq13 | page_fault
  | parallel_interrupt => false
  | _ => true
  end.
(** A fault that traps.c answers with [die], whatever the state and the frame, never goes
    back to the program that caused it: the entry does not return. *)
Theorem fault_ends_task `{SyncInodes} task_register math_state_restore e c r k w r' k' w' :
  dies e = true -> enter task_register math_state_restore e c r k w <> Ret r' k' w'.
Proof.
  intros He. revert k w r' k' w'. change (no_return (enter task_register math_state_restore e c r)).
  assert (Hd : forall str nr, no_return (die task_register str r nr ≫= fun _ => mret r)).
  { intros str nr. apply no_return_bind_l. unfold die.
    repeat first [apply do_exit_no_return | apply no_return_bind; intros ?]. }
  destruct e; try done; apply Hd.
Qed.
Lemma fault_ends_task_witness r' k' w' :
  @enter (mret tt) (fun _ => 0) (mret tt) general_protection (Cause 0 0 0 false 0) sample_regs
    signal_sample (World [] []) <> Ret r' k' w'.
Proof. apply (@fault_ends_task (mret tt)). done. Defined.
