(* ===== verification/Entry.v ===== *)
(** Every way into the kernel keeps the invariant of the cache: the system calls through
    their table, the clock interrupt, the hardware faults and the page fault. *)
From S2P Require Import Prelude Hd Setup Links Sched Mm Kernel Fork Strings Who Blk Buffer Bitmap Inode Fault Cache Getblk Rw Namei Dir Super Keep Open Exec Exit Sys KeepSys Syscall Traps.

#[local] Arguments replicate : simpl never.
#[local] Arguments repeat : simpl never.

Lemma kok_read_name nb n : forall a, preserves (kernel_ok nb) (read_name n a).
Proof. induction n as [|n IH]; intros a; simpl; kp. Qed.
#[local] Hint Resolve kok_read_name : preserves.
Lemma kok_sys_iam nb a : preserves (kernel_ok nb) (sys_iam a).
Proof. unfold sys_iam. kp. Qed.
Lemma kok_put_msg nb n m : forall a, preserves (kernel_ok nb) (put_msg n m a).
Proof. revert m. induction n as [|n IH]; intros [|c m] a; simpl; kp. Qed.
#[local] Hint Resolve kok_put_msg : preserves.
Lemma kok_sys_whoami nb a n : preserves (kernel_ok nb) (sys_whoami a n).
Proof. unfold sys_whoami. kp. Qed.

(** * The life of the kernel

    What happens to the kernel's state from its start on: a program stores into its own
    memory, the controller of a drive fills the buffer of a request or finishes one, and the
    processor enters the kernel.  Where an entry gives up the processor, other such steps
    happen; that they are nothing else is what the rules say of the world of the run. *)
Inductive kernel_entry : Type :=
  | SystemCall (eax : Z) (r : regs)
  | Clock (eax : Z) (r : regs)
  | Fault (e : entry) (c : cause) (r : regs).

(** The state that a run of the kernel leaves, when it returns to the user or has ended the
    task. *)
Definition left_in {A} (o : outcome K A) : option K :=
  match o with Ret _ k _ | Exited _ k => Some k | _ => None end.
Lemma preserves_left nb {A} (m : M K A) k w k' : preserves (kernel_ok nb) m -> kernel_ok nb k ->
  ok_script (kernel_ok nb) w -> left_in (m k w) = Some k' -> kernel_ok nb k'.
Proof.
  intros Hm Hk Hw E. specialize (Hm k w Hk Hw). unfold wlpx in Hm.
  destruct (m k w); try done; injection E as <-; [apply Hm|done].
Qed.
Section life.
Context `{SyncInodes} `{Devices} `{Drives} (blank : K -> Z -> Z) (junk : nat -> Z).
Context (sys_setup : Z -> M K Z) (task_register : K -> Z) (math_state_restore : M K unit).

Definition run_entry (e : kernel_entry) (k : K) (w : world K) : option K :=
  match e with
  | SystemCall eax r => left_in (system_call blank junk sys_setup eax r k w)
  | Clock eax r => left_in (timer_interrupt eax r k w)
  | Fault e c r => left_in (enter task_register math_state_restore e c r k w)
  end.
Inductive reach : K -> K -> Prop :=
  | reach_refl k : reach k k
  | reach_trans k1 k2 k3 : reach k1 k2 -> reach k2 k3 -> reach k1 k3
  | reach_user k m : (forall a, is_byte (m a)) -> reach k (k <| umem := m |>)
  | reach_data k bh l : Forall is_byte l -> reach k (upd_bh bh (fun b => b <| b_data := l |>) k)
  | reach_done k major uptodate w k' : script w = [] ->
      left_in (end_request major uptodate k w) = Some k' -> reach k k'
  | reach_entry e k w k' : (forall f, f ∈ script w -> forall s, reach s (f s)) ->
      run_entry e k w = Some k' -> reach k k'.
End life.

Section entry.
Context (nb : nat) `{HS : SyncKeeps nb} `{HT : DevicesKeep nb} `{HD : DrivesKeep nb}.
Context (blank : K -> Z -> Z) (Hblank : forall k a, is_byte (blank k a)) (junk : nat -> Z).
Context (sys_setup : Z -> M K Z) (Hsetup : forall b, preserves (kernel_ok nb) (sys_setup b)).
#[local] Abbreviation kok m := (preserves (kernel_ok nb) m).

Lemma kok_do_execve' cs a b c : kok (do_execve blank cs a b c).
Proof using HS Hblank. by apply kok_do_execve. Qed.
#[local] Hint Resolve kok_do_execve' kok_sys_exit kok_find_empty_process kok_copy_process
  kok_sys_read kok_sys_write kok_sys_open kok_sys_creat kok_sys_waitpid kok_sys_link kok_sys_unlink
  kok_sys_chdir kok_sys_time kok_sys_mknod kok_sys_chmod kok_sys_chown kok_sys_stat kok_sys_lseek
  kok_sys_mount kok_sys_umount kok_sys_stime kok_sys_fstat kok_sys_utime kok_sys_access
  kok_sys_kill kok_sys_mkdir kok_sys_rmdir kok_sys_dup kok_sys_pipe kok_sys_times kok_sys_brk
  kok_sys_signal kok_sys_ioctl kok_sys_fcntl kok_sys_setpgid kok_sys_uname kok_sys_umask
  kok_sys_chroot kok_sys_dup2 kok_sys_setsid kok_sys_sigaction kok_sys_ssetmask
  kok_sys_setreuid kok_sys_setregid kok_sys_iam kok_sys_whoami kok_do_signal
  kok_do_exit kok_do_no_page : preserves.

Lemma kok_sys_sync : kok sys_sync.
Proof using HS. unfold sys_sync, all_buffers. kp. Qed.
Lemma kok_ret_from_sys_call eax r : kok (ret_from_sys_call eax r).
Proof using HS. unfold ret_from_sys_call. kp. Qed.
#[local] Hint Resolve kok_sys_sync kok_ret_from_sys_call : preserves.
Lemma kok_call n r : kok (sys_fn blank junk sys_setup n r).
Proof using HS HT HD Hblank Hsetup.
  destruct n; unfold sys_fn, call3, call2, call1, call0; kp.
  all: unfold sys_fork, sys_execve, call0, Syscall.sys_pause, sys_setuid, sys_setgid, sys_sgetmask,
    sys_break, sys_ptrace, sys_stty, sys_gtty, sys_ftime, sys_rename, sys_prof, sys_acct, sys_phys,
    sys_lock, sys_mpx, sys_ulimit, sys_ustat, sys_getpgrp; kp.
Qed.
Lemma kok_dispatch eax r : kok (dispatch blank junk sys_setup eax r).
Proof using HS HT HD Hblank Hsetup.
  unfold dispatch, sys_call_table. rewrite list_lookup_fmap.
  destruct (table_order !! _) as [n|]; [apply kok_call|apply preserves_panic].
Qed.
#[local] Hint Resolve kok_dispatch : preserves.
Lemma kok_system_call eax r : kok (system_call blank junk sys_setup eax r).
Proof using HS HT HD Hblank Hsetup. unfold system_call. kp. Qed.
Lemma kok_timer_interrupt eax r : kok (timer_interrupt eax r).
Proof using HS. unfold timer_interrupt. kp. Qed.

Context (task_register : K -> Z) (math_state_restore : M K unit).
Context (Hmath : kok math_state_restore).
Lemma kok_die str r nr : kok (die task_register str r nr).
Proof using HS. unfold die. kp. Qed.
Lemma kok_do_int3 esp r eax tr : kok (do_int3 esp r eax tr).
Proof using. unfold do_int3. kp. Qed.
Lemma kok_math_emulate r : kok (math_emulate r).
Proof using. unfold math_emulate. kp. Qed.
Lemma kok_math_error : kok math_error.
Proof using. unfold math_error. kp. Qed.
#[local] Hint Resolve kok_die kok_do_int3 kok_math_emulate kok_math_error : preserves.
Lemma kok_enter e c r : kok (enter task_register math_state_restore e c r).
Proof using HS Hmath. 
  destruct e; unfold enter, page_fault_entry, do_divide_error, do_nmi, do_overflow, do_bounds, do_invalid_op,
    do_coprocessor_segment_overrun, do_reserved, do_double_fault, do_invalid_TSS,
    do_segment_not_present, do_stack_segment, do_general_protection; kp.
Qed.

Lemma run_entry_keeps e k w k' : kernel_ok nb k -> ok_script (kernel_ok nb) w ->
  run_entry blank junk sys_setup task_register math_state_restore e k w = Some k' -> kernel_ok nb k'.
Proof using HS HT HD Hblank Hsetup Hmath.
  intros Hk Hw. destruct e; simpl; apply preserves_left; try done;
    [apply kok_system_call|apply kok_timer_interrupt|apply kok_enter].
Qed.

(** C1. Nothing that happens after the start breaks the invariant of the kernel: whatever the
    programs store in their memory, call with whatever registers and in whatever order, take
    as faults, and however their runs are interleaved where the kernel sleeps, gives up the
    processor or ends them, the hash chains and the free list of the cache stay what they
    are meant to be, over the same buffers, with numbers of their width everywhere.  What is
    assumed of the kernel's surroundings (terminals, drives, [sys_setup]) is only that it
    keeps the invariant itself. *)
Theorem reach_keeps_kernel k k' :
  reach blank junk sys_setup task_register math_state_restore k k' ->
  kernel_ok nb k -> kernel_ok nb k'.
Proof using HS HT HD Hblank Hsetup Hmath.
  induction 1 as [|? ? ? _ IH1 _ IH2|k m Hm|k bh l Hl|k major u w k' Hw E|e k w k' Hs IHs E]; intros Hk.
  - done.
  - auto.
  - by apply keep_umem_const.
  - apply keep_bh; [done|by intros ? _|done].
  - eapply preserves_left; [apply kok_end_request|exact Hk| |exact E].
    unfold ok_script. rewrite Hw. by apply Forall_nil_2.
  - eapply run_entry_keeps; [exact Hk| |exact E].
    apply Forall_forall. intros f Hf s. by apply IHs.
Qed.
End entry.

(** ** A life of the sample cache: a program makes a call that is not
    there, a drive fills a buffer, the program stores into its memory *)
#[local] Instance sample_devices : Devices := {|
  tty_read _ _ _ := mret 0; tty_write _ _ _ := mret 0; tty_ioctl _ _ _ := mret 0; inb _ := mret 0 |}.
#[local] Instance sample_drives : Drives := {| floppy_change _ := mret 0; wait_for_keypress := mret tt |}.
Lemma sample_bytes n : Forall is_byte (repeat 7 n).
Proof. induction n; constructor; done. Qed.
Lemma sample_devices_keep nb : DevicesKeep nb.
Proof. split; intros; apply preserves_ret. Qed.
Lemma sample_drives_keep nb : DrivesKeep nb.
Proof. split; intros; apply preserves_ret. Qed.
(** [sys_setup] with the tables of a kernel that has just started. *)
Definition first_setup (b : Z) : M K Z :=
  r ← @Setup.sys_setup (sync_inodes_n 2) _ _ (HdTables 1 [] (repeat (HdPart 0 0) 10) 0) b ; mret r.1.
Lemma first_setup_keeps b : preserves (kernel_ok 3) (first_setup b).
Proof.
  apply preserves_bind; [|intros; apply preserves_ret].
  apply (@kok_sys_setup 3 (sync_inodes_n 2) (kok_sync_inodes_n 2 3) _ (sample_devices_keep 3)
    _ (sample_drives_keep 3)).
Qed.
Definition sample_life : K -> K -> Prop :=
  @reach (sync_inodes_n 2) _ _ (fun _ _ => 0) (fun _ => 0) first_setup (fun _ => 0) (mret tt).
Lemma reach_keeps_kernel_witness :
  let k1 := upd_bh 1 (fun b => b <| b_data := repeat 7 1024 |>) cache_sample in
  let k2 := k1 <| umem := fun _ => 5 |> in
  sample_life cache_sample k2 /\ kernel_ok 3 k2.
Proof.
  intros k1 k2. assert (H : sample_life cache_sample k2).
  { eapply reach_trans; [|apply reach_user; done].
    eapply reach_trans; [|apply reach_data; by apply sample_bytes].
    apply (reach_entry _ _ _ _ _ (SystemCall (-1) sample_regs) _ (World [] [])); [|done].
    intros f Hf. by apply elem_of_nil in Hf. }
  split; [exact H|].
  apply (@reach_keeps_kernel 3 (sync_inodes_n 2) (kok_sync_inodes_n 2 3) _ (sample_devices_keep 3)
    _ (sample_drives_keep 3) (fun _ _ => 0) ltac:(done) (fun _ => 0) first_setup first_setup_keeps (fun _ => 0) (mret tt) ltac:(apply preserves_ret) cache_sample);
    [exact H|apply cache_sample_ok].
Defined.
